(* ===== verification/_CoqProject ===== *)
-Q . S2P
Prelude.v
Wire.v
GoFmt.v
GoSlice.v
StunTypes.v
StunMessage.v
StunPacket.v
StunCodec.v
StunBuild.v
StunAttrs.v
StunAddr.v
Crypto.v
StunIntegrity.v
StunAgent.v
StunClient.v
StunDo.v
StunDoProps.v
StunProps.v
StunFindings.v
AgentProps.v
AgentMutex.v
IceCandidate.v
NetAddr.v
StunText.v
Turn.v
TurnProps.v
Fuzz.v
FuzzProps.v
Util.v
Utf8.v
Sdp.v
SdpProps.v
IceProps.v
SdpFields.v
SdpDecoder.v
IceChecklist.v
IceGather.v
IceSession.v
IceGatherProps.v
IceTransport.v
IceSessionInv.v
IceTransportProps.v
SdpDecoderProps.v
SdpRoundtrip.v
SdpTyped.v
SdpFindings.v
IceSetup.v
IceSessionProps.v
IceRetransmit.v
IceFindings.v
IceExchange.v
IceRoles.v
IceSelection.v
IceHarmony.v
IceSock.v
IceSockProps.v
IceNetwork.v
IceNetworkProps.v
TurnClient.v
TurnClientProps.v
Programs.v
IceExample.v
