(* ===== verification/Prelude.v ===== *)
(** * goice: STUN, TURN and ICE in Rocq

    This library models the Go packages [src/stun], [src/turn], [src/ice] and
    [src/sdp] and proves what makes them correct.  The definitions are shallow: a
    Go function is a Rocq function, a method that changes its receiver is a
    function in the state and error monad [ST] of this file, a panic is a value
    of its own ([Panic]), so that "does not panic" is a statement.

    ** The program

    [stun] encodes and decodes the messages.  A [Message] owns one array, [Raw];
    attribute values are slices of it, [Add] appends to it in place, the digest
    of MESSAGE-INTEGRITY and FINGERPRINT is taken over it while the message is
    being built, and [Decode] leaves the values where they lie.  On top of it are
    the attributes of STUN ([stun]), TURN ([turn]) and ICE ([ice/attr]), an agent
    that matches responses to transactions, and a client that couples the agent
    to a connection.

    [ice] gathers candidates ([gather.go], with a STUN or a TURN server through
    the client), writes them into a session description and reads the peer's
    ([icestreamtransport.go], [candidate.go], over [sdp]), pairs, orders and
    checks them ([checklist.go], [icesession.go]), and sends and receives through
    server sockets ([stunserversock.go]; [turnserversock.go] wraps one and relays
    through the TURN server).  The session is the callback of the sockets, the
    transport that of the session.  [sdp] holds the lines of a description
    ([sdp.go]) and a typed message with its encoder and decoder.

    ** The files

    - Foundations.  Prelude (this file): bytes, fixed width integers, the monad,
      list lemmas, tactics.  Wire: big endian integers ([encoding/binary]).
      GoFmt: decimal and hexadecimal text ([strconv], [fmt], [strings]).
      GoSlice: slices with capacity and aliasing; [GoRuntime] is the growth
      policy of [append], any policy that gives room.  Utf8: runes and white
      space ([unicode/utf8], [bytes]).  Crypto: SHA-1, MD5, HMAC, CRC-32,
      checked on published test vectors.
    - Messages.  StunTypes ([stun/message.go], [attributes.go], [errors.go]):
      types, names, the 14-bit type field.  StunMessage ([message.go]): the
      state and every operation.  StunPacket: the abstract packet, its wire
      format, the invariant [well_formed] that [Raw] is the wire format of the
      fields, and its preservation by every write.  StunCodec: the grammar
      [wire] and [Decode] as its decision procedure.  StunBuild
      ([helpers.go]): setters; the class [Implements] is the interface between
      a setter and the abstract step it performs, and [Build] refines the run
      of the steps.  StunText: messages and errors as text; reading an
      attribute again for [Message.String] can panic.
    - Attributes.  StunAttrs ([textattrs.go], [errorcode.go], [uattrs.go]) with
      the class [Codec], the contract of an attribute that can be added and
      read back; StunAddr ([addr.go], [xoraddr.go], [xor.go]); StunIntegrity
      ([integrity.go], [fingerprint.go]); Turn ([turn/*.go], [ice/attr/*.go]).
      Fuzz, FuzzProps: the fuzz targets ([stun/fuzz.go], [turn/fuzz.go]).
    - Transactions.  StunAgent ([agent.go]): operations on the table, and a step
      relation that interleaves operations and handler calls; AgentMutex: the
      operations as code with the mutex, run by goroutines whose handlers may
      call the agent; alone they do what the functions do; StunClient
      ([client.go]) against the class [ClientAgent]; StunDo, StunDoProps:
      [Client.Do] with its pooled handlers, as a step relation of all goroutines.
    - SDP.  Sdp ([sdp/sdp.go]): lines and the scanner, with SdpProps; SdpFields
      ([fields.go], [encoder.go]): the types and the encoder; SdpDecoder
      ([decoder.go]), with SdpDecoderProps (accepted lines, totality),
      SdpRoundtrip, SdpTyped (the types of what was decoded) and SdpFindings.
    - ICE.  IceCandidate ([ice/candidate.go]) with IceProps; NetAddr ([util.go]
      and what is used of [net]); Util ([utils/util.go]); IceChecklist
      ([checklist.go]); IceGather ([gather.go], [hostonlysock.go], [stunsock.go],
      [turnsock.go]) with IceGatherProps; IceTransport ([icestreamtransport.go])
      with IceTransportProps; IceSock ([stunserversock.go], [turnserversock.go])
      with IceSockProps.
    - The session, IceSession ([icesession.go]): heaps of candidates and checks,
      one definition per handler, the outside recorded as [events], and a
      function for runs of the loop.  IceSessionInv: what every handler keeps.
      IceSetup: the check list.  IceSessionProps: whole runs and
      authentication.  IceRetransmit: the goroutine of a check.  IceSelection: the
      selected pair.  IceExchange: a whole check between two sessions.
      IceRoles: role conflicts and the error response to them.
      IceFindings: what the code does against RFC 5245.
    - The composition.  IceNetwork puts a transport, its session and its sockets
      together into an agent, and two agents into a network that loses, delays,
      reorders and repeats packets; an action is one atomic thing that happens,
      and a schedule of actions can be run.  IceHarmony: what a session says to a
      peer whose credentials it has; IceNetworkProps: what follows for every
      reachable state of the network, from the calls that set the agents up.
    - The programs.  TurnClient ([turn/cmd/turn-client]) with TurnClientProps;
      IceExample ([ice/example]), against the class [World] of what runs its
      transports, with the network as an instance; Programs (the STUN client,
      the gatherer, the SDP examples).
    - Other properties: StunProps, StunFindings, AgentProps, TurnProps.

    ** What the theorems show

    - [Decode] accepts exactly the wire format and yields the one packet on it
      ([Decode_correct]); it panics in two cases only ([Decode_panics]).
      [Build] refines the run of abstract steps from any previous state and under
      any growth policy ([Build_refines]); [Add] writes exactly the TLV
      ([Add_appends]); what is packed is unpacked, for every [Codec]
      ([attribute_transfer], [ChannelData_transfer]); the type field is a
      bijection.
    - [MessageIntegrity.Check] compares with the keyed digest of the bytes before
      the attribute; a protected message that arrives unchanged is accepted;
      FINGERPRINT detects any changed byte.
    - The agent calls every accepted handler exactly once, under every
      interleaving.  Its mutex protects the table, and only a handler that calls
      the agent while [Close] calls it deadlocks it, for good
      ([Close_alone_deadlocks]); [Process] panics if [Close] clears the zero
      handler under it ([Process_panics_while_closing]).  As long as no write
      fails, [Client.Do] calls its callback once, with the event of its own
      transaction.
    - A check between two agents with exchanged credentials and opposite roles
      succeeds ([connectivity_check_succeeds]): what one builds, the other
      decodes, authenticates, admits and answers, and the answer is accepted.
    - Two agents that were given each other's descriptions and opposite roles keep
      their roles on every network that forges nothing, and never answer with an
      error ([roles_never_conflict]).
    - The ICE example reports completion only after both sides negotiated and got
      the other's data ([example_sound]), and a schedule completes it; against a
      conforming server the TURN client runs to its end with the packets of the
      protocol ([client_completes]).
    - A session: the result and the states of checks only advance; the selected
      pair is the best valid one; requests without the right credentials change
      nothing; of two agents in one role the one with the smaller tie breaker gives
      it up and the other sends the error response ([role_conflict_resolved]); the
      check list is sorted, free of
      duplicates and covers every pair; an unanswered check gives up in time.
    - An offer is read back by the peer with the same candidates and credentials,
      which the random ones of [InitIce] allow ([random_credentials_word]);
      the result is reported once.
    - The sockets: relaying wraps and unwraps a message unchanged, unwrapping
      ends, retransmitted requests get the cached response.
    - SDP: the scanner agrees with the list of non-blank lines; the decoder ends
      and panics in two cases only ([Decode_total]); what the encoder writes of a
      [plain_message] is decoded to the same message; decoded messages are well typed and encode
      again; the lines accepted at each position have a closed form.
    - Where the code does something else than it says, a theorem states what it
      does: StunFindings, IceFindings, SdpFindings, [late_response_blocks],
      [stray_datagrams_panic], [second_Stop_panics], [failed_write_misdirects],
      [short_address_panics].

    ** Bounds and fuel

    [decode_loop] has the attribute size as fuel and consumes at least four
    bytes a round; [Decode_correct] shows that it never runs out.  [grow_loop]
    needs one round per byte at most; [grow_buffer_spec] shows that its fuel is
    enough.  [turn_serve] unwraps with the length of the datagram and two as
    fuel, each relayed message is shorter than the one around it
    ([unwrapping_terminates]).  The loops of the SDP decoder have the number of
    lines and one, since [next] moves on ([Decode_total]); [isExpected] recurses
    through at most the three sections; the scanners have the length of their
    text ([DecodeSession_reference]).  Digits of a number are bounded by its
    binary length or by twenty; base 32 by the length of the bytes.

    ** What is not modelled

    The operating system's sockets and files: what a read returns is an argument,
    what is written is recorded.  The goroutines of the ICE session are
    interleaved at the grain of messages of its loop and rounds of a check, those
    of the client at the grain of atomic actions; races on memory shared without
    a mutex are not, but for the agent's [zeroHandler].  Logging, but for texts whose making can panic.  Random
    bytes, the growth of slices, the order of map iteration, the answers of a
    connection and the results of unstable sorts are arguments, classes or
    nondeterministic choices; so are the libraries that [utils/util.go] and the
    commands hand their arguments to, the flags of the commands and whether the
    logger's [Crit] returns.  The network between the agents has no NAT and no
    TURN server. *)
From Stdlib Require Import ZArith Lia String.
From Stdlib Require Strings.Byte.
From stdpp Require Import base option list numbers countable gmap.

Open Scope Z_scope.

#[export] Set Warnings "-clear-no-such-hyp".

(** * Bytes *)

Abbreviation byte := Byte.byte.
Abbreviation bytes := (list byte).

#[export] Instance byte_eq_decision : EqDecision byte := Byte.byte_eq_dec.

#[export] Program Instance byte_countable : Countable byte :=
  inj_countable Byte.to_N Byte.of_N _.
Next Obligation. intros b. apply Byte.of_to_N. Qed.

(** The value of a byte, and the conversion [byte(z)] of Go, which truncates. *)
Definition bz (b : byte) : Z := Z.of_N (Byte.to_N b).
Definition zb (z : Z) : byte :=
  match Byte.of_N (Z.to_N (z mod 256)) with Some b => b | None => Byte.x00 end.

(** A Go string literal as its bytes. *)
Definition bs (s : string) : bytes := String.list_byte_of_string s.

(** Conversions to the fixed-width unsigned integers of Go. *)
Definition u8 (z : Z) : Z := z mod 2 ^ 8.
Definition u16 (z : Z) : Z := z mod 2 ^ 16.
Definition u32 (z : Z) : Z := z mod 2 ^ 32.
Definition u64 (z : Z) : Z := z mod 2 ^ 64.

(** Conversions to the signed ones (two's complement). *)
Definition i32 (z : Z) : Z := (z + 2 ^ 31) mod 2 ^ 32 - 2 ^ 31.
Definition i64 (z : Z) : Z := (z + 2 ^ 63) mod 2 ^ 64 - 2 ^ 63.

Lemma bz_range b : 0 <= bz b < 256.
Proof.
  unfold bz. pose proof (Byte.to_N_bounded b). lia.
Qed.

Lemma of_N_is_Some n : (n < 256)%N -> is_Some (Byte.of_N n).
Proof.
  intros Hn. destruct (Byte.of_N n) eqn:E; [done|].
  apply Byte.of_N_None_iff in E. lia.
Qed.

Lemma bz_zb z : bz (zb z) = z mod 256.
Proof.
  unfold zb, bz. pose proof (Z.mod_pos_bound z 256 ltac:(lia)) as Hr.
  destruct (of_N_is_Some (Z.to_N (z mod 256))) as [b Hb]; [lia|].
  rewrite Hb. apply Byte.to_of_N in Hb. rewrite Hb. lia.
Qed.

Lemma bz_inj b c : bz b = bz c -> b = c.
Proof.
  unfold bz. intros H. apply N2Z.inj in H.
  pose proof (Byte.of_to_N b) as Hb. rewrite H, Byte.of_to_N in Hb. congruence.
Qed.

Lemma zb_bz b : zb (bz b) = b.
Proof. apply bz_inj. rewrite bz_zb. apply Z.mod_small, bz_range. Qed.

Lemma bz_zb_small z : 0 <= z < 256 -> bz (zb z) = z.
Proof. intros. rewrite bz_zb. by apply Z.mod_small. Qed.

(** Exclusive or of bytes. *)
Definition bxor (a b : byte) : byte := zb (Z.lxor (bz a) (bz b)).

Lemma bxor_nilpotent a b : bxor (bxor a b) b = a.
Proof.
  apply bz_inj. unfold bxor. rewrite !bz_zb.
  pose proof (bz_range a). pose proof (bz_range b).
  rewrite (Z.mod_small (Z.lxor (bz a) (bz b))).
  - rewrite Z.lxor_assoc, Z.lxor_nilpotent, Z.lxor_0_r. by apply Z.mod_small.
  - assert (0 <= Z.lxor (bz a) (bz b)) by (apply Z.lxor_nonneg; lia).
    split; [done|].
    destruct (Z.eq_dec (Z.lxor (bz a) (bz b)) 0) as [->|]; [lia|].
    apply (Z.log2_lt_pow2 _ 8); [lia|].
    pose proof (Z.log2_lxor (bz a) (bz b) ltac:(lia) ltac:(lia)).
    assert (forall x, 0 <= x < 256 -> Z.log2 x < 8) as Hl.
    { intros x Hx. destruct (Z.eq_dec x 0) as [->|]; [done|].
      apply Z.log2_lt_pow2; lia. }
    pose proof (Hl (bz a) ltac:(lia)). pose proof (Hl (bz b) ltac:(lia)). lia.
Qed.

(** * Results

    A Go call returns a value, returns a non-nil error, or panics.  [E] is the
    type of the errors of a package. *)
Inductive panic : Type :=
| IndexOutOfRange
| SliceOutOfRange
| NilDereference
| PanicCall (msg : bytes)
| OutOfFuel.

Inductive result (E A : Type) : Type :=
| Ok (a : A)
| Err (e : E)
| Panic (p : panic).
Arguments Ok {E A} a.
Arguments Err {E A} e.
Arguments Panic {E A} p.

#[export] Instance panic_eq_decision : EqDecision panic.
Proof. solve_decision. Defined.
#[export] Instance result_eq_decision {E A} `{EqDecision E, EqDecision A} :
  EqDecision (result E A).
Proof. solve_decision. Defined.

Definition result_bind {E A B} (f : A -> result E B) (r : result E A) : result E B :=
  match r with Ok a => f a | Err e => Err e | Panic p => Panic p end.
#[export] Instance result_mret {E} : MRet (result E) := fun _ a => Ok a.
#[export] Instance result_mbind {E} : MBind (result E) :=
  fun _ _ f r => result_bind f r.

Definition is_ok {E A} (r : result E A) : bool :=
  match r with Ok _ => true | _ => false end.
Definition is_panic {E A} (r : result E A) : bool :=
  match r with Panic _ => true | _ => false end.

(** ** Stateful calls

    A method with a pointer receiver reads and writes its receiver and returns
    a result; the writes made before an error or a panic stay. *)
Definition ST (S E A : Type) : Type := S -> S * result E A.

Definition st_ret {S E A} (a : A) : ST S E A := fun s => (s, Ok a).
Definition st_err {S E A} (e : E) : ST S E A := fun s => (s, Err e).
Definition st_panic {S E A} (p : panic) : ST S E A := fun s => (s, Panic p).
Definition st_bind {S E A B} (m : ST S E A) (f : A -> ST S E B) : ST S E B :=
  fun s => match m s with
           | (s', Ok a) => f a s'
           | (s', Err e) => (s', Err e)
           | (s', Panic p) => (s', Panic p)
           end.
Definition st_get {S E} : ST S E S := fun s => (s, Ok s).
Definition st_modify {S E} (f : S -> S) : ST S E unit := fun s => (f s, Ok tt).
Definition st_lift {S E A} (r : result E A) : ST S E A := fun s => (s, r).

Declare Scope go_scope.
Delimit Scope go_scope with go.
Notation "'let!' x ':=' m 'in' k" := (st_bind m (fun x => k))
  (at level 10, x binder, m at level 100, k at level 200,
   format "'[v' 'let!'  x  ':='  m  'in' '/' k ']'") : go_scope.
Notation "m ';;;' k" := (st_bind m (fun _ => k))
  (at level 199, right associativity, format "'[v' m ';;;' '/' k ']'") : go_scope.
Open Scope go_scope.

Lemma st_bind_ok {S E A B} (m : ST S E A) (f : A -> ST S E B) s s' r :
  st_bind m f s = (s', Ok r) <->
  exists a s1, m s = (s1, Ok a) /\ f a s1 = (s', Ok r).
Proof.
  unfold st_bind. destruct (m s) as [s1 [a|e|p]]; split; intros H.
  - by exists a, s1.
  - destruct H as (a' & s1' & [= -> ->] & H). done.
  - done.
  - by destruct H as (? & ? & ? & ?).
  - done.
  - by destruct H as (? & ? & ? & ?).
Qed.

(** ** Relations that calls keep

    [keeps R c]: whatever [c] returns, the state before and the state after are
    related.  The rules follow the structure of the monad; the lemmas about the
    operations of a component are hints of the database [keeps]. *)
Section Keeps.
Context {S E : Type}.

Definition keeps (R : S -> S -> Prop) {A} (c : ST S E A) : Prop := forall s, R s (c s).1.

Lemma keeps_ret {R} `{!PreOrder R} {A} (a : A) : keeps R (st_ret a).
Proof. by intros s. Qed.
Lemma keeps_err {R} `{!PreOrder R} {A} e : keeps R (A := A) (st_err e).
Proof. by intros s. Qed.
Lemma keeps_panic {R} `{!PreOrder R} {A} p : keeps R (A := A) (st_panic p).
Proof. by intros s. Qed.
Lemma keeps_get {R} `{!PreOrder R} : keeps R st_get.
Proof. by intros s. Qed.
Lemma keeps_lift {R} `{!PreOrder R} {A} (r : result E A) : keeps R (st_lift r).
Proof. by intros s. Qed.
Lemma keeps_modify {R} `{!PreOrder R} f : (forall s, R s (f s)) -> keeps R (st_modify f).
Proof. intros Hf s. apply Hf. Qed.
Lemma keeps_bind {R} `{!PreOrder R} {A B} (c : ST S E A) (k : A -> ST S E B) :
  keeps R c -> (forall a, keeps R (k a)) -> keeps R (st_bind c k).
Proof.
  intros Hc Hk s. unfold st_bind. specialize (Hc s).
  destruct (c s) as [s' [a|e|p]]; [|done..]. etrans; [done|apply Hk].
Qed.

(** Reading the state first: what follows may use what was read. *)
Lemma keeps_get_bind {R} `{!PreOrder R} {B} (k : S -> ST S E B) :
  (forall s, R s (k s s).1) -> keeps R (let! s := st_get in k s).
Proof. intros Hk s. apply Hk. Qed.
End Keeps.

Lemma keeps_mono {S E A} (R R' : S -> S -> Prop) (c : ST S E A) :
  (forall s s', R s s' -> R' s s') -> keeps R c -> keeps R' c.
Proof. intros HR Hc s. apply HR, Hc. Qed.

Create HintDb keeps discriminated.
#[export] Hint Resolve keeps_ret keeps_err keeps_panic keeps_get keeps_lift : keeps.

(** Walks through a call; what is left are the steps without a hint. *)
Ltac keeps_walk :=
  repeat first
    [ progress (intros; cbv beta zeta)
    | solve [eauto 2 with keeps typeclass_instances]
    | apply keeps_bind
    | match goal with
      | |- keeps _ (match ?x with _ => _ end) => destruct x
      | |- keeps _ (let '(_, _) := ?x in _) => destruct x
      end ].

(** ** Calls that keep an invariant

    [obeys I c Q]: the call [c] keeps [I], and a value that it returns has [Q]. *)
Section Obeys.
Context {S E : Type} (I : S -> Prop).

Definition obeys {A} (c : ST S E A) (Q : A -> Prop) : Prop :=
  forall s, I s -> I (c s).1 /\ (forall a, (c s).2 = Ok a -> Q a).
Definition any {A} (_ : A) : Prop := True.

Lemma obeys_keeps {R : S -> S -> Prop} {A} (c : ST S E A) :
  (forall s s', R s s' -> I s -> I s') -> keeps R c -> obeys c any.
Proof. intros HR Hc s Hs. split; [exact (HR _ _ (Hc s) Hs)|by intros]. Qed.
Lemma obeys_ret {A} (a : A) (Q : A -> Prop) : Q a -> obeys (st_ret a) Q.
Proof. intros Ha s Hs. split; [done|]. by intros ? [= <-]. Qed.
Lemma obeys_err {A} e (Q : A -> Prop) : obeys (st_err e) Q.
Proof. intros s Hs. by split. Qed.
Lemma obeys_panic {A} p (Q : A -> Prop) : obeys (st_panic p) Q.
Proof. intros s Hs. by split. Qed.
Lemma obeys_modify f : (forall s, I s -> I (f s)) -> obeys (st_modify f) any.
Proof. intros Hf s Hs. split; [by apply Hf|by intros]. Qed.
Lemma obeys_bind {A B} (c : ST S E A) (f : A -> ST S E B) P Q :
  obeys c P -> (forall a, P a -> obeys (f a) Q) -> obeys (st_bind c f) Q.
Proof.
  intros Hc Hf s Hs. destruct (Hc s Hs) as [Hs' Hr]. unfold st_bind.
  destruct (c s) as [s' [a|e|p]]; cbn in *; [|by split..]. apply Hf; auto.
Qed.
Lemma obeys_then {A B} (c : ST S E A) (f : A -> ST S E B) Q :
  obeys c any -> (forall a, obeys (f a) Q) -> obeys (st_bind c f) Q.
Proof. intros Hc Hf. apply (obeys_bind c f any); auto. Qed.
Lemma obeys_read {B} (f : S -> ST S E B) Q :
  (forall s, I s -> obeys (f s) Q) -> obeys (let! s := st_get in f s) Q.
Proof. intros Hf s Hs. by apply (Hf s Hs s). Qed.
End Obeys.

(** * Tactics *)

(** Decide the boolean test or decision that blocks the goal, keeping its equation. *)
Ltac dcase :=
  match goal with
  | |- context [if ?b then _ else _] =>
      lazymatch type of b with
      | bool => let E := fresh "E" in destruct b eqn:E
      | _ => case_decide
      end
  | |- context [match ?x with _ => _ end] => let E := fresh "E" in destruct x eqn:E
  end.

Ltac bool_hyps :=
  repeat match goal with
  | H : _ && _ = true |- _ => apply andb_true_iff in H; destruct H
  | H : _ && _ = false |- _ => apply andb_false_iff in H
  | H : _ || _ = false |- _ => apply orb_false_iff in H; destruct H
  | H : negb _ = true |- _ => apply negb_true_iff in H
  | H : negb _ = false |- _ => apply negb_false_iff in H
  | H : (_ =? _)%nat = true |- _ => apply Nat.eqb_eq in H
  | H : (_ =? _)%nat = false |- _ => apply Nat.eqb_neq in H
  | H : (_ <? _)%nat = true |- _ => apply Nat.ltb_lt in H
  | H : (_ <? _)%nat = false |- _ => apply Nat.ltb_ge in H
  | H : (_ <=? _)%nat = true |- _ => apply Nat.leb_le in H
  | H : (_ <=? _)%nat = false |- _ => apply Nat.leb_gt in H
  | H : (_ =? _) = true |- _ => apply Z.eqb_eq in H
  | H : (_ =? _) = false |- _ => apply Z.eqb_neq in H
  | H : (_ <? _) = true |- _ => apply Z.ltb_lt in H
  | H : (_ <? _) = false |- _ => apply Z.ltb_ge in H
  | H : (_ <=? _) = true |- _ => apply Z.leb_le in H
  | H : (_ <=? _) = false |- _ => apply Z.leb_gt in H
  | H : bool_decide _ = true |- _ => apply bool_decide_eq_true in H
  | H : bool_decide _ = false |- _ => apply bool_decide_eq_false in H
  end.

(** * Lists *)

Section Lists.
Context {A : Type}.
Implicit Types l k : list A.

(** [copy(dst[i:], src)] when the copied range lies within [dst]: overwrite
    the elements of [l] from index [i] on by [k]. *)
Definition splice (i : nat) k l : list A :=
  take i l ++ k ++ drop (i + length k) l.

Lemma splice_nil i l : splice i [] l = l.
Proof. unfold splice. cbn. by rewrite Nat.add_0_r, take_drop. Qed.

Lemma splice_length i k l :
  (i + length k <= length l)%nat -> length (splice i k l) = length l.
Proof. intros. unfold splice. rewrite !length_app, length_take, length_drop. lia. Qed.

Lemma take_splice_before n i k l :
  (n <= i)%nat -> (i <= length l)%nat -> take n (splice i k l) = take n l.
Proof.
  intros. unfold splice. rewrite take_app_le by (rewrite length_take; lia).
  rewrite take_take. f_equal. lia.
Qed.

Lemma take_splice_within n i k l :
  (i + length k <= n)%nat -> (i <= length l)%nat ->
  take n (splice i k l) = splice i k (take n l).
Proof.
  intros. unfold splice. rewrite take_take, Nat.min_l by lia.
  rewrite skipn_firstn_comm. rewrite !take_app, !take_take, length_take, !(Nat.min_l i) by lia.
  rewrite (Nat.min_r n i), (take_ge k) by lia. do 3 f_equal. lia.
Qed.

Lemma drop_splice_after n i k l :
  (i + length k <= n)%nat -> (i + length k <= length l)%nat ->
  drop n (splice i k l) = drop n l.
Proof.
  intros. unfold splice. rewrite app_assoc.
  rewrite drop_app_ge by (rewrite length_app, length_take; lia).
  rewrite length_app, length_take, drop_drop. f_equal. lia.
Qed.

Lemma splice_app_mid l1 l2 l3 k :
  length k = length l2 -> splice (length l1) k (l1 ++ l2 ++ l3) = l1 ++ k ++ l3.
Proof.
  intros Hk. unfold splice. rewrite take_app_length, Hk. do 2 f_equal.
  rewrite app_assoc, drop_app_length'; [done|]. by rewrite length_app.
Qed.

Lemma subslice_splice i k l :
  (i + length k <= length l)%nat -> take (length k) (drop i (splice i k l)) = k.
Proof.
  intros. unfold splice. rewrite drop_app_length' by (rewrite length_take; lia).
  by rewrite take_app_length.
Qed.

Lemma take_agree n m l k : (n <= m)%nat -> take m l = take m k -> take n l = take n k.
Proof.
  intros Hnm Heq. apply (f_equal (take n)) in Heq. by rewrite !take_take, !Nat.min_l in Heq.
Qed.

Lemma take_drop_split (n m : nat) l :
  (n <= m)%nat -> take m l = take n l ++ take (m - n) (drop n l).
Proof.
  intros. rewrite <- (take_drop n (take m l)) at 1.
  rewrite take_take, Nat.min_l by lia. f_equal. by rewrite skipn_firstn_comm.
Qed.
End Lists.
