(* ===== verification/Wire.v ===== *)
(** Big-endian integers on the wire, as [encoding/binary.BigEndian] writes and
    reads them (the variable [bin] of the stun and turn packages), and the
    padded length of an attribute.  Reads take the bytes at the start of the
    slice, which the callers have bounds-checked. *)
From stdpp Require Import base list sets.
From Stdlib Require Import ZArith Lia.
From S2P Require Import Prelude.
Open Scope Z_scope.

Definition put16 (v : Z) : bytes := [zb (Z.shiftr v 8); zb v].
Definition put32 (v : Z) : bytes :=
  [zb (Z.shiftr v 24); zb (Z.shiftr v 16); zb (Z.shiftr v 8); zb v].
Definition put64 (v : Z) : bytes := put32 (Z.shiftr v 32) ++ put32 v.

Definition get16 (b : bytes) : Z :=
  match b with
  | b0 :: b1 :: _ => Z.lor (bz b1) (Z.shiftl (bz b0) 8)
  | _ => 0
  end.
Definition get32 (b : bytes) : Z :=
  match b with
  | b0 :: b1 :: b2 :: b3 :: _ =>
      Z.lor (Z.lor (Z.lor (bz b3) (Z.shiftl (bz b2) 8)) (Z.shiftl (bz b1) 16))
            (Z.shiftl (bz b0) 24)
  | _ => 0
  end.
Definition get64 (b : bytes) : Z :=
  Z.lor (get32 (drop 4 b)) (Z.shiftl (get32 b) 32).

(** ** Disjoint bits *)

Lemma lor_shiftl_add a b k : 0 <= k -> 0 <= a < 2 ^ k -> Z.lor a (Z.shiftl b k) = a + b * 2 ^ k.
Proof.
  intros Hk Ha. rewrite Z.shiftl_mul_pow2 by lia.
  rewrite <- Z.lxor_lor, Z.add_nocarry_lxor; [done|..].
  all: apply Z.bits_inj'; intros n Hn; rewrite Z.land_spec, Z.bits_0.
  all: destruct (decide (n < k)).
  all: try (rewrite Z.mul_pow2_bits_low by lia; by rewrite andb_false_r).
  all: rewrite <- (Z.mod_small a (2 ^ k)) by lia.
  all: by rewrite Z.mod_pow2_bits_high by lia.
Qed.

Lemma get16_eq b0 b1 r : get16 (b0 :: b1 :: r) = bz b1 + bz b0 * 256.
Proof. cbn. pose proof (bz_range b1). by rewrite lor_shiftl_add by lia. Qed.

Lemma get32_eq b0 b1 b2 b3 r :
  get32 (b0 :: b1 :: b2 :: b3 :: r) =
  bz b3 + bz b2 * 2 ^ 8 + bz b1 * 2 ^ 16 + bz b0 * 2 ^ 24.
Proof.
  cbn [get32]. pose proof (bz_range b1). pose proof (bz_range b2). pose proof (bz_range b3).
  rewrite (lor_shiftl_add (bz b3)) by lia.
  rewrite (lor_shiftl_add _ (bz b1)) by lia.
  by rewrite lor_shiftl_add by lia.
Qed.

Lemma get16_range b : 0 <= get16 b < 2 ^ 16.
Proof.
  destruct b as [|b0 [|b1 b]]; [done|done|]. rewrite get16_eq.
  pose proof (bz_range b0). pose proof (bz_range b1). lia.
Qed.

Lemma get32_range b : 0 <= get32 b < 2 ^ 32.
Proof.
  destruct b as [|b0 [|b1 [|b2 [|b3 b]]]]; try done. rewrite get32_eq.
  pose proof (bz_range b0). pose proof (bz_range b1).
  pose proof (bz_range b2). pose proof (bz_range b3). lia.
Qed.

Lemma get16_put16_app v r : get16 (put16 v ++ r) = u16 v.
Proof.
  unfold put16, u16. cbn [app]. rewrite get16_eq, !bz_zb, Z.shiftr_div_pow2 by lia.
  change (2 ^ 16) with (2 ^ 8 * 256). change (2 ^ 8) with 256.
  Z.div_mod_to_equations. lia.
Qed.

Lemma get16_put16 v : get16 (put16 v) = u16 v.
Proof. rewrite <- (app_nil_r (put16 v)). apply get16_put16_app. Qed.

Lemma get32_put32_app v r : get32 (put32 v ++ r) = u32 v.
Proof.
  unfold put32, u32. cbn [app]. rewrite get32_eq, !bz_zb, !Z.shiftr_div_pow2 by lia.
  change (2 ^ 32) with 4294967296. change (2 ^ 24) with 16777216.
  change (2 ^ 16) with 65536. change (2 ^ 8) with 256.
  Z.div_mod_to_equations. lia.
Qed.

Lemma get32_put32 v : get32 (put32 v) = u32 v.
Proof. rewrite <- (app_nil_r (put32 v)). apply get32_put32_app. Qed.

Lemma get64_put64 v : get64 (put64 v) = u64 v.
Proof.
  unfold get64, put64. rewrite drop_app_length' by done.
  rewrite get32_put32, get32_put32_app. rewrite lor_shiftl_add; [|lia|apply Z.mod_pos_bound; lia].
  rewrite Z.shiftr_div_pow2 by lia. unfold u32, u64.
  change (2 ^ 64) with (2 ^ 32 * 2 ^ 32). change (2 ^ 32) with 4294967296.
  Z.div_mod_to_equations. lia.
Qed.

Lemma put16_get16 b0 b1 r : put16 (get16 (b0 :: b1 :: r)) = [b0; b1].
Proof.
  rewrite get16_eq. pose proof (bz_range b0). pose proof (bz_range b1).
  unfold put16. f_equal; [|f_equal]; apply bz_inj; rewrite bz_zb, ?Z.shiftr_div_pow2 by lia.
  - change (2 ^ 8) with 256. Z.div_mod_to_equations. lia.
  - Z.div_mod_to_equations. lia.
Qed.

Lemma put32_get32 b0 b1 b2 b3 r : put32 (get32 (b0 :: b1 :: b2 :: b3 :: r)) = [b0; b1; b2; b3].
Proof.
  rewrite get32_eq. pose proof (bz_range b0). pose proof (bz_range b1).
  pose proof (bz_range b2). pose proof (bz_range b3).
  change (2 ^ 24) with 16777216. change (2 ^ 16) with 65536. change (2 ^ 8) with 256.
  unfold put32. repeat f_equal; apply bz_inj; rewrite bz_zb, ?Z.shiftr_div_pow2 by lia.
  all: change (2 ^ 24) with 16777216; change (2 ^ 16) with 65536; change (2 ^ 8) with 256.
  all: Z.div_mod_to_equations; lia.
Qed.

Lemma put16_length v : length (put16 v) = 2%nat. Proof. done. Qed.
Lemma put32_length v : length (put32 v) = 4%nat. Proof. done. Qed.
Lemma put64_length v : length (put64 v) = 8%nat. Proof. done. Qed.

Lemma u16_id v : 0 <= v < 2 ^ 16 -> u16 v = v.
Proof. apply Z.mod_small. Qed.
Lemma u32_id v : 0 <= v < 2 ^ 32 -> u32 v = v.
Proof. apply Z.mod_small. Qed.
Lemma u64_id v : 0 <= v < 2 ^ 64 -> u64 v = v.
Proof. apply Z.mod_small. Qed.
Lemma u8_id v : 0 <= v < 2 ^ 8 -> u8 v = v.
Proof. apply Z.mod_small. Qed.

Create Rewrite HintDb wire.
Create HintDb wire_bounds.
#[export] Hint Rewrite put16_length put32_length put64_length get16_put16 get32_put32
  get64_put64 get16_put16_app get32_put32_app : wire.
#[export] Hint Resolve get16_range get32_range bz_range : wire_bounds.
