(* ===== verification/GoFmt.v ===== *)
(** The parts of Go's [strconv], [fmt], [bytes] and [strings] that the
    repository uses on its numbers and texts: decimal and hexadecimal
    rendering, [strconv.Atoi]/[ParseInt]/[ParseUint] with their two errors,
    [bytes.Split], [strings.Join], [bytes.IndexByte], and [bytes.TrimPrefix]. *)
From stdpp Require Import base list sets.
From Stdlib Require Import ZArith Lia.
From S2P Require Import Prelude.
Open Scope Z_scope.

(** * Rendering *)

Definition digit_char (d : Z) : byte := zb (if d <? 10 then 48 + d else 87 + d).

Fixpoint digits_aux (fuel : nat) (base n : Z) (acc : bytes) : bytes :=
  match fuel with
  | O => acc
  | S f =>
      let acc' := digit_char (n mod base) :: acc in
      if n / base =? 0 then acc' else digits_aux f base (n / base) acc'
  end.

(** [strconv.FormatUint(n, base)] for a base of at most 16. *)
Definition format_uint (base n : Z) : bytes :=
  digits_aux (S (Z.to_nat (Z.log2 n))) base n [].

(** [strconv.Itoa], and the verb [%d]. *)
Definition itoa (z : Z) : bytes :=
  if z <? 0 then zb 45 :: format_uint 10 (- z) else format_uint 10 z.

(** The verb [%x] of an unsigned number, and of a byte slice
    ([hex.EncodeToString]). *)
Definition fmt_x (n : Z) : bytes := format_uint 16 n.
Definition hex_bytes (b : bytes) : bytes :=
  b ≫= fun c => [digit_char (bz c / 16); digit_char (bz c mod 16)].

(** * Parsing *)

Inductive num_error := ErrSyntax | ErrRange.
#[export] Instance num_error_eq_decision : EqDecision num_error.
Proof. solve_decision. Defined.

Definition digit_val (c : byte) : option Z :=
  let z := bz c in if (48 <=? z) && (z <=? 57) then Some (z - 48) else None.

(** The loop of [strconv.ParseUint] in base 10: [n] is what was read so far,
    [maxv] the largest value that fits. *)
Fixpoint parse_digits (maxv : Z) (s : bytes) (n : Z) : result num_error Z :=
  match s with
  | [] => Ok n
  | c :: s' =>
      match digit_val c with
      | None => Err ErrSyntax
      | Some d => if maxv <? n * 10 + d then Err ErrRange else parse_digits maxv s' (n * 10 + d)
      end
  end.

(** [strconv.ParseUint(s, 10, bits)] *)
Definition parse_uint (bits : Z) (s : bytes) : result num_error Z :=
  match s with [] => Err ErrSyntax | _ => parse_digits (2 ^ bits - 1) s 0 end.

(** [strconv.ParseInt(s, 10, bits)] *)
Definition parse_int (bits : Z) (s : bytes) : result num_error Z :=
  let signed (neg : bool) (r : bytes) :=
    match parse_uint bits r with
    | Ok un =>
        if neg
        then if 2 ^ (bits - 1) <? un then Err ErrRange else Ok (- un)
        else if 2 ^ (bits - 1) <=? un then Err ErrRange else Ok un
    | e => e
    end in
  match s with
  | [] => Err ErrSyntax
  | c :: r =>
      if bool_decide (c = zb 43) then signed false r
      else if bool_decide (c = zb 45) then signed true r
      else signed false s
  end.

(** [strconv.Atoi] on a 64-bit platform *)
Definition atoi (s : bytes) : result num_error Z := parse_int 64 s.

(** * Round trip of the decimal rendering *)

Lemma digit_val_char d : 0 <= d < 10 -> digit_val (digit_char d) = Some d.
Proof.
  intros Hd. unfold digit_val, digit_char.
  assert ((d <? 10) = true) as -> by (apply Z.ltb_lt; lia).
  rewrite bz_zb_small by lia.
  assert ((48 <=? 48 + d) && (48 + d <=? 57) = true) as ->.
  { apply andb_true_iff; split; apply Z.leb_le; lia. }
  f_equal. lia.
Qed.

Lemma log2_div_lt n base : 2 <= base -> 2 <= n -> Z.log2 (n / base) < Z.log2 n.
Proof.
  intros Hb Hn. apply Z.le_lt_trans with (Z.log2 (Z.shiftr n 1)).
  - apply Z.log2_le_mono. rewrite Z.shiftr_div_pow2 by lia.
    apply Z.div_le_compat_l; lia.
  - rewrite Z.log2_shiftr by lia. pose proof (Z.log2_le_mono 2 n Hn).
    change (Z.log2 2) with 1 in *. lia.
Qed.

(** The digits of [n], read after a prefix worth [m], are worth [m * 10^k + n]. *)
Lemma parse_digits_aux maxv f n acc m :
  0 <= n <= maxv -> (Z.log2 n < Z.of_nat f) -> 0 <= m ->
  exists k, (0 <= k) /\ n < 10 ^ k /\
    (m * 10 ^ k + n <= maxv ->
     parse_digits maxv (digits_aux f 10 n acc) m = parse_digits maxv acc (m * 10 ^ k + n)).
Proof.
  revert n acc m. induction f as [|f IH]; intros n acc m Hn Hlog Hm.
  { pose proof (Z.log2_nonneg n). lia. }
  cbn [digits_aux]. pose proof (Z.mod_pos_bound n 10 ltac:(lia)) as Hmod.
  destruct (n / 10 =? 0) eqn:E; bool_hyps.
  - exists 1. assert (n < 10) by (Z.div_mod_to_equations; lia).
    split; [lia|]. split; [lia|]. intros Hle.
    cbn [parse_digits]. rewrite digit_val_char by lia.
    rewrite (Z.mod_small n 10) by lia. change (10 ^ 1) with 10 in Hle |- *.
    assert ((maxv <? m * 10 + n) = false) as -> by (apply Z.ltb_ge; lia). done.
  - assert (10 <= n) by (Z.div_mod_to_equations; lia).
    assert (Z.log2 (n / 10) < Z.of_nat f) as Hl.
    { pose proof (log2_div_lt n 10 ltac:(lia) ltac:(lia)). lia. }
    destruct (IH (n / 10) (digit_char (n mod 10) :: acc) m) as (k & Hk & Hlt & Heq);
      [Z.div_mod_to_equations; lia|done|done|].
    exists (k + 1). rewrite Z.pow_add_r by lia. change (10 ^ 1) with 10.
    split; [lia|]. split; [Z.div_mod_to_equations; lia|]. intros Hle.
    assert (n = n / 10 * 10 + n mod 10) as Hdm by (Z.div_mod_to_equations; lia).
    assert (0 <= m * 10 ^ k) by (apply Z.mul_nonneg_nonneg; [lia|apply Z.pow_nonneg; lia]).
    assert (0 <= n / 10) by (Z.div_mod_to_equations; lia).
    rewrite Heq by lia.
    cbn [parse_digits]. rewrite digit_val_char by lia.
    replace ((m * 10 ^ k + n / 10) * 10 + n mod 10) with (m * (10 ^ k * 10) + n) by lia.
    assert ((maxv <? m * (10 ^ k * 10) + n) = false) as -> by (apply Z.ltb_ge; lia). done.
Qed.

Lemma parse_digits_format maxv n :
  0 <= n <= maxv -> parse_digits maxv (format_uint 10 n) 0 = Ok n.
Proof.
  intros Hn. unfold format_uint.
  destruct (parse_digits_aux maxv (S (Z.to_nat (Z.log2 n))) n [] 0) as (k & _ & _ & Heq).
  - done.
  - pose proof (Z.log2_nonneg n). lia.
  - lia.
  - rewrite Heq by lia. done.
Qed.

Lemma digits_aux_acc f base n acc : digits_aux f base n acc = digits_aux f base n [] ++ acc.
Proof.
  revert n acc. induction f as [|f IH]; intros n acc; [done|].
  cbn [digits_aux]. destruct (n / base =? 0); [done|].
  rewrite IH, (IH _ [_]). by rewrite <- app_assoc.
Qed.

Lemma format_uint_nonempty base n : format_uint base n <> [].
Proof.
  unfold format_uint. cbn [digits_aux]. destruct (n / base =? 0); [done|].
  rewrite digits_aux_acc. intros [_ H]%app_eq_nil. done.
Qed.

(** Every byte of a decimal rendering is a digit. *)
Lemma format_uint_digits n :
  0 <= n -> Forall (fun c => is_Some (digit_val c)) (format_uint 10 n).
Proof.
  unfold format_uint. generalize (S (Z.to_nat (Z.log2 n))). intros f Hn.
  assert (forall acc, Forall (fun c => is_Some (digit_val c)) acc ->
    Forall (fun c => is_Some (digit_val c)) (digits_aux f 10 n acc)) as H; [|by apply H].
  revert n Hn. induction f as [|f IH]; intros n Hn acc Hacc; [done|].
  cbn [digits_aux]. pose proof (Z.mod_pos_bound n 10 ltac:(lia)).
  assert (Forall (fun c => is_Some (digit_val c)) (digit_char (n mod 10) :: acc)).
  { constructor; [|done]. rewrite digit_val_char by lia. done. }
  dcase; [done|]. apply IH; [Z.div_mod_to_equations; lia|done].
Qed.

Lemma parse_uint_format bits n :
  0 <= n < 2 ^ bits -> parse_uint bits (format_uint 10 n) = Ok n.
Proof.
  intros Hn. unfold parse_uint.
  destruct (format_uint 10 n) as [|c r] eqn:E; [by apply format_uint_nonempty in E|].
  rewrite <- E. apply parse_digits_format. lia.
Qed.

Lemma parse_int_itoa bits z :
  0 < bits -> - 2 ^ (bits - 1) <= z < 2 ^ (bits - 1) -> parse_int bits (itoa z) = Ok z.
Proof.
  intros Hb Hz. unfold itoa, parse_int.
  assert (2 ^ bits = 2 * 2 ^ (bits - 1)) as Hpow by (rewrite <- Z.pow_succ_r by lia; f_equal; lia).
  destruct (z <? 0) eqn:E; bool_hyps.
  - rewrite !bool_decide_eq_false_2, bool_decide_eq_true_2 by (done || by intros [=]).
    rewrite parse_uint_format by lia.
    assert ((2 ^ (bits - 1) <? - z) = false) as -> by (apply Z.ltb_ge; lia).
    f_equal. lia.
  - destruct (format_uint 10 z) as [|c r] eqn:Ef; [by apply format_uint_nonempty in Ef|].
    pose proof (format_uint_digits z ltac:(lia)) as Hd. rewrite Ef in Hd.
    apply Forall_cons in Hd as [Hc _].
    rewrite !bool_decide_eq_false_2.
    2, 3: intros ->; by destruct Hc.
    rewrite <- Ef, parse_uint_format by lia.
    by assert ((2 ^ (bits - 1) <=? z) = false) as -> by (apply Z.leb_gt; lia).
Qed.
Lemma atoi_itoa z : - 2 ^ 63 <= z < 2 ^ 63 -> atoi (itoa z) = Ok z.
Proof. intros Hz. by apply parse_int_itoa. Qed.

(** * Splitting and joining *)

(** [bytes.Split(v, []byte{sep})] *)
Fixpoint split (sep : byte) (v : bytes) : list bytes :=
  match v with
  | [] => [[]]
  | c :: v' =>
      if bool_decide (c = sep) then [] :: split sep v'
      else match split sep v' with
           | [] => [[c]]
           | w :: ws => (c :: w) :: ws
           end
  end.

(** [bytes.Join(ws, []byte{sep})] and [strings.Join] *)
Fixpoint join (sep : bytes) (ws : list bytes) : bytes :=
  match ws with
  | [] => []
  | [w] => w
  | w :: ws' => w ++ sep ++ join sep ws'
  end.

Lemma split_nonempty sep v : split sep v <> [].
Proof. destruct v; cbn; [done|]. dcase; [done|]. by destruct (split sep v). Qed.

Lemma split_no_sep sep v : sep ∉ v -> split sep v = [v].
Proof.
  induction v as [|c v IH]; intros Hv; [done|]. cbn.
  rewrite bool_decide_eq_false_2 by set_solver. rewrite IH by set_solver. done.
Qed.

Lemma split_app_sep sep w v : sep ∉ w -> split sep (w ++ sep :: v) = w :: split sep v.
Proof.
  induction w as [|c w IH]; intros Hw; cbn.
  - by rewrite bool_decide_eq_true_2.
  - rewrite bool_decide_eq_false_2 by set_solver. rewrite IH by set_solver. done.
Qed.

Lemma split_snoc sep v : split sep (v ++ [sep]) = split sep v ++ [[]].
Proof.
  induction v as [|c v IH]; cbn; [by rewrite bool_decide_eq_true_2|].
  dcase; [by rewrite IH|]. rewrite IH. destruct (split sep v) eqn:Es; [by apply split_nonempty in Es|done].
Qed.

Lemma split_join sep ws :
  ws <> [] -> Forall (fun w => sep ∉ w) ws -> split sep (join [sep] ws) = ws.
Proof.
  induction ws as [|w [|w' ws] IH]; intros Hne Hall; [done| |].
  - apply Forall_cons in Hall as [Hw _]. by apply split_no_sep.
  - apply Forall_cons in Hall as [Hw Hall].
    change (join [sep] (w :: w' :: ws)) with (w ++ sep :: join [sep] (w' :: ws)).
    rewrite split_app_sep by done. by rewrite IH.
Qed.

(** [bytes.TrimPrefix] *)
Definition trim_prefix (p v : bytes) : bytes :=
  if bool_decide (take (length p) v = p) then drop (length p) v else v.

(** * Searching *)

Definition sp : byte := zb 32.
Definition colon : byte := zb 58.
Definition newline : byte := zb 10.

(** [bytes.IndexByte], and [bytes.IndexRune] of an ASCII rune; [None] is -1. *)
Fixpoint index_of (sep : byte) (s : bytes) : option nat :=
  match s with
  | [] => None
  | c :: s' => if bool_decide (c = sep) then Some 0%nat else S <$> index_of sep s'
  end.

Lemma index_of_none sep l : sep ∉ l -> index_of sep l = None.
Proof.
  induction l as [|c l IH]; [done|]. intros Hn. cbn.
  rewrite bool_decide_eq_false_2 by set_solver. rewrite IH by set_solver. done.
Qed.

Lemma index_of_app sep l r : sep ∉ l -> index_of sep (l ++ sep :: r) = Some (length l).
Proof.
  induction l as [|c l IH]; intros Hn; cbn; [by rewrite bool_decide_eq_true_2|].
  rewrite bool_decide_eq_false_2 by set_solver. by rewrite IH by set_solver.
Qed.

Lemma index_of_Some sep l i :
  index_of sep l = Some i -> exists l1 l2, l = l1 ++ sep :: l2 /\ length l1 = i /\ sep ∉ l1.
Proof.
  revert i. induction l as [|c l IH]; intros i; cbn; [done|]. case_bool_decide as Hc.
  - intros [= <-]. exists [], l. subst. set_solver.
  - intros (j & Hj & ->)%fmap_Some. destruct (IH _ Hj) as (l1 & l2 & -> & <- & Hn).
    exists (c :: l1), l2. set_solver.
Qed.

Lemma index_of_None sep l : index_of sep l = None -> sep ∉ l.
Proof.
  induction l as [|c l IH]; cbn; [set_solver|]. case_bool_decide; [done|].
  intros ?%fmap_None%IH. set_solver.
Qed.
