(* ===== verification/GoSlice.v ===== *)
(** Go byte slices over a shared backing array.

    A [buffer] is a slice that starts at index 0 of its array, like
    [Message.Raw]: [arr] is the whole array, so its length is the capacity, and
    [len] the length of the slice.  A [slice] is a view of a part of an array:
    of the array that is currently behind the buffer ([Live]) or of one that
    [append] has left behind ([Detached]).  Reading beyond the length but
    within the capacity is legal in Go and reads the array.

    How much [append] allocates is up to the Go runtime: [growslice] is the
    capacity it chooses for an array of capacity [c] that must hold [n]
    elements, of which only [n <= growslice c n] is documented. *)
From stdpp Require Import base list sets.
From Stdlib Require Import ZArith Lia.
From S2P Require Import Prelude.

Class GoRuntime := {
  growslice : nat -> nat -> nat;
  growslice_ge c n : (n <= growslice c n)%nat;
}.

(** A runtime that doubles, for examples. *)
Definition doubling_runtime : GoRuntime :=
  {| growslice c n := Nat.max n (2 * c); growslice_ge c n := Nat.le_max_l n (2 * c) |}.

Record buffer := Buffer { arr : bytes; blen : nat }.

Definition bcap (b : buffer) : nat := length (arr b).
Definition visible (b : buffer) : bytes := take (blen b) (arr b).
Definition buffer_ok (b : buffer) : Prop := (blen b <= bcap b)%nat.

Inductive backing := Live | Detached (a : bytes).
Record slice := Slice { back : backing; off : nat; slen : nat }.

(** The array of a slice, given the array that is now behind the buffer. *)
Definition backing_array (a : bytes) (s : slice) : bytes :=
  match back s with Live => a | Detached a' => a' end.

(** The contents of a slice and what a re-slice up to its capacity can see. *)
Definition contents (a : bytes) (s : slice) : bytes :=
  take (slen s) (drop (off s) (backing_array a s)).
Definition reachable (a : bytes) (s : slice) : bytes := drop (off s) (backing_array a s).

(** A fresh slice with the given contents: a literal, a parameter, or the
    result of a [make] and writes to it. *)
Definition fresh (v : bytes) : slice := Slice (Detached v) 0 (length v).

(** What a slice becomes when [append] moves the buffer away from array [a]. *)
Definition detach (a : bytes) (s : slice) : slice :=
  match back s with
  | Live => Slice (Detached a) (off s) (slen s)
  | Detached _ => s
  end.

(** [reslice r i j] is [s[i:j]] for a slice [s] whose reachable bytes are [r]. *)
Definition reslice {E} (r : bytes) (i j : nat) : result E bytes :=
  if (i <=? j)%nat && (j <=? length r)%nat
  then Ok (take (j - i) (drop i r)) else Panic SliceOutOfRange.

(** [b[:n]] on the buffer. *)
Definition set_len {E} (n : nat) (b : buffer) : result E buffer :=
  if (n <=? bcap b)%nat then Ok (Buffer (arr b) n) else Panic SliceOutOfRange.

Definition write_at (i : nat) (v : bytes) (b : buffer) : buffer :=
  Buffer (splice i v (arr b)) (blen b).

Lemma write_at_bcap i v b : (i + length v <= bcap b)%nat -> bcap (write_at i v b) = bcap b.
Proof. intros. unfold bcap in *. cbn. by apply splice_length. Qed.

Section Append.
Context `{GoRuntime}.

(** [append(b, v...)]: the new buffer, and the array left behind, if any. *)
Definition append (b : buffer) (v : bytes) : buffer * option bytes :=
  let n := (blen b + length v)%nat in
  if (n <=? bcap b)%nat then (Buffer (splice (blen b) v (arr b)) n, None)
  else
    let c := growslice (bcap b) n in
    (Buffer (visible b ++ v ++ replicate (c - n) Byte.x00) n, Some (arr b)).

(** The loop of [Message.grow]: append a zero byte until the capacity is at
    least [n].  The array that the attributes may still point to is the first
    one left behind. *)
Fixpoint grow_loop (fuel n : nat) (b : buffer) (old : option bytes) : buffer * option bytes :=
  if (n <=? bcap b)%nat then (b, old)
  else match fuel with
       | O => (b, old)
       | S f =>
           let '(b', o) := append b [Byte.x00] in
           grow_loop f n b' (match old with Some _ => old | None => o end)
       end.

(** Each round adds one element, so [n - len] rounds reach a capacity of [n]. *)
Definition grow_buffer (v : nat) (b : buffer) : buffer * option bytes :=
  let n := (blen b + v)%nat in
  let '(b', old) := grow_loop v n b None in
  (Buffer (arr b') n, old).

Lemma append_ok b v : buffer_ok b -> buffer_ok (append b v).1.
Proof.
  intros Hb. unfold append, buffer_ok, bcap in *. destruct (Nat.leb_spec (blen b + length v) (length (arr b))); cbn.
  - rewrite splice_length by lia. lia.
  - unfold visible. rewrite !length_app, length_take, length_replicate. lia.
Qed.

Lemma append_blen b v : blen (append b v).1 = (blen b + length v)%nat.
Proof. unfold append. by destruct (_ <=? _)%nat. Qed.

Lemma append_visible b v : buffer_ok b -> visible (append b v).1 = visible b ++ v.
Proof.
  intros Hb. unfold append, visible, buffer_ok, bcap in *.
  destruct (Nat.leb_spec (blen b + length v) (length (arr b))); cbn.
  - unfold splice. rewrite app_assoc, take_app_le by (rewrite length_app, length_take; lia).
    apply take_ge. rewrite length_app, length_take. lia.
  - rewrite app_assoc, take_app_le by (rewrite length_app, length_take; lia).
    apply take_ge. rewrite length_app, length_take. lia.
Qed.

Lemma append_none b v b' : append b v = (b', None) ->
  (blen b + length v <= bcap b)%nat /\ arr b' = splice (blen b) v (arr b).
Proof.
  unfold append. destruct (Nat.leb_spec (blen b + length v) (bcap b)); intros [= <-]; done.
Qed.

Lemma append_some b v b' a : append b v = (b', Some a) ->
  a = arr b /\ (bcap b < blen b + length v)%nat.
Proof.
  unfold append. destruct (Nat.leb_spec (blen b + length v) (bcap b)); intros [= <- <-]; done.
Qed.

(** What the loop keeps: the first [k] bytes, in the buffer and in the array
    left behind, which has the capacity of the array the loop began with. *)
Lemma grow_loop_keeps fuel n b old k pre :
  buffer_ok b -> (k <= blen b)%nat -> take k (arr b) = pre ->
  (n <= blen b + fuel)%nat ->
  (forall a, old = Some a -> take k a = pre) ->
  let '(b', old') := grow_loop fuel n b old in
  buffer_ok b' /\ (n <= bcap b')%nat /\ take k (arr b') = pre /\
  (forall a, old' = Some a -> take k a = pre) /\ (blen b <= blen b')%nat.
Proof.
  revert b old. induction fuel as [|f IH]; intros b old Hb Hk Hpre Hn Hold; cbn [grow_loop].
  - destruct (Nat.leb_spec n (bcap b)); [done|]. unfold buffer_ok in *. lia.
  - destruct (Nat.leb_spec n (bcap b)); [done|].
    pose proof (append_ok b [Byte.x00] Hb) as Hok.
    pose proof (append_blen b [Byte.x00]) as Hlen.
    pose proof (append_visible b [Byte.x00] Hb) as Hvis.
    destruct (append b [Byte.x00]) as [b1 o] eqn:Ea. cbn in *.
    specialize (IH b1 (match old with Some _ => old | None => o end)).
    destruct (grow_loop f n b1 _) as [b' old']. 
    destruct IH as (? & ? & ? & ? & ?); [done|lia| |lia| |repeat split; try done; lia].
    + rewrite <- Hpre. unfold visible in Hvis. rewrite <- (Nat.min_l k (blen b1)), <- take_take by lia.
      rewrite Hvis, take_app_le by (rewrite length_take; unfold buffer_ok, bcap in *; lia).
      rewrite take_take. f_equal. lia.
    + intros a. destruct old; [by apply Hold|]. intros ->.
      apply append_some in Ea as [-> _]. done.
Qed.

(** [grow]: the length is as asked, what was visible stays visible, and an
    array left behind still holds what was visible. *)
Lemma grow_buffer_spec v b :
  buffer_ok b ->
  let '(b', old) := grow_buffer v b in
  buffer_ok b' /\ blen b' = (blen b + v)%nat /\
  take (blen b) (arr b') = visible b /\
  (forall a, old = Some a -> take (blen b) a = visible b).
Proof.
  intros Hb. unfold grow_buffer.
  pose proof (grow_loop_keeps v (blen b + v) b None (blen b) (visible b)) as H1.
  destruct (grow_loop v (blen b + v) b None) as [b' old].
  destruct H1 as (? & ? & ? & ? & ?); [done|lia|done|lia|done|].
  unfold buffer_ok, bcap in *. cbn. done.
Qed.

(** The buffer keeps its array when it is large enough. *)
Lemma grow_buffer_fits v b :
  (blen b + v <= bcap b)%nat -> grow_buffer v b = (Buffer (arr b) (blen b + v), None).
Proof.
  intros Hle. unfold grow_buffer. destruct v; cbn [grow_loop];
  by rewrite (proj2 (Nat.leb_le _ _) Hle).
Qed.
End Append.

(** [s[n:]] for [n <= len(s)]. *)
Definition slice_from (n : nat) (s : slice) : slice := Slice (back s) (off s + n) (slen s - n).

Lemma contents_slice_from a n s : contents a (slice_from n s) = drop n (contents a s).
Proof.
  unfold contents, slice_from, backing_array. cbn.
  by rewrite skipn_firstn_comm, drop_drop.
Qed.
