(* ===== verification/StunTypes.v ===== *)
(** Message types, attribute types and errors of the stun package:
    [src/stun/message.go] (classes, methods, [MessageType]),
    [src/stun/attributes.go] (attribute types, padded length) and
    [src/stun/errors.go]. *)
From stdpp Require Import base list sets strings.
From Stdlib Require Import ZArith Lia.
From S2P Require Import Prelude Wire GoFmt.
Open Scope Z_scope.

(** * Constants *)

Definition magicCookie : Z := 0x2112A442.
Definition attributeHeaderSize : nat := 4.
Definition messageHeaderSize : nat := 20.
Definition TransactionIDSize : nat := 12.
Definition padding : nat := 4.


(** * Message class and method *)

Definition ClassRequest : Z := 0x00.
Definition ClassIndication : Z := 0x01.
Definition ClassSuccessResponse : Z := 0x02.
Definition ClassErrorResponse : Z := 0x03.

Definition MethodBinding : Z := 0x001.
Definition MethodAllocate : Z := 0x003.
Definition MethodRefresh : Z := 0x004.
Definition MethodSend : Z := 0x006.
Definition MethodData : Z := 0x007.
Definition MethodCreatePermission : Z := 0x008.
Definition MethodChannelBind : Z := 0x009.
Definition MethodChannelData : Z := 0x4000.

(** [MessageClass.String] *)
Definition class_String (c : Z) : result Empty_set bytes :=
  if c =? ClassRequest then Ok (bs "request")
  else if c =? ClassIndication then Ok (bs "indication")
  else if c =? ClassSuccessResponse then Ok (bs "success response")
  else if c =? ClassErrorResponse then Ok (bs "error response")
  else Panic (PanicCall (bs "unknown message class")).

Definition methodName : list (Z * bytes) :=
  [(MethodBinding, bs "binding"); (MethodAllocate, bs "allocate");
   (MethodRefresh, bs "refresh"); (MethodSend, bs "send"); (MethodData, bs "data");
   (MethodCreatePermission, bs "create permission");
   (MethodChannelBind, bs "channel bind")].

(** Lookup of a Go map given as its literal. *)
Fixpoint assoc {V} (k : Z) (m : list (Z * V)) : option V :=
  match m with
  | [] => None
  | (k', v) :: m' => if k =? k' then Some v else assoc k m'
  end.

(** [Method.String] *)
Definition method_String (m : Z) : bytes :=
  match assoc m methodName with
  | Some s => s
  | None => bs "0x" ++ fmt_x m
  end.

Record MessageType := NewType { Method : Z; Class : Z }.

#[export] Instance MessageType_eq_decision : EqDecision MessageType.
Proof. solve_decision. Defined.

(** A class as [fmt] prints it, which recovers from the panic of its [String]. *)
Definition class_text (c : Z) : bytes :=
  match class_String c with
  | Ok s => s
  | Err e => match e with end
  | Panic _ => bs "%!s(PANIC=unknown message class)"
  end.

(** [MessageType.String] *)
Definition MessageType_String (t : MessageType) : bytes :=
  method_String (Method t) ++ bs " " ++ class_text (Class t).

Definition BindingRequest := NewType MethodBinding ClassRequest.
Definition BindingSuccess := NewType MethodBinding ClassSuccessResponse.
Definition BindingError := NewType MethodBinding ClassErrorResponse.
Definition BindingIndication := NewType MethodBinding ClassIndication.

Definition methodABits : Z := 0xf.
Definition methodBBits : Z := 0x70.
Definition methodDBits : Z := 0xf80.
Definition methodBShift : Z := 1.
Definition methodDShift : Z := 2.
Definition c0Bit : Z := 0x1.
Definition c1Bit : Z := 0x2.
Definition classC0Shift : Z := 4.
Definition classC1Shift : Z := 7.

(** [MessageType.Value]: the arithmetic is on uint16. *)
Definition Value (t : MessageType) : Z :=
  let m := u16 (Method t) in
  let a := Z.land m methodABits in
  let b := Z.land m methodBBits in
  let d := Z.land m methodDBits in
  let m := u16 (a + u16 (Z.shiftl b methodBShift) + u16 (Z.shiftl d methodDShift)) in
  let c := u16 (Class t) in
  let c0 := u16 (Z.shiftl (Z.land c c0Bit) classC0Shift) in
  let c1 := u16 (Z.shiftl (Z.land c c1Bit) classC1Shift) in
  let class := u16 (c0 + c1) in
  u16 (m + class).

(** [MessageType.ReadValue] *)
Definition ReadValue (v : Z) : MessageType :=
  let c0 := Z.land (Z.shiftr v classC0Shift) c0Bit in
  let c1 := Z.land (Z.shiftr v classC1Shift) c1Bit in
  let class := u16 (c0 + c1) in
  let a := Z.land v methodABits in
  let b := Z.land (Z.shiftr v methodBShift) methodBBits in
  let d := Z.land (Z.shiftr v methodDShift) methodDBits in
  let m := u16 (a + b + d) in
  NewType m (u8 class).

(** A type that fits the 14 bits of the header field. *)
Definition type_ok (t : MessageType) : Prop := 0 <= Method t < 2 ^ 12 /\ 0 <= Class t < 4.

#[export] Instance type_ok_dec t : Decision (type_ok t).
Proof. unfold type_ok. apply _. Defined.

(** * Attribute types *)

Definition AttrMappedAddress : Z := 0x0001.
Definition AttrUsername : Z := 0x0006.
Definition AttrMessageIntegrity : Z := 0x0008.
Definition AttrErrorCode : Z := 0x0009.
Definition AttrUnknownAttributes : Z := 0x000A.
Definition AttrRealm : Z := 0x0014.
Definition AttrNonce : Z := 0x0015.
Definition AttrXORMappedAddress : Z := 0x0020.
Definition AttrSoftware : Z := 0x8022.
Definition AttrAlternateServer : Z := 0x8023.
Definition AttrFingerprint : Z := 0x8028.
Definition AttrPriority : Z := 0x0024.
Definition AttrUseCandidate : Z := 0x0025.
Definition AttrICEControlled : Z := 0x8029.
Definition AttrICEControlling : Z := 0x802A.
Definition AttrChannelNumber : Z := 0x000C.
Definition AttrLifetime : Z := 0x000D.
Definition AttrXORPeerAddress : Z := 0x0012.
Definition AttrData : Z := 0x0013.
Definition AttrXORRelayedAddress : Z := 0x0016.
Definition AttrEvenPort : Z := 0x0018.
Definition AttrRequestedTransport : Z := 0x0019.
Definition AttrDontFragment : Z := 0x001A.
Definition AttrReservationToken : Z := 0x0022.
Definition AttrOrigin : Z := 0x802F.

Definition attrNames : list (Z * bytes) :=
  [(AttrMappedAddress, bs "MAPPED-ADDRESS"); (AttrUsername, bs "USERNAME");
   (AttrErrorCode, bs "ERROR-CODE"); (AttrMessageIntegrity, bs "MESSAGE-INTEGRITY");
   (AttrUnknownAttributes, bs "UNKNOWN-ATTRIBUTES"); (AttrRealm, bs "REALM");
   (AttrNonce, bs "NONCE"); (AttrXORMappedAddress, bs "XOR-MAPPED-ADDRESS");
   (AttrSoftware, bs "SOFTWARE"); (AttrAlternateServer, bs "ALTERNATE-SERVER");
   (AttrFingerprint, bs "FINGERPRINT"); (AttrPriority, bs "PRIORITY");
   (AttrUseCandidate, bs "USE-CANDIDATE"); (AttrICEControlled, bs "ICE-CONTROLLED");
   (AttrICEControlling, bs "ICE-CONTROLLING"); (AttrChannelNumber, bs "CHANNEL-NUMBER");
   (AttrLifetime, bs "LIFETIME"); (AttrXORPeerAddress, bs "XOR-PEER-ADDRESS");
   (AttrData, bs "DATA"); (AttrXORRelayedAddress, bs "XOR-RELAYED-ADDRESS");
   (AttrEvenPort, bs "EVEN-PORT"); (AttrRequestedTransport, bs "REQUESTED-TRANSPORT");
   (AttrDontFragment, bs "DONT-FRAGMENT"); (AttrReservationToken, bs "RESERVATION-TOKEN");
   (AttrOrigin, bs "ORIGIN")].

(** [AttrType.String] *)
Definition AttrType_String (t : Z) : bytes :=
  match assoc t attrNames with
  | Some s => s
  | None => bs "0x" ++ fmt_x t
  end.

(** [nearestPaddedValueLength] *)
Definition nearestPaddedValueLength (l : nat) : nat :=
  let n := (padding * (l / padding))%nat in
  if (n <? l)%nat then (n + padding)%nat else n.

(** * Errors

    The errors that the calls of the stun, turn and attr packages return. *)
Record DecodeErrPlace := Place { Parent : bytes; Children : bytes }.
Record DecodeErr := mkDecodeErr { err_place : DecodeErrPlace; err_message : bytes }.

Inductive error : Type :=
| ErrUnexpectedHeaderEOF
| ErrFormatError
| ErrDecode (e : DecodeErr)
| EOF                                   (* io.EOF *)
| ErrUnexpectedEOF                      (* io.ErrUnexpectedEOF *)
| ErrAttributeNotFound
| AttrOverflowErr (Type_ : Z) (Max Got : Z)
| AttrLengthErr (Attr : Z) (Got Expected : Z)
| ErrBadIPLength
| ErrNoDefaultReason
| ErrBadUnknownAttrsSize
| ErrFingerprintBeforeIntegrity
| IntegrityErr (Expected Actual : bytes)
| CRCMismatch (Expected Actual : Z)
| BadAttrLength (Attr : Z) (Got Expected : Z)   (* turn *)
| Errorf (msg : bytes)                          (* fmt.Errorf *)
| IOError (code : Z).                           (* an error of a connection *)

#[export] Instance DecodeErrPlace_eq_decision : EqDecision DecodeErrPlace.
Proof. solve_decision. Defined.
#[export] Instance DecodeErr_eq_decision : EqDecision DecodeErr.
Proof. solve_decision. Defined.
#[export] Instance error_eq_decision : EqDecision error.
Proof. solve_decision. Defined.

Definition newDecodeErr (parent children message : bytes) : error :=
  ErrDecode (mkDecodeErr (Place parent children) message).
Definition newAttrDecodeErr (children message : bytes) : error :=
  newDecodeErr (bs "attribute") children message.

Definition IsInvalidCookie (e : DecodeErr) : bool :=
  bool_decide (err_place e = Place (bs "message") (bs "cookie")).
Definition IsPlaceParent (e : DecodeErr) (p : bytes) : bool :=
  bool_decide (Parent (err_place e) = p).
Definition IsPlaceChildren (e : DecodeErr) (c : bytes) : bool :=
  bool_decide (Children (err_place e) = c).
Definition IsPlace (e : DecodeErr) (p : DecodeErrPlace) : bool :=
  bool_decide (err_place e = p).
Definition DecodeErrPlace_String (p : DecodeErrPlace) : bytes :=
  Parent p ++ bs "/" ++ Children p.
Definition DecodeErr_Error (e : DecodeErr) : bytes :=
  bs "BadFormat for " ++ DecodeErrPlace_String (err_place e) ++ bs ": " ++ err_message e.

(** * Lemmas *)

Lemma padded_spec l :
  (l <= nearestPaddedValueLength l < l + 4)%nat /\
  (nearestPaddedValueLength l mod 4 = 0)%nat.
Proof.
  unfold nearestPaddedValueLength, padding.
  pose proof (Nat.div_mod_eq l 4). pose proof (Nat.mod_upper_bound l 4 ltac:(lia)).
  destruct (Nat.ltb_spec (4 * (l / 4)) l).
  - split; [lia|]. replace (4 * (l / 4) + 4)%nat with ((l / 4 + 1) * 4)%nat by lia.
    apply Nat.Div0.mod_mul.
  - split; [lia|]. rewrite Nat.mul_comm. apply Nat.Div0.mod_mul.
Qed.

(** A value gets padding exactly when its length, as a uint16, is not a
    multiple of four. *)
Lemma padded_aligned l : (l mod 4 = 0)%nat -> nearestPaddedValueLength l = l.
Proof.
  intros Hl. unfold nearestPaddedValueLength, padding.
  pose proof (Nat.div_mod_eq l 4). destruct (Nat.ltb_spec (4 * (l / 4)) l); lia.
Qed.

Lemma Value_range t : 0 <= Value t < 2 ^ 16.
Proof. apply Z.mod_pos_bound. lia. Qed.

(** ** The header field of the message type

    Method and class are numbers in a mixed radix: [Value] interleaves their
    digits. *)
Lemma land_field z n k :
  0 <= n -> 0 <= k -> Z.land z (Z.shiftl (Z.ones n) k) = (z / 2 ^ k) mod 2 ^ n * 2 ^ k.
Proof.
  intros Hn Hk. rewrite <- Z.shiftl_mul_pow2, <- Z.shiftr_div_pow2, <- Z.land_ones by done.
  apply Z.bits_inj'. intros i Hi. rewrite Z.land_spec, !Z.shiftl_spec by done.
  destruct (Z.le_gt_cases k i).
  - by rewrite Z.land_spec, Z.shiftr_spec, Z.sub_add by lia.
  - rewrite !(Z.testbit_neg_r _ (i - k)) by lia. apply andb_false_r.
Qed.

Definition type_of_digits (a b d c0 c1 : Z) : MessageType :=
  NewType (a + 16 * b + 128 * d) (c0 + 2 * c1).
Definition value_of_digits (a b d c0 c1 : Z) : Z := a + 16 * c0 + 32 * b + 256 * c1 + 512 * d.
Definition digits_ok (a b d c0 c1 : Z) : Prop :=
  0 <= a < 16 /\ 0 <= b < 8 /\ 0 <= d < 32 /\ 0 <= c0 < 2 /\ 0 <= c1 < 2.

Ltac euclid := Z.div_mod_to_equations; lia.

Lemma Value_digits a b d c0 c1 :
  digits_ok a b d c0 c1 -> Value (type_of_digits a b d c0 c1) = value_of_digits a b d c0 c1.
Proof.
  intros (Ha & Hb & Hd & H0 & H1). unfold Value, type_of_digits, value_of_digits. cbn [Method Class].
  assert (u16 (a + 16 * b + 128 * d) = a + 16 * b + 128 * d) as -> by (apply u16_id; lia).
  assert (u16 (c0 + 2 * c1) = c0 + 2 * c1) as -> by (apply u16_id; lia).
  assert (Z.land (a + 16 * b + 128 * d) methodABits = a) as ->.
  { unfold methodABits. change 0xf with (Z.shiftl (Z.ones 4) 0). rewrite land_field by done. euclid. }
  assert (Z.land (a + 16 * b + 128 * d) methodBBits = 16 * b) as ->.
  { unfold methodBBits. change 0x70 with (Z.shiftl (Z.ones 3) 4). rewrite land_field by done. euclid. }
  assert (Z.land (a + 16 * b + 128 * d) methodDBits = 128 * d) as ->.
  { unfold methodDBits. change 0xf80 with (Z.shiftl (Z.ones 5) 7). rewrite land_field by done. euclid. }
  assert (Z.land (c0 + 2 * c1) c0Bit = c0) as ->.
  { unfold c0Bit. change 1 with (Z.shiftl (Z.ones 1) 0). rewrite land_field by done. euclid. }
  assert (Z.land (c0 + 2 * c1) c1Bit = 2 * c1) as ->.
  { unfold c1Bit. change 2 with (Z.shiftl (Z.ones 1) 1) at 2. rewrite land_field by done. euclid. }
  unfold methodBShift, methodDShift, classC0Shift, classC1Shift.
  rewrite !Z.shiftl_mul_pow2 by done. rewrite (u16_id (16 * b * _)), (u16_id (128 * d * _)) by lia.
  rewrite (u16_id (c0 * _)), (u16_id (2 * c1 * _)) by lia.
  rewrite (u16_id (_ + _ + _)), (u16_id (_ * _ + _)) by lia. rewrite u16_id; lia.
Qed.

Lemma ReadValue_digits a b d c0 c1 :
  digits_ok a b d c0 c1 -> ReadValue (value_of_digits a b d c0 c1) = type_of_digits a b d c0 c1.
Proof.
  intros (Ha & Hb & Hd & H0 & H1). unfold ReadValue. set (v := value_of_digits a b d c0 c1).
  assert (Z.land v methodABits = a) as ->.
  { unfold methodABits. change 0xf with (Z.shiftl (Z.ones 4) 0). rewrite land_field by done.
    unfold v, value_of_digits. euclid. }
  assert (Z.land (Z.shiftr v methodBShift) methodBBits = 16 * b) as ->.
  { unfold methodBShift. change methodBBits with (Z.shiftl (Z.ones 3) 4).
    rewrite land_field, Z.shiftr_div_pow2 by done. unfold v, value_of_digits. euclid. }
  assert (Z.land (Z.shiftr v methodDShift) methodDBits = 128 * d) as ->.
  { unfold methodDShift. change methodDBits with (Z.shiftl (Z.ones 5) 7).
    rewrite land_field, Z.shiftr_div_pow2 by done. unfold v, value_of_digits. euclid. }
  assert (Z.land (Z.shiftr v classC0Shift) c0Bit = c0) as ->.
  { unfold classC0Shift. change c0Bit with (Z.shiftl (Z.ones 1) 0).
    rewrite land_field, Z.shiftr_div_pow2 by done. unfold v, value_of_digits. euclid. }
  assert (Z.land (Z.shiftr v classC1Shift) c1Bit = 2 * c1) as ->.
  { unfold classC1Shift. change c1Bit with (Z.shiftl (Z.ones 1) 1).
    rewrite land_field, Z.shiftr_div_pow2 by done. unfold v, value_of_digits. euclid. }
  rewrite !u16_id by lia. unfold type_of_digits. by rewrite u8_id by lia.
Qed.

Lemma type_digits t :
  type_ok t -> exists a b d c0 c1, digits_ok a b d c0 c1 /\ t = type_of_digits a b d c0 c1.
Proof.
  destruct t as [m c]. unfold type_ok. cbn [Method Class]. intros [Hm Hc].
  exists (m mod 16), (m / 16 mod 8), (m / 128), (c mod 2), (c / 2).
  unfold digits_ok, type_of_digits. split; [euclid|]. f_equal; euclid.
Qed.

Lemma value_digits v :
  0 <= v < 2 ^ 14 -> exists a b d c0 c1, digits_ok a b d c0 c1 /\ v = value_of_digits a b d c0 c1.
Proof.
  intros Hv.
  exists (v mod 16), (v / 32 mod 8), (v / 512), (v / 16 mod 2), (v / 256 mod 2).
  unfold digits_ok, value_of_digits. euclid.
Qed.

Lemma ReadValue_Value t : type_ok t -> ReadValue (Value t) = t.
Proof.
  intros (a & b & d & c0 & c1 & Hok & ->)%type_digits.
  by rewrite Value_digits, ReadValue_digits.
Qed.

Lemma Value_type_ok t : type_ok t -> 0 <= Value t < 2 ^ 14.
Proof.
  intros (a & b & d & c0 & c1 & Hok & ->)%type_digits. rewrite Value_digits by done.
  unfold digits_ok, value_of_digits in *. lia.
Qed.

Lemma Value_ReadValue v :
  0 <= v < 2 ^ 14 -> Value (ReadValue v) = v /\ type_ok (ReadValue v).
Proof.
  intros (a & b & d & c0 & c1 & Hok & ->)%value_digits.
  rewrite ReadValue_digits, Value_digits by done. split; [done|].
  unfold digits_ok, type_ok, type_of_digits in *. cbn [Method Class]. lia.
Qed.
