(* ===== verification/StunMessage.v ===== *)
(** The STUN message: [src/stun/message.go] and the attribute list of
    [src/stun/attributes.go].

    A [Message] keeps its wire form in [Raw] while it is built or decoded; the
    attribute values are views of the array behind [Raw].  The model keeps that
    sharing: every attribute value is a [slice] of the live array or of an
    array that a reallocation of [Raw] has left behind, so an operation that
    overwrites the array shows through the attributes exactly as it does in Go. *)
From stdpp Require Import base list sets strings.
From Stdlib Require Import ZArith Lia.
From S2P Require Import Prelude Wire GoFmt GoSlice StunTypes.
Open Scope Z_scope.

(** * Data *)

Record RawAttribute := mkRawAttribute {
  Type_ : Z;           (* AttrType *)
  ALength : Z;         (* uint16, ignored while encoding *)
  AValue : slice
}.

(** [Attributes] is [None] for the nil slice of a fresh message. *)
Record Message := mkMessage {
  MType : MessageType;
  Length : Z;          (* uint32 *)
  TID : bytes;          (* TransactionID, 12 bytes *)
  Attributes : option (list RawAttribute);
  Raw : buffer
}.

Definition attrs (m : Message) : list RawAttribute := default [] (Attributes m).
Definition array (m : Message) : bytes := arr (Raw m).

(** The bytes of an attribute value, as the caller of [Get] reads them. *)
Definition value_of (m : Message) (a : RawAttribute) : bytes := contents (array m) (AValue a).

Definition set_MType t m := mkMessage t (Length m) (TID m) (Attributes m) (Raw m).
Definition set_Length l m := mkMessage (MType m) l (TID m) (Attributes m) (Raw m).
Definition set_TID t m := mkMessage (MType m) (Length m) t (Attributes m) (Raw m).
Definition set_Attributes a m := mkMessage (MType m) (Length m) (TID m) a (Raw m).
Definition set_Raw r m := mkMessage (MType m) (Length m) (TID m) (Attributes m) r.

Abbreviation M := (ST Message error).

(** [new(Message)], and [New] with its capacity of 120. *)
Definition zeroMessage : Message :=
  mkMessage (NewType 0 0) 0 (replicate 12 Byte.x00) None (Buffer [] 0).
Definition New : Message :=
  mkMessage (NewType 0 0) 0 (replicate 12 Byte.x00) None (Buffer (replicate 120 Byte.x00) 20).

(** [IsMessage] *)
Definition IsMessage (b : bytes) : bool :=
  (messageHeaderSize <=? length b)%nat && (get32 (drop 4 b) =? magicCookie).

(** * Attribute lists *)

(** [Attributes.Get] *)
Fixpoint Attributes_Get (t : Z) (l : list RawAttribute) : option RawAttribute :=
  match l with
  | [] => None
  | a :: l' => if Type_ a =? t then Some a else Attributes_Get t l'
  end.

(** [Message.Get]: the slice that holds the value. *)
Definition Get (m : Message) (t : Z) : result error slice :=
  match Attributes_Get t (attrs m) with
  | Some a => Ok (AValue a)
  | None => Err ErrAttributeNotFound
  end.

(** [Message.Contains] *)
Fixpoint contains_type (t : Z) (l : list RawAttribute) : bool :=
  match l with
  | [] => false
  | a :: l' => if Type_ a =? t then true else contains_type t l'
  end.
Definition Contains (m : Message) (t : Z) : bool := contains_type t (attrs m).

(** [RawAttribute.Equal]: the values are compared as the bytes they hold. *)
Definition RawAttribute_Equal (ma mb : Message) (a b : RawAttribute) : bool :=
  if negb (Type_ a =? Type_ b) then false
  else if negb (ALength a =? ALength b) then false
  else if negb (slen (AValue b) =? slen (AValue a))%nat then false
  else bool_decide (value_of mb b = value_of ma a).

(** The loop of [attrEqual] *)
Fixpoint attrs_in (ma mb : Message) (l : list RawAttribute) : bool :=
  match l with
  | [] => true
  | a :: l' =>
      match Attributes_Get (Type_ a) (attrs mb) with
      | None => false
      | Some b => if negb (RawAttribute_Equal mb ma b a) then false else attrs_in ma mb l'
      end
  end.

Definition attrEqual (ma mb : Message) : bool :=
  match Attributes ma, Attributes mb with
  | None, None => true
  | None, Some _ | Some _, None => false
  | Some la, Some _ => attrs_in ma mb la
  end.

(** [Message.Equal] on non-nil messages *)
Definition Equal (m b : Message) : bool :=
  if negb (bool_decide (MType m = MType b)) then false
  else if negb (bool_decide (TID m = TID b)) then false
  else if negb (Length m =? Length b) then false
  else if negb (attrEqual m b) then false
  else true.

(** * Writing *)

(** [m.Raw[i:i+len(v)]] as the target of a write of [v]. *)
Definition put (i : nat) (v : bytes) : M unit := fun m =>
  if (i + length v <=? bcap (Raw m))%nat
  then (set_Raw (write_at i v (Raw m)) m, Ok tt)
  else (m, Panic SliceOutOfRange).

(** [m.Raw = m.Raw[:n]] *)
Definition reslice_raw (n : nat) : M unit := fun m =>
  match set_len n (Raw m) with
  | Ok b => (set_Raw b m, Ok tt)
  | Err e => (m, Err e)
  | Panic p => (m, Panic p)
  end.

(** [Message.Reset] *)
Definition Reset : M unit := fun m =>
  (mkMessage (MType m) 0 (TID m)
     (match Attributes m with None => None | Some _ => Some [] end)
     (Buffer (array m) 0), Ok tt).

(** [Message.WriteLength]: [m.Raw[4]] must exist. *)
Definition WriteLength : M unit := fun m =>
  if (blen (Raw m) <=? 4)%nat then (m, Panic IndexOutOfRange)
  else put 2 (put16 (u16 (Length m))) m.

(** [Message.WriteType] *)
Definition WriteType : M unit := fun m => put 0 (put16 (Value (MType m))) m.

(** [Message.WriteTransactionID] *)
Definition WriteTransactionID : M unit := fun m => put 8 (TID m) m.

(** [Message.SetType] *)
Definition SetType (t : MessageType) : M unit := fun m => WriteType (set_MType t m).

(** An attribute or argument that pointed to the array that [grow] left behind. *)
Definition moved (o : option bytes) (s : slice) : slice :=
  match o with Some a => detach a s | None => s end.
Definition moved_attr (o : option bytes) (a : RawAttribute) : RawAttribute :=
  mkRawAttribute (Type_ a) (ALength a) (moved o (AValue a)).

Section WithRuntime.
Context `{GoRuntime}.

(** [Message.grow]; returns the array left behind. *)
Definition grow (v : nat) : M (option bytes) := fun m =>
  let '(b, o) := grow_buffer v (Raw m) in
  (mkMessage (MType m) (Length m) (TID m) (map (moved_attr o) <$> Attributes m) b, Ok o).

(** The first part of [Message.Add]: allocate the TLV behind what is there and
    encode the attribute into it.  The value is the bytes of [v] at the time of
    the copy.  Returns the attribute and the index of the first byte behind it. *)
Definition add_tlv (t : Z) (v : slice) : M (RawAttribute * nat) := fun m =>
  let allocSize := (attributeHeaderSize + slen v)%nat in
  let first := (messageHeaderSize + Z.to_nat (Length m))%nat in
  let last := (first + allocSize)%nat in
  (let! o := grow last in
   reslice_raw last;;;
   st_modify (fun m => set_Length (u32 (Length m + Z.of_nat allocSize)) m);;;
   let v := moved o v in
   let attr := mkRawAttribute t (u16 (Z.of_nat (slen v)))
                 (Slice Live (first + attributeHeaderSize) (slen v)) in
   put first (put16 t);;;
   put (first + 2) (put16 (ALength attr));;;
   let! m1 := st_get in
   put (first + attributeHeaderSize) (contents (array m1) v);;;
   st_ret (attr, last)) m.

(** The second part: zero bytes up to the next multiple of four.  The
    attribute value may be moved by [grow] before it is in the list. *)
Definition add_padding (attr : RawAttribute) (last : nat) : M RawAttribute :=
  if ALength attr mod Z.of_nat padding =? 0 then st_ret attr
  else
    let lv := slen (AValue attr) in
    let bytesToAdd := (nearestPaddedValueLength lv - lv)%nat in
    let last := (last + bytesToAdd)%nat in
    let! o := grow last in
    put (last - bytesToAdd) (replicate bytesToAdd Byte.x00);;;
    reslice_raw last;;;
    st_modify (fun m => set_Length (u32 (Length m + Z.of_nat bytesToAdd)) m);;;
    st_ret (moved_attr o attr).

(** [Message.Add] *)
Definition Add (t : Z) (v : slice) : M unit :=
  let! r := add_tlv t v in
  let! attr := add_padding r.1 r.2 in
  st_modify (fun m => set_Attributes (Some (attrs m ++ [attr])) m);;;
  WriteLength.

(** [Message.WriteHeader] *)
Definition WriteHeader : M unit := fun m =>
  ((if (blen (Raw m) <? messageHeaderSize)%nat
    then let! _ := grow messageHeaderSize in st_ret tt
    else st_ret tt);;;
   (let! m1 := st_get in
    if (messageHeaderSize <=? bcap (Raw m1))%nat then st_ret tt
    else st_panic SliceOutOfRange);;;
   WriteType;;;
   WriteLength;;;
   put 4 (put32 magicCookie);;;
   WriteTransactionID) m.

(** [Message.WriteAttributes]: ranges over the attributes that are there when
    the loop starts, while [Add] appends to the same list. *)
Fixpoint write_attributes_from (n i : nat) : M unit :=
  match n with
  | O => st_ret tt
  | S n' =>
      let! m := st_get in
      match attrs m !! i with
      | None => st_ret tt
      | Some a => Add (Type_ a) (AValue a);;; write_attributes_from n' (S i)
      end
  end.
Definition WriteAttributes : M unit := fun m => write_attributes_from (length (attrs m)) 0 m.

(** [Message.Encode] *)
Definition Encode : M unit :=
  reslice_raw 0;;; WriteHeader;;; WriteAttributes.

(** * Reading *)

Definition header_message (l : nat) : bytes :=
  bs "buffer length " ++ itoa (Z.of_nat l) ++ bs " is less than "
  ++ itoa (Z.of_nat attributeHeaderSize) ++ bs " (expected header size)".
Definition value_message (l aBuffL : nat) (t : Z) : bytes :=
  bs "buffer length " ++ itoa (Z.of_nat l) ++ bs " is less than "
  ++ itoa (Z.of_nat aBuffL) ++ bs " (expected value size for " ++ AttrType_String t ++ bs ")".
Definition cookie_message (cookie : Z) : bytes :=
  fmt_x cookie ++ bs " is invalid magic cookie (should be " ++ fmt_x magicCookie ++ bs ")".
Definition size_message (l fullSize : nat) : bytes :=
  bs "buffer length " ++ itoa (Z.of_nat l) ++ bs " is less than "
  ++ itoa (Z.of_nat fullSize) ++ bs " (expected message size)".

(** The attribute loop of [Message.Decode]: [b] is what is left of the buffer,
    which starts at index [pos] of [Raw].  Every round consumes at least the
    header, so a fuel of [size] rounds is enough. *)
Fixpoint decode_loop (fuel size offset pos : nat) (b : bytes) : M unit := fun m =>
  if (offset <? size)%nat then
    match fuel with
    | O => (m, Panic OutOfFuel)
    | S fuel' =>
        if (length b <? attributeHeaderSize)%nat
        then (m, Err (newAttrDecodeErr (bs "header") (header_message (length b))))
        else
          let t := get16 b in
          let l := get16 (drop 2 b) in
          let aL := Z.to_nat l in
          let aBuffL := nearestPaddedValueLength aL in
          let b := drop attributeHeaderSize b in
          let offset := (offset + attributeHeaderSize)%nat in
          if (length b <? aBuffL)%nat
          then (m, Err (newAttrDecodeErr (bs "value") (value_message (length b) aBuffL t)))
          else
            let a := mkRawAttribute t l (Slice Live (pos + attributeHeaderSize) aL) in
            decode_loop fuel' size (offset + aBuffL) (pos + attributeHeaderSize + aBuffL)
              (drop aBuffL b) (set_Attributes (Some (attrs m ++ [a])) m)
    end
  else (m, Ok tt).

(** [m.Attributes = m.Attributes[:0]] *)
Definition truncate_attributes (m : Message) : Message :=
  set_Attributes (match Attributes m with None => None | Some _ => Some [] end) m.

(** [Message.Decode] *)
Definition Decode : M unit := fun m =>
  let buf := visible (Raw m) in
  match buf with
  | [] => (m, Panic IndexOutOfRange)
  | firstByte :: _ =>
      if Z.land (bz firstByte) 0x40 =? 0x40 then
        match reslice (array m) 2 4 with
        | Ok b =>
            if u16 (get16 b + 4) =? Z.of_nat (length buf)
            then (set_MType (NewType MethodChannelData ClassSuccessResponse) m, Ok tt)
            else (m, Err ErrFormatError)
        | Err e => (m, Err e)
        | Panic p => (m, Panic p)
        end
      else if negb (Z.land (bz firstByte) 0xC0 =? 0) then (m, Err ErrFormatError)
      else if (length buf <? messageHeaderSize)%nat then (m, Err ErrUnexpectedHeaderEOF)
      else
        let t := get16 buf in
        let size := Z.to_nat (get16 (drop 2 buf)) in
        let cookie := get32 (drop 4 buf) in
        let fullSize := (messageHeaderSize + size)%nat in
        if negb (cookie =? magicCookie)
        then (m, Err (newDecodeErr (bs "message") (bs "cookie") (cookie_message cookie)))
        else if (length buf <? fullSize)%nat
        then (m, Err (newAttrDecodeErr (bs "message") (size_message (length buf) fullSize)))
        else
          let m := set_MType (ReadValue t) m in
          let m := set_Length (Z.of_nat size) m in
          let m := set_TID (take 12 (drop 8 buf)) m in
          decode_loop size size 0 messageHeaderSize
            (take size (drop messageHeaderSize buf)) (truncate_attributes m)
  end.

(** [m.Raw = append(m.Raw[:n], v...)] *)
Definition append_raw (n : nat) (v : bytes) : M unit :=
  reslice_raw n;;;
  (fun m =>
     let '(b, o) := append (Raw m) v in
     (mkMessage (MType m) (Length m) (TID m) (map (moved_attr o) <$> Attributes m) b, Ok tt)).

(** A call that returns an error next to a value. *)
Definition with_error {A} (a : A) (c : M unit) : M (A * option error) := fun m =>
  match c m with
  | (m', Ok _) => (m', Ok (a, None))
  | (m', Err e) => (m', Ok (a, Some e))
  | (m', Panic p) => (m', Panic p)
  end.

(** [Message.Write] *)
Definition Write (tBuf : bytes) : M (nat * option error) :=
  append_raw 0 tBuf;;; with_error (length tBuf) Decode.

(** [Message.ReadFrom]: the reader gets a slice as long as the capacity of
    [Raw]; it fills a prefix of it and returns how much, or an error. *)
Definition ReadFrom (read : nat -> bytes * option error) : M (nat * option error) := fun m =>
  let '(data, err) := read (bcap (Raw m)) in
  let data := take (bcap (Raw m)) data in
  let m := set_Raw (write_at 0 data (Raw m)) m in
  match err with
  | Some e => (m, Ok (length data, Some e))
  | None =>
      if (length data =? 0)%nat then (m, Ok (0%nat, Some ErrUnexpectedHeaderEOF))
      else (reslice_raw (length data);;; with_error (length data) Decode) m
  end.

(** [m.CloneTo(b)], as a call on [b]: it appends to all of [b.Raw]. *)
Definition CloneTo (m : Message) : M unit := fun b =>
  (append_raw (blen (Raw b)) (visible (Raw m));;; Decode) b.

(** [Message.NewTransactionID]: [rnd] is what the random source delivers. *)
Definition NewTransactionID (rnd : bytes + error) : M unit := fun m =>
  match rnd with
  | inl b => WriteTransactionID (set_TID b m)
  | inr e => (m, Err e)
  end.

(** [m.WriteTo(w)]: the connection gets the bytes of [Raw]. *)
Definition WriteTo (m : Message) (write : bytes -> nat * option error) : nat * option error :=
  write (visible (Raw m)).

End WithRuntime.
