(* ===== verification/StunPacket.v ===== *)
(** The abstract STUN packet, its wire format, and the invariant that ties a
    [Message] to it.

    A packet is a type, a transaction id and a list of typed values.
    [encode_packet] is the wire format of RFC 5389 that the package is meant to
    produce; [well_formed] says that what a message shows in [Raw] is the wire
    format of its own fields.  [Add_spec], [WriteHeader_spec] and their like are
    the refinement lemmas the attribute files build on. *)
From stdpp Require Import base list sets strings.
From Stdlib Require Import ZArith Lia.
From S2P Require Import Prelude Wire GoFmt GoSlice StunTypes StunMessage.
Open Scope Z_scope.

(** * Packets *)

Record packet := Packet { p_type : MessageType; p_tid : bytes; p_attrs : list (Z * bytes) }.

Definition zeros (n : nat) : bytes := replicate n Byte.x00.
Definition pad_of (v : bytes) : bytes := zeros (nearestPaddedValueLength (length v) - length v).

Definition encode_attr (a : Z * bytes) : bytes :=
  put16 a.1 ++ put16 (Z.of_nat (length a.2)) ++ a.2 ++ pad_of a.2.
Definition encode_attrs (l : list (Z * bytes)) : bytes := l ≫= encode_attr.

Definition encode_header (t : MessageType) (l : Z) (tid : bytes) : bytes :=
  put16 (Value t) ++ put16 l ++ put32 magicCookie ++ tid.
Definition encode_packet (p : packet) : bytes :=
  encode_header (p_type p) (Z.of_nat (length (encode_attrs (p_attrs p)))) (p_tid p)
  ++ encode_attrs (p_attrs p).

(** What the wire format can carry: 16-bit attribute types, 16-bit lengths, a
    12-byte transaction id. *)
Definition packet_ok (p : packet) : Prop :=
  length (p_tid p) = TransactionIDSize /\
  Forall (fun a => 0 <= a.1 < 2 ^ 16) (p_attrs p) /\
  Z.of_nat (length (encode_attrs (p_attrs p))) < 2 ^ 16.

(** * The invariant of a message *)

Definition abs (m : Message) : packet :=
  Packet (MType m) (TID m) (map (fun a => (Type_ a, value_of m a)) (attrs m)).

(** A value either lies in the attribute part of the visible buffer or in an
    array that is no longer written. *)
Definition slice_ok (n : nat) (s : slice) : Prop :=
  match back s with
  | Live => (20 <= off s /\ off s + slen s <= n)%nat
  | Detached a => (off s + slen s <= length a)%nat
  end.

(** * Lengths *)

Lemma pad_length v : length (v ++ pad_of v) = nearestPaddedValueLength (length v).
Proof.
  unfold pad_of, zeros. rewrite length_app, length_replicate.
  destruct (padded_spec (length v)) as [? _]. lia.
Qed.

Lemma encode_attr_length a :
  length (encode_attr a) = (4 + nearestPaddedValueLength (length a.2))%nat.
Proof.
  unfold encode_attr. rewrite !app_assoc, <- (app_assoc _ a.2), length_app, pad_length. done.
Qed.

Lemma encode_attrs_app l1 l2 : encode_attrs (l1 ++ l2) = encode_attrs l1 ++ encode_attrs l2.
Proof. apply bind_app. Qed.

Lemma encode_attrs_cons a l : encode_attrs (a :: l) = encode_attr a ++ encode_attrs l.
Proof. done. Qed.

Lemma encode_attrs_singleton a : encode_attrs [a] = encode_attr a.
Proof. unfold encode_attrs. cbn. by rewrite app_nil_r. Qed.

Lemma encode_header_length t l tid :
  length tid = TransactionIDSize -> length (encode_header t l tid) = 20%nat.
Proof. intros H. unfold encode_header. rewrite !length_app, H. done. Qed.

(** * Stability of the attribute values

    A value reads the same in an array that agrees with the old one on the part
    it lies in. *)
Lemma contents_live_slice a n s :
  back s = Live -> (20 <= off s)%nat -> (off s + slen s <= n)%nat ->
  contents a s = take (slen s) (drop (off s - 20) (drop 20 (take n a))).
Proof.
  intros Hb H1 H2. unfold contents, backing_array. rewrite Hb.
  rewrite drop_drop. replace (20 + (off s - 20))%nat with (off s) by lia.
  rewrite skipn_firstn_comm, take_take. f_equal. lia.
Qed.

Lemma contents_stable a a' n s :
  slice_ok n s -> drop 20 (take n a') = drop 20 (take n a) -> contents a' s = contents a s.
Proof.
  unfold slice_ok. destruct (back s) eqn:Hb.
  - intros [H1 H2] Heq. by rewrite !(contents_live_slice _ n) by done || lia; rewrite Heq.
  - intros _ _. unfold contents, backing_array. by rewrite Hb.
Qed.

Lemma contents_moved a a' n o s :
  slice_ok n s -> drop 20 (take n a') = drop 20 (take n a) ->
  (forall old, o = Some old -> take n old = take n a) ->
  contents a' (moved o s) = contents a s.
Proof.
  intros Hs Ha Ho. destruct o as [old|]; [|by eapply contents_stable].
  unfold moved, detach. specialize (Ho old eq_refl).
  destruct (back s) eqn:Hb.
  - change (contents a' (Slice (Detached old) (off s) (slen s))) with
      (take (slen s) (drop (off s) old)).
    unfold slice_ok in Hs. rewrite Hb in Hs. destruct Hs as [H1 H2].
    transitivity (contents old s).
    { unfold contents, backing_array. by rewrite Hb. }
    apply (contents_stable _ _ n); [by unfold slice_ok; rewrite Hb|]. by rewrite Ho.
  - unfold contents, backing_array. by rewrite Hb.
Qed.

Lemma moved_slen o s : slen (moved o s) = slen s.
Proof. destruct o; [|done]. unfold moved, detach. by destruct (back s). Qed.

Lemma slice_ok_mono n n' s : (n <= n')%nat -> slice_ok n s -> slice_ok n' s.
Proof. unfold slice_ok. destruct (back s); lia. Qed.

Lemma moved_ok n n' o s a :
  slice_ok n s -> (n <= n')%nat -> (n <= length a)%nat ->
  (forall old, o = Some old -> take n old = take n a) -> slice_ok n' (moved o s).
Proof.
  intros Hs Hn Ha Ho. destruct o as [old|]; [|by apply (slice_ok_mono n)].
  specialize (Ho old eq_refl). unfold moved, detach. unfold slice_ok in *.
  destruct (back s) eqn:Hb; cbn; [|by rewrite Hb].
  apply (f_equal length) in Ho. rewrite !length_take in Ho. lia.
Qed.

Lemma contents_length a n s :
  slice_ok n s -> (n <= length a)%nat -> length (contents a s) = slen s.
Proof.
  unfold slice_ok, contents, backing_array. destruct (back s);
  rewrite length_take, length_drop; lia.
Qed.

Lemma fresh_ok n v : slice_ok n (fresh v).
Proof. unfold slice_ok, fresh. cbn. lia. Qed.

Lemma contents_fresh a v : contents a (fresh v) = v.
Proof. unfold contents, fresh, backing_array. cbn. by rewrite drop_0, firstn_all. Qed.

(** * The primitive writes

    [settled n m]: the attribute values lie below index [n], up to which the
    buffer is visible.  [same_views m m']: all that the fields show is kept. *)
Record settled (n : nat) (m : Message) : Prop := {
  st_buffer : buffer_ok (Raw m);
  st_blen : (n <= blen (Raw m))%nat;
  st_slices : Forall (fun a => slice_ok n (AValue a)) (attrs m);
  st_alengths : Forall (fun a => ALength a = u16 (Z.of_nat (slen (AValue a)))) (attrs m)
}.

Definition views (m : Message) : list (Z * Z * bytes) :=
  map (fun a => (Type_ a, ALength a, value_of m a)) (attrs m).

Record same_views (m m' : Message) : Prop := {
  sv_type : MType m' = MType m;
  sv_tid : TID m' = TID m;
  sv_length : Length m' = Length m;
  sv_views : views m' = views m
}.

Lemma same_views_refl m : same_views m m.
Proof. done. Qed.
Lemma same_views_trans m1 m2 m3 : same_views m1 m2 -> same_views m2 m3 -> same_views m1 m3.
Proof. intros [] []; split; congruence. Qed.

Lemma settled_mono n n' m : settled n m -> (n <= n' <= blen (Raw m))%nat -> settled n' m.
Proof.
  intros [? ? Hsl ?] ?; split; [done|lia| |done].
  eapply Forall_impl; [apply Hsl|]. intros a Ha. apply (slice_ok_mono n); [lia|done].
Qed.

Lemma views_moved n m a o :
  settled n m -> (forall old, o = Some old -> take n old = take n (array m)) ->
  drop 20 (take n a) = drop 20 (take n (array m)) ->
  map (fun x => (Type_ x, ALength x, contents a (AValue x))) (map (moved_attr o) (attrs m))
  = views m.
Proof.
  intros Hs Ho Ha. rewrite map_map. unfold views, value_of. apply map_ext_in.
  intros x Hx. cbn. f_equal. eapply contents_moved; [|done|done].
  destruct Hs as [_ _ Hsl _]. rewrite Forall_forall in Hsl. apply Hsl. by apply list_elem_of_In.
Qed.

Lemma views_kept n m m' :
  settled n m -> Attributes m' = Attributes m ->
  drop 20 (take n (array m')) = drop 20 (take n (array m)) -> views m' = views m.
Proof.
  intros Hs Hat Ha. pose proof (views_moved n m (array m') None Hs) as Hv.
  rewrite <- Hv by done. unfold views, attrs. rewrite Hat, map_map. done.
Qed.

Lemma put_spec n i v m :
  settled n m -> (n <= i)%nat -> (i + length v <= bcap (Raw m))%nat ->
  exists m', put i v m = (m', Ok tt) /\ settled n m' /\ same_views m m' /\
    Raw m' = write_at i v (Raw m) /\ Attributes m' = Attributes m.
Proof.
  intros Hs Hi Hle. unfold put. rewrite (proj2 (Nat.leb_le _ _) Hle).
  eexists; split; [done|]. destruct Hs as [Hb Hbl Hsl Hal]. unfold buffer_ok, bcap in *.
  assert (views (set_Raw (write_at i v (Raw m)) m) = views m) as Hv.
  { apply (views_kept n); [done|done|]. unfold array. cbn.
    by rewrite take_splice_before by lia. }
  split; [split; cbn; [|done|done|done]|split; [split; done|done]].
  unfold buffer_ok, bcap. cbn. rewrite splice_length; lia.
Qed.

(** A write into the header. *)
Lemma put_header_spec n i v m :
  settled n m -> (i + length v <= 20)%nat -> (i + length v <= blen (Raw m))%nat ->
  exists m', put i v m = (m', Ok tt) /\ settled n m' /\ same_views m m' /\
    visible (Raw m') = splice i v (visible (Raw m)) /\ blen (Raw m') = blen (Raw m) /\
    bcap (Raw m') = bcap (Raw m) /\ Attributes m' = Attributes m.
Proof.
  intros Hs Hi Hle. pose proof Hs as [Hb Hbl Hsl Hal]. unfold put, buffer_ok in *.
  rewrite (proj2 (Nat.leb_le _ _)) by lia. eexists; split; [done|].
  assert (bcap (write_at i v (Raw m)) = bcap (Raw m)) as Hc by (apply write_at_bcap; lia).
  split; [split; [unfold buffer_ok; cbn [Raw set_Raw]; by rewrite Hc|done..]|].
  split; [split; try done|].
  - apply (views_kept n); [done|done|]. unfold array. cbn [Raw set_Raw arr write_at].
    rewrite !skipn_firstn_comm. f_equal. unfold bcap in *. apply drop_splice_after; lia.
  - split_and!; [|done|done|done]. unfold visible. cbn [Raw set_Raw arr write_at blen].
    unfold bcap in *. apply take_splice_within; lia.
Qed.

Lemma reslice_spec n l m :
  settled n m -> (n <= l <= bcap (Raw m))%nat ->
  exists m', reslice_raw l m = (m', Ok tt) /\ settled n m' /\ same_views m m' /\
    Raw m' = Buffer (array m) l /\ Attributes m' = Attributes m.
Proof.
  intros Hs Hl. unfold reslice_raw, set_len. rewrite (proj2 (Nat.leb_le _ _)) by lia.
  eexists; split; [done|]. destruct Hs as [Hb Hbl Hsl Hal].
  split; [split; cbn; [|lia|done|done]|split; done].
  unfold buffer_ok, bcap in *. cbn. lia.
Qed.

Section Grow.
Context `{GoRuntime}.

Lemma grow_spec n k m :
  settled n m ->
  exists m' o, grow k m = (m', Ok o) /\ settled n m' /\ same_views m m' /\
    blen (Raw m') = (blen (Raw m) + k)%nat /\ (blen (Raw m') <= bcap (Raw m'))%nat /\
    take (blen (Raw m)) (array m') = visible (Raw m) /\
    (forall old, o = Some old -> take n old = take n (array m)) /\
    Attributes m' = map (moved_attr o) <$> Attributes m.
Proof.
  intros Hs. pose proof Hs as [Hb Hbl Hsl Hal]. unfold grow.
  pose proof (grow_buffer_spec k (Raw m) Hb) as Hg.
  destruct (grow_buffer k (Raw m)) as [b o]. destruct Hg as (Hb' & Hlen & Hvis & Hold).
  assert (take n (arr b) = take n (array m)) as Hta.
  { by apply (take_agree _ (blen (Raw m))). }
  assert (forall old, o = Some old -> take n old = take n (array m)) as Hto.
  { intros old Ho. apply (take_agree _ (blen (Raw m))); [done|]. by apply Hold. }
  set (m' := mkMessage _ _ _ _ b).
  assert (attrs m' = map (moved_attr o) (attrs m)) as Hat.
  { unfold attrs, m'. cbn. by destruct (Attributes m). }
  exists m', o. split; [done|]. split; [split|split; [split|]]; try done.
  - cbn. lia.
  - rewrite Hat, Forall_fmap. eapply Forall_impl; [apply Hsl|].
    intros x Hx. cbn. apply (moved_ok n n o _ (array m)); [done|done| |done].
    unfold buffer_ok, bcap in *. unfold array. lia.
  - rewrite Hat, Forall_fmap. eapply Forall_impl; [apply Hal|].
    intros x Hx. cbn. by rewrite moved_slen.
  - unfold views at 1, value_of. rewrite Hat.
    apply (views_moved n); [done|done|]. unfold array at 1, m'. cbn. by rewrite Hta.
Qed.
End Grow.

(** [copy] of consecutive pieces is one write. *)
Lemma splice_splice i (k1 k2 l : bytes) :
  (i + length k1 + length k2 <= length l)%nat ->
  splice (i + length k1) k2 (splice i k1 l) = splice i (k1 ++ k2) l.
Proof.
  intros Hle. unfold splice at 1.
  rewrite drop_splice_after by lia.
  unfold splice. rewrite !app_assoc.
  rewrite take_app_le by (rewrite length_app, length_take; lia).
  rewrite (take_ge (take i l ++ k1)) by (rewrite length_app, length_take; lia).
  rewrite <- !app_assoc. do 3 f_equal. rewrite length_app. f_equal. lia.
Qed.

Lemma take_splice_end i (k l : bytes) :
  (i + length k <= length l)%nat -> take (i + length k) (splice i k l) = take i l ++ k.
Proof.
  intros. unfold splice. rewrite app_assoc, take_app_length'; [done|].
  rewrite length_app, length_take. lia.
Qed.

Lemma put16_u16 z : put16 (u16 z) = put16 z.
Proof.
  unfold put16, u16. f_equal; [|f_equal]; apply bz_inj; rewrite !bz_zb.
  - rewrite !Z.shiftr_div_pow2 by lia. change (2 ^ 16) with 65536. change (2 ^ 8) with 256.
    Z.div_mod_to_equations. lia.
  - change (2 ^ 16) with 65536. Z.div_mod_to_equations. lia.
Qed.

Lemma u16_mod4 l : (u16 (Z.of_nat l) mod Z.of_nat padding =? 0) = (l mod 4 =? 0)%nat.
Proof.
  apply eq_bool_prop_intro. rewrite !Is_true_true, Z.eqb_eq, Nat.eqb_eq. unfold u16, padding.
  change (2 ^ 16) with 65536. change (Z.of_nat 4) with 4.
  assert (Z.of_nat l mod 65536 mod 4 = Z.of_nat l mod 4) as -> by (Z.div_mod_to_equations; lia).
  change 4 with (Z.of_nat 4). rewrite <- Nat2Z.inj_mod. lia.
Qed.

Lemma u32_add a b : u32 (u32 a + b) = u32 (a + b).
Proof. unfold u32. by rewrite Zplus_mod_idemp_l. Qed.

Lemma WriteLength_spec n m :
  settled n m -> (20 <= blen (Raw m))%nat ->
  exists m', WriteLength m = (m', Ok tt) /\ settled n m' /\ same_views m m' /\
    visible (Raw m') = splice 2 (put16 (Length m)) (visible (Raw m)) /\
    blen (Raw m') = blen (Raw m) /\ Attributes m' = Attributes m.
Proof.
  intros Hs Hb. unfold WriteLength. rewrite put16_u16.
  destruct (Nat.leb_spec (blen (Raw m)) 4) as [|_]; [lia|].
  destruct (put_header_spec n 2 (put16 (Length m)) m Hs)
    as (m' & ? & ? & ? & ? & ? & ? & ?); [rewrite put16_length; lia..|].
  by exists m'.
Qed.

Section Add.
Context `{GoRuntime}.

(** ** Writing one attribute *)

Lemma add_tlv_spec t v m n :
  settled n m -> blen (Raw m) = n -> n = (20 + Z.to_nat (Length m))%nat -> slice_ok n v ->
  exists m' attr, add_tlv t v m = (m', Ok (attr, (n + 4 + slen v)%nat)) /\ settled n m' /\
    attr = mkRawAttribute t (u16 (Z.of_nat (slen v))) (Slice Live (n + 4) (slen v)) /\
    MType m' = MType m /\ TID m' = TID m /\
    Length m' = u32 (Length m + Z.of_nat (4 + slen v)) /\ views m' = views m /\
    blen (Raw m') = (n + 4 + slen v)%nat /\
    visible (Raw m') = visible (Raw m) ++ put16 t ++ put16 (Z.of_nat (slen v))
                       ++ contents (array m) v.
Proof.
  intros Hs Hbl Hn Hv. unfold add_tlv, attributeHeaderSize, messageHeaderSize.
  rewrite <- Hn. cbn [ALength]. rewrite ?moved_slen. unfold st_bind at 1.
  destruct (grow_spec n (n + (4 + slen v)) m Hs)
    as (m1 & o & -> & Hs1 & Hsv1 & Hl1 & Hc1 & Hp1 & Ho & _).
  unfold st_bind at 1.
  destruct (reslice_spec n (n + (4 + slen v)) m1 Hs1) as (m2 & -> & Hs2 & Hsv2 & Hr2 & _);
    [lia|].
  unfold st_bind at 1, st_modify.
  set (m3 := set_Length _ m2).
  assert (settled n m3) as Hs3 by (destruct Hs2; by split).
  assert (bcap (Raw m3) = bcap (Raw m1)) as Hcap3.
  { unfold m3. cbn. by rewrite Hr2. }
  assert (MType m3 = MType m2 /\ TID m3 = TID m2 /\ views m3 = views m2 /\ Raw m3 = Raw m2
    /\ Length m3 = u32 (Length m2 + Z.of_nat (4 + slen v))) as (Ht3 & Htid3 & Hv3 & Hr3 & Hl3)
    by done.
  clearbody m3.
  unfold st_bind at 1.
  destruct (put_spec n n (put16 t) m3 Hs3) as (m4 & -> & Hs4 & Hsv4 & Hr4 & _);
    [lia|rewrite Hcap3, put16_length; lia|].
  assert (bcap (Raw m4) = bcap (Raw m1)) as Hcap4.
  { rewrite Hr4, write_at_bcap; [done|]. rewrite Hcap3, put16_length. lia. }
  unfold st_bind at 1.
  destruct (put_spec n (n + 2) (put16 (u16 (Z.of_nat (slen (moved o v))))) m4 Hs4)
    as (m5 & -> & Hs5 & Hsv5 & Hr5 & _); [lia|rewrite Hcap4, put16_length; lia|].
  assert (bcap (Raw m5) = bcap (Raw m1)) as Hcap5.
  { rewrite Hr5, write_at_bcap; [done|]. rewrite Hcap4, put16_length. lia. }
  unfold st_bind at 1, st_get.
  assert (array m5 = splice n (put16 t ++ put16 (Z.of_nat (slen v))) (array m1)) as Ha5.
  { unfold array. rewrite Hr5, Hr4, Hr3, Hr2. cbn [arr write_at].
    change (n + 2)%nat with (n + length (put16 t))%nat.
    rewrite splice_splice, moved_slen, put16_u16; [done|]. rewrite !put16_length.
    unfold bcap, array in *. lia. }
  assert (visible (Raw m) = take n (array m)) as Hvis by (unfold visible; by rewrite Hbl).
  rewrite Hbl in Hp1.
  assert (contents (array m5) (moved o v) = contents (array m) v) as HV.
  { apply (contents_moved _ _ n); [done| |done].
    rewrite Ha5, take_splice_before by (unfold bcap, array in *; lia).
    by rewrite Hp1, Hvis. }
  rewrite HV, !moved_slen.
  assert (length (contents (array m) v) = slen v) as HVl.
  { apply (contents_length _ n); [done|]. destruct Hs. unfold buffer_ok, bcap, array in *. lia. }
  unfold st_bind at 1.
  destruct (put_spec n (n + 4) (contents (array m) v) m5 Hs5) as (m6 & -> & Hs6 & Hsv6 & Hr6 & _);
    [lia|rewrite Hcap5, HVl; lia|].
  eexists m6, _. split; [by rewrite Nat.add_assoc|]. split; [done|]. split; [done|].
  destruct Hsv1, Hsv2, Hsv4, Hsv5, Hsv6.
  do 4 (split; [congruence|]).
  rewrite Hr6. unfold visible. cbn [blen arr write_at].
  assert (blen (Raw m5) = (n + (4 + slen v))%nat) as Hbl5.
  { by rewrite Hr5, Hr4, Hr3, Hr2. }
  rewrite Hbl5. split; [lia|].
  unfold array in Ha5. rewrite Ha5.
  change (n + 4)%nat with (n + length (put16 t ++ put16 (Z.of_nat (slen v))))%nat.
  rewrite splice_splice by (rewrite length_app, !put16_length, HVl; unfold bcap in *; cbn; lia).
  replace (n + (4 + slen v))%nat
    with (n + length ((put16 t ++ put16 (Z.of_nat (slen v))) ++ contents (array m) v))%nat
    by (rewrite !length_app, !put16_length, HVl; lia).
  rewrite take_splice_end by (rewrite !length_app, !put16_length, HVl; unfold bcap in *; lia).
  unfold array in Hp1. rewrite Hp1. unfold visible. by rewrite Hbl, <- app_assoc.
Qed.

Lemma add_padding_spec n attr m :
  settled n m -> blen (Raw m) = n -> slice_ok n (AValue attr) ->
  ALength attr = u16 (Z.of_nat (slen (AValue attr))) -> Length m = u32 (Length m) ->
  let lv := slen (AValue attr) in
  let k := (nearestPaddedValueLength lv - lv)%nat in
  exists m' attr', add_padding attr n m = (m', Ok attr') /\ settled n m' /\
    MType m' = MType m /\ TID m' = TID m /\ Length m' = u32 (Length m + Z.of_nat k) /\
    views m' = views m /\ blen (Raw m') = (n + k)%nat /\
    visible (Raw m') = visible (Raw m) ++ zeros k /\
    Type_ attr' = Type_ attr /\ ALength attr' = ALength attr /\
    slen (AValue attr') = lv /\ slice_ok n (AValue attr') /\
    value_of m' attr' = value_of m attr.
Proof.
  intros Hs Hbl Hok Hal Hlen lv k. unfold add_padding. rewrite Hal, u16_mod4.
  destruct (Nat.eqb_spec (slen (AValue attr) mod 4) 0) as [Hz|Hz].
  { assert (k = 0%nat) as -> by (unfold k, lv; rewrite padded_aligned by done; lia).
    exists m, attr. change (zeros 0) with (@nil byte).
    rewrite Z.add_0_r, Nat.add_0_r, app_nil_r. by split_and!. }
  fold lv. fold k. unfold st_bind at 1.
  destruct (grow_spec n (n + k) m Hs) as (m1 & o & -> & Hs1 & Hsv1 & Hl1 & Hc1 & Hp1 & Ho & _).
  unfold st_bind at 1. replace (n + k - k)%nat with n by lia.
  destruct (put_spec n n (replicate k Byte.x00) m1 Hs1) as (m2 & -> & Hs2 & Hsv2 & Hr2 & _);
    [lia|rewrite length_replicate; lia|].
  assert (bcap (Raw m2) = bcap (Raw m1)) as Hcap2.
  { rewrite Hr2, write_at_bcap; [done|]. rewrite length_replicate. lia. }
  unfold st_bind at 1.
  destruct (reslice_spec n (n + k) m2 Hs2) as (m3 & -> & Hs3 & Hsv3 & Hr3 & _); [lia|].
  unfold st_bind at 1, st_modify, st_ret.
  eexists _, _; split; [done|].
  assert (take n (array m3) = visible (Raw m)) as Hvis3.
  { unfold array. rewrite Hr3. unfold array. rewrite Hr2. cbn.
    rewrite take_splice_before by (unfold bcap in *; lia). by rewrite <- Hp1, Hbl. }
  assert (visible (Raw m) = take n (array m)) as Hvis by (unfold visible; by rewrite Hbl).
  destruct Hsv1, Hsv2, Hsv3. split; [by destruct Hs3|].
  cbn [MType TID Length set_Length]. do 3 (split; [congruence|]).
  split; [change (views m3 = views m); congruence|].
  cbn [Raw set_Length]. split; [by rewrite Hr3|]. split.
  { rewrite Hr3. unfold visible at 1, array. cbn [blen arr]. rewrite Hr2. cbn [arr write_at].
    replace (n + k)%nat with (n + length (replicate k Byte.x00))%nat
      by (rewrite length_replicate; lia).
    rewrite take_splice_end by (rewrite length_replicate; unfold bcap in *; lia).
    unfold array in Hp1. by rewrite <- Hp1, Hbl. }
  cbn [moved_attr Type_ ALength AValue]. rewrite moved_slen. do 3 (split; [done|]).
  split.
  - apply (moved_ok n n o _ (array m)); [done|done| |done].
    destruct Hs. unfold buffer_ok, bcap, array in *. lia.
  - unfold value_of. cbn [AValue]. apply (contents_moved _ _ n); [done| |done].
    change (array (set_Length _ m3)) with (array m3). by rewrite Hvis3, Hvis.
Qed.

(** [Add] appends the wire form of the attribute to the visible bytes, keeps
    what the other attributes show, and writes the new length in the header.
    Nothing of the old contents of the buffer is left in the padding. *)
Lemma Add_spec t v m n :
  settled n m -> blen (Raw m) = n -> n = (20 + Z.to_nat (Length m))%nat -> slice_ok n v ->
  let V := contents (array m) v in
  exists m', Add t v m = (m', Ok tt) /\
    MType m' = MType m /\ TID m' = TID m /\
    Length m' = u32 (Length m + Z.of_nat (length (encode_attr (t, V)))) /\
    views m' = views m ++ [(t, u16 (Z.of_nat (slen v)), V)] /\
    visible (Raw m') = splice 2 (put16 (Length m')) (visible (Raw m) ++ encode_attr (t, V)) /\
    blen (Raw m') = (n + length (encode_attr (t, V)))%nat /\
    settled (blen (Raw m')) m'.
Proof.
  intros Hs Hbl Hn Hv V. unfold Add. unfold st_bind at 1.
  destruct (add_tlv_spec t v m n Hs Hbl Hn Hv)
    as (m1 & attr & -> & Hs1 & -> & Ht1 & Htid1 & Hl1 & Hv1 & Hb1 & Hvis1).
  fold V in Hvis1. cbn [fst snd].
  assert (length V = slen v) as HVl.
  { apply (contents_length _ n); [done|]. destruct Hs. unfold buffer_ok, bcap, array in *. lia. }
  set (n1 := (n + 4 + slen v)%nat) in *. set (attr := mkRawAttribute _ _ _).
  assert (settled n1 m1) as Hs1' by (apply (settled_mono n); [done|unfold n1; lia]).
  unfold st_bind at 1.
  destruct (add_padding_spec n1 attr m1 Hs1' Hb1)
    as (m2 & attr' & -> & Hs2 & Ht2 & Htid2 & Hl2 & Hv2 & Hb2 & Hvis2 & Hat & Hal & Hsl & Hok & Hval);
    [unfold slice_ok, n1; cbn; lia|done|rewrite Hl1; unfold u32; by rewrite Zmod_mod|].
  assert (value_of m1 attr = V) as HV.
  { unfold value_of, contents, backing_array, attr. cbn [AValue back off slen].
    replace (slen v) with (n1 - (n + 4))%nat at 1 by (unfold n1; lia).
    rewrite <- skipn_firstn_comm.
    unfold visible in Hvis1. rewrite Hb1 in Hvis1. unfold array. rewrite Hvis1.
    rewrite app_assoc, app_assoc, drop_app_length'; [done|].
    rewrite !length_app, !put16_length, length_take. destruct Hs.
    unfold buffer_ok, bcap in *. lia. }
  unfold st_bind at 1, st_modify.
  set (k := (nearestPaddedValueLength (slen (AValue attr)) - slen (AValue attr))%nat) in *.
  set (m3 := set_Attributes _ m2).
  assert (length (encode_attr (t, V)) = (4 + slen v + k)%nat) as Hel.
  { rewrite encode_attr_length. cbn [snd]. rewrite HVl. unfold k, attr. cbn [slen AValue].
    destruct (padded_spec (slen v)). lia. }
  assert (settled (n1 + k) m3) as Hs3.
  { destruct Hs2 as [? ? Hsl2 Hal2]. split; [done|cbn; lia| |].
    - change (attrs m3) with (attrs m2 ++ [attr']). apply Forall_app; split.
      + eapply Forall_impl; [apply Hsl2|]. intros a Ha. apply (slice_ok_mono n1); [lia|done].
      + apply Forall_singleton. apply (slice_ok_mono n1); [lia|done].
    - change (attrs m3) with (attrs m2 ++ [attr']). apply Forall_app; split; [done|].
      apply Forall_singleton. by rewrite Hal, Hsl. }
  assert (visible (Raw m2) = visible (Raw m) ++ encode_attr (t, V)) as Hvis3.
  { rewrite Hvis2, Hvis1. unfold encode_attr. cbn [fst snd]. unfold pad_of. rewrite HVl.
    by rewrite <- !app_assoc. }
  destruct (WriteLength_spec (n1 + k) m3 Hs3) as (m4 & -> & Hs4 & Hsv4 & Hvis4 & Hb4 & _).
  { change (Raw m3) with (Raw m2). rewrite Hb2. unfold n1. lia. }
  change (Raw m3) with (Raw m2) in *. change (Length m3) with (Length m2) in *.
  destruct Hsv4. exists m4. split; [done|]. unfold m3 in *. cbn in sv_type0, sv_tid0, sv_length0.
  do 2 (split; [congruence|]).
  split; [rewrite sv_length0, Hl2, Hl1, u32_add, Hel; f_equal; lia|].
  split.
  { rewrite sv_views0. unfold views. change (attrs (set_Attributes (Some ?x) m2)) with x.
    rewrite map_app. f_equal; [change (views m2 = views m); congruence|].
    cbn. rewrite Hat, Hal. do 2 f_equal. rewrite <- HV. done. }
  split; [by rewrite Hvis4, Hvis3, sv_length0|].
  split; [rewrite Hb4, Hb2, Hel; unfold n1; lia|]. by rewrite Hb4, Hb2.
Qed.

End Add.

(** * The invariant of a message *)

Record well_formed (m : Message) : Prop := {
  wf_settled : settled (blen (Raw m)) m;
  wf_packet : packet_ok (abs m);
  wf_raw : visible (Raw m) = encode_packet (abs m);
  wf_length : Length m = Z.of_nat (length (encode_attrs (p_attrs (abs m))))
}.

Lemma abs_attrs m : p_attrs (abs m) = map (fun w => (w.1.1, w.2)) (views m).
Proof. unfold abs, views. cbn [p_attrs]. by rewrite map_map. Qed.

Lemma wf_blen m : well_formed m -> blen (Raw m) = (20 + Z.to_nat (Length m))%nat.
Proof.
  intros [[Hb _ _ _] [Htid _] Hraw Hl]. apply (f_equal length) in Hraw.
  unfold visible in Hraw. rewrite length_take in Hraw. unfold buffer_ok, bcap in Hb.
  unfold encode_packet in Hraw. rewrite length_app, encode_header_length in Hraw by done.
  rewrite Hl. lia.
Qed.

Lemma wf_Length m : well_formed m -> 0 <= Length m < 2 ^ 16.
Proof. intros [_ (_ & _ & ?) _ ->]. lia. Qed.

Lemma wf_visible_length m : well_formed m -> length (visible (Raw m)) = blen (Raw m).
Proof.
  intros [[Hb _ _ _] _ _ _]. unfold visible, buffer_ok, bcap in *. rewrite length_take. lia.
Qed.

(** A message is well formed when the four parts of the header and the
    attribute bytes are those of its fields. *)
Lemma well_formed_intro m p :
  settled (blen (Raw m)) m -> packet_ok p -> MType m = p_type p -> TID m = p_tid p ->
  map (fun w => (w.1.1, w.2)) (views m) = p_attrs p ->
  Length m = Z.of_nat (length (encode_attrs (p_attrs p))) ->
  visible (Raw m) = encode_packet p -> well_formed m /\ abs m = p.
Proof.
  intros Hs Hp Ht Htid Hv Hl Hraw. destruct p as [ty tid l]. cbn in *.
  assert (abs m = Packet ty tid l) as Ha.
  { rewrite <- Hv, <- abs_attrs, <- Ht, <- Htid. done. }
  split; [|done]. by split; rewrite ?Ha.
Qed.

(** Rewriting one part of the header. *)
Lemma splice_header_type t t' l tid r :
  splice 0 (put16 (Value t')) (encode_header t l tid ++ r) = encode_header t' l tid ++ r.
Proof. unfold encode_header. by rewrite <- !app_assoc. Qed.

Lemma splice_header_length t l l' tid r :
  splice 2 (put16 l') (encode_header t l tid ++ r) = encode_header t l' tid ++ r.
Proof. unfold encode_header. by rewrite <- !app_assoc. Qed.

Lemma splice_header_tid t l tid tid' r :
  length tid = TransactionIDSize -> length tid' = TransactionIDSize ->
  splice 8 tid' (encode_header t l tid ++ r) = encode_header t l tid' ++ r.
Proof.
  intros H1 H2. unfold encode_header. rewrite <- !app_assoc.
  change (put16 (Value t) ++ put16 l ++ put32 magicCookie ++ ?x)
    with ((put16 (Value t) ++ put16 l ++ put32 magicCookie) ++ x).
  rewrite <- (splice_app_mid _ tid r tid') by congruence. done.
Qed.

(** Writing all four parts over any twenty bytes. *)
Lemma splice_whole_header t l tid v :
  length v = 20%nat -> length tid = TransactionIDSize ->
  splice 8 tid (splice 4 (put32 magicCookie) (splice 2 (put16 l) (splice 0 (put16 (Value t)) v)))
  = encode_header t l tid.
Proof.
  intros Hv Htid. unfold TransactionIDSize in *.
  do 20 (destruct v as [|? v]; [done|]). destruct v; [|done].
  do 12 (destruct tid as [|? tid]; [done|]). destruct tid; [|done]. reflexivity.
Qed.

(** ** The writers of the header and [Add] keep the invariant *)

Definition with_type (t : MessageType) (p : packet) := Packet t (p_tid p) (p_attrs p).
Definition with_tid (tid : bytes) (p : packet) := Packet (p_type p) tid (p_attrs p).
Definition with_attr (a : Z * bytes) (p : packet) :=
  Packet (p_type p) (p_tid p) (p_attrs p ++ [a]).

Lemma settled_set_MType n t m : settled n m -> settled n (set_MType t m).
Proof. by intros []. Qed.
Lemma settled_set_TID n t m : settled n m -> settled n (set_TID t m).
Proof. by intros []. Qed.
Lemma settled_set_Length n t m : settled n m -> settled n (set_Length t m).
Proof. by intros []. Qed.

Lemma SetType_wf t m :
  well_formed m ->
  exists m', SetType t m = (m', Ok tt) /\ well_formed m' /\ abs m' = with_type t (abs m).
Proof.
  intros Hwf. pose proof (wf_blen m Hwf) as Hb. destruct Hwf as [Hs Hp Hraw Hl].
  unfold SetType, WriteType.
  destruct (put_header_spec (blen (Raw m)) 0 (put16 (Value t)) (set_MType t m))
    as (m' & Heq & Hs' & Hsv & Hvis & Hb' & _);
    [by apply settled_set_MType|rewrite put16_length; cbn; lia..|].
  destruct Hsv. exists m'. split; [done|].
  apply (well_formed_intro m' (with_type t (abs m))); cbn [p_type p_tid p_attrs with_type with_tid with_attr]; rewrite ?Hb'; try done.
  - rewrite sv_views0. exact (eq_sym (abs_attrs m)).
  - by rewrite sv_length0.
  - rewrite Hvis. cbn [Raw set_MType]. rewrite Hraw. unfold encode_packet. by rewrite splice_header_type.
Qed.

Lemma WriteTransactionID_wf tid m :
  well_formed m -> length tid = TransactionIDSize ->
  exists m', WriteTransactionID (set_TID tid m) = (m', Ok tt) /\ well_formed m' /\
    abs m' = with_tid tid (abs m).
Proof.
  intros Hwf Htid. pose proof (wf_blen m Hwf) as Hb. destruct Hwf as [Hs Hp Hraw Hl].
  unfold WriteTransactionID. cbn [TID set_TID].
  destruct (put_header_spec (blen (Raw m)) 8 tid (set_TID tid m))
    as (m' & Heq & Hs' & Hsv & Hvis & Hb' & _);
    [by apply settled_set_TID|rewrite Htid; cbn; unfold TransactionIDSize; lia..|].
  destruct Hsv, Hp as (Hp1 & Hp2 & Hp3). exists m'. split; [done|].
  apply (well_formed_intro m' (with_tid tid (abs m))); cbn [p_type p_tid p_attrs with_type with_tid with_attr]; rewrite ?Hb'; try done.
  - rewrite sv_views0. exact (eq_sym (abs_attrs m)).
  - by rewrite sv_length0.
  - rewrite Hvis. cbn [Raw set_TID]. rewrite Hraw. unfold encode_packet. by rewrite splice_header_tid.
Qed.

(** ** Messages in the middle of an operation

    [held m p l region rest]: the fields of [m] are [p], and its bytes are a
    header with the length field [l], the attribute part [region], and [rest].
    The checks and setters that put another length into the header for a while
    go through such states. *)
Record held (m : Message) (p : packet) (l : Z) (region rest : bytes) : Prop := {
  held_settled : settled (20 + length region) m;
  held_abs : abs m = p;
  held_tid : length (p_tid p) = TransactionIDSize;
  held_raw : visible (Raw m) = encode_header (p_type p) l (p_tid p) ++ region ++ rest
}.

Lemma well_formed_held m :
  well_formed m -> held m (abs m) (Length m) (encode_attrs (p_attrs (abs m))) [].
Proof.
  intros Hwf. pose proof (wf_blen m Hwf) as Hb. destruct Hwf as [Hs Hp Hraw Hl].
  rewrite Hl, Nat2Z.id in Hb. split; [by rewrite <- Hb|done|apply Hp|].
  rewrite Hraw, Hl, app_nil_r. done.
Qed.

Lemma held_blen m p l region rest :
  held m p l region rest -> blen (Raw m) = (20 + length region + length rest)%nat.
Proof.
  intros [[Hb _ _ _] _ Htid Hraw]. apply (f_equal length) in Hraw.
  unfold visible in Hraw. rewrite length_take in Hraw. unfold buffer_ok, bcap in Hb.
  rewrite !length_app, encode_header_length in Hraw by done. lia.
Qed.

Lemma held_write m p l l' region rest :
  held m p l region rest ->
  exists m', WriteLength (set_Length l' m) = (m', Ok tt) /\ held m' p l' region rest /\
    Length m' = l' /\ Attributes m' = Attributes m.
Proof.
  intros Hh. pose proof (held_blen _ _ _ _ _ Hh) as Hb. destruct Hh as [Hs Habs Htid Hraw].
  destruct (WriteLength_spec (20 + length region) (set_Length l' m))
    as (m' & Heq & Hs' & Hsv & Hvis & Hb' & Hat);
    [by apply settled_set_Length|cbn [Raw set_Length]; lia|].
  destruct Hsv. exists m'. split; [done|]. split; [|done]. split; [done| |done|].
  - rewrite <- Habs. destruct m. unfold abs in *. cbn in *. f_equal; try done.
    apply (f_equal (map (fun w : Z * Z * bytes => (w.1.1, w.2)))) in sv_views0.
    unfold views in sv_views0. rewrite !map_map in sv_views0. exact sv_views0.
  - rewrite Hvis. cbn [Raw set_Length Length]. rewrite Hraw. apply splice_header_length.
Qed.

Lemma held_set_Length m p l l' region rest :
  held m p l region rest -> held (set_Length l' m) p l region rest.
Proof. intros [Hs Habs Htid Hraw]. split; [by apply settled_set_Length|done..]. Qed.

Section WellFormedAdd.
Context `{GoRuntime}.

Lemma Add_held t v m p l :
  held m p l (encode_attrs (p_attrs p)) [] ->
  Length m = Z.of_nat (length (encode_attrs (p_attrs p))) ->
  slice_ok (blen (Raw m)) v ->
  packet_ok (with_attr (t, contents (array m) v) p) ->
  exists m', Add t v m = (m', Ok tt) /\ well_formed m' /\
    abs m' = with_attr (t, contents (array m) v) p.
Proof.
  intros Hh Hl Hv Hok. pose proof (held_blen _ _ _ _ _ Hh) as Hb.
  destruct Hh as [Hs Habs Htid Hraw]. cbn [length] in Hb. rewrite Nat.add_0_r in Hb.
  rewrite app_nil_r in Hraw.
  destruct (Add_spec t v m (20 + length (encode_attrs (p_attrs p))) Hs)
    as (m' & Heq & Ht & Hti & Hl' & Hv' & Hvis & Hb' & Hs');
    [done|by rewrite Hl, Nat2Z.id|by rewrite <- Hb|].
  exists m'. split; [done|].
  set (a := (t, contents (array m) v)) in *. pose proof Hok as (Hok1 & Hok2 & Hok3).
  cbn [p_attrs with_attr] in Hok3. rewrite encode_attrs_app, encode_attrs_singleton, length_app in Hok3.
  assert (Length m' = Length m + Z.of_nat (length (encode_attr a))) as HL'.
  { rewrite Hl', u32_id; [done|]. rewrite Hl. lia. }
  apply (well_formed_intro m' (with_attr a p)); [done|done|..]; cbn [p_type p_tid p_attrs with_attr].
  - by rewrite Ht, <- Habs.
  - by rewrite Hti, <- Habs.
  - rewrite Hv', map_app, <- abs_attrs, Habs. done.
  - rewrite encode_attrs_app, encode_attrs_singleton, length_app, HL', Hl. lia.
  - rewrite Hvis, Hraw. unfold encode_packet. rewrite <- app_assoc, splice_header_length.
    cbn [p_type p_tid p_attrs with_attr]. rewrite encode_attrs_app, encode_attrs_singleton.
    rewrite length_app, Nat2Z.inj_add, <- Hl, <- HL'. done.
Qed.

Lemma Add_wf t v m :
  well_formed m -> slice_ok (blen (Raw m)) v ->
  packet_ok (with_attr (t, contents (array m) v) (abs m)) ->
  exists m', Add t v m = (m', Ok tt) /\ well_formed m' /\
    abs m' = with_attr (t, contents (array m) v) (abs m).
Proof.
  intros Hwf Hv Hok. apply (Add_held t v m (abs m) (Length m)); try done.
  - by apply well_formed_held.
  - by destruct Hwf.
Qed.

(** [Add] of bytes that are not part of the message. *)
Lemma Add_fresh_wf t v m :
  well_formed m -> packet_ok (with_attr (t, v) (abs m)) ->
  exists m', Add t (fresh v) m = (m', Ok tt) /\ well_formed m' /\
    abs m' = with_attr (t, v) (abs m).
Proof.
  intros Hwf Hok. pose proof (Add_wf t (fresh v) m Hwf (fresh_ok _ v)) as Hadd.
  rewrite contents_fresh in Hadd. by apply Hadd.
Qed.

(** [WriteHeader] on a message that was reset, or whose buffer is new. *)
Lemma WriteHeader_wf m :
  buffer_ok (Raw m) -> blen (Raw m) = 0%nat -> attrs m = [] -> Length m = 0 ->
  length (TID m) = TransactionIDSize ->
  exists m', WriteHeader m = (m', Ok tt) /\ well_formed m' /\
    abs m' = Packet (MType m) (TID m) [].
Proof.
  intros Hb Hbl Hat Hl Htid. unfold WriteHeader, messageHeaderSize. rewrite Hbl.
  assert (settled 0 m) as Hs by (split; rewrite ?Hat; done || lia).
  unfold st_bind at 1. change (0 <? 20)%nat with true. cbn iota. unfold st_bind at 1.
  destruct (grow_spec 0 20 m Hs) as (m1 & o & -> & Hs1 & Hsv1 & Hl1 & Hc1 & _ & _ & Hat1).
  rewrite Hbl in Hl1. unfold st_bind at 1, st_get, st_ret. unfold st_bind at 1.
  rewrite (proj2 (Nat.leb_le _ _)) by lia.
  assert (views m1 = []) as Hv1.
  { destruct Hsv1. rewrite sv_views0. unfold views. by rewrite Hat. }
  assert (settled 20 m1) as Hs1' by (apply (settled_mono 0); [done|lia]).
  unfold st_bind at 1, WriteType.
  destruct (put_header_spec 20 0 (put16 (Value (MType m1))) m1 Hs1')
    as (m2 & -> & Hs2 & Hsv2 & Hvis2 & Hb2 & _); [rewrite put16_length; lia..|].
  unfold st_bind at 1.
  destruct (WriteLength_spec 20 m2 Hs2) as (m3 & -> & Hs3 & Hsv3 & Hvis3 & Hb3 & _); [lia|].
  unfold st_bind at 1.
  destruct (put_header_spec 20 4 (put32 magicCookie) m3 Hs3)
    as (m4 & -> & Hs4 & Hsv4 & Hvis4 & Hb4 & _); [rewrite put32_length; lia..|].
  unfold WriteTransactionID.
  destruct Hsv1, Hsv2, Hsv3, Hsv4.
  assert (TID m4 = TID m) as Htid4 by congruence. rewrite Htid4.
  destruct (put_header_spec 20 8 (TID m) m4 Hs4)
    as (m5 & -> & Hs5 & Hsv5 & Hvis5 & Hb5 & _); [rewrite Htid; unfold TransactionIDSize; lia..|].
  destruct Hsv5. exists m5. split; [done|].
  assert (blen (Raw m5) = 20%nat) as Hb5' by lia.
  apply (well_formed_intro m5 (Packet (MType m) (TID m) [])); cbn [p_type p_tid p_attrs with_type with_tid with_attr]; rewrite ?Hb5'; try congruence; try done.
  { replace (views m5) with (views m1) by congruence. by rewrite Hv1. }
  { change (Length m5 = 0). congruence. }
  rewrite Hvis5, Hvis4, Hvis3, Hvis2.
  assert (MType m1 = MType m) as -> by congruence.
  assert (Length m2 = 0) as -> by congruence.
  rewrite splice_whole_header; [unfold encode_packet; by rewrite app_nil_r| |done].
  unfold visible. rewrite length_take. unfold bcap in Hc1. lia.
Qed.

End WellFormedAdd.
