(* ===== verification/StunCodec.v ===== *)
(** Decoding is the inverse of the wire format.

    [parses] is the grammar of the attribute part of a message (RFC 5389
    section 15): the padding bytes of an input may be anything.  The loop of
    [Message.Decode] accepts exactly this grammar, always ends within its fuel,
    and leaves values that are views of [Raw]. *)
From stdpp Require Import base list sets strings.
From Stdlib Require Import ZArith Lia.
From S2P Require Import Prelude Wire GoFmt GoSlice StunTypes StunMessage StunPacket.
Open Scope Z_scope.

Inductive parses : bytes -> list (Z * bytes) -> Prop :=
| parses_nil : parses [] []
| parses_cons t v pad r l :
    0 <= t < 2 ^ 16 -> Z.of_nat (length v) < 2 ^ 16 ->
    (length v + length pad)%nat = nearestPaddedValueLength (length v) ->
    parses r l ->
    parses (put16 t ++ put16 (Z.of_nat (length v)) ++ v ++ pad ++ r) ((t, v) :: l).

Lemma encode_attrs_parses l :
  Forall (fun a => 0 <= a.1 < 2 ^ 16) l -> Z.of_nat (length (encode_attrs l)) < 2 ^ 16 ->
  parses (encode_attrs l) l.
Proof.
  induction 1 as [|[t v] l Ht Hl IH]; intros Hlen; [constructor|].
  rewrite encode_attrs_cons in Hlen |- *. rewrite length_app, encode_attr_length in Hlen.
  cbn [snd fst] in *. destruct (padded_spec (length v)).
  unfold encode_attr. cbn [fst snd]. rewrite <- !app_assoc.
  constructor; [done|lia| |apply IH; lia].
  rewrite <- pad_length, length_app. lia.
Qed.

Lemma parses_aligned b l : parses b l -> (length b mod 4 = 0)%nat.
Proof.
  induction 1 as [|t v pad r l Ht Hv Hp Hr IH]; [done|].
  rewrite !length_app, !put16_length. destruct (padded_spec (length v)) as [_ Hm].
  rewrite <- Hp in Hm. apply Nat.Div0.div_exact in IH. apply Nat.Div0.div_exact in Hm.
  apply Nat.Div0.div_exact.
  rewrite IH at 2. replace (2 + (2 + (length v + (length pad + 4 * (length r / 4)))))%nat
    with ((1 + (length v + length pad) / 4 + length r / 4) * 4)%nat by lia.
  rewrite Nat.div_mul by lia. lia.
Qed.

Lemma parses_short b l : (0 < length b < 4)%nat -> ~ parses b l.
Proof.
  intros Hb Hp. apply parses_aligned in Hp. rewrite Nat.mod_small in Hp; lia.
Qed.

(** The first attribute of the input, whatever follows. *)
Lemma parses_inv b l :
  parses b l -> (4 <= length b)%nat ->
  let n := Z.to_nat (get16 (drop 2 b)) in
  (nearestPaddedValueLength n <= length (drop 4 b))%nat /\
  exists l', l = (get16 b, take n (drop 4 b)) :: l' /\
    parses (drop (nearestPaddedValueLength n) (drop 4 b)) l'.
Proof.
  intros Hp Hb. destruct Hp as [|t v pad r l Ht Hv Hpad Hr]; [cbn in Hb; lia|].
  intros n.
  assert (n = length v) as Hn.
  { unfold n. rewrite drop_app_length' by done. rewrite get16_put16_app, u16_id; lia. }
  assert (drop 4 (put16 t ++ put16 (Z.of_nat (length v)) ++ v ++ pad ++ r) = v ++ pad ++ r)
    as -> by (rewrite app_assoc; by rewrite drop_app_length').
  rewrite Hn. split; [rewrite !length_app; lia|].
  exists l. rewrite get16_put16_app, u16_id, take_app_length by done. split; [done|].
  rewrite app_assoc, drop_app_length'; [done|]. rewrite length_app. lia.
Qed.

Lemma parses_intro b l :
  (4 <= length b)%nat ->
  let n := Z.to_nat (get16 (drop 2 b)) in
  (nearestPaddedValueLength n <= length (drop 4 b))%nat ->
  parses (drop (nearestPaddedValueLength n) (drop 4 b)) l ->
  parses b ((get16 b, take n (drop 4 b)) :: l).
Proof.
  intros Hb n Hn Hp. set (v := take n (drop 4 b)).
  pose proof (padded_spec n) as [Hpad _]. rewrite length_drop in Hn.
  assert (length v = n) as Hv by (unfold v; rewrite length_take, length_drop; lia).
  pose proof (get16_range (drop 2 b)) as Hr.
  set (pad := take (nearestPaddedValueLength n - n) (drop n (drop 4 b))).
  assert (b = put16 (get16 b) ++ put16 (Z.of_nat (length v)) ++ v ++ pad
            ++ drop (nearestPaddedValueLength n) (drop 4 b)) as Heq.
  { rewrite Hv. unfold n at 1. rewrite Z2Nat.id by lia.
    unfold v, pad. rewrite (app_assoc (take n _)), <- take_drop_split by lia.
    rewrite take_drop. destruct b as [|b0 [|b1 [|b2 [|b3 b]]]]; cbn in Hb; try lia.
    cbn [drop]. by rewrite !put16_get16. }
  rewrite Heq at 1. constructor; [apply get16_range|rewrite Hv; lia| |done].
  rewrite Hv. unfold pad. rewrite length_take, !length_drop. lia.
Qed.

(** * The attribute loop *)

(** What the loop leaves: the header fields and the buffer as they were, and
    the attributes extended by views of the bytes from [pos] on. *)
Definition view_at (pos n : nat) (m : Message) (a : RawAttribute) (w : Z * bytes) : Prop :=
  Type_ a = w.1 /\ ALength a = Z.of_nat (length w.2) /\ ALength a < 2 ^ 16 /\
  value_of m a = w.2 /\
  back (AValue a) = Live /\ slen (AValue a) = length w.2 /\
  (pos <= off (AValue a) /\ off (AValue a) + slen (AValue a) <= pos + n)%nat.

Lemma view_at_mono pos n pos' n' m a w :
  (pos' <= pos)%nat -> (pos + n <= pos' + n')%nat -> view_at pos n m a w -> view_at pos' n' m a w.
Proof. unfold view_at. intros ?? (?&?&?&?&?&?&?). split_and!; try done; lia. Qed.

Lemma decode_loop_spec fuel offset pos b m :
  (length b <= fuel)%nat -> b = take (length b) (drop pos (array m)) ->
  (exists l new m', parses b l /\
     decode_loop fuel (offset + length b) offset pos b m = (m', Ok tt) /\
     MType m' = MType m /\ Length m' = Length m /\ TID m' = TID m /\ Raw m' = Raw m /\
     attrs m' = attrs m ++ new /\ Forall2 (view_at pos (length b) m) new l) \/
  (exists m' e, (forall l, ~ parses b l) /\
     decode_loop fuel (offset + length b) offset pos b m = (m', Err e)).
Proof.
  revert offset pos b m. induction fuel as [|fuel IH]; intros offset pos b m Hf Hb.
  { left. destruct b; [|cbn in Hf; lia]. exists [], [], m. cbn [length].
    rewrite Nat.add_0_r, app_nil_r. unfold decode_loop. rewrite Nat.ltb_irrefl.
    split_and!; done || constructor. }
  cbn [decode_loop]. destruct (Nat.ltb_spec offset (offset + length b)) as [Hlt|Hge].
  2:{ left. destruct b; [|cbn in Hge; lia]. exists [], [], m. rewrite app_nil_r.
      split_and!; done || constructor. }
  unfold attributeHeaderSize. destruct (Nat.ltb_spec (length b) 4) as [Hs|H4].
  { right. eexists _, _. split; [|done]. intros l. apply parses_short. lia. }
  set (n := Z.to_nat (get16 (drop 2 b))).
  destruct (Nat.ltb_spec (length (drop 4 b)) (nearestPaddedValueLength n)) as [Hv|Hv].
  { right. eexists _, _. split; [|done]. intros l Hp.
    apply parses_inv in Hp as [Hp _]; [|done]. fold n in Hp. lia. }
  set (P := nearestPaddedValueLength n) in *. set (a := mkRawAttribute _ _ _).
  set (m1 := set_Attributes _ m).
  pose proof (padded_spec n) as [Hpad _]. fold P in Hpad.
  pose proof (get16_range (drop 2 b)) as Hr. rewrite length_drop in Hv.
  assert (view_at pos (length b) m a (get16 b, take n (drop 4 b))) as Hview.
  { assert (length (take n (drop 4 b)) = n) as Hln by (rewrite length_take, length_drop; lia).
    unfold view_at, a. cbn [Type_ ALength AValue fst snd back off slen]. rewrite Hln.
    split_and!; try done; try lia. unfold value_of, contents, backing_array.
    cbn [AValue back off slen]. rewrite Hb, skipn_firstn_comm, drop_drop, take_take.
    f_equal. lia. }
  replace (offset + length b)%nat
    with (offset + 4 + P + length (drop P (drop 4 b)))%nat by (rewrite !length_drop; lia).
  destruct (IH (offset + 4 + P)%nat (pos + 4 + P)%nat (drop P (drop 4 b)) m1)
    as [(l & new & m' & Hp & Heq & Ht & Hl & Htid & Hraw & Hat & Hall)|(m' & e & Hno & Heq)].
  - rewrite !length_drop. lia.
  - rewrite !length_drop. change (array m1) with (array m). rewrite Hb at 1.
    rewrite !skipn_firstn_comm, !drop_drop. do 2 f_equal; lia.
  - left. exists ((get16 b, take n (drop 4 b)) :: l), (a :: new), m'.
    split; [apply parses_intro; [done|rewrite length_drop; done|done]|]. split; [done|].
    do 4 (split; [done|]). split; [by rewrite Hat; unfold m1, attrs; cbn; rewrite <- app_assoc|].
    constructor; [done|]. eapply Forall2_impl; [exact Hall|]. intros x w Hx.
    eapply view_at_mono; [| |exact Hx]; rewrite ?length_drop; lia.
  - right. exists m', e. split; [|done]. intros l Hp.
    apply parses_inv in Hp as (_ & l' & _ & Hp); [|done]. by apply (Hno l').
Qed.

(** * The whole message

    [wire buf p]: the buffer starts with a message whose fields are [p]. *)
Definition wire (buf : bytes) (p : packet) : Prop :=
  exists region rest,
    buf = encode_header (p_type p) (Z.of_nat (length region)) (p_tid p) ++ region ++ rest /\
    parses region (p_attrs p) /\ type_ok (p_type p) /\ length (p_tid p) = TransactionIDSize /\
    Z.of_nat (length region) < 2 ^ 16.

Lemma encode_packet_wire p rest :
  packet_ok p -> type_ok (p_type p) -> wire (encode_packet p ++ rest) p.
Proof.
  intros (Htid & Ht & Hlen) Hty. exists (encode_attrs (p_attrs p)), rest.
  unfold encode_packet. rewrite <- app_assoc. split_and!; try done.
  by apply encode_attrs_parses.
Qed.

Lemma first_bits b : (Z.land (bz b) 0xC0 =? 0) = (bz b <? 64).
Proof. by destruct b. Qed.

Lemma channel_bit b : bz b < 64 -> (Z.land (bz b) 0x40 =? 0x40) = false.
Proof. destruct b; by try (intros [=]). Qed.

Record header_of (buf : bytes) (t : MessageType) (l : Z) (tid : bytes) : Prop := {
  hd_length : (20 <= length buf)%nat;
  hd_type : get16 buf = Value t;
  hd_size : get16 (drop 2 buf) = l;
  hd_cookie : get32 (drop 4 buf) = magicCookie;
  hd_tid : take 12 (drop 8 buf) = tid
}.

Lemma encode_header_of t l tid r :
  0 <= l < 2 ^ 16 -> length tid = TransactionIDSize ->
  header_of (encode_header t l tid ++ r) t l tid.
Proof.
  intros Hl Htid. pose proof (Value_range t). unfold encode_header. split.
  - rewrite !length_app, Htid, !put16_length, put32_length. unfold TransactionIDSize. lia.
  - rewrite <- !app_assoc, get16_put16_app, u16_id; done.
  - rewrite <- !app_assoc, drop_app_length' by done. rewrite get16_put16_app, u16_id; done.
  - rewrite <- !app_assoc, (app_assoc (put16 _)), drop_app_length' by done.
    by rewrite get32_put32_app.
  - rewrite <- !app_assoc, (app_assoc (put16 _)), (app_assoc (_ ++ _)).
    rewrite drop_app_length' by done. by rewrite take_app_length'.
Qed.

Lemma header_of_encode buf :
  (20 <= length buf)%nat -> get32 (drop 4 buf) = magicCookie ->
  get16 buf < 2 ^ 14 ->
  exists t tid, header_of buf t (get16 (drop 2 buf)) tid /\ t = ReadValue (get16 buf) /\
    type_ok t /\ length tid = TransactionIDSize /\
    buf = encode_header t (get16 (drop 2 buf)) tid ++ drop 20 buf.
Proof.
  intros Hl Hc Ht. pose proof (get16_range buf).
  destruct (Value_ReadValue (get16 buf)) as [Hv Hty]; [lia|].
  exists (ReadValue (get16 buf)), (take 12 (drop 8 buf)).
  do 20 (destruct buf as [|? buf]; [cbn in Hl; lia|]).
  split; [by split|]. split; [done|]. split; [done|]. split; [done|].
  cbn [drop take]. unfold encode_header. rewrite Hv, !put16_get16.
  cbn [drop] in Hc. rewrite <- Hc, put32_get32. done.
Qed.

Lemma get16_first b0 b1 r : bz b0 < 64 <-> get16 (b0 :: b1 :: r) < 2 ^ 14.
Proof. rewrite get16_eq. pose proof (bz_range b0). pose proof (bz_range b1). lia. Qed.

(** What a successful [Decode] leaves. *)
Record decoded (m m' : Message) (p : packet) : Prop := {
  dc_raw : Raw m' = Raw m;
  dc_abs : abs m' = p;
  dc_length : (20 + Z.to_nat (Length m') <= blen (Raw m))%nat;
  dc_size : Length m' = get16 (drop 2 (visible (Raw m)));
  dc_settled : settled (20 + Z.to_nat (Length m')) m'
}.

Lemma decode_attributes_spec m t size tid region rest :
  buffer_ok (Raw m) -> length tid = TransactionIDSize ->
  visible (Raw m) = encode_header t (Z.of_nat size) tid ++ region ++ rest ->
  length region = size -> Z.of_nat size < 2 ^ 16 ->
  let m1 := truncate_attributes (set_TID tid (set_Length (Z.of_nat size) (set_MType t m))) in
  (exists l m', parses region l /\ decode_loop size size 0 20 region m1 = (m', Ok tt) /\
     decoded m m' (Packet t tid l)) \/
  (exists m' e, (forall l, ~ parses region l) /\
     decode_loop size size 0 20 region m1 = (m', Err e)).
Proof.
  intros Hb Htid Hvis Hsize Hlt m1.
  assert (attrs m1 = []) as Hat by (unfold m1, attrs; cbn; by destruct (Attributes m)).
  assert (20 + size <= blen (Raw m))%nat as Hle.
  { apply (f_equal length) in Hvis. unfold visible in Hvis.
    rewrite length_take, !length_app, encode_header_length in Hvis by done. lia. }
  destruct (decode_loop_spec size 0 20 region m1)
    as [(l & new & m' & Hp & Heq & Ht & Hl & Hti & Hraw & Hatt & Hall)|(m' & e & Hno & Heq)].
  - lia.
  - change (array m1) with (array m).
    assert (region ++ rest = take (blen (Raw m) - 20) (drop 20 (array m))) as Hrr.
    { rewrite <- skipn_firstn_comm. change (take (blen (Raw m)) (array m)) with (visible (Raw m)).
      rewrite Hvis, drop_app_length'; [done|]. by rewrite encode_header_length. }
    apply (f_equal (take size)) in Hrr. rewrite take_app_length', take_take in Hrr by done.
    rewrite Nat.min_l in Hrr by lia. by rewrite Hsize.
  - rewrite Hsize in Heq. left. exists l, m'. split; [done|]. split; [done|].
    rewrite Hat in Hatt. cbn [app] in Hatt. subst new.
    assert (array m' = array m) as Ha by (unfold array; by rewrite Hraw).
    split; [done| | | |]; rewrite ?Hl; cbn [Length m1 truncate_attributes set_Attributes set_TID set_Length];
      rewrite ?Nat2Z.id; [|done| |].
    + unfold abs. rewrite Ht, Hti. cbn. f_equal. clear -Hall Ha.
      induction Hall as [|a [ty v] new l (H1 & _ & _ & H2 & _) Hall IH]; [done|].
      cbn. rewrite IH. cbn in H1, H2. unfold value_of in *.
      change (array m1) with (array m) in H2. by rewrite Ha, H1, H2.
    + rewrite Hvis. symmetry. apply (hd_size _ t _ tid). by apply encode_header_of; [lia|].
    + split; [by rewrite Hraw|rewrite Hraw; cbn; lia| |].
      * rewrite Hsize in Hall. eapply Forall2_Forall_l; [exact Hall|].
        apply Forall_true. intros w a (_ & _ & _ & _ & Hbk & _ & Hoff). unfold slice_ok. by rewrite Hbk.
      * eapply Forall2_Forall_l; [exact Hall|].
        apply Forall_true. intros w a (_ & HAL & Hlim & _ & _ & Hsl & _).
        rewrite Hsl, HAL, u16_id; lia.
  - right. exists m', e. split; [done|]. by rewrite Hsize in Heq.
Qed.

Definition is_channel_data (buf : bytes) : bool :=
  match buf with b :: _ => Z.land (bz b) 0x40 =? 0x40 | [] => false end.

Lemma wire_header buf p :
  wire buf p ->
  exists l, header_of buf (p_type p) l (p_tid p) /\ get16 buf < 2 ^ 14 /\
    (20 + Z.to_nat l <= length buf)%nat.
Proof.
  intros (region & rest & -> & _ & Hty & Htid & Hlen). exists (Z.of_nat (length region)).
  split; [apply encode_header_of; [lia|done]|]. split.
  - pose proof (Value_type_ok _ Hty). unfold encode_header.
    rewrite <- !app_assoc, get16_put16_app, u16_id; lia.
  - rewrite !length_app, encode_header_length by done. lia.
Qed.

Lemma wire_region buf p :
  wire buf p -> parses (take (Z.to_nat (get16 (drop 2 buf))) (drop 20 buf)) (p_attrs p) /\
    p_type p = ReadValue (get16 buf) /\ p_tid p = take 12 (drop 8 buf).
Proof.
  intros Hw. destruct (wire_header _ _ Hw) as (l & [H20 Ht Hl Hc Htid] & _).
  destruct Hw as (region & rest & -> & Hp & Hty & Htidl & Hlen).
  rewrite Hl. rewrite drop_app_length' by (by rewrite encode_header_length).
  assert (Z.to_nat l = length region) as ->.
  { destruct (encode_header_of (p_type p) (Z.of_nat (length region)) (p_tid p) (region ++ rest));
      [lia|done|]. rewrite <- Hl, hd_size0. lia. }
  rewrite take_app_length. split; [done|]. rewrite Ht, Htid. by rewrite ReadValue_Value.
Qed.

(** [Decode] of a STUN message: it accepts exactly the wire format, and then
    the fields are those on the wire; otherwise it returns an error.  It never
    panics and never runs out of fuel. *)
Lemma Decode_decides m :
  buffer_ok (Raw m) -> visible (Raw m) <> [] -> is_channel_data (visible (Raw m)) = false ->
  (exists p m', wire (visible (Raw m)) p /\ Decode m = (m', Ok tt) /\ decoded m m' p) \/
  (exists m' e, (forall p, ~ wire (visible (Raw m)) p) /\ Decode m = (m', Err e)).
Proof.
  intros Hb Hne Hch. unfold Decode. set (buf := visible (Raw m)) in *.
  destruct buf as [|b0 buf'] eqn:Hbuf; [done|]. rewrite <- Hbuf in *.
  replace (Z.land (bz b0) 64 =? 64) with false by (by rewrite Hbuf in Hch).
  rewrite first_bits. destruct (Z.ltb_spec (bz b0) 64) as [Hb0|Hb0]; cbn [negb].
  2:{ right. eexists _, _; split; [|done]. intros p Hw.
      destruct (wire_header _ _ Hw) as (l & [H20 _ _ _ _] & H14 & _).
      rewrite Hbuf in *. destruct buf' as [|b1 r]; [cbn in H20; lia|].
      apply get16_first in H14. lia. }
  unfold messageHeaderSize. destruct (Nat.ltb_spec (length buf) 20) as [Hs|Hs].
  { right. eexists _, _; split; [|done]. intros p Hw.
    destruct (wire_header _ _ Hw) as (l & [H20 _ _ _ _] & _). lia. }
  destruct (Z.eqb_spec (get32 (drop 4 buf)) magicCookie) as [Hc|Hc]; cbn [negb].
  2:{ right. eexists _, _; split; [|done]. intros p Hw.
      by destruct (wire_header _ _ Hw) as (l & [] & _). }
  set (size := Z.to_nat (get16 (drop 2 buf))).
  destruct (Nat.ltb_spec (length buf) (20 + size)) as [Hf|Hf].
  { right. eexists _, _; split; [|done]. intros p Hw.
    destruct (wire_header _ _ Hw) as (l & [_ _ Hl _ _] & _ & Hle). unfold size in Hf.
    rewrite Hl in Hf. lia. }
  assert (get16 buf < 2 ^ 14) as H14.
  { rewrite Hbuf in *. destruct buf' as [|b1 r]; [cbn in Hs; lia|]. by apply get16_first. }
  destruct (header_of_encode buf Hs Hc H14) as (t & tid & Hh & Ht & Hty & Htid & Heq).
  pose proof (get16_range (drop 2 buf)) as Hr.
  assert (take 12 (drop 8 buf) = tid) as -> by (by destruct Hh). rewrite <- Ht.
  destruct (decode_attributes_spec m t size tid (take size (drop 20 buf)) (drop size (drop 20 buf)))
    as [(l & m' & Hp & Hd & Hdec)|(m' & e & Hno & Hd)]; try done.
  - rewrite take_drop. unfold size. rewrite Z2Nat.id by lia. done.
  - rewrite length_take, length_drop. lia.
  - unfold size. lia.
  - left. exists (Packet t tid l), m'. split; [|done].
    exists (take size (drop 20 buf)), (drop size (drop 20 buf)). cbn [p_type p_tid p_attrs].
    rewrite take_drop, length_take, length_drop, Nat.min_l by lia.
    unfold size. rewrite Z2Nat.id by lia. split_and!; try done. lia.
  - right. exists m', e. split; [|done]. intros p Hw.
    destruct (wire_region _ _ Hw) as (Hp & _). by apply (Hno (p_attrs p)).
Qed.

Lemma parses_functional b l l' : parses b l -> parses b l' -> l = l'.
Proof.
  intros Hp. revert l'. remember (length b) as n eqn:Hn.
  revert b l Hn Hp. induction n as [n IH] using lt_wf_ind. intros b l Hn Hp l' Hp'.
  destruct (decide (length b < 4)%nat) as [Hlt|Hge].
  - destruct (decide (length b = 0)%nat) as [H0|H0].
    + destruct b; [|done]. inversion Hp; inversion Hp'; done.
    + destruct (parses_short b l); [lia|done].
  - apply parses_inv in Hp as (Hle & t & -> & Ht); [|lia].
    apply parses_inv in Hp' as (_ & t' & -> & Ht'); [|lia].
    f_equal. eapply (IH (length (drop _ (drop 4 b)))); [|done|exact Ht|exact Ht']. rewrite !length_drop. lia.
Qed.

Lemma wire_unique buf p q : wire buf p -> wire buf q -> p = q.
Proof.
  intros Hp Hq. apply wire_region in Hp as (Hp & Hpt & Hpi). apply wire_region in Hq as (Hq & Hqt & Hqi).
  destruct p, q. cbn in *. f_equal; [congruence|congruence|]. by eapply parses_functional.
Qed.

(** Decoding what is on the wire. *)
Lemma Decode_wire m p :
  buffer_ok (Raw m) -> wire (visible (Raw m)) p ->
  exists m', Decode m = (m', Ok tt) /\ decoded m m' p.
Proof.
  intros Hb Hw. destruct (wire_header _ _ Hw) as (l & [H20 _ _ _ _] & H14 & _).
  destruct (Decode_decides m Hb) as [(q & m' & Hq & Hd & Hdec)|(m' & e & Hno & _)].
  - intros Heq. rewrite Heq in H20. cbn in H20. lia.
  - destruct (visible (Raw m)) as [|b0 [|b1 r]]; [done|cbn in H20; lia|].
    apply get16_first in H14. by apply channel_bit.
  - rewrite (wire_unique _ _ _ Hw Hq). by exists m'.
  - by destruct (Hno p).
Qed.

(** A decoded message is well formed when nothing follows it in the buffer and
    its padding bytes are zero. *)
Lemma decoded_well_formed m m' p :
  buffer_ok (Raw m) -> packet_ok p -> type_ok (p_type p) ->
  visible (Raw m) = encode_packet p -> decoded m m' p -> well_formed m'.
Proof.
  intros Hb Hok Hty Hvis [Hraw Habs Hle Hsize Hs].
  assert (blen (Raw m) = length (encode_packet p)) as Hbl.
  { rewrite <- Hvis. unfold visible. rewrite length_take. unfold buffer_ok, bcap in Hb. lia. }
  unfold encode_packet in Hbl. pose proof Hok as (Htid & _ & Hlen).
  rewrite length_app, encode_header_length in Hbl by done.
  assert (Length m' = Z.of_nat (length (encode_attrs (p_attrs p)))) as Hl.
  { rewrite Hsize, Hvis. unfold encode_packet.
    apply (hd_size _ (p_type p) _ (p_tid p)). by apply encode_header_of; [lia|]. }
  rewrite Hl, Nat2Z.id, <- Hbl in Hs.
  split; rewrite ?Habs, ?Hraw; done.
Qed.

(** * Received messages

    A message as the receiver holds it: its attribute part follows the grammar,
    with any padding, and more bytes may follow. *)
Record received (m : Message) (p : packet) (region rest : bytes) : Prop := {
  rc_held : held m p (Z.of_nat (length region)) region rest;
  rc_parses : parses region (p_attrs p);
  rc_length : Length m = Z.of_nat (length region);
  rc_small : Z.of_nat (length region) < 2 ^ 16
}.

Lemma decoded_received m m' p :
  wire (visible (Raw m)) p -> decoded m m' p -> exists region rest, received m' p region rest.
Proof.
  intros (region & rest & Hvis & Hp & Hty & Htid & Hlen) [Hraw Habs Hle Hsize Hs].
  assert (Length m' = Z.of_nat (length region)) as Hl.
  { rewrite Hsize, Hvis. apply (hd_size _ (p_type p) _ (p_tid p)).
    by apply encode_header_of; [lia|]. }
  exists region, rest. split; try done. split; [|done|done|by rewrite Hraw].
  by rewrite Hl, Nat2Z.id in Hs.
Qed.

Lemma well_formed_received m :
  well_formed m -> received m (abs m) (encode_attrs (p_attrs (abs m))) [].
Proof.
  intros Hwf. pose proof (well_formed_held m Hwf) as Hh. destruct Hwf as [Hs (H1 & H2 & H3) Hraw Hl].
  split; [by rewrite <- Hl|by apply encode_attrs_parses|done|done].
Qed.

(** Cutting the attribute part at an attribute. *)
Lemma parses_app_inv region l1 l2 :
  parses region (l1 ++ l2) -> exists r1 r2, region = r1 ++ r2 /\ parses r1 l1 /\ parses r2 l2.
Proof.
  revert region. induction l1 as [|a l1 IH]; intros region Hp.
  { exists [], region. split; [done|]. split; [constructor|done]. }
  inversion Hp as [|t v pad r l Ht Hv Hpad Hr Heq1 Heq2]. subst.
  destruct (IH r Hr) as (r1 & r2 & -> & H1 & H2).
  exists (put16 t ++ put16 (Z.of_nat (length v)) ++ v ++ pad ++ r1), r2.
  split; [by rewrite <- !app_assoc|]. split; [by constructor|done].
Qed.

(** The bytes that the attributes of a list take. *)
Definition attrs_size (l : list (Z * bytes)) : nat :=
  sum_list (map (fun a => 4 + nearestPaddedValueLength (length a.2))%nat l).

Lemma parses_size region l : parses region l -> length region = attrs_size l.
Proof.
  induction 1 as [|t v pad r l Ht Hv Hpad Hr IH]; [done|].
  rewrite !length_app, !put16_length, IH. unfold attrs_size.
  cbn [map snd]. rewrite <- Hpad. cbn. lia.
Qed.
