(* ===== verification/StunBuild.v ===== *)
(** Building and reading a message with setters, checkers and getters:
    [src/stun/helpers.go], the setters of [src/stun/message.go] and
    [src/stun/stun.go].

    [Implements s f] is the interface the attribute files discharge: on a well
    formed message the setter [s] does what [f] does to the abstract packet, and
    leaves the message well formed.  [Build] is proved against that interface
    only. *)
From stdpp Require Import base list sets strings.
From Stdlib Require Import ZArith Lia.
From S2P Require Import Prelude Wire GoFmt GoSlice StunTypes StunMessage StunPacket StunCodec.
Open Scope Z_scope.

(** * Operations *)

Section Operations.
Context `{GoRuntime}.

(** [for _, s := range setters { if err := s.AddTo(m) ... }] *)
Fixpoint add_all (setters : list (M unit)) : M unit :=
  match setters with
  | [] => st_ret tt
  | s :: setters' => s;;; add_all setters'
  end.

(** [Message.Build] *)
Definition Build (setters : list (M unit)) : M unit :=
  Reset;;; WriteHeader;;; add_all setters.

(** [Message.Check] *)
Fixpoint Check (checkers : list (M unit)) : M unit :=
  match checkers with
  | [] => st_ret tt
  | c :: checkers' => c;;; Check checkers'
  end.

(** [Message.Parse]: a getter reads the message and writes its own target;
    [S] is the state of all the targets. *)
Fixpoint Parse {S} (m : Message) (getters : list (Message -> ST S error unit)) : ST S error unit :=
  match getters with
  | [] => st_ret tt
  | g :: getters' => g m;;; Parse m getters'
  end.

(** [Build] and [MustBuild] of a new message. *)
Definition Build_new (setters : list (M unit)) : Message * result error unit :=
  Build setters zeroMessage.
Definition MustBuild (show : error -> bytes) (setters : list (M unit)) : result error Message :=
  match Build_new setters with
  | (m, Ok _) => Ok m
  | (_, Err e) => Panic (PanicCall (show e))
  | (_, Panic p) => Panic p
  end.

(** [MessageType.AddTo] and [transactionIDValueSetter.AddTo] *)
Definition MessageType_AddTo (t : MessageType) : M unit := SetType t.
Definition TransactionID_AddTo (tid : bytes) : M unit := fun m =>
  WriteTransactionID (set_TID tid m).
(** [transactionIDSetter.AddTo] *)
Definition TransactionIDSetter_AddTo (rnd : bytes + error) : M unit := NewTransactionID rnd.

End Operations.

(** * Specification *)

(** A value that an abstract packet holds: the first one of the type. *)
Fixpoint lookup_attr (t : Z) (l : list (Z * bytes)) : option bytes :=
  match l with
  | [] => None
  | (t', v) :: l' => if t' =? t then Some v else lookup_attr t l'
  end.

Lemma Get_lookup m t :
  match Get m t with
  | Ok s => lookup_attr t (p_attrs (abs m)) = Some (contents (array m) s)
  | Err e => e = ErrAttributeNotFound /\ lookup_attr t (p_attrs (abs m)) = None
  | Panic _ => False
  end.
Proof.
  unfold Get, abs. cbn [p_attrs]. induction (attrs m) as [|a l IH]; [done|].
  cbn. by destruct (Type_ a =? t).
Qed.

Lemma Get_found m t v :
  lookup_attr t (p_attrs (abs m)) = Some v ->
  exists s, Get m t = Ok s /\ contents (array m) s = v.
Proof.
  pose proof (Get_lookup m t) as Hg. intros Hl. rewrite Hl in Hg.
  destruct (Get m t) as [s|e|p]; [|by destruct Hg|done].
  exists s. split; congruence.
Qed.

Lemma Get_missing m t :
  lookup_attr t (p_attrs (abs m)) = None -> Get m t = Err ErrAttributeNotFound.
Proof.
  pose proof (Get_lookup m t) as Hg. intros Hl. rewrite Hl in Hg.
  destruct (Get m t); [done|by destruct Hg as [-> _]|done].
Qed.

Lemma lookup_attr_app t l1 l2 :
  lookup_attr t (l1 ++ l2) =
  match lookup_attr t l1 with Some v => Some v | None => lookup_attr t l2 end.
Proof. induction l1 as [|[t' v] l1 IH]; [done|]. cbn. by destruct (t' =? t). Qed.

(** [Contains] agrees with [Get]. *)
Lemma contains_type_lookup m t :
  contains_type t (attrs m) = bool_decide (is_Some (lookup_attr t (p_attrs (abs m)))).
Proof.
  unfold abs. cbn [p_attrs]. induction (attrs m) as [|a l IH]; [done|].
  cbn. destruct (Type_ a =? t); [|done]. by rewrite bool_decide_true.
Qed.

Definition implements (s : M unit) (f : packet -> result error packet) : Prop :=
  forall m, well_formed m ->
    match f (abs m) with
    | Ok p => packet_ok p -> exists m', s m = (m', Ok tt) /\ well_formed m' /\ abs m' = p
    | Err e => exists m', s m = (m', Err e) /\ well_formed m' /\ abs m' = abs m
    | Panic q => exists m', s m = (m', Panic q)
    end.

Class Implements (s : M unit) (f : packet -> result error packet) : Prop :=
  setter_implements : implements s f.

(** Running the abstract setters, and what it takes for every intermediate
    packet to fit a STUN message. *)
Fixpoint run_setters (fs : list (packet -> result error packet)) (p : packet) :
    result error packet :=
  match fs with
  | [] => Ok p
  | f :: fs' => p' ← f p; run_setters fs' p'
  end.
Fixpoint fits (fs : list (packet -> result error packet)) (p : packet) : Prop :=
  match fs with
  | [] => True
  | f :: fs' => match f p with Ok p' => packet_ok p' /\ fits fs' p' | _ => True end
  end.

Lemma add_all_spec setters fs m :
  Forall2 Implements setters fs -> well_formed m -> fits fs (abs m) ->
  match run_setters fs (abs m) with
  | Ok p => exists m', add_all setters m = (m', Ok tt) /\ well_formed m' /\ abs m' = p
  | Err e => exists m', add_all setters m = (m', Err e) /\ well_formed m'
  | Panic q => exists m', add_all setters m = (m', Panic q)
  end.
Proof.
  intros Hall. revert m. induction Hall as [|s f setters fs Hs Hall IH]; intros m Hwf Hfit.
  { by exists m. }
  cbn in Hfit |- *. specialize (Hs m Hwf). unfold st_bind.
  destruct (f (abs m)) as [p|e|q]; cbn.
  - destruct Hfit as [Hok Hfit]. destruct (Hs Hok) as (m' & -> & Hwf' & <-). by apply IH.
  - destruct Hs as (m' & -> & Hwf' & _). by exists m'.
  - destruct Hs as (m' & ->). by exists m'.
Qed.

(** A message that [Build] can start from: any message that the package
    produces, whatever it held. *)
Record reusable (m : Message) : Prop := {
  ru_buffer : buffer_ok (Raw m);
  ru_tid : length (TID m) = TransactionIDSize
}.

Lemma well_formed_reusable m : well_formed m -> reusable m.
Proof. intros [[] [] _ _]. by split. Qed.
Lemma zeroMessage_reusable : reusable zeroMessage.
Proof. split; [unfold buffer_ok, bcap; cbn; lia|done]. Qed.

Section BuildSpec.
Context `{GoRuntime}.

(** Only the type and the transaction id of the old message matter. *)
Lemma Build_spec setters fs m :
  Forall2 Implements setters fs -> reusable m ->
  let p0 := Packet (MType m) (TID m) [] in
  fits fs p0 ->
  match run_setters fs p0 with
  | Ok p => exists m', Build setters m = (m', Ok tt) /\ well_formed m' /\ abs m' = p
  | Err e => exists m', Build setters m = (m', Err e) /\ well_formed m'
  | Panic q => exists m', Build setters m = (m', Panic q)
  end.
Proof.
  intros Hall [Hb Htid] p0 Hfit.
  set (m0 := (Reset m).1).
  destruct (WriteHeader_wf m0) as (m1 & Hw & Hwf & Habs); try done.
  - unfold buffer_ok. cbn. lia.
  - unfold m0, Reset, attrs. cbn. by destruct (Attributes m).
  - assert (Build setters m = add_all setters m1) as ->.
    { unfold Build, st_bind. 
      change (Reset m) with (m0, @Ok error unit tt). cbn beta iota. by rewrite Hw. }
    change (Packet _ _ []) with p0 in Habs.
    rewrite <- Habs in Hfit |- *. by apply add_all_spec.
Qed.
End BuildSpec.

#[export] Instance MessageType_implements t :
  Implements (MessageType_AddTo t) (fun p => Ok (with_type t p)).
Proof. intros m Hwf _. by apply SetType_wf. Qed.

Lemma TransactionID_implements tid :
  length tid = TransactionIDSize ->
  Implements (TransactionID_AddTo tid) (fun p => Ok (with_tid tid p)).
Proof. intros Htid m Hwf _. by apply WriteTransactionID_wf. Qed.

#[export] Instance TransactionIDSetter_implements rnd :
  (forall tid, rnd = inl tid -> length tid = TransactionIDSize) ->
  Implements (TransactionIDSetter_AddTo rnd)
    (fun p => match rnd with inl tid => Ok (with_tid tid p) | inr e => Err e end).
Proof.
  intros Hr m Hwf. destruct rnd as [tid|e].
  - intros _. apply WriteTransactionID_wf; auto.
  - by exists m.
Qed.

(** The setters that only call [Add] on bytes of their own. *)
Lemma Add_implements `{GoRuntime} t v :
  Implements (Add t (fresh v)) (fun p => Ok (with_attr (t, v) p)).
Proof. intros m Hwf Hok. by apply Add_fresh_wf. Qed.

(** * What a receiver gets *)

Section Transfer.
Context `{GoRuntime}.

Lemma append_raw_spec n v m :
  (n <= bcap (Raw m))%nat ->
  exists m', append_raw n v m = (m', Ok tt) /\ buffer_ok (Raw m') /\
    visible (Raw m') = take n (array m) ++ v.
Proof.
  intros Hn. unfold append_raw, reslice_raw, set_len, st_bind.
  rewrite (proj2 (Nat.leb_le _ _) Hn). cbn [Raw set_Raw].
  set (b0 := Buffer _ n).
  assert (buffer_ok b0) as Hb0 by done.
  pose proof (append_ok b0 v Hb0) as Hok. pose proof (append_visible b0 v Hb0) as Hvis.
  destruct (append b0 v) as [b o]. cbn [fst] in *. by eexists; split.
Qed.

(** The bytes of a well formed message, written into any message, decode to
    the same packet, and the result is well formed again. *)
Lemma Write_spec b p m :
  type_ok (p_type p) -> packet_ok p -> b = encode_packet p -> reusable m ->
  exists m', Write b m = (m', Ok (length b, None)) /\ abs m' = p /\ well_formed m'.
Proof.
  intros Hty Hok -> [Hb _]. unfold Write. unfold st_bind.
  destruct (append_raw_spec 0 (encode_packet p) m) as (m1 & -> & Hb1 & Hvis1); [lia|].
  cbn [take app] in Hvis1. unfold with_error.
  destruct (Decode_wire m1 p Hb1) as (m2 & -> & Hdec).
  { rewrite Hvis1, <- (app_nil_r (encode_packet p)). by apply encode_packet_wire. }
  exists m2. split; [done|]. split; [by destruct Hdec|].
  by apply (decoded_well_formed m1 m2 p).
Qed.
End Transfer.
