(* ===== verification/StunAttrs.v ===== *)
(** The plain attributes of the stun package: [src/stun/textattrs.go],
    [src/stun/errorcode.go], [src/stun/uattrs.go]; and [Codec], what every
    attribute of the stun, turn and attr packages promises: what its [AddTo]
    writes, its [GetFrom] reads back.  [codec_transfer] carries any such value
    from the sender's [Build] to the receiver's [Write] and [GetFrom]. *)
From stdpp Require Import base list sets strings.
From Stdlib Require Import ZArith Lia.
From S2P Require Import Prelude Wire GoFmt GoSlice StunTypes StunMessage StunPacket StunCodec.
From S2P Require Import StunBuild.
Open Scope Z_scope.

(** * Operations *)

(** A length of Go as an int. *)
Definition zlen (v : bytes) : Z := Z.of_nat (length v).

Section TextAttributes.
Context `{GoRuntime}.

Definition maxUsernameB : Z := 513.
Definition maxRealmB : Z := 763.
Definition softwareRawMaxB : Z := 763.
Definition maxNonceB : Z := 763.

(** [TextAttribute.AddToAs] *)
Definition TextAttribute_AddToAs (v : slice) (t : Z) (maxLen : Z) : M unit :=
  if (0 <? maxLen) && (maxLen <? Z.of_nat (slen v))
  then st_err (AttrOverflowErr t maxLen (Z.of_nat (slen v)))
  else Add t v.

(** [TextAttribute.GetFromAs]: copies the value into the target. *)
Definition TextAttribute_GetFromAs (t : Z) (m : Message) : ST bytes error unit := fun v =>
  match Get m t with
  | Ok a => (contents (array m) a, Ok tt)
  | Err e => (v, Err e)
  | Panic p => (v, Panic p)
  end.

Definition Username_AddTo (u : slice) : M unit := TextAttribute_AddToAs u AttrUsername maxUsernameB.
Definition Username_GetFrom := TextAttribute_GetFromAs AttrUsername.
Definition Realm_AddTo (n : slice) : M unit := TextAttribute_AddToAs n AttrRealm maxRealmB.
Definition Realm_GetFrom := TextAttribute_GetFromAs AttrRealm.
Definition Software_AddTo (s : slice) : M unit :=
  TextAttribute_AddToAs s AttrSoftware softwareRawMaxB.
Definition Software_GetFrom := TextAttribute_GetFromAs AttrSoftware.
Definition Nonce_AddTo (n : slice) : M unit := TextAttribute_AddToAs n AttrNonce maxNonceB.
Definition Nonce_GetFrom := TextAttribute_GetFromAs AttrNonce.

End TextAttributes.

Section ErrorCodes.
Context `{GoRuntime}.

(** [ErrorCodeAttribute]: [Reason] may be a view of a message. *)
Record ErrorCodeAttribute := mkErrorCode { Code : Z; Reason : slice }.

Definition errorCodeReasonStart : nat := 4.
Definition errorCodeReasonMaxB : nat := 763.
Definition errorCodeModulo : Z := 100.

(** [ErrorCodeAttribute.AddTo]: the value has the capacity of the longest reason
    it admits, which is four bytes short of the longest value. *)
Definition ErrorCodeAttribute_AddTo (c : ErrorCodeAttribute) : M unit := fun m =>
  let n := slen (Reason c) in
  if (errorCodeReasonMaxB <? n)%nat
  then (m, Err (AttrOverflowErr AttrErrorCode
                  (Z.of_nat (errorCodeReasonMaxB + errorCodeReasonStart))
                  (Z.of_nat (n + errorCodeReasonStart))))
  else if (errorCodeReasonMaxB <? errorCodeReasonStart + n)%nat
  then (m, Panic SliceOutOfRange)
  else
    let number := zb (Z.rem (Code c) errorCodeModulo) in
    let class := zb (Z.quot (Code c) errorCodeModulo) in
    Add AttrErrorCode
      (fresh ([Byte.x00; Byte.x00; class; number] ++ contents (array m) (Reason c))) m.

(** [ErrorCodeAttribute.GetFrom] *)
Definition ErrorCodeAttribute_GetFrom (m : Message) : ST ErrorCodeAttribute error unit := fun c =>
  match Get m AttrErrorCode with
  | Err e => (c, Err e)
  | Panic p => (c, Panic p)
  | Ok s =>
      match contents (array m) s with
      | _ :: _ :: class :: number :: _ =>
          (mkErrorCode (u16 (u16 (bz class * errorCodeModulo) + bz number))
             (slice_from errorCodeReasonStart s), Ok tt)
      | _ => (c, Err ErrUnexpectedEOF)
      end
  end.
Definition ErrorCodeAttribute_GetFromAs (t : Z) := ErrorCodeAttribute_GetFrom.

Definition CodeTryAlternate : Z := 300.
Definition CodeBadRequest : Z := 400.
Definition CodeUnauthorised : Z := 401.
Definition CodeUnknownAttribute : Z := 420.
Definition CodeStaleNonce : Z := 428.
Definition CodeRoleConflict : Z := 478.
Definition CodeServerError : Z := 500.
Definition CodeForbidden : Z := 403.
Definition CodeAllocMismatch : Z := 437.
Definition CodeWrongCredentials : Z := 441.
Definition CodeUnsupportedTransProto : Z := 442.
Definition CodeAllocQuotaReached : Z := 486.
Definition CodeInsufficientCapacity : Z := 508.

Definition errorReasons : list (Z * bytes) :=
  [(CodeTryAlternate, bs "Try Alternate"); (CodeBadRequest, bs "Bad Request");
   (CodeUnauthorised, bs "Unauthorised"); (CodeUnknownAttribute, bs "Unknown Attribute");
   (CodeStaleNonce, bs "Stale nonce"); (CodeServerError, bs "Server Error");
   (CodeRoleConflict, bs "Role Conflict"); (CodeForbidden, bs "Forbidden");
   (CodeAllocMismatch, bs "Allocation Mismatch");
   (CodeWrongCredentials, bs "Wrong Credentials");
   (CodeUnsupportedTransProto, bs "Unsupported Transport Protocol");
   (CodeAllocQuotaReached, bs "Allocation Quota Reached");
   (CodeInsufficientCapacity, bs "Insufficient Capacity")].

(** [ErrorCode.AddTo] *)
Definition ErrorCode_AddTo (c : Z) : M unit :=
  match assoc c errorReasons with
  | None => st_err ErrNoDefaultReason
  | Some reason => ErrorCodeAttribute_AddTo (mkErrorCode c (fresh reason))
  end.

(** [ErrorCodeAttribute.String] *)
Definition ErrorCodeAttribute_String (m : Message) (c : ErrorCodeAttribute) : bytes :=
  itoa (Code c) ++ bs ": " ++ contents (array m) (Reason c).

End ErrorCodes.

Section UnknownAttributes.
Context `{GoRuntime}.

Definition attrTypeSize : nat := 4.

(** The loop of [UnknownAttributes.AddTo]: every type takes four bytes, of
    which the first two hold it. *)
Definition unknown_value (a : list Z) : bytes :=
  a ≫= fun t => put16 t ++ [Byte.x00; Byte.x00].

(** [UnknownAttributes.AddTo] *)
Definition UnknownAttributes_AddTo (a : list Z) : M unit :=
  Add AttrUnknownAttributes (fresh (unknown_value a)).

(** The loop of [UnknownAttributes.GetFrom] *)
Fixpoint unknown_types (fuel : nat) (v : bytes) : list Z :=
  match fuel, v with
  | _, [] => []
  | O, _ => []
  | S fuel, _ => get16 v :: unknown_types fuel (drop attrTypeSize v)
  end.

(** [UnknownAttributes.GetFrom] *)
Definition UnknownAttributes_GetFrom (m : Message) : ST (list Z) error unit := fun a =>
  match Get m AttrUnknownAttributes with
  | Err e => (a, Err e)
  | Panic p => (a, Panic p)
  | Ok s =>
      let v := contents (array m) s in
      if negb (length v mod attrTypeSize =? 0)%nat then (a, Err ErrBadUnknownAttrsSize)
      else (unknown_types (length v / attrTypeSize) v, Ok tt)
  end.

(** [UnknownAttributes.String] *)
Definition UnknownAttributes_String (a : list Z) : bytes :=
  match a with
  | [] => bs "<nil>"
  | _ => join (bs ", ") (map AttrType_String a)
  end.

End UnknownAttributes.

(** * The interface of an attribute

    [A] is what is sent, [T] the target that [GetFrom] fills; [codec_dom] are
    the values the attribute can carry, [codec_blank] the targets that may be
    filled, and [codec_shows m y a] says that the target [y], read next to the
    message [m], is [a]. *)
Class Codec `{GoRuntime} (A T : Type) := {
  codec_type : Z;
  codec_value : bytes -> A -> bytes;
  codec_dom : A -> Prop;
  codec_blank : T -> Prop;
  codec_add : A -> M unit;
  codec_get : Message -> ST T error unit;
  codec_shows : Message -> T -> A -> Prop;
  codec_add_ok a :
    codec_dom a ->
    Implements (codec_add a) (fun p => Ok (with_attr (codec_type, codec_value (p_tid p) a) p));
  codec_get_ok m a y :
    codec_dom a -> codec_blank y -> length (TID m) = TransactionIDSize ->
    lookup_attr codec_type (p_attrs (abs m)) = Some (codec_value (TID m) a) ->
    exists y', codec_get m y = (y', Ok tt) /\ codec_shows m y' a
}.

(** Setters that add one attribute whose value does not depend on the message. *)
Definition add_step (a : Z * bytes) (p : packet) : result error packet := Ok (with_attr a p).
Definition adds (s : M unit) (a : Z * bytes) : Prop := Implements s (add_step a).

Definition with_attrs (l : list (Z * bytes)) (p : packet) :=
  Packet (p_type p) (p_tid p) (p_attrs p ++ l).

Lemma packet_ok_prefix p l : packet_ok (with_attrs l p) -> packet_ok p.
Proof.
  intros (H1 & H2 & H3). cbn in H2, H3. rewrite encode_attrs_app, length_app in H3.
  apply Forall_app in H2 as [H2 _]. split; [done|]. split; [done|]. lia.
Qed.

Lemma adds_run l p fs :
  packet_ok (with_attrs l p) ->
  (fits fs (with_attrs l p) -> fits (map add_step l ++ fs) p) /\
  run_setters (map add_step l ++ fs) p = run_setters fs (with_attrs l p).
Proof.
  revert p. induction l as [|a l IH]; intros p Hok.
  { unfold with_attrs in *. rewrite app_nil_r in *. by destruct p. }
  assert (with_attrs (a :: l) p = with_attrs l (with_attr a p)) as Heq.
  { unfold with_attrs. cbn. by rewrite <- app_assoc. }
  rewrite Heq in *. destruct (IH _ Hok) as [IH1 IH2]. cbn. split; [|done].
  intros Hf. split; [|by apply IH1]. by eapply packet_ok_prefix.
Qed.

(** The abstract setters [fs] lead from [p] to [q] over packets that fit. *)
Definition leads (fs : list (packet -> result error packet)) (p q : packet) : Prop :=
  forall gs, (fits gs q -> fits (fs ++ gs) p) /\ run_setters (fs ++ gs) p = run_setters gs q.

Lemma leads_nil p : leads [] p p.
Proof. done. Qed.
Lemma leads_cons f fs p p' q : f p = Ok p' -> packet_ok p' -> leads fs p' q -> leads (f :: fs) p q.
Proof.
  intros Hf Hok Hl gs. destruct (Hl gs) as [H1 H2]. cbn [app fits run_setters]. rewrite Hf. by auto.
Qed.
Lemma leads_adds l p : packet_ok (with_attrs l p) -> leads (map add_step l) p (with_attrs l p).
Proof. intros Hok gs. by apply adds_run. Qed.
Lemma leads_app fs gs p q r : leads fs p q -> leads gs q r -> leads (fs ++ gs) p r.
Proof.
  intros H1 H2 hs. destruct (H1 (gs ++ hs)) as [Hf Hr], (H2 hs) as [Hf' Hr']. rewrite <- app_assoc. split; [auto|congruence].
Qed.

(** A shorter packet of any type fits where a longer one does. *)
Lemma packet_ok_smaller t t' tid tid' l l' :
  length tid = TransactionIDSize -> packet_ok (Packet t' tid' (l ++ l')) -> packet_ok (Packet t tid l).
Proof.
  intros Htid (_ & Ha & Hl). cbn [p_attrs] in *. apply Forall_app in Ha as [Ha _].
  rewrite encode_attrs_app, length_app in Hl. split_and!; [done|done|]. cbn [p_attrs]. lia.
Qed.

(** Setters that stand for [l] in a message of the transaction [tid]: a value may
    depend on the transaction id. *)
Definition adds_in (tid : bytes) (s : M unit) (a : Z * bytes) : Prop :=
  exists f, Implements s f /\ forall p, p_tid p = tid -> f p = Ok (with_attr a p).

Lemma adds_adds_in tid s a : adds s a -> adds_in tid s a.
Proof. intros Hs. by exists (add_step a). Qed.

Lemma adds_in_leads tid setters l :
  Forall2 (adds_in tid) setters l ->
  exists fs, Forall2 Implements setters fs /\
    forall p, p_tid p = tid -> packet_ok (with_attrs l p) -> leads fs p (with_attrs l p).
Proof.
  induction 1 as [|s a setters l (f & Hf & Hfp) _ (fs & Hfs & Hlead)].
  { exists []. split; [constructor|]. intros p _ _. unfold with_attrs. rewrite app_nil_r. destruct p. apply leads_nil. }
  exists (f :: fs). split; [by constructor|]. intros p Hp Hok.
  assert (with_attrs (a :: l) p = with_attrs l (with_attr a p)) as Heq.
  { unfold with_attrs. cbn. by rewrite <- app_assoc. }
  rewrite Heq in *. apply leads_cons with (with_attr a p); [by apply Hfp| |by apply Hlead].
  by eapply packet_ok_prefix.
Qed.

Section Transfer.
Context `{GoRuntime}.

(** What [Build] makes of setters that lead to a packet. *)
Lemma Build_leads setters fs m q :
  Forall2 Implements setters fs -> reusable m -> leads fs (Packet (MType m) (TID m) []) q ->
  exists m', Build setters m = (m', Ok tt) /\ well_formed m' /\ abs m' = q.
Proof.
  intros Hall Hm Hl. destruct (Hl []) as [Hf Hr]. rewrite app_nil_r in Hf, Hr.
  pose proof (Build_spec setters fs m Hall Hm) as HB. cbn zeta in HB. rewrite Hr in HB. by apply HB, Hf.
Qed.

(** A message of a type and a transaction id, with attributes and an ending. *)
Lemma Build_message tid t setters l tail ftail m q :
  length tid = TransactionIDSize -> reusable m -> Forall2 (adds_in tid) setters l ->
  packet_ok (Packet t tid l) -> Forall2 Implements tail ftail -> leads ftail (Packet t tid l) q ->
  exists m', Build ([TransactionIDSetter_AddTo (inl tid); MessageType_AddTo t] ++ setters ++ tail) m = (m', Ok tt) /\
    well_formed m' /\ abs m' = q.
Proof.
  intros Htid Hm Hs Hok Htl Hlt. destruct (adds_in_leads tid setters l Hs) as (fs & Hfs & Hlead).
  apply Build_leads with ((fun p => Ok (with_tid tid p)) :: (fun p => Ok (with_type t p)) :: fs ++ ftail); [|done|].
  - constructor; [apply (TransactionIDSetter_implements (inl tid)); by intros ? [= <-]|].
    constructor; [apply MessageType_implements|]. by apply Forall2_app.
  - apply leads_cons with (Packet (MType m) tid []);
      [reflexivity|exact (packet_ok_smaller _ t tid tid [] l Htid Hok)|].
    apply leads_cons with (Packet t tid []);
      [reflexivity|exact (packet_ok_smaller _ t tid tid [] l Htid Hok)|].
    apply (leads_app _ _ _ (Packet t tid l)); [|done]. by apply (Hlead (Packet t tid [])).
Qed.

(** The sender: a header, other attributes before and after, and the value. *)
Lemma codec_build {A T} `{!Codec A T} t tid (a : A) (before after : list (M unit)) lb la m :
  length tid = TransactionIDSize -> codec_dom a ->
  Forall2 adds before lb -> Forall2 adds after la ->
  let p := Packet t tid (lb ++ (codec_type, codec_value tid a) :: la) in
  packet_ok p -> reusable m ->
  exists m1, Build ([MessageType_AddTo t; TransactionID_AddTo tid] ++ before
                    ++ codec_add a :: after) m = (m1, Ok tt) /\ well_formed m1 /\ abs m1 = p.
Proof.
  intros Htid Hdom Hb Ha p Hok Hm.
  set (step := fun q => @Ok error _ (with_attr (codec_type, codec_value (p_tid q) a) q)).
  set (p0 := Packet t tid []). set (p1 := with_attrs lb p0).
  set (q1 := with_attr (codec_type, codec_value tid a) p1).
  assert (with_attrs la q1 = p) as Hp.
  { unfold q1, p1, p, with_attrs, with_attr. cbn. by rewrite <- app_assoc. }
  assert (packet_ok (with_attrs la q1)) as Hok2 by (by rewrite Hp).
  assert (packet_ok q1) as Hokq by (by eapply packet_ok_prefix).
  assert (packet_ok p1) as Hok1 by (by apply (packet_ok_prefix _ [(codec_type, codec_value tid a)])).
  assert (packet_ok p0) as Hok0 by (by apply (packet_ok_prefix _ lb)).
  destruct (adds_run la q1 [] Hok2) as [Hf2 Hr2]. rewrite app_nil_r in Hf2, Hr2.
  destruct (adds_run lb p0 (step :: map add_step la) Hok1) as [Hf1 Hr1].
  pose proof (Build_spec ([MessageType_AddTo t; TransactionID_AddTo tid] ++ before
     ++ codec_add a :: after) ([(fun q => Ok (with_type t q)); (fun q => Ok (with_tid tid q))]
     ++ map add_step lb ++ step :: map add_step la) m) as HB.
  cbn [app run_setters fits mbind result_mbind result_bind] in HB.
  unfold with_type, with_tid in HB. cbn [p_tid p_attrs p_type] in HB. fold p0 in HB.
  rewrite Hr1 in HB. unfold step at 3 in HB. cbn [run_setters mbind result_mbind result_bind] in HB.
  change (p_tid (with_attrs lb p0)) with tid in HB. fold p1 in HB. fold q1 in HB.
  rewrite Hr2 in HB. cbn [run_setters] in HB. rewrite Hp in HB. apply HB; [|done|].
  - constructor; [apply MessageType_implements|].
    constructor; [by apply TransactionID_implements|].
    apply Forall2_app; [by apply Forall2_fmap_r|].
    constructor; [by apply codec_add_ok|by apply Forall2_fmap_r].
  - destruct Hm. split; [done|]. split; [done|]. apply Hf1. split; [done|]. by apply Hf2.
Qed.

Lemma codec_transfer {A T} `{!Codec A T} (t : MessageType) (tid : bytes) (a : A) (y : T)
    (before after : list (M unit)) (lb la : list (Z * bytes)) (m m2 : Message) :
  type_ok t -> length tid = TransactionIDSize -> codec_dom a -> codec_blank y ->
  Forall2 adds before lb -> Forall2 adds after la ->
  lookup_attr codec_type lb = None ->
  packet_ok (Packet t tid (lb ++ (codec_type, codec_value tid a) :: la)) ->
  reusable m -> reusable m2 ->
  exists m1, Build ([MessageType_AddTo t; TransactionID_AddTo tid] ++ before
                    ++ codec_add a :: after) m = (m1, Ok tt) /\
  exists n m3, Write (visible (Raw m1)) m2 = (m3, Ok (n, None)) /\
  exists y', codec_get m3 y = (y', Ok tt) /\ codec_shows m3 y' a.
Proof.
  intros Hty Htid Hdom Hbl Hb Ha Hlb Hok Hm Hm2.
  destruct (codec_build t tid a before after lb la m) as (m1 & HB & Hwf & Habs); [done..|].
  exists m1. split; [done|].
  destruct (Write_spec (visible (Raw m1)) (abs m1) m2) as (m3 & HW & Habs3 & _);
    [by rewrite Habs|by rewrite Habs| |done|].
  { by destruct Hwf. }
  rewrite Habs in Habs3. exists (length (visible (Raw m1))), m3. split; [done|].
  assert (TID m3 = tid) as Ht3 by (change (p_tid (abs m3) = tid); by rewrite Habs3).
  apply codec_get_ok; [done|done|by rewrite Ht3|].
  rewrite Habs3, Ht3. cbn [p_attrs]. rewrite lookup_attr_app, Hlb. cbn. by rewrite Z.eqb_refl.
Qed.
End Transfer.

(** * What the attributes of this file do *)

Section Implementations.
Context `{GoRuntime}.

(** A text attribute is refused exactly when it is longer than the limit. *)
Lemma TextAttribute_implements v t maxLen :
  Implements (TextAttribute_AddToAs (fresh v) t maxLen)
    (fun p => if (0 <? maxLen) && (maxLen <? zlen v)
              then Err (AttrOverflowErr t maxLen (zlen v)) else Ok (with_attr (t, v) p)).
Proof.
  intros m Hwf. unfold TextAttribute_AddToAs, zlen. cbn [slen fresh].
  destruct ((0 <? maxLen) && _).
  - by exists m.
  - intros Hok. by apply Add_fresh_wf.
Qed.

Definition text_codec (t : Z) (maxLen : Z) : Codec bytes bytes.
Proof.
  refine {| codec_type := t; codec_value _ v := v;
            codec_dom v := zlen v <= maxLen; codec_blank _ := True;
            codec_add v := TextAttribute_AddToAs (fresh v) t maxLen;
            codec_get := TextAttribute_GetFromAs t;
            codec_shows _ y v := y = v |}.
  - intros v Hv m Hwf. pose proof (TextAttribute_implements v t maxLen m Hwf) as Hi.
    rewrite (proj2 (Z.ltb_ge maxLen (zlen v))) in Hi by done. by rewrite andb_false_r in Hi.
  - intros m v y _ _ _ Hl. destruct (Get_found m t v Hl) as (s & Hs & Hc).
    exists v. unfold TextAttribute_GetFromAs. by rewrite Hs, Hc.
Defined.

Lemma text_adds v t maxLen : zlen v <= maxLen -> adds (TextAttribute_AddToAs (fresh v) t maxLen) (t, v).
Proof. exact (codec_add_ok (Codec := text_codec t maxLen) v). Qed.


(** ** ERROR-CODE *)

Definition error_code_value (code : Z) (reason : bytes) : bytes :=
  [Byte.x00; Byte.x00; zb (Z.quot code 100); zb (Z.rem code 100)] ++ reason.

Lemma ErrorCodeAttribute_implements code reason :
  Implements (ErrorCodeAttribute_AddTo (mkErrorCode code (fresh reason)))
    (fun p =>
       if 763 <? zlen reason then Err (AttrOverflowErr AttrErrorCode 767 (zlen reason + 4))
       else if 759 <? zlen reason then Panic SliceOutOfRange
       else Ok (with_attr (AttrErrorCode, error_code_value code reason) p)).
Proof.
  intros m Hwf. unfold ErrorCodeAttribute_AddTo, errorCodeReasonMaxB, errorCodeReasonStart, zlen.
  cbn [Reason Code slen fresh]. rewrite contents_fresh.
  destruct (Z.ltb_spec 763 (Z.of_nat (length reason))), (Nat.ltb_spec 763 (length reason)); try lia.
  { exists m. split; [|done]. do 3 f_equal. lia. }
  destruct (Z.ltb_spec 759 (Z.of_nat (length reason))), (Nat.ltb_spec 763 (4 + length reason)); try lia.
  { by exists m. }
  intros Hok. by apply Add_fresh_wf.
Qed.

Lemma error_code_digits code :
  0 <= code < 25600 ->
  u16 (u16 (bz (zb (Z.quot code 100)) * errorCodeModulo) + bz (zb (Z.rem code 100))) = code.
Proof.
  intros Hc. unfold errorCodeModulo.
  assert (0 <= Z.quot code 100 < 256 /\ 0 <= Z.rem code 100 < 100 /\
          code = 100 * Z.quot code 100 + Z.rem code 100) as (Hq & Hr & Heq).
  { rewrite Z.quot_div_nonneg, Z.rem_mod_nonneg by lia. Z.div_mod_to_equations. lia. }
  rewrite !bz_zb_small by lia. rewrite (u16_id (_ * 100)) by lia. rewrite u16_id; lia.
Qed.

Lemma ErrorCodeAttribute_GetFrom_spec m c code reason :
  0 <= code < 25600 ->
  lookup_attr AttrErrorCode (p_attrs (abs m)) = Some (error_code_value code reason) ->
  exists c', ErrorCodeAttribute_GetFrom m c = (c', Ok tt) /\ Code c' = code /\
    contents (array m) (Reason c') = reason.
Proof.
  intros Hcode Hl. destruct (Get_found _ _ _ Hl) as (s & Hs & Hc).
  unfold ErrorCodeAttribute_GetFrom. rewrite Hs, Hc. cbn [error_code_value app].
  eexists; split; [done|]. cbn [Code Reason]. split; [by apply error_code_digits|].
  rewrite contents_slice_from, Hc. done.
Qed.

#[export] Instance error_code_codec : Codec (Z * bytes) ErrorCodeAttribute.
Proof.
  refine {| codec_type := AttrErrorCode; codec_value _ a := error_code_value a.1 a.2;
            codec_dom a := 0 <= a.1 < 25600 /\ zlen a.2 <= 759; codec_blank _ := True;
            codec_add a := ErrorCodeAttribute_AddTo (mkErrorCode a.1 (fresh a.2));
            codec_get := ErrorCodeAttribute_GetFrom;
            codec_shows m y a := Code y = a.1 /\ contents (array m) (Reason y) = a.2 |}.
  - intros [code reason] [_ Hl] m Hwf. cbn [fst snd] in *.
    pose proof (ErrorCodeAttribute_implements code reason m Hwf) as Hi. cbv beta in Hi.
    rewrite (proj2 (Z.ltb_ge 763 _)), (proj2 (Z.ltb_ge 759 _)) in Hi by lia. done.
  - intros m [code reason] y [Hc _] _ _ Hl.
    destruct (ErrorCodeAttribute_GetFrom_spec m y _ _ Hc Hl) as (y' & ? & ? & ?). by exists y'.
Defined.

(** The default reasons all fit. *)
Lemma errorReasons_fit c reason :
  assoc c errorReasons = Some reason -> 0 <= c < 25600 /\ zlen reason <= 759.
Proof.
  unfold errorReasons. cbn [assoc]. repeat lazymatch goal with
  | |- context [c =? ?k] =>
      destruct (Z.eqb_spec c k) as [->|_]; [intros [= <-]; vm_compute; by split_and!|]
  end.
  done.
Qed.

Lemma ErrorCode_implements c :
  Implements (ErrorCode_AddTo c)
    (fun p => match assoc c errorReasons with
              | None => Err ErrNoDefaultReason
              | Some reason => Ok (with_attr (AttrErrorCode, error_code_value c reason) p)
              end).
Proof.
  intros m Hwf. unfold ErrorCode_AddTo. destruct (assoc c errorReasons) as [reason|] eqn:Hc.
  - exact (codec_add_ok (c, reason) (errorReasons_fit _ _ Hc) m Hwf).
  - by exists m.
Qed.

(** ** UNKNOWN-ATTRIBUTES *)

Lemma unknown_value_length a : length (unknown_value a) = (4 * length a)%nat.
Proof.
  induction a as [|t a IH]; [done|].
  change (length (unknown_value (t :: a))) with (4 + length (unknown_value a))%nat.
  cbn [length]. lia.
Qed.

Lemma unknown_types_value a :
  Forall (fun t => 0 <= t < 2 ^ 16) a -> unknown_types (length a) (unknown_value a) = a.
Proof.
  induction 1 as [|t a Ht Ha IH]; [done|].
  change (unknown_value (t :: a))
    with (put16 t ++ [Byte.x00; Byte.x00] ++ unknown_value a).
  change (get16 (put16 t ++ [Byte.x00; Byte.x00] ++ unknown_value a)
            :: unknown_types (length a) (unknown_value a) = t :: a).
  by rewrite get16_put16_app, u16_id, IH.
Qed.

#[export] Instance unknown_attributes_codec : Codec (list Z) (list Z).
Proof.
  refine {| codec_type := AttrUnknownAttributes; codec_value _ a := unknown_value a;
            codec_dom a := Forall (fun t => 0 <= t < 2 ^ 16) a; codec_blank _ := True;
            codec_add := UnknownAttributes_AddTo;
            codec_get := UnknownAttributes_GetFrom;
            codec_shows m y a := y = a |}.
  - intros a _. apply Add_implements.
  - intros m a y Ha _ _ Hl. destruct (Get_found _ _ _ Hl) as (s & Hs & Hc).
    unfold UnknownAttributes_GetFrom. rewrite Hs, Hc, unknown_value_length.
    unfold attrTypeSize. rewrite Nat.mul_comm, Nat.Div0.mod_mul, Nat.div_mul by lia.
    exists a. rewrite unknown_types_value by done. done.
Defined.

End Implementations.
