(* ===== verification/StunAddr.v ===== *)
(** Transport addresses: [src/stun/xor.go], [src/stun/xoraddr.go] and
    [src/stun/addr.go].

    The target of a [GetFrom] reuses the array of its [IP]; [ensure_ip] is that
    reuse.  [xorBytes] has a word-wise and a byte-wise version; both are modelled
    and proved equal. *)
From stdpp Require Import base list sets strings.
From Stdlib Require Import ZArith Lia.
From S2P Require Import Prelude Wire GoFmt GoSlice StunTypes StunMessage StunPacket StunCodec.
From S2P Require Import StunBuild StunAttrs.
Open Scope Z_scope.

(** * Exclusive or of byte slices *)

(** A machine word of [wordSize] bytes on a little-endian machine. *)
Definition wordSize : nat := 8.
Fixpoint load_word (l : bytes) : Z :=
  match l with
  | [] => 0
  | b :: l' => Z.lor (bz b) (Z.shiftl (load_word l') 8)
  end.
Fixpoint store_word (n : nat) (z : Z) : bytes :=
  match n with
  | O => []
  | S n' => zb z :: store_word n' (Z.shiftr z 8)
  end.

(** The first loop of [fastXORBytes], from word [i]. *)
Fixpoint xor_words (w i : nat) (a b dst : bytes) : bytes :=
  match w with
  | O => dst
  | S w' =>
      let at_word l := take wordSize (drop (i * wordSize) l) in
      xor_words w' (S i) a b
        (splice (i * wordSize)
           (store_word wordSize (Z.lxor (load_word (at_word a)) (load_word (at_word b)))) dst)
  end.

(** The byte loop, from index [i] up to [i + k]. *)
Fixpoint xor_bytes_from (k i : nat) (a b dst : bytes) : bytes :=
  match k with
  | O => dst
  | S k' =>
      xor_bytes_from k' (S i) a b
        (splice i [bxor (nth i a Byte.x00) (nth i b Byte.x00)] dst)
  end.

(** [fastXORBytes] and [safeXORBytes]: the new contents of [dst], which the
    callers make large enough, and the number of bytes. *)
Definition fastXORBytes (dst a b : bytes) : bytes * nat :=
  let n := Nat.min (length a) (length b) in
  let w := (n / wordSize)%nat in
  let dst := if (0 <? w)%nat then xor_words w 0 a b dst else dst in
  let rem := (n mod wordSize)%nat in
  (xor_bytes_from rem (n - rem) a b dst, n).

Definition safeXORBytes (dst a b : bytes) : bytes * nat :=
  let n := Nat.min (length a) (length b) in
  (xor_bytes_from n 0 a b dst, n).

(** [xorBytes] *)
Definition xorBytes (supportsUnaligned : bool) (dst a b : bytes) : bytes * nat :=
  if supportsUnaligned then fastXORBytes dst a b else safeXORBytes dst a b.

(** ** Both versions write the bytewise exclusive or *)

Definition xor_list (a b : bytes) : bytes := zip_with bxor a b.

Lemma xor_list_length a b : length (xor_list a b) = Nat.min (length a) (length b).
Proof. apply length_zip_with. Qed.

Lemma zb_mod z : zb (z mod 256) = zb z.
Proof. apply bz_inj. rewrite !bz_zb. apply Zmod_mod. Qed.

Lemma zb_lor_shiftl b z : zb (Z.lor (bz b) (Z.shiftl z 8)) = b.
Proof.
  pose proof (bz_range b). rewrite lor_shiftl_add by lia. rewrite <- zb_mod.
  change (2 ^ 8) with 256. rewrite Z_mod_plus_full, zb_mod. apply zb_bz.
Qed.

Lemma zb_lxor x y : zb (Z.lxor x y) = bxor (zb x) (zb y).
Proof.
  unfold bxor. apply bz_inj. rewrite !bz_zb. change 256 with (2 ^ 8).
  rewrite <- !Z.land_ones by lia. apply Z.bits_inj'. intros n Hn.
  rewrite !Z.land_spec, !Z.lxor_spec, !Z.land_spec.
  destruct (Z.testbit (Z.ones 8) n); by rewrite ?andb_true_r, ?andb_false_r.
Qed.

Lemma shiftr_load b z : Z.shiftr (Z.lor (bz b) (Z.shiftl z 8)) 8 = z.
Proof.
  pose proof (bz_range b). rewrite lor_shiftl_add by lia.
  rewrite Z.shiftr_div_pow2 by lia. rewrite Z.div_add by lia.
  rewrite Z.div_small by lia. lia.
Qed.

Lemma store_lxor n a b :
  length a = n -> length b = n ->
  store_word n (Z.lxor (load_word a) (load_word b)) = xor_list a b.
Proof.
  revert a b. induction n as [|n IH]; intros [|x a] [|y b] Ha Hb; try done.
  cbn [store_word load_word]. rewrite zb_lxor, !zb_lor_shiftl, Z.shiftr_lxor, !shiftr_load.
  rewrite IH by (cbn in *; lia). done.
Qed.

Lemma xor_list_app a1 a2 b1 b2 :
  length a1 = length b1 -> xor_list (a1 ++ a2) (b1 ++ b2) = xor_list a1 b1 ++ xor_list a2 b2.
Proof. intros. unfold xor_list. by rewrite zip_with_app. Qed.

(** The slice of both operands that a loop from [i] of length [k] covers. *)
Definition xor_range (i k : nat) (a b : bytes) : bytes :=
  xor_list (take k (drop i a)) (take k (drop i b)).

Lemma xor_range_length i k a b :
  (i + k <= length a)%nat -> (i + k <= length b)%nat -> length (xor_range i k a b) = k.
Proof. intros. unfold xor_range. rewrite xor_list_length, !length_take, !length_drop. lia. Qed.

Lemma xor_range_split i k1 k2 a b :
  (i + k1 + k2 <= length a)%nat -> (i + k1 + k2 <= length b)%nat ->
  xor_range i (k1 + k2) a b = xor_range i k1 a b ++ xor_range (i + k1) k2 a b.
Proof.
  intros. unfold xor_range. rewrite !(take_drop_split k1 (k1 + k2)) by lia.
  rewrite !drop_drop. replace (k1 + k2 - k1)%nat with k2 by lia.
  apply xor_list_app. rewrite !length_take, !length_drop. lia.
Qed.

Lemma splice_range_split i k1 k2 a b dst :
  (i + k1 + k2 <= length a)%nat -> (i + k1 + k2 <= length b)%nat ->
  (i + k1 + k2 <= length dst)%nat ->
  splice (i + k1) (xor_range (i + k1) k2 a b) (splice i (xor_range i k1 a b) dst)
  = splice i (xor_range i (k1 + k2) a b) dst.
Proof.
  intros. rewrite xor_range_split by lia.
  pose proof (xor_range_length i k1 a b ltac:(lia) ltac:(lia)) as Hl1.
  pose proof (xor_range_length (i + k1) k2 a b ltac:(lia) ltac:(lia)) as Hl2.
  rewrite <- Hl1 at 1. rewrite splice_splice; [done|]. rewrite Hl1, Hl2. lia.
Qed.

Lemma xor_bytes_from_spec k i a b dst :
  (i + k <= length a)%nat -> (i + k <= length b)%nat -> (i + k <= length dst)%nat ->
  xor_bytes_from k i a b dst = splice i (xor_range i k a b) dst.
Proof.
  revert i dst. induction k as [|k IH]; intros i dst Ha Hb Hd.
  { change (dst = splice i [] dst). by rewrite splice_nil. }
  cbn [xor_bytes_from].
  assert ([bxor (nth i a Byte.x00) (nth i b Byte.x00)] = xor_range i 1 a b) as ->.
  { unfold xor_range.
    destruct (drop i a) as [|x ra] eqn:Ea;
      [apply (f_equal length) in Ea; rewrite length_drop in Ea; cbn in Ea; lia|].
    destruct (drop i b) as [|y rb] eqn:Eb;
      [apply (f_equal length) in Eb; rewrite length_drop in Eb; cbn in Eb; lia|].
    rewrite <- (take_drop i a), Ea, <- (take_drop i b), Eb.
    rewrite !app_nth2 by (rewrite length_take; lia). rewrite !length_take.
    replace (i - Nat.min i (length a))%nat with 0%nat by lia.
    replace (i - Nat.min i (length b))%nat with 0%nat by lia. done. }
  rewrite IH; [|lia..|].
  - replace (S i) with (i + 1)%nat by lia. apply splice_range_split; lia.
  - rewrite splice_length; rewrite ?xor_range_length; lia.
Qed.

Lemma xor_words_spec w i a b dst :
  ((i + w) * 8 <= length a)%nat -> ((i + w) * 8 <= length b)%nat ->
  ((i + w) * 8 <= length dst)%nat ->
  xor_words w i a b dst = splice (i * 8) (xor_range (i * 8) (w * 8) a b) dst.
Proof.
  revert i dst. induction w as [|w IH]; intros i dst Ha Hb Hd.
  { change (dst = splice (i * 8) [] dst). by rewrite splice_nil. }
  cbn [xor_words]. unfold wordSize.
  rewrite store_lxor by (rewrite length_take, length_drop; lia).
  change (xor_list (take 8 (drop (i * 8) a)) (take 8 (drop (i * 8) b)))
    with (xor_range (i * 8) 8 a b).
  rewrite IH; [|lia..|].
  - replace (S i * 8)%nat with (i * 8 + 8)%nat by lia.
    replace (S w * 8)%nat with (8 + w * 8)%nat by lia. apply splice_range_split; lia.
  - rewrite splice_length; rewrite ?xor_range_length; lia.
Qed.

Lemma safeXORBytes_spec dst a b :
  (Nat.min (length a) (length b) <= length dst)%nat ->
  safeXORBytes dst a b = (splice 0 (xor_list a b) dst, Nat.min (length a) (length b)).
Proof.
  intros Hd. unfold safeXORBytes. rewrite xor_bytes_from_spec by lia.
  do 2 f_equal. unfold xor_range. rewrite !drop_0.
  unfold xor_list. clear Hd. revert b. induction a as [|x a IH]; intros [|y b]; try done.
  cbn. by rewrite IH.
Qed.

Lemma fast_safe dst a b :
  (Nat.min (length a) (length b) <= length dst)%nat ->
  fastXORBytes dst a b = safeXORBytes dst a b.
Proof.
  intros Hd. unfold fastXORBytes, safeXORBytes, wordSize. f_equal.
  set (n := Nat.min (length a) (length b)) in *.
  pose proof (Nat.div_mod_eq n 8) as Hn. pose proof (Nat.mod_upper_bound n 8 ltac:(lia)).
  set (w := (n / 8)%nat) in *. set (r := (n mod 8)%nat) in *.
  assert ((if (0 <? w)%nat then xor_words w 0 a b dst else dst)
          = splice 0 (xor_range 0 (w * 8) a b) dst) as ->.
  { destruct (Nat.ltb_spec 0 w).
    - rewrite xor_words_spec by lia. done.
    - replace w with 0%nat by lia. change (dst = splice 0 [] dst). by rewrite splice_nil. }
  rewrite !xor_bytes_from_spec; try lia.
  - replace (n - r)%nat with (0 + w * 8)%nat by lia.
    rewrite splice_range_split by lia. do 2 f_equal. lia.
  - rewrite splice_length; rewrite ?xor_range_length; lia.
Qed.

Lemma xorBytes_spec u dst a b :
  (Nat.min (length a) (length b) <= length dst)%nat ->
  xorBytes u dst a b = (splice 0 (xor_list a b) dst, Nat.min (length a) (length b)).
Proof.
  intros Hd. rewrite <- safeXORBytes_spec by done. unfold xorBytes.
  destruct u; [by apply fast_safe|done].
Qed.

Lemma xor_list_cancel a b :
  (length a <= length b)%nat -> xor_list (xor_list a b) b = a.
Proof.
  revert b. induction a as [|x a IH]; intros [|y b] Hl; try done; [cbn in Hl; lia|].
  cbn. rewrite bxor_nilpotent. f_equal. apply IH. cbn in Hl. lia.
Qed.

(** * Addresses *)

Definition familyIPv4 : Z := 1.
Definition familyIPv6 : Z := 2.
Definition IPv4len : nat := 4.
Definition IPv6len : nat := 16.

(** The value of an address attribute, and the target of a [GetFrom]: the array
    of [IP] starts at its first byte. *)
Record Address := mkAddress { IP : buffer; Port : Z }.

(** [isZeros], [isIPv4] *)
Definition isZeros (p : bytes) : bool := forallb (fun b => bz b =? 0) p.
Definition isIPv4 (ip : bytes) : bool :=
  isZeros (take 10 ip) && (bz (nth 10 ip Byte.x00) =? 0xff) && (bz (nth 11 ip Byte.x00) =? 0xff).

(** The family and the bytes that [AddToAs] and [addAs] write for an [ip]. *)
Definition ip_family (ip : bytes) : result error (Z * bytes) :=
  if (length ip =? IPv6len)%nat then
    if isIPv4 ip then Ok (familyIPv4, take 4 (drop 12 ip)) else Ok (familyIPv6, ip)
  else if negb (length ip =? IPv4len)%nat then Err ErrBadIPLength
  else Ok (familyIPv4, ip).

Section Addresses.
Context `{GoRuntime}.
(** Whether the architecture supports unaligned access. *)
Variable supportsUnaligned : bool.

Definition magicCookieHigh : Z := Z.shiftr magicCookie 16.

(** [XORMappedAddress.AddToAs] *)
Definition XORMappedAddress_AddToAs (a : Address) (t : Z) : M unit := fun m =>
  match ip_family (visible (IP a)) with
  | Err e => (m, Err e)
  | Panic p => (m, Panic p)
  | Ok (family, ip) =>
      let value := replicate (32 + 128) Byte.x00 in
      let xorValue := splice 4 (take 12 (TID m)) (replicate IPv6len Byte.x00) in
      let xorValue := splice 0 (put32 magicCookie) xorValue in
      let value := splice 0 (put16 family) value in
      let value := splice 2 (put16 (u16 (Z.lxor (Port a) magicCookieHigh))) value in
      let '(x, _) := xorBytes supportsUnaligned (take (length ip) (drop 4 value)) ip xorValue in
      let value := splice 4 x value in
      Add t (fresh (take (4 + length ip) value)) m
  end.

(** [MappedAddress.addAs] *)
Definition MappedAddress_addAs (a : Address) (t : Z) : M unit := fun m =>
  match ip_family (visible (IP a)) with
  | Err e => (m, Err e)
  | Panic p => (m, Panic p)
  | Ok (family, ip) =>
      let value := replicate 128 Byte.x00 in
      let value := splice 0 (put16 family) value in
      let value := splice 2 (put16 (u16 (Port a))) value in
      let value := splice 4 ip value in
      Add t (fresh (take (4 + length ip) value)) m
  end.

(** [for len(a.IP) < ipLen { a.IP = append(a.IP, 0) }] *)
Fixpoint append_zeros (fuel ipLen : nat) (b : buffer) : buffer :=
  if (blen b <? ipLen)%nat then
    match fuel with
    | O => b
    | S fuel' => append_zeros fuel' ipLen (append b [Byte.x00]).1
    end
  else b.

(** Ensuring [len(a.IP) == ipLen] and reusing [a.IP]; all its bytes become 0. *)
Definition ensure_ip (ipLen : nat) (b : buffer) : buffer :=
  let b := if (blen b <? ipLen)%nat
           then append_zeros ipLen ipLen (Buffer (arr b) (bcap b)) else b in
  let b := Buffer (arr b) ipLen in
  write_at 0 (replicate ipLen Byte.x00) b.

Definition bad_family (family : Z) : error :=
  newDecodeErr (bs "xor-mapped address") (bs "family") (bs "bad value " ++ itoa family).

Definition ip_len (family : Z) : nat := if family =? familyIPv6 then IPv6len else IPv4len.

(** [XORMappedAddress.GetFromAs]: the family is read before the length is
    checked, from what the slice of the value can reach. *)
Definition XORMappedAddress_GetFromAs (t : Z) (m : Message) : ST Address error unit := fun a =>
  match Get m t with
  | Err e => (a, Err e)
  | Panic p => (a, Panic p)
  | Ok s =>
      let v := contents (array m) s in
      match reslice (reachable (array m) s) 0 2 with
      | Err e => (a, Err e)
      | Panic p => (a, Panic p)
      | Ok f =>
          let family := get16 f in
          if negb (family =? familyIPv6) && negb (family =? familyIPv4)
          then (a, Err (bad_family family))
          else
            let ip := ensure_ip (ip_len family) (IP a) in
            let a := mkAddress ip (Port a) in
            if (length v <=? 4)%nat then (a, Err ErrUnexpectedEOF)
            else if (blen ip <? length (drop 4 v))%nat
            then (a, Err (AttrOverflowErr AttrXORMappedAddress (Z.of_nat (blen ip))
                            (zlen (drop 4 v))))
            else
              let port := Z.lxor (get16 (drop 2 v)) magicCookieHigh in
              let xorValue := splice 0 (put32 magicCookie) (replicate 16 Byte.x00) in
              let xorValue := splice 4 (take 12 (TID m)) xorValue in
              let '(x, _) := xorBytes supportsUnaligned (visible ip) (drop 4 v) xorValue in
              (mkAddress (write_at 0 x ip) port, Ok tt)
      end
  end.

(** [MappedAddress.GetFromAs]: what does not fit the address is cut off. *)
Definition MappedAddress_GetFromAs (t : Z) (m : Message) : ST Address error unit := fun a =>
  match Get m t with
  | Err e => (a, Err e)
  | Panic p => (a, Panic p)
  | Ok s =>
      let v := contents (array m) s in
      if (length v <=? 4)%nat then (a, Err ErrUnexpectedEOF)
      else
        let family := get16 v in
        if negb (family =? familyIPv6) && negb (family =? familyIPv4)
        then (a, Err (bad_family family))
        else
          let ip := ensure_ip (ip_len family) (IP a) in
          let port := get16 (drop 2 v) in
          (mkAddress (write_at 0 (take (blen ip) (drop 4 v)) ip) port, Ok tt)
  end.

Definition XORMappedAddress_AddTo (a : Address) := XORMappedAddress_AddToAs a AttrXORMappedAddress.
Definition XORMappedAddress_GetFrom := XORMappedAddress_GetFromAs AttrXORMappedAddress.
Definition MappedAddress_AddTo (a : Address) := MappedAddress_addAs a AttrMappedAddress.
Definition MappedAddress_GetFrom := MappedAddress_GetFromAs AttrMappedAddress.
Definition AlternateServer_AddTo (a : Address) := MappedAddress_addAs a AttrAlternateServer.
Definition AlternateServer_GetFrom := MappedAddress_GetFromAs AttrAlternateServer.

(** * What they do *)

(** The address as it arrives: an IPv4 address in IPv6 form becomes four bytes. *)
Definition normal_ip (ip : bytes) : bytes :=
  if (length ip =? 16)%nat && isIPv4 ip then drop 12 ip else ip.

Definition xor_key (tid : bytes) : bytes := put32 magicCookie ++ tid.
Definition family_of (ip : bytes) : Z :=
  if (length (normal_ip ip) =? 4)%nat then familyIPv4 else familyIPv6.
Definition xor_address_value (tid ip : bytes) (port : Z) : bytes :=
  put16 (family_of ip) ++ put16 (u16 (Z.lxor port magicCookieHigh))
  ++ xor_list (normal_ip ip) (xor_key tid).
Definition address_value (ip : bytes) (port : Z) : bytes :=
  put16 (family_of ip) ++ put16 (u16 port) ++ normal_ip ip.

Definition ip_ok (ip : bytes) : Prop := length ip = 4%nat \/ length ip = 16%nat.

Lemma ip_family_ok ip : ip_ok ip -> ip_family ip = Ok (family_of ip, normal_ip ip).
Proof.
  intros Hip. unfold ip_family, family_of, normal_ip, IPv4len, IPv6len.
  destruct Hip as [Hl|Hl]; rewrite Hl; cbn [Nat.eqb andb negb]; [by rewrite Hl|].
  destruct (isIPv4 ip).
  - rewrite length_drop, Hl. cbn. by rewrite take_ge by (rewrite length_drop; lia).
  - by rewrite Hl.
Qed.

Lemma ip_family_bad ip : ~ ip_ok ip -> ip_family ip = Err ErrBadIPLength.
Proof.
  intros Hip. unfold ip_family, IPv4len, IPv6len, ip_ok in *.
  destruct (Nat.eqb_spec (length ip) 16), (Nat.eqb_spec (length ip) 4); try done; tauto.
Qed.

Lemma normal_ip_length ip :
  ip_ok ip -> length (normal_ip ip) = ip_len (family_of ip) /\ (length (normal_ip ip) <= 16)%nat /\
  (0 < length (normal_ip ip))%nat.
Proof.
  intros Hip. unfold ip_len, family_of. assert (length (normal_ip ip) = 4%nat \/ length (normal_ip ip) = 16%nat) as Hn.
  { unfold normal_ip. destruct Hip as [Hl|Hl]; rewrite Hl; cbn [Nat.eqb andb]; [by left|].
    destruct (isIPv4 ip); [left; rewrite length_drop; lia|by right]. }
  destruct Hn as [-> | ->]; split_and!; reflexivity || lia.
Qed.

Lemma splice_0_eq {A} (k l : list A) : length k = length l -> splice 0 k l = k.
Proof. intros. unfold splice. cbn. rewrite drop_ge by lia. by rewrite app_nil_r. Qed.

Lemma xor_key_eq tid :
  length tid = TransactionIDSize ->
  splice 4 (take 12 tid) (splice 0 (put32 magicCookie) (replicate 16 Byte.x00)) = xor_key tid /\
  splice 0 (put32 magicCookie) (splice 4 (take 12 tid) (replicate 16 Byte.x00)) = xor_key tid.
Proof.
  intros Htid. unfold TransactionIDSize in Htid. rewrite take_ge by lia. unfold xor_key.
  do 12 (destruct tid as [|? tid]; [done|]). destruct tid; [|done]. done.
Qed.

Lemma XORMappedAddress_implements ip port t cap :
  Implements (XORMappedAddress_AddToAs (mkAddress (Buffer (ip ++ cap) (length ip)) port) t)
    (fun p => if bool_decide (length ip = 4%nat \/ length ip = 16%nat)
              then Ok (with_attr (t, xor_address_value (p_tid p) ip port) p)
              else Err ErrBadIPLength).
Proof.
  intros m Hwf. unfold XORMappedAddress_AddToAs. cbn [IP Port].
  unfold visible. cbn [blen arr]. rewrite take_app_length.
  case_bool_decide as Hip; [|rewrite ip_family_bad by done; by exists m].
  rewrite ip_family_ok by done. intros Hok.
  assert (length (TID m) = TransactionIDSize) as Htid by apply Hwf.
  unfold IPv6len. destruct (xor_key_eq _ Htid) as [_ ->].
  destruct (normal_ip_length ip Hip) as (_ & Hn & _).
  assert (length (xor_key (TID m)) = 16%nat) as Hk by (unfold xor_key; by rewrite length_app, Htid).
  set (v := splice 2 _ _).
  assert (v = put16 (family_of ip) ++ put16 (u16 (Z.lxor port magicCookieHigh))
              ++ replicate 156 Byte.x00) as Hv by done.
  rewrite Hv.
  rewrite xorBytes_spec by (rewrite length_take, length_drop, !length_app, length_replicate,
    !put16_length, Hk; lia).
  rewrite splice_0_eq.
  2:{ rewrite xor_list_length, Hk, length_take, length_drop, !length_app, length_replicate,
        !put16_length. lia. }
  replace (4 + length (normal_ip ip))%nat
    with (4 + length (xor_list (normal_ip ip) (xor_key (TID m))))%nat
    by (rewrite xor_list_length, Hk; lia).
  rewrite take_splice_end.
  2:{ rewrite xor_list_length, Hk, !length_app, length_replicate, !put16_length. lia. }
  rewrite app_assoc, take_app_length' by done. rewrite <- app_assoc.
  by apply Add_fresh_wf.
Qed.

Lemma MappedAddress_implements ip port t cap :
  Implements (MappedAddress_addAs (mkAddress (Buffer (ip ++ cap) (length ip)) port) t)
    (fun p => if bool_decide (length ip = 4%nat \/ length ip = 16%nat)
              then Ok (with_attr (t, address_value ip port) p)
              else Err ErrBadIPLength).
Proof.
  intros m Hwf. unfold MappedAddress_addAs. cbn [IP Port].
  unfold visible. cbn [blen arr]. rewrite take_app_length.
  case_bool_decide as Hip; [|rewrite ip_family_bad by done; by exists m].
  rewrite ip_family_ok by done. intros Hok.
  destruct (normal_ip_length ip Hip) as (_ & Hn & _).
  set (v := splice 2 _ _).
  assert (v = put16 (family_of ip) ++ put16 (u16 port) ++ replicate 124 Byte.x00) as Hv by done.
  rewrite Hv, take_splice_end by (rewrite !length_app, length_replicate, !put16_length; lia).
  rewrite app_assoc, take_app_length' by done. rewrite <- app_assoc.
  by apply Add_fresh_wf.
Qed.

(** ** Reuse of the target *)

Lemma append_zeros_spec fuel n b :
  buffer_ok b -> (n <= blen b + fuel)%nat ->
  buffer_ok (append_zeros fuel n b) /\ (n <= blen (append_zeros fuel n b))%nat.
Proof.
  revert b. induction fuel as [|fuel IH]; intros b Hb Hn; cbn [append_zeros];
    destruct (Nat.ltb_spec (blen b) n); try (split; [done|lia]).
  apply IH; [by apply append_ok|]. rewrite append_blen. cbn. lia.
Qed.

Lemma ensure_ip_spec n b :
  buffer_ok b ->
  buffer_ok (ensure_ip n b) /\ blen (ensure_ip n b) = n /\
  visible (ensure_ip n b) = replicate n Byte.x00 /\ (n <= bcap (ensure_ip n b))%nat.
Proof.
  intros Hb. unfold ensure_ip.
  set (b1 := if (blen b <? n)%nat then _ else b).
  assert (n <= bcap b1)%nat as Hn.
  { unfold b1. destruct (Nat.ltb_spec (blen b) n); [|unfold buffer_ok in Hb; lia].
    destruct (append_zeros_spec n n (Buffer (arr b) (bcap b))) as [H1 H2];
      [unfold buffer_ok; cbn; unfold bcap; cbn; lia|lia|]. unfold buffer_ok in H1. lia. }
  unfold buffer_ok, visible. cbn [blen arr write_at]. unfold bcap in *. cbn [arr write_at].
  rewrite splice_length by (rewrite length_replicate; lia).
  split; [done|]. split; [done|]. split; [|done].
  pose proof (take_splice_end 0 (replicate n Byte.x00) (arr b1)) as Ht.
  rewrite length_replicate in Ht. cbn in Ht. by apply Ht.
Qed.

Lemma write_ip_spec b x :
  buffer_ok b -> (length x <= blen b)%nat ->
  visible (write_at 0 x b) = x ++ drop (length x) (visible b).
Proof.
  intros Hb Hx. unfold visible. cbn [blen arr write_at]. unfold buffer_ok, bcap in Hb.
  rewrite take_splice_within by (cbn; lia). done.
Qed.

Lemma family_of_cases ip : family_of ip = familyIPv4 \/ family_of ip = familyIPv6.
Proof. unfold family_of. destruct (_ =? _)%nat; auto. Qed.

Lemma family_known ip :
  (negb (family_of ip =? familyIPv6) && negb (family_of ip =? familyIPv4)) = false /\
  u16 (family_of ip) = family_of ip.
Proof. destruct (family_of_cases ip) as [-> | ->]; done. Qed.

Lemma port_roundtrip port :
  0 <= port < 2 ^ 16 ->
  Z.lxor (u16 (u16 (Z.lxor port magicCookieHigh))) magicCookieHigh = port.
Proof.
  intros Hp. unfold u16. rewrite Zmod_mod. rewrite <- Z.land_ones by lia.
  assert (Z.land magicCookieHigh (Z.ones 16) = magicCookieHigh) as Hm by done.
  transitivity (Z.land port (Z.ones 16)).
  - rewrite <- Hm at 2. apply Z.bits_inj'. intros n Hn.
    rewrite Z.lxor_spec, !Z.land_spec, !Z.lxor_spec.
    by destruct (Z.testbit port n), (Z.testbit magicCookieHigh n), (Z.testbit (Z.ones 16) n).
  - rewrite Z.land_ones by lia. by apply Z.mod_small.
Qed.

(** The result does not depend on what the target held before. *)
Lemma XORMappedAddress_GetFrom_spec m t a ip port :
  ip_ok ip -> 0 <= port < 2 ^ 16 -> buffer_ok (IP a) -> length (TID m) = TransactionIDSize ->
  lookup_attr t (p_attrs (abs m)) = Some (xor_address_value (TID m) ip port) ->
  exists a', XORMappedAddress_GetFromAs t m a = (a', Ok tt) /\
    visible (IP a') = normal_ip ip /\ Port a' = port.
Proof.
  intros Hip Hport Hb Htid Hl. destruct (Get_found _ _ _ Hl) as (s & Hs & Hc).
  unfold XORMappedAddress_GetFromAs. rewrite Hs, Hc.
  destruct (normal_ip_length ip Hip) as (Hn & Hn16 & Hn0).
  assert (length (xor_key (TID m)) = 16%nat) as Hk by (unfold xor_key; by rewrite length_app, Htid).
  set (x := xor_list (normal_ip ip) (xor_key (TID m))) in *.
  assert (length x = length (normal_ip ip)) as Hx by (unfold x; rewrite xor_list_length, Hk; lia).
  assert (exists r, reachable (array m) s = xor_address_value (TID m) ip port ++ r) as [r Hr].
  { exists (drop (slen s) (reachable (array m) s)). rewrite <- Hc. unfold contents, reachable.
    by rewrite take_drop. }
  rewrite Hr. unfold reslice, xor_address_value. fold x. rewrite <- !app_assoc.
  rewrite (proj2 (Nat.leb_le 2 _)) by (rewrite length_app, put16_length; lia).
  cbn [Nat.leb andb]. rewrite drop_0, take_app_length' by done. rewrite get16_put16.
  destruct (family_known ip) as [Hfam ->]. rewrite Hfam.
  destruct (ensure_ip_spec (ip_len (family_of ip)) (IP a) Hb) as (He1 & He2 & He3 & He4).
  set (e := ensure_ip _ _) in *. rewrite He2.
  rewrite !length_app, !put16_length.
  change (2 + (2 + ?n))%nat with (4 + n)%nat.
  destruct (Nat.leb_spec (4 + length x) 4); [lia|].
  assert (drop 4 (put16 (family_of ip) ++ put16 (u16 (Z.lxor port magicCookieHigh)) ++ x) = x)
    as -> by (by rewrite app_assoc, drop_app_length').
  destruct (Nat.ltb_spec (ip_len (family_of ip)) (length x)); [lia|].
  destruct (xor_key_eq _ Htid) as [-> _].
  rewrite He3. rewrite xorBytes_spec by (rewrite length_replicate; lia).
  rewrite splice_0_eq by (rewrite xor_list_length, length_replicate; lia).
  eexists; split; [done|]. cbn [IP Port]. split.
  - unfold x at 1. rewrite xor_list_cancel by lia.
    rewrite write_ip_spec by (done || lia). rewrite He3, drop_ge, app_nil_r; [done|].
    rewrite length_replicate. lia.
  - rewrite drop_app_length' by done. rewrite get16_put16_app. by apply port_roundtrip.
Qed.

Lemma MappedAddress_GetFrom_spec m t a ip port :
  ip_ok ip -> 0 <= port < 2 ^ 16 -> buffer_ok (IP a) ->
  lookup_attr t (p_attrs (abs m)) = Some (address_value ip port) ->
  exists a', MappedAddress_GetFromAs t m a = (a', Ok tt) /\
    visible (IP a') = normal_ip ip /\ Port a' = port.
Proof.
  intros Hip Hport Hb Hl. destruct (Get_found _ _ _ Hl) as (s & Hs & Hc).
  unfold MappedAddress_GetFromAs. rewrite Hs, Hc.
  destruct (normal_ip_length ip Hip) as (Hn & Hn16 & Hn0). unfold address_value.
  rewrite !length_app, !put16_length.
  destruct (Nat.leb_spec (2 + (2 + length (normal_ip ip))) 4); [lia|].
  rewrite get16_put16_app. destruct (family_known ip) as [Hfam ->]. rewrite Hfam.
  destruct (ensure_ip_spec (ip_len (family_of ip)) (IP a) Hb) as (He1 & He2 & He3 & He4).
  set (e := ensure_ip _ _) in *. rewrite He2.
  assert (drop 4 (put16 (family_of ip) ++ put16 (u16 port) ++ normal_ip ip) = normal_ip ip)
    as -> by (by rewrite app_assoc, drop_app_length').
  eexists; split; [done|]. cbn [IP Port]. split.
  - rewrite take_ge by lia. rewrite write_ip_spec by (done || lia).
    rewrite He3, drop_ge, app_nil_r; [done|]. rewrite length_replicate. lia.
  - rewrite drop_app_length' by done. rewrite get16_put16_app. unfold u16. rewrite Zmod_mod.
    by apply Z.mod_small.
Qed.

(** ** The codecs: XOR-MAPPED-ADDRESS and its TURN relatives for any type [t],
    MAPPED-ADDRESS and ALTERNATE-SERVER likewise. *)

Definition address_of (a : bytes * Z) : Address := mkAddress (Buffer (a.1 ++ []) (length a.1)) a.2.

Definition xor_address_codec (t : Z) : Codec (bytes * Z) Address.
Proof.
  refine {| codec_type := t; codec_value tid a := xor_address_value tid a.1 a.2;
            codec_dom a := ip_ok a.1 /\ 0 <= a.2 < 2 ^ 16; codec_blank y := buffer_ok (IP y);
            codec_add a := XORMappedAddress_AddToAs (address_of a) t;
            codec_get := XORMappedAddress_GetFromAs t;
            codec_shows _ y a := visible (IP y) = normal_ip a.1 /\ Port y = a.2 |}.
  - intros [ip port] [Hip _] m Hwf. cbn [fst snd] in *.
    pose proof (XORMappedAddress_implements ip port t [] m Hwf) as Hi. cbv beta in Hi.
    rewrite bool_decide_true in Hi by done. exact Hi.
  - intros m [ip port] y [Hip Hp] Hb Htid Hl. cbn [fst snd] in *.
    by apply XORMappedAddress_GetFrom_spec.
Defined.

Definition address_codec (t : Z) : Codec (bytes * Z) Address.
Proof.
  refine {| codec_type := t; codec_value _ a := address_value a.1 a.2;
            codec_dom a := ip_ok a.1 /\ 0 <= a.2 < 2 ^ 16; codec_blank y := buffer_ok (IP y);
            codec_add a := MappedAddress_addAs (address_of a) t;
            codec_get := MappedAddress_GetFromAs t;
            codec_shows _ y a := visible (IP y) = normal_ip a.1 /\ Port y = a.2 |}.
  - intros [ip port] [Hip _] m Hwf. cbn [fst snd] in *.
    pose proof (MappedAddress_implements ip port t [] m Hwf) as Hi. cbv beta in Hi.
    rewrite bool_decide_true in Hi by done. exact Hi.
  - intros m [ip port] y [Hip Hp] Hb Htid Hl. cbn [fst snd] in *.
    by apply MappedAddress_GetFrom_spec.
Defined.

End Addresses.
