(* ===== verification/Crypto.v ===== *)
(** The digests of the Go standard library that the stun package calls:
    [crypto/sha1], [crypto/md5], [crypto/hmac] and [hash/crc32], as executable
    functions on bytes (FIPS 180-4, RFC 1321, RFC 2104, the IEEE polynomial). *)
From stdpp Require Import base list sets strings.
From Stdlib Require Import ZArith Lia.
From S2P Require Import Prelude Wire.
Open Scope Z_scope.

(** * 32-bit words *)

Definition add32 (a b : Z) : Z := u32 (a + b).
Definition not32 (a : Z) : Z := Z.lxor a (2 ^ 32 - 1).
Definition rotl (n a : Z) : Z := Z.lor (u32 (Z.shiftl a n)) (Z.shiftr a (32 - n)).

(** Cut into blocks of [n] bytes. *)
Fixpoint chunks (fuel n : nat) (l : bytes) : list bytes :=
  match fuel, l with
  | S fuel, _ :: _ => take n l :: chunks fuel n (drop n l)
  | _, _ => []
  end.
Definition blocks (n : nat) (l : bytes) : list bytes := chunks (length l) n l.

(** The padding that MD5 and SHA-1 share: a one bit, zeros, and the length in
    bits in eight bytes written by [put]. *)
Definition md_pad (put : Z -> bytes) (l : bytes) : bytes :=
  let n := length l in
  let k := ((119 - n mod 64) mod 64)%nat in
  l ++ [Byte.x80] ++ replicate k Byte.x00 ++ put (8 * Z.of_nat n).

(** * SHA-1 *)

Record sha1_state := Sha1 { h0 : Z; h1 : Z; h2 : Z; h3 : Z; h4 : Z }.

Definition sha1_init : sha1_state :=
  Sha1 0x67452301 0xefcdab89 0x98badcfe 0x10325476 0xc3d2e1f0.

(** The message schedule, newest word first. *)
Fixpoint sha1_extend (n : nat) (w : list Z) : list Z :=
  match n with
  | O => w
  | S n' =>
      let x := Z.lxor (Z.lxor (nth 2 w 0) (nth 7 w 0)) (Z.lxor (nth 13 w 0) (nth 15 w 0)) in
      sha1_extend n' (rotl 1 x :: w)
  end.
Definition sha1_schedule (block : bytes) : list Z :=
  rev (sha1_extend 64 (rev (map get32 (blocks 4 block)))).

Definition sha1_f (i : nat) (b c d : Z) : Z :=
  if (i <? 20)%nat then Z.lor (Z.land b c) (Z.land (not32 b) d)
  else if (i <? 40)%nat then Z.lxor (Z.lxor b c) d
  else if (i <? 60)%nat then Z.lor (Z.lor (Z.land b c) (Z.land b d)) (Z.land c d)
  else Z.lxor (Z.lxor b c) d.
Definition sha1_k (i : nat) : Z :=
  if (i <? 20)%nat then 0x5a827999
  else if (i <? 40)%nat then 0x6ed9eba1
  else if (i <? 60)%nat then 0x8f1bbcdc
  else 0xca62c1d6.

Fixpoint sha1_rounds (i : nat) (w : list Z) (s : sha1_state) : sha1_state :=
  match w with
  | [] => s
  | x :: w' =>
      let t := u32 (rotl 5 (h0 s) + sha1_f i (h1 s) (h2 s) (h3 s) + h4 s + sha1_k i + x) in
      sha1_rounds (S i) w' (Sha1 t (h0 s) (rotl 30 (h1 s)) (h2 s) (h3 s))
  end.

Definition sha1_block (s : sha1_state) (block : bytes) : sha1_state :=
  let t := sha1_rounds 0 (sha1_schedule block) s in
  Sha1 (add32 (h0 s) (h0 t)) (add32 (h1 s) (h1 t)) (add32 (h2 s) (h2 t))
    (add32 (h3 s) (h3 t)) (add32 (h4 s) (h4 t)).

Definition sha1 (l : bytes) : bytes :=
  let s := fold_left sha1_block (blocks 64 (md_pad put64 l)) sha1_init in
  put32 (h0 s) ++ put32 (h1 s) ++ put32 (h2 s) ++ put32 (h3 s) ++ put32 (h4 s).

(** * MD5 *)

Record md5_state := Md5 { ma : Z; mb : Z; mc : Z; md : Z }.

Definition md5_init : md5_state := Md5 0x67452301 0xefcdab89 0x98badcfe 0x10325476.

Definition md5_table : list Z :=
  [0xd76aa478; 0xe8c7b756; 0x242070db; 0xc1bdceee; 0xf57c0faf; 0x4787c62a;
   0xa8304613; 0xfd469501; 0x698098d8; 0x8b44f7af; 0xffff5bb1; 0x895cd7be;
   0x6b901122; 0xfd987193; 0xa679438e; 0x49b40821; 0xf61e2562; 0xc040b340;
   0x265e5a51; 0xe9b6c7aa; 0xd62f105d; 0x02441453; 0xd8a1e681; 0xe7d3fbc8;
   0x21e1cde6; 0xc33707d6; 0xf4d50d87; 0x455a14ed; 0xa9e3e905; 0xfcefa3f8;
   0x676f02d9; 0x8d2a4c8a; 0xfffa3942; 0x8771f681; 0x6d9d6122; 0xfde5380c;
   0xa4beea44; 0x4bdecfa9; 0xf6bb4b60; 0xbebfbc70; 0x289b7ec6; 0xeaa127fa;
   0xd4ef3085; 0x04881d05; 0xd9d4d039; 0xe6db99e5; 0x1fa27cf8; 0xc4ac5665;
   0xf4292244; 0x432aff97; 0xab9423a7; 0xfc93a039; 0x655b59c3; 0x8f0ccc92;
   0xffeff47d; 0x85845dd1; 0x6fa87e4f; 0xfe2ce6e0; 0xa3014314; 0x4e0811a1;
   0xf7537e82; 0xbd3af235; 0x2ad7d2bb; 0xeb86d391].
Definition md5_shifts : list Z :=
  [7; 12; 17; 22; 7; 12; 17; 22; 7; 12; 17; 22; 7; 12; 17; 22;
   5; 9; 14; 20; 5; 9; 14; 20; 5; 9; 14; 20; 5; 9; 14; 20;
   4; 11; 16; 23; 4; 11; 16; 23; 4; 11; 16; 23; 4; 11; 16; 23;
   6; 10; 15; 21; 6; 10; 15; 21; 6; 10; 15; 21; 6; 10; 15; 21].

(** Little-endian words. *)
Definition get32_le (b : bytes) : Z := get32 (rev (take 4 b)).
Definition put32_le (z : Z) : bytes := rev (put32 z).
Definition put64_le (z : Z) : bytes := rev (put64 z).

Definition md5_step (w : list Z) (s : md5_state) (i : nat) : md5_state :=
  let '(f, g) :=
    if (i <? 16)%nat then (Z.lor (Z.land (mb s) (mc s)) (Z.land (not32 (mb s)) (md s)), i)
    else if (i <? 32)%nat
    then (Z.lor (Z.land (md s) (mb s)) (Z.land (not32 (md s)) (mc s)), ((5 * i + 1) mod 16)%nat)
    else if (i <? 48)%nat
    then (Z.lxor (Z.lxor (mb s) (mc s)) (md s), ((3 * i + 5) mod 16)%nat)
    else (Z.lxor (mc s) (Z.lor (mb s) (not32 (md s))), ((7 * i) mod 16)%nat) in
  let x := u32 (f + ma s + nth i md5_table 0 + nth g w 0) in
  Md5 (md s) (add32 (mb s) (rotl (nth i md5_shifts 0) x)) (mb s) (mc s).

Definition md5_block (s : md5_state) (block : bytes) : md5_state :=
  let w := map get32_le (blocks 4 block) in
  let t := fold_left (md5_step w) (seq 0 64) s in
  Md5 (add32 (ma s) (ma t)) (add32 (mb s) (mb t)) (add32 (mc s) (mc t)) (add32 (md s) (md t)).

Definition md5 (l : bytes) : bytes :=
  let s := fold_left md5_block (blocks 64 (md_pad put64_le l)) md5_init in
  put32_le (ma s) ++ put32_le (mb s) ++ put32_le (mc s) ++ put32_le (md s).

(** * HMAC-SHA1 *)

Definition hmac_key (key : bytes) : bytes :=
  let k := if (64 <? length key)%nat then sha1 key else key in
  k ++ replicate (64 - length k) Byte.x00.
Definition hmac_sha1 (key message : bytes) : bytes :=
  let k := hmac_key key in
  let ipad := map (bxor Byte.x36) k in
  let opad := map (bxor Byte.x5c) k in
  sha1 (opad ++ sha1 (ipad ++ message)).

(** * CRC-32 *)

Fixpoint crc_shift (n : nat) (c : Z) : Z :=
  match n with
  | O => c
  | S n' =>
      crc_shift n' (if Z.testbit c 0 then Z.lxor (Z.shiftr c 1) 0xedb88320 else Z.shiftr c 1)
  end.
Definition crc_byte (c : Z) (b : byte) : Z :=
  Z.lxor (crc_shift 8 (Z.land (Z.lxor c (bz b)) 0xff)) (Z.shiftr c 8).
Definition crc32 (l : bytes) : Z := not32 (fold_left crc_byte l (2 ^ 32 - 1)).

(** * Published test vectors *)

Example sha1_abc :
  map bz (sha1 (bs "abc"))
  = [0xa9; 0x99; 0x3e; 0x36; 0x47; 0x06; 0x81; 0x6a; 0xba; 0x3e; 0x25; 0x71; 0x78; 0x50;
     0xc2; 0x6c; 0x9c; 0xd0; 0xd8; 0x9d].
Proof. vm_compute. reflexivity. Qed.

Example md5_abc :
  map bz (md5 (bs "abc"))
  = [0x90; 0x01; 0x50; 0x98; 0x3c; 0xd2; 0x4f; 0xb0; 0xd6; 0x96; 0x3f; 0x7d; 0x28; 0xe1;
     0x7f; 0x72].
Proof. vm_compute. reflexivity. Qed.

(** RFC 2202, test case 2. *)
Example hmac_sha1_vector :
  map bz (hmac_sha1 (bs "Jefe") (bs "what do ya want for nothing?"))
  = [0xef; 0xfc; 0xdf; 0x6a; 0xe5; 0xeb; 0x2f; 0xa2; 0xd2; 0x74; 0x16; 0xd5; 0xf1; 0x84;
     0xdf; 0x9c; 0x25; 0x9a; 0x7c; 0x79].
Proof. vm_compute. reflexivity. Qed.

Example crc32_check : crc32 (bs "123456789") = 0xcbf43926.
Proof. vm_compute. reflexivity. Qed.

(** * Lengths *)

Lemma sha1_length l : length (sha1 l) = 20%nat.
Proof. done. Qed.
Lemma md5_length l : length (md5 l) = 16%nat.
Proof. done. Qed.
Lemma hmac_sha1_length k l : length (hmac_sha1 k l) = 20%nat.
Proof. done. Qed.

Lemma lxor_mod k a b : 0 <= k -> Z.lxor a b mod 2 ^ k = Z.lxor (a mod 2 ^ k) (b mod 2 ^ k).
Proof.
  intros Hk. rewrite <- !Z.land_ones by lia. apply Z.bits_inj'. intros i Hi.
  rewrite Z.lxor_spec, !Z.land_spec, Z.lxor_spec.
  destruct (Z.testbit (Z.ones k) i); by rewrite ?andb_true_r, ?andb_false_r.
Qed.

Lemma lxor_range k a b :
  0 <= k -> 0 <= a < 2 ^ k -> 0 <= b < 2 ^ k -> 0 <= Z.lxor a b < 2 ^ k.
Proof.
  intros Hk Ha Hb. rewrite <- (Z.mod_small a (2 ^ k)), <- (Z.mod_small b (2 ^ k)) by lia.
  rewrite <- lxor_mod by done. apply Z.mod_pos_bound. lia.
Qed.

Lemma shiftr_range k n a : 0 <= n -> 0 <= a < 2 ^ k -> 0 <= Z.shiftr a n < 2 ^ k.
Proof.
  intros Hn Ha. rewrite Z.shiftr_div_pow2 by done.
  assert (0 < 2 ^ n) by lia. split; [apply Z.div_pos; lia|].
  apply Z.le_lt_trans with a; [|lia]. apply Z.div_le_upper_bound; [lia|]. nia.
Qed.

Lemma crc_shift_range n c : 0 <= c < 2 ^ 32 -> 0 <= crc_shift n c < 2 ^ 32.
Proof.
  revert c. induction n as [|n IH]; intros c Hc; [done|]. cbn [crc_shift]. apply IH.
  pose proof (shiftr_range 32 1 c ltac:(lia) Hc).
  destruct (Z.testbit c 0); [|done]. by apply lxor_range.
Qed.

Lemma crc_byte_range c b : 0 <= c < 2 ^ 32 -> 0 <= crc_byte c b < 2 ^ 32.
Proof.
  intros Hc. unfold crc_byte. apply lxor_range; [done| |by apply shiftr_range].
  apply crc_shift_range. change 0xff with (Z.ones 8). rewrite Z.land_ones by lia.
  pose proof (Z.mod_pos_bound (Z.lxor c (bz b)) (2 ^ 8) ltac:(lia)). lia.
Qed.

Lemma crc32_range l : 0 <= crc32 l < 2 ^ 32.
Proof.
  unfold crc32, not32. apply lxor_range; [done| |done].
  assert (forall c, 0 <= c < 2 ^ 32 -> 0 <= fold_left crc_byte l c < 2 ^ 32) as Hf; [|by apply Hf].
  induction l as [|b l IH]; intros c Hc; [done|]. cbn. apply IH. by apply crc_byte_range.
Qed.

(** * One changed byte changes the CRC

    The table entries of the 256 bytes differ in their top byte, so a step can
    be undone: it is injective in the register and in the byte. *)
Definition crc_table (i : Z) : Z := crc_shift 8 i.

Definition top_bytes : list Z :=
  map (fun i => Z.shiftr (crc_table (Z.of_nat i)) 24) (seq 0 256).

Lemma top_bytes_distinct : bool_decide (NoDup top_bytes) = true.
Proof. vm_compute. reflexivity. Qed.

Lemma crc_table_top i j :
  0 <= i < 256 -> 0 <= j < 256 -> Z.shiftr (crc_table i) 24 = Z.shiftr (crc_table j) 24 -> i = j.
Proof.
  intros Hi Hj Heq. pose proof (bool_decide_eq_true_1 _ top_bytes_distinct) as Hnd.
  assert (forall z, 0 <= z < 256 ->
            top_bytes !! Z.to_nat z = Some (Z.shiftr (crc_table z) 24)) as Hl.
  { intros z Hz. unfold top_bytes. rewrite list_lookup_fmap, lookup_seq_lt by lia.
    cbn [fmap option_fmap option_map]. do 3 f_equal. lia. }
  assert (Z.to_nat i = Z.to_nat j); [|lia].
  eapply NoDup_lookup; [exact Hnd|by apply Hl|]. rewrite Heq. by apply Hl.
Qed.

Lemma lxor_cancel_r a b c : Z.lxor a c = Z.lxor b c -> a = b.
Proof.
  intros Heq. apply (f_equal (fun x => Z.lxor x c)) in Heq.
  by rewrite !Z.lxor_assoc, !Z.lxor_nilpotent, !Z.lxor_0_r in Heq.
Qed.

Lemma crc_step_inj i j c d :
  0 <= i < 256 -> 0 <= j < 256 -> 0 <= c < 2 ^ 32 -> 0 <= d < 2 ^ 32 ->
  Z.lxor (crc_table i) (Z.shiftr c 8) = Z.lxor (crc_table j) (Z.shiftr d 8) ->
  i = j /\ Z.shiftr c 8 = Z.shiftr d 8.
Proof.
  intros Hi Hj Hc Hd Heq.
  assert (i = j) as ->.
  { apply crc_table_top; [done|done|].
    apply (f_equal (fun x => Z.shiftr x 24)) in Heq. rewrite !Z.shiftr_lxor in Heq.
    rewrite !Z.shiftr_shiftr in Heq by lia. change (8 + 24) with 32 in Heq.
    rewrite (Z.shiftr_div_pow2 c), (Z.shiftr_div_pow2 d) in Heq by lia.
    rewrite (Z.div_small c), (Z.div_small d) in Heq by lia. by rewrite !Z.lxor_0_r in Heq. }
  split; [done|]. rewrite (Z.lxor_comm (crc_table j)), (Z.lxor_comm (crc_table j)) in Heq.
  by apply lxor_cancel_r in Heq.
Qed.

Lemma low_byte x : 0 <= Z.land x 0xff < 256.
Proof.
  change 0xff with (Z.ones 8). rewrite Z.land_ones by lia.
  apply (Z.mod_pos_bound x (2 ^ 8)). lia.
Qed.

Lemma low_byte_lxor a b x :
  Z.land (Z.lxor a x) 0xff = Z.land (Z.lxor b x) 0xff -> a mod 256 = b mod 256.
Proof.
  intros Heq. change 0xff with (Z.ones 8) in Heq. rewrite !Z.land_ones in Heq by lia.
  rewrite !lxor_mod in Heq by lia. by apply lxor_cancel_r in Heq.
Qed.

Lemma crc_byte_inj_register c d b :
  0 <= c < 2 ^ 32 -> 0 <= d < 2 ^ 32 -> crc_byte c b = crc_byte d b -> c = d.
Proof.
  intros Hc Hd Heq. apply crc_step_inj in Heq as [Hlow Hhigh]; [|apply low_byte|apply low_byte|done|done].
  apply low_byte_lxor in Hlow. rewrite !Z.shiftr_div_pow2 in Hhigh by lia.
  change (2 ^ 8) with 256 in Hhigh. pose proof (Z.div_mod c 256). pose proof (Z.div_mod d 256). lia.
Qed.

Lemma crc_byte_inj_byte c a b : 0 <= c < 2 ^ 32 -> crc_byte c a = crc_byte c b -> a = b.
Proof.
  intros Hc Heq. apply crc_step_inj in Heq as [Hlow _]; [|apply low_byte|apply low_byte|done|done].
  rewrite (Z.lxor_comm c), (Z.lxor_comm c) in Hlow. apply low_byte_lxor in Hlow.
  pose proof (bz_range a). pose proof (bz_range b). rewrite !Z.mod_small in Hlow by lia.
  by apply bz_inj.
Qed.

Lemma crc_fold_inj l c d :
  0 <= c < 2 ^ 32 -> 0 <= d < 2 ^ 32 -> fold_left crc_byte l c = fold_left crc_byte l d -> c = d.
Proof.
  revert c d. induction l as [|b l IH]; intros c d Hc Hd Heq; [done|]. cbn in Heq.
  apply IH in Heq; [|by apply crc_byte_range..]. by apply crc_byte_inj_register in Heq.
Qed.

Lemma crc_fold_range l c : 0 <= c < 2 ^ 32 -> 0 <= fold_left crc_byte l c < 2 ^ 32.
Proof. revert c. induction l as [|b l IH]; intros c Hc; [done|]. apply IH. by apply crc_byte_range. Qed.

Lemma crc32_one_byte l1 a b l2 : crc32 (l1 ++ a :: l2) = crc32 (l1 ++ b :: l2) -> a = b.
Proof.
  unfold crc32, not32. intros Heq. apply lxor_cancel_r in Heq.
  rewrite !fold_left_app in Heq. cbn [fold_left] in Heq.
  set (c := fold_left crc_byte l1 (2 ^ 32 - 1)) in *.
  assert (0 <= c < 2 ^ 32) as Hc by (by apply crc_fold_range).
  apply crc_fold_inj in Heq; [|by apply crc_byte_range..]. by apply crc_byte_inj_byte in Heq.
Qed.
