(* ===== verification/StunIntegrity.v ===== *)
(** MESSAGE-INTEGRITY and FINGERPRINT: [src/stun/integrity.go] and
    [src/stun/fingerprint.go].

    Both put another length into the header while they compute a digest of
    [Raw]; the model performs the same writes on the same buffer. *)
From stdpp Require Import base list sets strings.
From Stdlib Require Import ZArith Lia.
From S2P Require Import Prelude Wire GoFmt GoSlice StunTypes StunMessage StunPacket StunCodec.
From S2P Require Import StunBuild StunAttrs Crypto.
Open Scope Z_scope.

(** * Operations *)

Definition credentialsSep : bytes := bs ":".
Definition messageIntegritySize : nat := 20.
Definition fingerprintSize : nat := 4.
Definition fingerprintXORValue : Z := 0x5354554e.

(** [NewLongTermIntegrity], [NewShortTermIntegrity]: the key. *)
Definition NewLongTermIntegrity (username realm password : bytes) : bytes :=
  md5 (join credentialsSep [username; realm; password]).
Definition NewShortTermIntegrity (password : bytes) : bytes := password.

(** [newHMAC] *)
Definition newHMAC (key message : bytes) : bytes := hmac_sha1 key message.

(** [FingerprintValue] *)
Definition FingerprintValue (b : bytes) : Z := Z.lxor (crc32 b) fingerprintXORValue.

(** [m.Length = f(m.Length)] *)
Definition update_length (f : Z -> Z) : M unit := st_modify (fun m => set_Length (f (Length m)) m).

Section Operations.
Context `{GoRuntime}.

(** [MessageIntegrity.AddTo] *)
Definition MessageIntegrity_AddTo (key : bytes) : M unit := fun m =>
  if contains_type AttrFingerprint (attrs m) then (m, Err ErrFingerprintBeforeIntegrity)
  else
    let length := Length m in
    (update_length (fun l => u32 (l + Z.of_nat (messageIntegritySize + attributeHeaderSize)));;;
     WriteLength;;;
     let! m1 := st_get in
     let v := newHMAC key (visible (Raw m1)) in
     update_length (fun _ => length);;;
     Add AttrMessageIntegrity (fresh v)) m.

(** The loop of [MessageIntegrity.Check]: the bytes behind the first
    MESSAGE-INTEGRITY attribute. *)
Fixpoint size_after_integrity (afterIntegrity : bool) (l : list RawAttribute) : nat :=
  match l with
  | [] => 0
  | a :: l' =>
      ((if afterIntegrity
        then nearestPaddedValueLength (Z.to_nat (ALength a)) + attributeHeaderSize else 0)
       + size_after_integrity (afterIntegrity || (Type_ a =? AttrMessageIntegrity)%Z) l')%nat
  end.

(** [MessageIntegrity.Check] *)
Definition MessageIntegrity_Check (key : bytes) : M unit := fun m =>
  match Get m AttrMessageIntegrity with
  | Err e => (m, Err e)
  | Panic p => (m, Panic p)
  | Ok v =>
      let length := Length m in
      let sizeReduced := size_after_integrity false (attrs m) in
      (update_length (fun l => u32 (l - u32 (Z.of_nat sizeReduced)));;;
       WriteLength;;;
       let! m1 := st_get in
       let startOfHMAC :=
         u32 (Z.of_nat messageHeaderSize + Length m1
              - Z.of_nat (attributeHeaderSize + messageIntegritySize)) in
       let! b := st_lift (reslice (array m1) 0 (Z.to_nat startOfHMAC)) in
       let expected := newHMAC key b in
       update_length (fun _ => length);;;
       WriteLength;;;
       let! m2 := st_get in
       if negb (bool_decide (contents (array m2) v = expected))
       then st_err (IntegrityErr expected (contents (array m2) v))
       else st_ret tt) m
  end.

(** [FingerprintAttr.AddTo] *)
Definition Fingerprint_AddTo : M unit := fun m =>
  let l := Length m in
  (update_length (fun l => u32 (l + Z.of_nat (fingerprintSize + attributeHeaderSize)));;;
   WriteLength;;;
   let! m1 := st_get in
   let val := FingerprintValue (visible (Raw m1)) in
   update_length (fun _ => l);;;
   Add AttrFingerprint (fresh (put32 val))) m.

(** [FingerprintAttr.Check]: everything but the last eight bytes of [Raw]. *)
Definition Fingerprint_Check : M unit := fun m =>
  match Get m AttrFingerprint with
  | Err e => (m, Err e)
  | Panic p => (m, Panic p)
  | Ok s =>
      let b := contents (array m) s in
      if negb (length b =? fingerprintSize)%nat
      then (m, Err (AttrLengthErr AttrFingerprint (zlen b) (Z.of_nat fingerprintSize)))
      else
        let val := get32 b in
        let attrStart :=
          Z.of_nat (blen (Raw m)) - Z.of_nat (fingerprintSize + attributeHeaderSize) in
        if attrStart <? 0 then (m, Panic SliceOutOfRange)
        else
          let expected := FingerprintValue (take (Z.to_nat attrStart) (visible (Raw m))) in
          if negb (expected =? val) then (m, Err (CRCMismatch expected val)) else (m, Ok tt)
  end.

End Operations.

(** * Specification *)

(** What the keyed digest of a message covers: the header, with the length that
    ends behind the MESSAGE-INTEGRITY attribute, and the attributes before it. *)
Definition integrity_text (t : MessageType) (tid region : bytes) : bytes :=
  encode_header t (Z.of_nat (length region + 24)) tid ++ region.
Definition integrity_value (key : bytes) (p : packet) : bytes :=
  newHMAC key (integrity_text (p_type p) (p_tid p) (encode_attrs (p_attrs p))).

Definition fingerprint_value (p : packet) : bytes :=
  put32 (FingerprintValue
    (encode_header (p_type p) (Z.of_nat (length (encode_attrs (p_attrs p)) + 8)) (p_tid p)
     ++ encode_attrs (p_attrs p))).

Section Add.
Context `{GoRuntime}.

(** Adding an attribute whose value is computed from [Raw] under the length
    that includes the attribute. *)
Lemma add_digest_spec m t size (digest : bytes -> bytes) :
  well_formed m ->
  let p := abs m in
  let region := encode_attrs (p_attrs p) in
  let v := digest (encode_header (p_type p) (Z.of_nat (length region) + size) (p_tid p)
                   ++ region) in
  0 <= size < 2 ^ 16 -> packet_ok (with_attr (t, v) p) ->
  exists m',
    (update_length (fun l => u32 (l + size));;;
     WriteLength;;;
     let! m1 := st_get in
     let d := digest (visible (Raw m1)) in
     update_length (fun _ => Length m);;;
     Add t (fresh d)) m = (m', Ok tt) /\
    well_formed m' /\ abs m' = with_attr (t, v) p.
Proof.
  intros Hwf p region v Hsize Hok. pose proof (wf_Length m Hwf) as HL.
  assert (Length m = Z.of_nat (length region)) as Hlen by (by destruct Hwf).
  unfold update_length, st_modify, st_get. unfold st_bind at 1.
  rewrite u32_id by lia.
  destruct (held_write m p (Length m) (Length m + size) _ _ (well_formed_held m Hwf))
    as (m1 & Hw & Hh & Hl1 & Hat).
  unfold st_bind at 1. rewrite Hw. unfold st_bind.
  pose proof (held_raw _ _ _ _ _ Hh) as Hraw. rewrite app_nil_r in Hraw.
  fold p region in Hraw. rewrite Hlen in Hraw. rewrite Hraw. fold v.
  pose proof (held_set_Length _ _ _ (Length m) _ _ Hh) as Hh2.
  destruct (Add_held t (fresh v) _ _ _ Hh2) as (m' & -> & Hwf' & Habs').
  - by destruct Hwf.
  - apply fresh_ok.
  - by rewrite contents_fresh.
  - exists m'. rewrite contents_fresh in Habs'. done.
Qed.

#[export] Instance MessageIntegrity_implements key :
  Implements (MessageIntegrity_AddTo key)
    (fun p => if bool_decide (is_Some (lookup_attr AttrFingerprint (p_attrs p)))
              then Err ErrFingerprintBeforeIntegrity
              else Ok (with_attr (AttrMessageIntegrity, integrity_value key p) p)).
Proof.
  intros m Hwf. unfold MessageIntegrity_AddTo. rewrite contains_type_lookup.
  case_bool_decide; [by exists m|]. intros Hok.
  pose proof (add_digest_spec m AttrMessageIntegrity 24 (newHMAC key) Hwf) as Hd.
  cbv zeta in Hd.
  unfold integrity_value, integrity_text in Hok |- *. rewrite (Nat2Z.inj_add _ 24) in Hok |- *.
  exact (Hd ltac:(lia) Hok).
Qed.

#[export] Instance Fingerprint_implements :
  Implements Fingerprint_AddTo
    (fun p => Ok (with_attr (AttrFingerprint, fingerprint_value p) p)).
Proof.
  intros m Hwf Hok. unfold Fingerprint_AddTo.
  pose proof (add_digest_spec m AttrFingerprint 8 (fun b => put32 (FingerprintValue b)) Hwf) as Hd.
  cbv zeta in Hd.
  unfold fingerprint_value in Hok |- *. rewrite (Nat2Z.inj_add _ 8) in Hok |- *.
  exact (Hd ltac:(lia) Hok).
Qed.

End Add.

(** * Checking *)

Lemma received_lengths m p region rest :
  received m p region rest ->
  Forall2 (fun a w => Type_ a = w.1 /\ Z.to_nat (ALength a) = length w.2) (attrs m) (p_attrs p).
Proof.
  intros [[[Hb Hbl Hsl Hal] <- _ _] Hp _ Hsmall].
  assert (Forall (fun w : Z * bytes => Z.of_nat (length w.2) < 2 ^ 16) (p_attrs (abs m))) as Hw.
  { clear -Hp. induction Hp; constructor; done. }
  unfold abs in *. cbn [p_attrs] in *. rewrite Forall_fmap in Hw.
  apply Forall2_fmap_r, Forall_Forall2_diag. rewrite Forall_forall in *. intros a Ha. cbn.
  specialize (Hsl a Ha). specialize (Hal a Ha). specialize (Hw a Ha). cbn in Hw.
  assert (length (value_of m a) = slen (AValue a)) as Hlen.
  { apply (contents_length _ (20 + length region)); [done|].
    unfold buffer_ok, bcap, array in *. lia. }
  split; [done|]. rewrite Hal, u16_id by lia. lia.
Qed.

Lemma size_after_all l k :
  Forall2 (fun a w => Type_ a = w.1 /\ Z.to_nat (ALength a) = length w.2) l k ->
  size_after_integrity true l = attrs_size k.
Proof.
  induction 1 as [|a w l k [_ Hl] Hall IH]; [done|]. cbn [size_after_integrity orb].
  rewrite IH, Hl. unfold attrs_size. cbn. unfold attributeHeaderSize. lia.
Qed.

Lemma size_after_first l k1 v k2 :
  Forall2 (fun a w => Type_ a = w.1 /\ Z.to_nat (ALength a) = length w.2) l
    (k1 ++ (AttrMessageIntegrity, v) :: k2) ->
  lookup_attr AttrMessageIntegrity k1 = None ->
  size_after_integrity false l = attrs_size k2.
Proof.
  revert l. induction k1 as [|w k1 IH]; intros l Hall Hk.
  - inversion Hall as [|a w l' k' [Ht _] Hall' Heq1 Heq2]. subst. cbn in Ht |- *.
    rewrite Ht, Z.eqb_refl. by apply size_after_all.
  - inversion Hall as [|a w' l' k' [Ht _] Hall' Heq1 Heq2]. subst.
    destruct w as [t v']. cbn in Hk, Ht |- *. destruct (t =? AttrMessageIntegrity) eqn:E; [done|].
    rewrite Ht, E. by apply IH.
Qed.

Lemma attrs_size_app l1 l2 : attrs_size (l1 ++ l2) = (attrs_size l1 + attrs_size l2)%nat.
Proof. unfold attrs_size. rewrite map_app. induction l1; cbn in *; lia. Qed.

(** What the reader of a slice sees after the header was rewritten. *)
Lemma held_value m m' p l region rest t s v :
  held m' p l region rest -> Attributes m' = Attributes m -> Get m t = Ok s ->
  lookup_attr t (p_attrs p) = Some v -> contents (array m') s = v.
Proof.
  intros [_ Habs _ _] Hat Hg Hl. pose proof (Get_lookup m' t) as Hg'.
  assert (Get m' t = Ok s) as Hs by (rewrite <- Hg; unfold Get, attrs; by rewrite Hat).
  rewrite Hs, Habs in Hg'. congruence.
Qed.

(** [m.Raw[:20+n]] *)
Lemma held_take m p l region rest n :
  held m p l region rest -> (n <= length region)%nat ->
  take (20 + n) (array m) = encode_header (p_type p) l (p_tid p) ++ take n region.
Proof.
  intros Hh Hn. pose proof (held_blen _ _ _ _ _ Hh) as Hb. destruct Hh as [[Hbo _ _ _] _ Htid Hraw].
  transitivity (take (20 + n) (visible (Raw m))).
  { unfold visible. rewrite take_take. unfold array. f_equal. lia. }
  rewrite Hraw, take_app, encode_header_length by done.
  rewrite take_ge by (rewrite encode_header_length by done; lia).
  f_equal. replace (20 + n - 20)%nat with n by lia. apply take_app_le. lia.
Qed.

Lemma held_prefix {E} m p l region rest n :
  held m p l region rest -> (n <= length region)%nat ->
  @reslice E (array m) 0 (20 + n) = Ok (encode_header (p_type p) l (p_tid p) ++ take n region).
Proof.
  intros Hh Hn. rewrite <- (held_take _ _ _ _ _ n Hh Hn).
  pose proof (held_blen _ _ _ _ _ Hh) as Hb. destruct Hh as [[Hbo _ _ _] _ _ _].
  unfold reslice, buffer_ok, bcap, array in *.
  rewrite (proj2 (Nat.leb_le 0 _)), (proj2 (Nat.leb_le _ _)) by lia. cbn [andb].
  by rewrite drop_0, Nat.sub_0_r.
Qed.

Section Check.

(** The digest covers the bytes of the message up to the attribute. *)
Lemma MessageIntegrity_Check_spec key m t tid l1 v l2 region rest :
  let p := Packet t tid (l1 ++ (AttrMessageIntegrity, v) :: l2) in
  received m p region rest -> lookup_attr AttrMessageIntegrity l1 = None ->
  length v = messageIntegritySize ->
  let expected := newHMAC key (integrity_text t tid (take (attrs_size l1) region)) in
  exists m', received m' p region rest /\
    MessageIntegrity_Check key m
    = (m', if bool_decide (v = expected) then Ok tt else Err (IntegrityErr expected v)).
Proof.
  intros p Hrc Hl1 Hv expected. pose proof Hrc as [Hh Hp Hlen Hsmall].
  assert (lookup_attr AttrMessageIntegrity (p_attrs p) = Some v) as Hlk
    by (cbn; rewrite lookup_attr_app, Hl1; done).
  assert (lookup_attr AttrMessageIntegrity (p_attrs (abs m)) = Some v) as Hlk'
    by (by rewrite (held_abs _ _ _ _ _ Hh)).
  destruct (Get_found _ _ _ Hlk') as (s & Hs & _).
  unfold MessageIntegrity_Check. rewrite Hs.
  rewrite (size_after_first _ _ _ _ (received_lengths _ _ _ _ Hrc) Hl1).
  pose proof (parses_size _ _ Hp) as Hsz. cbn [p_attrs p] in Hsz. rewrite attrs_size_app in Hsz.
  change (attrs_size ((AttrMessageIntegrity, v) :: l2))
    with (4 + nearestPaddedValueLength (length v) + attrs_size l2)%nat in Hsz.
  rewrite Hv in Hsz. change (nearestPaddedValueLength messageIntegritySize) with 20%nat in Hsz.
  set (n1 := attrs_size l1) in *. set (n2 := attrs_size l2) in *.
  unfold update_length, st_modify, st_get, st_lift. unfold st_bind at 1.
  rewrite Hlen, (u32_id (Z.of_nat n2)), u32_id by lia.
  destruct (held_write m p _ (Z.of_nat (length region) - Z.of_nat n2) _ _ Hh)
    as (m1 & Hw & Hh1 & Hlm1 & Hat1).
  unfold st_bind at 1. rewrite Hw. unfold st_bind at 1. rewrite Hlm1.
  unfold messageHeaderSize, attributeHeaderSize, messageIntegritySize.
  rewrite u32_id by lia.
  replace (Z.to_nat (Z.of_nat 20 + (Z.of_nat (length region) - Z.of_nat n2) - Z.of_nat (4 + 20)))
    with (20 + n1)%nat by lia.
  unfold st_bind at 1. rewrite (held_prefix _ _ _ _ _ n1 Hh1) by lia.
  cbn [p_type p_tid p].
  replace (newHMAC key _) with expected.
  2:{ unfold expected, integrity_text. do 4 f_equal. rewrite length_take. fold n1. lia. }
  unfold st_bind at 1.
  destruct (held_write _ p _ (Length m) _ _ Hh1) as (m2 & Hw2 & Hh2 & Hlm2 & Hat2).
  rewrite Hlen in Hw2. unfold st_bind at 1. rewrite Hw2. unfold st_bind.
  rewrite (held_value m m2 _ _ _ _ _ _ _ Hh2 ltac:(congruence) Hs Hlk).
  rewrite Hlen in Hh2, Hlm2. exists m2. split; [by split|].
  unfold st_err, st_ret. by case_bool_decide.
Qed.

Lemma Fingerprint_Check_spec m t tid l1 v region :
  let p := Packet t tid (l1 ++ [(AttrFingerprint, v)]) in
  received m p region [] -> lookup_attr AttrFingerprint l1 = None ->
  length v = fingerprintSize ->
  let expected := FingerprintValue
    (encode_header t (Z.of_nat (length region)) tid ++ take (attrs_size l1) region) in
  Fingerprint_Check m
  = (m, if expected =? get32 v then Ok tt else Err (CRCMismatch expected (get32 v))).
Proof.
  intros p Hrc Hl1 Hv expected. pose proof Hrc as [Hh Hp Hlen Hsmall].
  assert (lookup_attr AttrFingerprint (p_attrs (abs m)) = Some v) as Hlk.
  { rewrite (held_abs _ _ _ _ _ Hh). cbn. by rewrite lookup_attr_app, Hl1. }
  destruct (Get_found _ _ _ Hlk) as (s & Hs & Hc).
  unfold Fingerprint_Check. rewrite Hs, Hc, Hv, Nat.eqb_refl. cbn [negb].
  pose proof (parses_size _ _ Hp) as Hsz. cbn [p_attrs p] in Hsz. rewrite attrs_size_app in Hsz.
  change (attrs_size [(AttrFingerprint, v)])
    with (4 + nearestPaddedValueLength (length v) + 0)%nat in Hsz.
  rewrite Hv in Hsz. change (nearestPaddedValueLength fingerprintSize) with 4%nat in Hsz.
  rewrite (held_blen _ _ _ _ _ Hh). cbn [length]. unfold fingerprintSize, attributeHeaderSize.
  destruct (Z.ltb_spec (Z.of_nat (20 + length region + 0) - Z.of_nat (4 + 4)) 0); [lia|].
  replace (Z.to_nat _) with (20 + attrs_size l1)%nat by lia.
  pose proof (held_blen _ _ _ _ _ Hh) as Hb. cbn [length] in Hb.
  unfold visible. rewrite take_take, Nat.min_l by lia. fold (array m).
  rewrite (held_take _ _ _ _ _ _ Hh) by lia. cbn [p_type p_tid p].
  fold expected. by destruct (expected =? get32 v).
Qed.

End Check.

#[local] Opaque newHMAC crc32.

(** * A protected message that arrives unchanged passes both checks *)

Lemma fingerprint_value_range b : 0 <= FingerprintValue b < 2 ^ 32.
Proof. apply lxor_range; [done|apply crc32_range|done]. Qed.

Lemma encode_attrs_size l : length (encode_attrs l) = attrs_size l.
Proof.
  induction l as [|a l IH]; [done|].
  rewrite encode_attrs_cons, length_app, encode_attr_length, IH. done.
Qed.

Lemma take_encode_attrs l1 l2 : take (attrs_size l1) (encode_attrs (l1 ++ l2)) = encode_attrs l1.
Proof. rewrite encode_attrs_app. apply take_app_length'. by rewrite encode_attrs_size. Qed.

Definition with_integrity (key : bytes) (p : packet) : packet :=
  with_attr (AttrMessageIntegrity, integrity_value key p) p.
Definition with_fingerprint (p : packet) : packet :=
  with_attr (AttrFingerprint, fingerprint_value p) p.

Lemma received_well_formed m p :
  received m p (encode_attrs (p_attrs p)) [] -> packet_ok p -> well_formed m.
Proof.
  intros [Hh Hp Hlen Hsmall] Hok. pose proof (held_blen _ _ _ _ _ Hh) as Hb.
  destruct Hh as [Hs Habs Htid Hraw]. rewrite app_nil_r in Hraw. cbn [length] in Hb.
  rewrite Nat.add_0_r in Hb. split; rewrite ?Habs, ?Hb; done.
Qed.

Lemma integrity_accepts key m p l2 :
  let q := with_attrs l2 (with_integrity key p) in
  lookup_attr AttrMessageIntegrity (p_attrs p) = None -> well_formed m -> abs m = q ->
  exists m', MessageIntegrity_Check key m = (m', Ok tt) /\ well_formed m' /\ abs m' = q.
Proof.
  intros q Hmi Hwf Habs. pose proof (well_formed_received m Hwf) as Hrc. rewrite Habs in Hrc.
  assert (q = Packet (p_type p) (p_tid p)
            (p_attrs p ++ (AttrMessageIntegrity, integrity_value key p) :: l2)) as Hq.
  { unfold q, with_attrs, with_integrity, with_attr. cbn. by rewrite <- app_assoc. }
  rewrite Hq in Hrc. cbn [p_attrs] in Hrc.
  destruct (MessageIntegrity_Check_spec key m _ _ _ _ _ _ _ Hrc Hmi (hmac_sha1_length _ _))
    as (m' & Hrc' & Hc).
  rewrite take_encode_attrs in Hc. fold (integrity_value key p) in Hc.
  rewrite bool_decide_true in Hc by reflexivity.
  rewrite <- Hq in Hrc'. exists m'. split; [done|]. split.
  - apply (received_well_formed m' q); [by rewrite Hq in Hrc' |- *|].
    rewrite <- Habs. apply Hwf.
  - apply (held_abs _ _ _ _ _ (rc_held _ _ _ _ Hrc')).
Qed.

Lemma fingerprint_accepts m p :
  lookup_attr AttrFingerprint (p_attrs p) = None -> well_formed m ->
  abs m = with_fingerprint p -> Fingerprint_Check m = (m, Ok tt).
Proof.
  intros Hfp Hwf Habs. pose proof (well_formed_received m Hwf) as Hrc. rewrite Habs in Hrc.
  unfold with_fingerprint, with_attr in Hrc. cbn [p_attrs] in Hrc.
  rewrite (Fingerprint_Check_spec _ _ _ _ _ _ Hrc Hfp) by done.
  rewrite take_encode_attrs. unfold fingerprint_value.
  rewrite get32_put32, u32_id by apply fingerprint_value_range.
  rewrite encode_attrs_app, length_app, encode_attrs_singleton.
  change (length (encode_attr _)) with 8%nat. by rewrite Z.eqb_refl.
Qed.
