(* ===== verification/StunAgent.v ===== *)
(** The transaction agent: [src/stun/agent.go].

    The operations are functions on the agent that return the handler calls
    they make.  [step] interleaves them: the part under the mutex is one step,
    every handler call another, so calls of different operations mix freely.
    The handlers of [step] do not call the agent, and [Process] reads
    [zeroHandler] when it looks up the transaction; [AgentMutex] has the
    operations as code with the mutex, and handlers that call the agent.
    The map is iterated in any order.  An instant is a number of nanoseconds. *)
From stdpp Require Import base list gmap sets sorting.
From Stdlib Require Import ZArith Lia.
From S2P Require Import Prelude StunTypes.
Open Scope Z_scope.

Section Agent.
(** A handler is known by its identity; [Msg] is a message. *)
Context {H : Type} `{EqDecision H} {Msg : Type} (TransactionID_of : Msg -> bytes).

(** * Data *)

Inductive agent_error :=
| ErrTransactionStopped
| ErrTransactionNotExists
| ErrTransactionExists
| ErrAgentClosed
| ErrTransactionTimeOut
| OtherError (e : error).

Inductive Event := MessageEvent (m : Msg) | ErrorEvent (e : agent_error).

Record agentTransaction := mkTransaction { tx_deadline : Z; tx_h : H }.

Record Agent := mkAgent {
  transactions : gmap bytes agentTransaction;
  closed : bool;
  zeroHandler : option H
}.

(** A call of a handler: of a registered transaction, or the zero handler. *)
Inductive call := Call (h : H) (e : Event) | ZeroCall (h : H) (e : Event).

(** * Operations *)

Definition NewAgent (handler : option H) : Agent := mkAgent ∅ false handler.

(** [Agent.Start] *)
Definition Start (id : bytes) (deadline : Z) (h : H) (a : Agent) :
    Agent * option agent_error :=
  if closed a then (a, Some ErrAgentClosed)
  else match transactions a !! id with
       | Some _ => (a, Some ErrTransactionExists)
       | None =>
           (mkAgent (<[id := mkTransaction deadline h]> (transactions a)) (closed a)
              (zeroHandler a), None)
       end.

(** [Agent.StopWithError], [Agent.Stop] *)
Definition StopWithError (id : bytes) (err : agent_error) (a : Agent) :
    Agent * list call * option agent_error :=
  if closed a then (a, [], Some ErrAgentClosed)
  else
    let a' := mkAgent (delete id (transactions a)) (closed a) (zeroHandler a) in
    match transactions a !! id with
    | None => (a', [], Some ErrTransactionNotExists)
    | Some t => (a', [Call (tx_h t) (ErrorEvent err)], None)
    end.
Definition Stop (id : bytes) := StopWithError id ErrTransactionStopped.

(** [Agent.Collect]: the transactions whose deadline is before [gcTime]. *)
Definition expired (gcTime : Z) (t : agentTransaction) : bool := tx_deadline t <? gcTime.

Definition Collect (gcTime : Z) (a : Agent) : Agent * list call * option agent_error :=
  if closed a then (a, [], Some ErrAgentClosed)
  else
    let timedOut := filter (fun kv => expired gcTime kv.2) (map_to_list (transactions a)) in
    let a' := mkAgent (foldr (fun kv m => delete kv.1 m) (transactions a) timedOut)
                (closed a) (zeroHandler a) in
    (a', map (fun kv => Call (tx_h kv.2) (ErrorEvent ErrTransactionTimeOut)) timedOut, None).

(** [Agent.Process] *)
Definition Process (m : Msg) (a : Agent) : Agent * list call * option agent_error :=
  if closed a then (a, [], Some ErrAgentClosed)
  else
    let a' := mkAgent (delete (TransactionID_of m) (transactions a)) (closed a) (zeroHandler a) in
    match transactions a !! TransactionID_of m with
    | Some t => (a', [Call (tx_h t) (MessageEvent m)], None)
    | None =>
        (a', match zeroHandler a with Some h => [ZeroCall h (MessageEvent m)] | None => [] end,
         None)
    end.

(** [Agent.Close]: calls the handlers with the mutex held. *)
Definition close_calls (a : Agent) : list call :=
  map (fun kv => Call (tx_h kv.2) (ErrorEvent ErrAgentClosed)) (map_to_list (transactions a)).
Definition closed_agent : Agent := mkAgent ∅ true None.
Definition Close (a : Agent) : Agent * list call * option agent_error :=
  if closed a then (a, [], Some ErrAgentClosed) else (closed_agent, close_calls a, None).

(** * Interleaving

    A goroutine in the middle of an operation still has calls to make; the one
    in [Close] holds the mutex until they are made. *)
Record system := mkSystem {
  agent : Agent;
  closing : option (list call);   (** [Close] in progress *)
  threads : list (list call);     (** calls still to be made, the mutex released *)
  delivered : list call;
  started : list H                (** ghost: the handlers that [Start] accepted *)
}.

Definition initial (handler : option H) : system :=
  mkSystem (NewAgent handler) None [] [] [].

Inductive operation := OpStop (id : bytes) (err : agent_error) | OpCollect (gcTime : Z)
| OpProcess (m : Msg).
Definition run (o : operation) : Agent -> Agent * list call * option agent_error :=
  match o with
  | OpStop id err => StopWithError id err
  | OpCollect gcTime => Collect gcTime
  | OpProcess m => Process m
  end.

Inductive step : system -> system -> Prop :=
| step_start a ths del st id deadline h a' r :
    Start id deadline h a = (a', r) ->
    step (mkSystem a None ths del st)
         (mkSystem a' None ths del (match r with None => h :: st | Some _ => st end))
| step_operation a ths del st o a' calls calls' r :
    run o a = (a', calls, r) -> calls ≡ₚ calls' ->
    step (mkSystem a None ths del st) (mkSystem a' None (calls' :: ths) del st)
| step_close a ths del st calls :
    closed a = false -> calls ≡ₚ close_calls a ->
    step (mkSystem a None ths del st) (mkSystem a (Some calls) ths del st)
| step_close_call a ths del st c calls :
    step (mkSystem a (Some (c :: calls)) ths del st)
         (mkSystem a (Some calls) ths (c :: del) st)
| step_close_done a ths del st :
    step (mkSystem a (Some []) ths del st) (mkSystem closed_agent None ths del st)
| step_call a cl ths1 ths2 del st c calls :
    step (mkSystem a cl (ths1 ++ (c :: calls) :: ths2) del st)
         (mkSystem a cl (ths1 ++ calls :: ths2) (c :: del) st).

Inductive reachable (handler : option H) : system -> Prop :=
| reachable_initial : reachable handler (initial handler)
| reachable_step s s' : reachable handler s -> step s s' -> reachable handler s'.

(** * Conservation of handlers *)

Definition is_call (h : H) (c : call) : bool :=
  match c with Call h' _ => bool_decide (h' = h) | ZeroCall _ _ => false end.
Definition calls_of (h : H) (l : list call) : nat := length (filter (is_call h) l).
Definition registered (h : H) (m : gmap bytes agentTransaction) : nat :=
  length (filter (fun kv => tx_h kv.2 = h) (map_to_list m)).
Definition waiting (h : H) (s : system) : nat :=
  match closing s with
  | None => registered h (transactions (agent s))
  | Some calls => calls_of h calls
  end.
Definition starts (h : H) (s : system) : nat := length (filter (fun h' => h' = h) (started s)).

Lemma calls_of_app h l1 l2 : calls_of h (l1 ++ l2) = (calls_of h l1 + calls_of h l2)%nat.
Proof. unfold calls_of. by rewrite filter_app, length_app. Qed.

Lemma calls_of_cons h c l : calls_of h (c :: l) = (calls_of h [c] + calls_of h l)%nat.
Proof. apply (calls_of_app h [c] l). Qed.

Lemma calls_of_one h h' e : calls_of h [Call h' e] = if bool_decide (h' = h) then 1%nat else 0%nat.
Proof. unfold calls_of. rewrite filter_cons. cbn [is_call]. by case_bool_decide. Qed.

Lemma calls_of_perm h l1 l2 : l1 ≡ₚ l2 -> calls_of h l1 = calls_of h l2.
Proof. intros Hp. unfold calls_of. by rewrite Hp. Qed.

Lemma registered_insert h id t m :
  m !! id = None ->
  registered h (<[id := t]> m) = ((if bool_decide (tx_h t = h) then 1 else 0) + registered h m)%nat.
Proof.
  intros Hid. unfold registered. rewrite map_to_list_insert by done. rewrite filter_cons.
  cbn [snd]. by repeat case_decide || case_bool_decide.
Qed.

Lemma registered_delete h id t m :
  m !! id = Some t ->
  registered h m = ((if bool_decide (tx_h t = h) then 1 else 0) + registered h (delete id m))%nat.
Proof.
  intros Hid. rewrite <- (insert_delete_id m id t Hid) at 1.
  apply registered_insert, lookup_delete_eq.
Qed.

Lemma registered_calls h m e :
  registered h m = calls_of h (map (fun kv => Call (tx_h kv.2) e) (map_to_list m)).
Proof.
  unfold registered, calls_of. induction (map_to_list m) as [|kv l IH]; [done|].
  cbn [map]. rewrite !filter_cons. cbn [is_call].
  destruct (decide (tx_h kv.2 = h)) as [Heq|Hne].
  - rewrite decide_True by (by apply bool_decide_spec). cbn. by rewrite IH.
  - rewrite decide_False by (by rewrite bool_decide_spec). done.
Qed.

Lemma lookup_foldr_delete (l : list (bytes * agentTransaction))
    (m : gmap bytes agentTransaction) id :
  id ∉ l.*1 -> foldr (fun kv m => delete kv.1 m) m l !! id = m !! id.
Proof.
  induction l as [|kv l IH]; [done|]. cbn. intros Hn. apply not_elem_of_cons in Hn as [Hn1 Hn2].
  rewrite lookup_delete_ne by done. by apply IH.
Qed.

Lemma registered_delete_all h (l : list (bytes * agentTransaction)) m e :
  NoDup l.*1 -> (forall kv, kv ∈ l -> m !! kv.1 = Some kv.2) ->
  registered h m = (calls_of h (map (fun kv => Call (tx_h kv.2) e) l)
                    + registered h (foldr (fun kv m => delete kv.1 m) m l))%nat.
Proof.
  induction l as [|kv l IH]; intros Hnd Hl; [done|]. cbn in Hnd. apply NoDup_cons in Hnd as [Hn Hnd].
  cbn [map foldr]. rewrite calls_of_cons. rewrite IH; [|done|intros; apply Hl; set_solver].
  rewrite (registered_delete h kv.1 kv.2 (foldr _ m l)).
  2:{ rewrite lookup_foldr_delete by done. apply Hl. set_solver. }
  rewrite calls_of_one. lia.
Qed.

Lemma expired_list (gcTime : Z) (m : gmap bytes agentTransaction) :
  let l := filter (fun kv : bytes * agentTransaction => expired gcTime kv.2) (map_to_list m) in
  NoDup l.*1 /\ forall kv, kv ∈ l -> m !! kv.1 = Some kv.2.
Proof.
  intros l. split.
  - assert (l `sublist_of` map_to_list m) as Hs by apply sublist_filter.
    eapply sublist_NoDup; [apply (NoDup_fst_map_to_list m)|]. by apply fmap_sublist.
  - intros [id t] Hin. apply list_elem_of_filter in Hin as [_ Hin]. by apply elem_of_map_to_list.
Qed.

Lemma run_conserves h o a a' calls r :
  run o a = (a', calls, r) ->
  registered h (transactions a) = (calls_of h calls + registered h (transactions a'))%nat.
Proof.
  destruct o as [id err|gcTime|m]; cbn [run].
  - unfold StopWithError. destruct (closed a); [by intros [= <- <- _]|].
    destruct (transactions a !! id) as [t|] eqn:Hid; intros [= <- <- _]; cbn [transactions].
    + rewrite (registered_delete h id t _ Hid), calls_of_one. done.
    + by rewrite delete_id.
  - unfold Collect. destruct (closed a); [by intros [= <- <- _]|]. intros [= <- <- _].
    cbn [transactions]. destruct (expired_list gcTime (transactions a)) as [Hnd Hl].
    by apply registered_delete_all.
  - unfold Process. destruct (closed a); [by intros [= <- <- _]|].
    destruct (transactions a !! _) as [t|] eqn:Hid; intros [= <- <- _]; cbn [transactions].
    + rewrite (registered_delete h _ t _ Hid), calls_of_one. done.
    + rewrite delete_id by done. destruct (zeroHandler a); done.
Qed.

Definition pending (h : H) (s : system) : nat := calls_of h (concat (threads s)).

Lemma step_conserves h s s' :
  step s s' ->
  (starts h s + (calls_of h (delivered s') + pending h s' + waiting h s')
   = starts h s' + (calls_of h (delivered s) + pending h s + waiting h s))%nat.
Proof.
  unfold starts, pending, waiting. destruct 1 as
    [a ths del st id deadline h' a' r Hst|a ths del st o a' calls calls' r Hr Hp
    |a ths del st calls Hc Hp|a ths del st c calls|a ths del st
    |a cl ths1 ths2 del st c calls]; cbn [started delivered threads closing agent].
  - unfold Start in Hst. destruct (closed a); [injection Hst as <- <-; lia|].
    destruct (transactions a !! id) as [t|] eqn:Hid; injection Hst as <- <-; [lia|].
    cbn [transactions]. rewrite (registered_insert h id _ _ Hid). cbn [tx_h].
    rewrite filter_cons. repeat case_decide || case_bool_decide; cbn; try done; lia.
  - cbn [concat]. rewrite (run_conserves h _ _ _ _ _ Hr), calls_of_app, (calls_of_perm h _ _ Hp). lia.
  - rewrite (calls_of_perm h _ _ Hp). unfold close_calls.
    rewrite <- registered_calls. lia.
  - rewrite (calls_of_cons h c del), (calls_of_cons h c calls). lia.
  - cbn [transactions closed_agent]. unfold registered. rewrite map_to_list_empty. cbn. lia.
  - rewrite !concat_app. cbn [concat]. rewrite !calls_of_app.
    rewrite (calls_of_cons h c del), (calls_of_cons h c calls). lia.
Qed.

Lemma conservation handler h s :
  reachable handler s ->
  starts h s = (calls_of h (delivered s) + pending h s + waiting h s)%nat.
Proof.
  induction 1 as [|s s' Hr IH Hs].
  - unfold starts, pending, waiting, registered. cbn. by rewrite map_to_list_empty.
  - pose proof (step_conserves h s s' Hs). lia.
Qed.

Lemma run_closed o a a' calls r :
  run o a = (a', calls, r) -> closed a' = closed a /\ (closed a = true -> a' = a).
Proof.
  destruct o as [id err|gcTime|m]; cbn [run]; unfold StopWithError, Collect, Process;
    (destruct (closed a) eqn:Hc; [by intros [= <- _ _]|]).
  - destruct (transactions a !! id); by intros [= <- _ _].
  - by intros [= <- _ _].
  - destruct (transactions a !! _); by intros [= <- _ _].
Qed.

(** A closed agent holds no transactions and no zero handler. *)
Lemma closed_empty handler s :
  reachable handler s -> closed (agent s) = true -> agent s = closed_agent.
Proof.
  induction 1 as [|s s' Hr IH Hs]; [done|]. destruct Hs as
    [a ths del st id deadline h' a' r Hst|a ths del st o a' calls calls' r Hrun Hp
    |a ths del st calls Hc Hp|a ths del st c calls|a ths del st
    |a cl ths1 ths2 del st c calls]; cbn [agent] in *; try done.
  - unfold Start in Hst. destruct (closed a) eqn:Hc; [injection Hst as <- _; auto|].
    destruct (transactions a !! id); injection Hst as <- _; cbn; congruence.
  - destruct (run_closed _ _ _ _ _ Hrun) as [Heq Hsame]. rewrite Heq. intros Hc.
    by rewrite Hsame, IH.
Qed.

(** ** What each operation does to the table *)

Lemma Collect_table gcTime a a' calls r :
  Collect gcTime a = (a', calls, r) -> closed a = false ->
  r = None /\
  transactions a' = filter (fun kv => ~ expired gcTime kv.2) (transactions a) /\
  forall h e, Call h e ∈ calls <->
    e = ErrorEvent ErrTransactionTimeOut /\
    exists id t, transactions a !! id = Some t /\ tx_h t = h /\ tx_deadline t < gcTime.
Proof.
  unfold Collect. intros Heq Hc. rewrite Hc in Heq. injection Heq as <- <- <-.
  split; [done|]. cbn [transactions]. set (l := filter _ (map_to_list _)).
  destruct (expired_list gcTime (transactions a)) as [Hnd Hl]. fold l in Hnd, Hl.
  split.
  - apply map_eq. intros id. destruct (decide (id ∈ l.*1)) as [Hin|Hin].
    + transitivity (@None agentTransaction).
      * clear -Hin. induction l as [|kv l IH]; [by apply not_elem_of_nil in Hin|]. cbn in *.
        destruct (decide (kv.1 = id)) as [->|Hne]; [apply lookup_delete_eq|].
        rewrite lookup_delete_ne by done. apply IH. apply elem_of_cons in Hin as [|]; [congruence|done].
      * symmetry. apply map_lookup_filter_None. right. intros t Ht Hne. apply Hne. cbn.
        apply list_elem_of_fmap in Hin as (kv & -> & Hkv). pose proof (Hl kv Hkv).
        apply list_elem_of_filter in Hkv as [He _]. destruct kv. cbn in *. congruence.
    + rewrite lookup_foldr_delete by done. symmetry.
      destruct (transactions a !! id) as [t|] eqn:Hid.
      * apply map_lookup_filter_Some. split; [done|]. cbn. intros He. apply Hin.
        apply list_elem_of_fmap. exists (id, t). split; [done|]. apply list_elem_of_filter.
        split; [done|]. by apply elem_of_map_to_list.
      * apply map_lookup_filter_None. by left.
  - intros h e. rewrite list_elem_of_fmap. split.
    + intros ([id t] & [= -> ->] & Hin). split; [done|].
      apply list_elem_of_filter in Hin as [He Hin]. apply elem_of_map_to_list in Hin.
      exists id, t. split_and!; try done. cbn in He. unfold expired in He.
      destruct (Z.ltb_spec (tx_deadline t) gcTime); [done|by cbn in He].
    + intros (-> & id & t & Hid & <- & Ht). exists (id, t). split; [done|].
      apply list_elem_of_filter. split; [|by apply elem_of_map_to_list]. cbn. unfold expired.
      destruct (Z.ltb_spec (tx_deadline t) gcTime); [done|lia].
Qed.
End Agent.
