(* ===== verification/StunClient.v ===== *)
(** The client: [src/stun/client.go].

    [ClientAgent] is the interface of the same name, with what the client relies
    on; [Agent] of StunAgent implements it.  What the connection answers to a
    write or to [Close] is an argument of the call.  [Do] returns at once or waits
    for the handler. *)
From stdpp Require Import base list gmap sets.
From Stdlib Require Import ZArith Lia.
From S2P Require Import Prelude GoSlice StunTypes StunMessage StunAgent.
Open Scope Z_scope.

Abbreviation acall := (@StunAgent.call nat Message).

(** Handlers are known by a number; the messages are those of StunMessage. *)
Class ClientAgent (A : Type) := {
  ag_start : bytes -> Z -> nat -> A -> A * option agent_error;
  ag_stop : bytes -> A -> A * list acall * option agent_error;
  ag_process : Message -> A -> A * list acall * option agent_error;
  ag_collect : Z -> A -> A * list acall * option agent_error;
  ag_close : A -> A * list acall * option agent_error;
  (** A transaction that was just started can be stopped, and is then gone. *)
  ag_start_stop id d h a a1 :
    ag_start id d h a = (a1, None) ->
    ag_stop id a1 = (a, [Call h (ErrorEvent ErrTransactionStopped)], None);
  ag_start_error id d h a a1 e : ag_start id d h a = (a1, Some e) -> a1 = a
}.

#[export] Program Instance Agent_ClientAgent : ClientAgent (@Agent nat) := {
  ag_start := StunAgent.Start;
  ag_stop := StunAgent.Stop;
  ag_process := StunAgent.Process TID;
  ag_collect := StunAgent.Collect;
  ag_close := StunAgent.Close
}.
Next Obligation.
  intros id d h [m c z] a1. unfold StunAgent.Start, StunAgent.Stop, StunAgent.StopWithError.
  cbn [closed transactions zeroHandler]. destruct c; [done|].
  destruct (m !! id) eqn:Hid; [done|]. intros [= <-]. cbn [closed transactions zeroHandler].
  rewrite lookup_insert_eq. cbn [tx_h]. do 3 f_equal. by apply delete_insert_id.
Qed.
Next Obligation.
  intros id d h a a1 e. unfold StunAgent.Start. destruct (closed a); [by intros [= <- _]|].
  destruct (transactions a !! id); [by intros [= <- _]|done].
Qed.

Section Client.
Context {A : Type} `{!ClientAgent A}.

Inductive client_error :=
| ErrClientClosed
| ErrNoConnection
| AgentError (e : agent_error)
| ConnError (e : error)
| StopErr (Err : agent_error) (Cause : error)
| CloseErr (AgentErr : option agent_error) (ConnectionErr : option error).

(** [sent] are the packets handed to the connection, in order. *)
Record Client := mkClient {
  a : A;
  c_closed : bool;
  gcRate : Z;
  sent : list bytes;
  conn_closed : bool
}.

Definition defaultTimeoutRate : Z := 100000000.

(** [NewClient]; the two goroutines it starts are [read_step] and [collect_step]. *)
Definition NewClient (connection : bool) (agent : option A) (new_agent : A) (timeoutRate : Z) :
    Client + client_error :=
  if negb connection then inr ErrNoConnection
  else inl (mkClient (default new_agent agent) false
              (if timeoutRate =? 0 then defaultTimeoutRate else timeoutRate) [] false).

Definition set_agent (x : A) (c : Client) : Client :=
  mkClient x (c_closed c) (gcRate c) (sent c) (conn_closed c).
Definition send (p : bytes) (c : Client) : Client :=
  mkClient (a c) (c_closed c) (gcRate c) (sent c ++ [p]) (conn_closed c).

(** [Client.Start]: [werr] is the error of the write. *)
Definition Client_Start (m : Message) (d : Z) (h : option nat) (werr : option error) (c : Client) :
    Client * list acall * option client_error :=
  if c_closed c then (c, [], Some ErrClientClosed)
  else
    match (match h with
           | None => (a c, None)
           | Some h => ag_start (TID m) d h (a c)
           end) with
    | (x, Some e) => (set_agent x c, [], Some (AgentError e))
    | (x, None) =>
        let c := send (visible (Raw m)) (set_agent x c) in
        match werr, h with
        | Some err, Some _ =>
            let '(x, calls, stopErr) := ag_stop (TID m) (a c) in
            (set_agent x c, calls,
             Some (match stopErr with Some e => StopErr e err | None => ConnError err end))
        | Some err, None => (c, [], Some (ConnError err))
        | None, _ => (c, [], None)
        end
    end.

(** [Client.Indicate]: the zero time and no handler. *)
Definition Client_Indicate (m : Message) (werr : option error) (c : Client) :=
  Client_Start m 0 None werr c.

(** [Client.Do]: [h] is the handler that wraps the callback, if there is one. *)
Inductive do_result := Returns (e : option client_error) | Waits.
Definition Client_Do (m : Message) (d : Z) (h : option nat) (werr : option error) (c : Client) :
    Client * list acall * do_result :=
  match h with
  | None => let '(c', calls, r) := Client_Indicate m werr c in (c', calls, Returns r)
  | Some h =>
      match Client_Start m d (Some h) werr c with
      | (c', calls, Some e) => (c', calls, Returns (Some e))
      | (c', calls, None) => (c', calls, Waits)
      end
  end.

(** [Client.Close]: [cerr] is what closing the connection returns. *)
Definition Client_Close (cerr : option error) (c : Client) :
    Client * list acall * option client_error :=
  if c_closed c then (c, [], Some ErrClientClosed)
  else
    let '(x, calls, agentErr) := ag_close (a c) in
    (mkClient x true (gcRate c) (sent c) true, calls,
     match agentErr, cerr with
     | None, None => None
     | _, _ => Some (CloseErr agentErr cerr)
     end).

(** One round of [readUntilClosed] on its message [m]; [false] ends the loop. *)
Definition read_step (read : nat -> bytes * option error) (m : Message) (c : Client) :
    result error (Message * Client * list acall * bool) :=
  match ReadFrom read m with
  | (m', Ok (_, None)) =>
      let '(x, calls, pErr) := ag_process m' (a c) in
      Ok (m', set_agent x c, calls,
          match pErr with Some ErrAgentClosed => false | _ => true end)
  | (m', Ok (_, Some _)) => Ok (m', c, [], true)
  | (_, Err e) => Err e
  | (_, Panic p) => Panic p
  end.

(** One tick of [collectUntilClosed]; [None] is the panic of [closedOrPanic]. *)
Definition collect_step (gcTime : Z) (c : Client) : option (Client * list acall) :=
  let '(x, calls, err) := ag_collect gcTime (a c) in
  match err with
  | None | Some ErrAgentClosed => Some (set_agent x c, calls)
  | Some _ => None
  end.

(** * What [Start] promises *)

(** A refused or failed [Start] leaves the agent as it was; when the write
    failed, the handler has been told, and nothing waits for the deadline. *)
Lemma Client_Start_failed m d h werr c c' calls e :
  Client_Start m d (Some h) werr c = (c', calls, Some e) ->
  a c' = a c /\
  (calls = [] \/ calls = [Call h (ErrorEvent ErrTransactionStopped)] /\ exists err, werr = Some err
     /\ e = ConnError err).
Proof.
  unfold Client_Start. destruct (c_closed c); [intros [= <- <- _]; auto|].
  destruct (ag_start (TID m) d h (a c)) as [x [e'|]] eqn:Hs.
  { intros [= <- <- _]. cbn. split; [by eapply ag_start_error|auto]. }
  destruct werr as [err|]; [|done]. cbn [a send set_agent].
  rewrite (ag_start_stop _ _ _ _ _ Hs). intros [= <- <- <-]. cbn. split; [done|].
  right. split; [done|]. by exists err.
Qed.

(** An accepted [Start] has sent the packet, once, and called nobody yet. *)
Lemma Client_Start_accepted m d h werr c c' calls :
  Client_Start m d (Some h) werr c = (c', calls, None) ->
  c_closed c = false /\ werr = None /\ calls = [] /\ sent c' = sent c ++ [visible (Raw m)] /\
  ag_start (TID m) d h (a c) = (a c', None).
Proof.
  unfold Client_Start. destruct (c_closed c); [done|].
  destruct (ag_start (TID m) d h (a c)) as [x [e'|]] eqn:Hs; [done|].
  destruct werr as [err|].
  - cbn [a send set_agent]. by rewrite (ag_start_stop _ _ _ _ _ Hs).
  - intros [= <- <-]. done.
Qed.

Lemma Client_Close_once cerr cerr' c :
  let '(c1, _, _) := Client_Close cerr c in
  c_closed c1 = true /\ Client_Close cerr' c1 = (c1, [], Some ErrClientClosed) /\
  forall m d h werr, Client_Start m d h werr c1 = (c1, [], Some ErrClientClosed).
Proof.
  unfold Client_Close. destruct (c_closed c) eqn:Hc.
  - split; [done|]. rewrite Hc. split; [done|]. intros. unfold Client_Start. by rewrite Hc.
  - destruct (ag_close (a c)) as [[x calls] agentErr]. done.
Qed.
End Client.
