(* ===== verification/StunDo.v ===== *)
(** [Client.Do] of [src/stun/client.go] and the handlers it takes from a pool.

    Many goroutines are in [Do] at once, next to those that call the handlers of
    the agent.  A [callbackWaitHandler] is known by its number, as the pointer it
    is; the pool may hand out any handler that no [Do] has between [Get] and
    [Put], so a number is used again and again.  [do_step] is one atomic action:
    an operation of the agent under its mutex, one half of [HandleEvent], a write,
    a wait that is over.

    The calls of an operation are made by its goroutine in order, and those of
    [Agent.Close] with the mutex held; here they may be made in any order and
    mixed with everything else, so there are more runs than the code has. *)
From stdpp Require Import base list gmap sets.
From Stdlib Require Import ZArith Lia.
From S2P Require Import Prelude GoSlice StunTypes StunMessage StunAgent StunClient.
Open Scope Z_scope.

Abbreviation agent_event := (@StunAgent.Event Message).

(** * Handlers *)

(** [callbackWaitHandler]; a callback is known by the number of its [Do]. *)
Record callbackWaitHandler := mkHandler { callback : option nat; processed : bool }.
Definition newHandler : callbackWaitHandler := mkHandler None false.

(** The handlers, and the calls of callbacks, the last one first. *)
Record world := mkWorld {
  handlers : gmap nat callbackWaitHandler;
  called : list (nat * agent_event)
}.
Definition handler_at (h : nat) (w : world) : callbackWaitHandler := default newHandler (handlers w !! h).
Definition put_handler (h : nat) (c : callbackWaitHandler) (w : world) : world :=
  mkWorld (<[h := c]> (handlers w)) (called w).

(** [setCallback]; [Do] has made sure that [f] is not nil. *)
Definition setCallback (h f : nat) (w : world) : world :=
  put_handler h (mkHandler (Some f) (processed (handler_at h w))) w.
(** [reset] *)
Definition reset (h : nat) (w : world) : world := put_handler h newHandler w.

(** [HandleEvent] in two halves: the callback, and the flag that [wait] waits for.
    No result is the panic of a nil callback. *)
Inductive activity := Handling (h : nat) (e : agent_event) | Finishing (h : nat).
Definition HandleEvent (a : activity) (w : world) : option (world * option activity) :=
  match a with
  | Handling h e =>
      match callback (handler_at h w) with
      | None => None
      | Some f => Some (mkWorld (handlers w) ((f, e) :: called w), Some (Finishing h))
      end
  | Finishing h => Some (put_handler h (mkHandler (callback (handler_at h w)) true) w, None)
  end.

(** The calls of pooled handlers among those of an agent's operation. *)
Definition handling (c : acall) : option activity :=
  match c with Call h e => Some (Handling h e) | ZeroCall _ _ => None end.

(** * A run of [Do] *)

(** Where a [Do] is: before [Client.Start], before the write, before and in the
    [Stop] that follows a failed write, in [wait], before the deferred [reset]
    with its result, done. *)
Inductive progress :=
| AtStart (h : nat)
| AtWrite (h : nat)
| AtStop (h : nat) (cause : error)
| InStop (h : nat) (cause : error) (a : activity)
| AtWait (h : nat)
| AtReset (h : nat) (r : option client_error)
| Returned (r : option client_error).
Definition held (p : progress) : option nat :=
  match p with
  | AtStart h | AtWrite h | AtStop h _ | InStop h _ _ | AtWait h | AtReset h _ => Some h
  | Returned _ => None
  end.

(** The number of a [Do], and of its callback, is its position in [dos]; it comes
    with the transaction id of its message. *)
Record do_system := mkDo {
  do_agent : @Agent nat;
  do_closed : bool;
  do_world : world;
  dos : list (bytes * progress);
  activities : list activity
}.
Definition do_initial (zeroHandler : option nat) : do_system :=
  mkDo (NewAgent zeroHandler) false (mkWorld ∅ []) [] [].

Definition free_handler (h : nat) (s : do_system) : Prop :=
  Forall (fun d => held d.2 <> Some h) (dos s).
Definition goes (f : nat) (id : bytes) (p : progress) (s : do_system) : list (bytes * progress) :=
  <[f := (id, p)]> (dos s).

Section Do.
(** Whether writes to the connection may fail. *)
Variable writes_fail : bool.

(** [None] is the end of the program by a panic. *)
Inductive do_step : do_system -> option do_system -> Prop :=
| do_get s h id :
    free_handler h s ->
    do_step s (Some (mkDo (do_agent s) (do_closed s) (setCallback h (length (dos s)) (do_world s))
                      (dos s ++ [(id, AtStart h)]) (activities s)))
| do_refused s f id h :
    dos s !! f = Some (id, AtStart h) -> do_closed s = true ->
    do_step s (Some (mkDo (do_agent s) (do_closed s) (do_world s)
                      (goes f id (AtReset h (Some ErrClientClosed)) s) (activities s)))
| do_start s f id h d a' r :
    dos s !! f = Some (id, AtStart h) -> StunAgent.Start id d h (do_agent s) = (a', r) ->
    do_step s (Some (mkDo a' (do_closed s) (do_world s)
                      (goes f id (match r with
                                  | None => AtWrite h
                                  | Some e => AtReset h (Some (AgentError e))
                                  end) s) (activities s)))
| do_written s f id h :
    dos s !! f = Some (id, AtWrite h) ->
    do_step s (Some (mkDo (do_agent s) (do_closed s) (do_world s) (goes f id (AtWait h) s) (activities s)))
| do_not_written s f id h err :
    writes_fail = true -> dos s !! f = Some (id, AtWrite h) ->
    do_step s (Some (mkDo (do_agent s) (do_closed s) (do_world s) (goes f id (AtStop h err) s) (activities s)))
| do_stop s f id h err a' calls r :
    dos s !! f = Some (id, AtStop h err) -> StunAgent.Stop id (do_agent s) = (a', calls, r) ->
    do_step s (Some (mkDo a' (do_closed s) (do_world s)
                      (goes f id (match r, omap handling calls with
                                  | None, a :: _ => InStop h err a
                                  | None, [] => AtReset h (Some (ConnError err))
                                  | Some e, _ => AtReset h (Some (StopErr e err))
                                  end) s) (activities s)))
| do_stop_call s f id h err a w a' :
    dos s !! f = Some (id, InStop h err a) -> HandleEvent a (do_world s) = Some (w, a') ->
    do_step s (Some (mkDo (do_agent s) (do_closed s) w
                      (goes f id (match a' with
                                  | Some a' => InStop h err a'
                                  | None => AtReset h (Some (ConnError err))
                                  end) s) (activities s)))
| do_stop_panic s f id h err a :
    dos s !! f = Some (id, InStop h err a) -> HandleEvent a (do_world s) = None -> do_step s None
| do_waited s f id h :
    dos s !! f = Some (id, AtWait h) -> processed (handler_at h (do_world s)) = true ->
    do_step s (Some (mkDo (do_agent s) (do_closed s) (do_world s) (goes f id (AtReset h None) s) (activities s)))
| do_reset s f id h r :
    dos s !! f = Some (id, AtReset h r) ->
    do_step s (Some (mkDo (do_agent s) (do_closed s) (reset h (do_world s)) (goes f id (Returned r) s)
                      (activities s)))
(** The reading and the collecting goroutine, and [Client.Close]. *)
| do_operation s o a' calls r :
    (forall id err, o <> OpStop id err) -> run TID o (do_agent s) = (a', calls, r) ->
    do_step s (Some (mkDo a' (do_closed s) (do_world s) (dos s) (omap handling calls ++ activities s)))
| do_close s :
    do_step s (Some (mkDo (do_agent s) true (do_world s) (dos s) (activities s)))
| do_close_agent s a' calls r :
    do_closed s = true -> StunAgent.Close (do_agent s) = (a', calls, r) ->
    do_step s (Some (mkDo a' true (do_world s) (dos s) (omap handling calls ++ activities s)))
| do_call s l1 l2 a w a' :
    activities s = l1 ++ a :: l2 -> HandleEvent a (do_world s) = Some (w, a') ->
    do_step s (Some (mkDo (do_agent s) (do_closed s) w (dos s) (l1 ++ option_list a' ++ l2)))
| do_call_panic s l1 l2 a :
    activities s = l1 ++ a :: l2 -> HandleEvent a (do_world s) = None -> do_step s None.

Inductive do_reachable (zeroHandler : option nat) : do_system -> Prop :=
| do_reachable_initial : do_reachable zeroHandler (do_initial zeroHandler)
| do_reachable_step s s' :
    do_reachable zeroHandler s -> do_step s (Some s') -> do_reachable zeroHandler s'.
End Do.
