(* ===== verification/StunDoProps.v ===== *)
(** What [Client.Do] promises as long as writes do not fail, and what happens when
    one does. *)
From stdpp Require Import base list gmap sets.
From Stdlib Require Import ZArith Lia.
From S2P Require Import Prelude GoSlice StunTypes StunMessage StunAgent StunClient StunDo.
Open Scope Z_scope.

(** * Tokens

    A transaction that waits in the agent, a call in either half and a finished
    call that was not reset are tokens of a handler; it never has two. *)
Definition waits (h : nat) (s : do_system) : nat := registered h (transactions (do_agent s)).
Definition is_handling (h : nat) (a : activity) : bool :=
  match a with Handling h' _ => bool_decide (h' = h) | Finishing _ => false end.
Definition is_finishing (h : nat) (a : activity) : bool :=
  match a with Handling _ _ => false | Finishing h' => bool_decide (h' = h) end.
Definition count (p : activity -> bool) (l : list activity) : nat := length (filter p l).
Definition done_at (h : nat) (s : do_system) : nat :=
  if processed (handler_at h (do_world s)) then 1 else 0.

(** What is still to come for a handler, and what has been called. *)
Definition coming (h : nat) (s : do_system) : nat := (waits h s + count (is_handling h) (activities s))%nat.
Definition passed (h : nat) (s : do_system) : nat :=
  (count (is_finishing h) (activities s) + done_at h s)%nat.
Definition calls_to (f : nat) (s : do_system) : nat :=
  length (filter (fun c => c.1 = f) (called (do_world s))).

Definition do_ok (f : nat) (p : progress) (s : do_system) : Prop :=
  (forall h, held p = Some h -> callback (handler_at h (do_world s)) = Some f) /\
  match p with
  | AtStart h | AtReset h (Some _) => coming h s = 0%nat /\ passed h s = 0%nat /\ calls_to f s = 0%nat
  | AtWrite h | AtWait h => (coming h s + passed h s = 1)%nat /\ calls_to f s = passed h s
  | AtReset h None =>
      coming h s = 0%nat /\ count (is_finishing h) (activities s) = 0%nat /\ done_at h s = 1%nat /\ calls_to f s = 1%nat
  | Returned None => calls_to f s = 1%nat
  | Returned (Some _) => calls_to f s = 0%nat
  | AtStop _ _ | InStop _ _ _ => False
  end.

Record do_inv (s : do_system) : Prop := {
  di_free h : free_handler h s -> coming h s = 0%nat /\ count (is_finishing h) (activities s) = 0%nat /\
    handler_at h (do_world s) = newHandler;
  di_unique f f' d d' h : dos s !! f = Some d -> dos s !! f' = Some d' -> held d.2 = Some h -> held d'.2 = Some h ->
    f = f';
  di_do f id p : dos s !! f = Some (id, p) -> do_ok f p s;
  di_new f : (length (dos s) <= f)%nat -> calls_to f s = 0%nat
}.

(** Two states that agree on a handler. *)
Definition same_at (h : nat) (s s' : do_system) : Prop :=
  coming h s' = coming h s /\ count (is_finishing h) (activities s') = count (is_finishing h) (activities s) /\
  handler_at h (do_world s') = handler_at h (do_world s).

Lemma do_ok_same f p s s' :
  do_ok f p s -> (forall h, held p = Some h -> same_at h s s') -> calls_to f s' = calls_to f s -> do_ok f p s'.
Proof.
  intros [Hcb Hp] Hsame Hcalls. split.
  - intros h Hh. destruct (Hsame h Hh) as (_ & _ & ->). by apply Hcb.
  - destruct p as [h|h|h ?|h ? ?|h|h [?|]|[?|]]; rewrite ?Hcalls; try done;
      destruct (Hsame h eq_refl) as (H1 & H2 & H3); unfold passed, done_at in *; by rewrite ?H1, ?H2, ?H3.
Qed.

(** One [Do] moves, or its handler is called. *)
Lemma do_inv_move s s' f id p p' h :
  do_inv s -> dos s !! f = Some (id, p) -> held p = Some h -> dos s' = <[f := (id, p')]> (dos s) ->
  (held p' = Some h \/ held p' = None /\ coming h s' = 0%nat /\ count (is_finishing h) (activities s') = 0%nat /\
     handler_at h (do_world s') = newHandler) ->
  (forall h', h' <> h -> same_at h' s s') -> (forall f', f' <> f -> calls_to f' s' = calls_to f' s) ->
  do_ok f p' s' -> do_inv s'.
Proof.
  intros [Hfree Huniq Hdo Hnew] Hf Hh Hdos Hh' Hsame Hcalls Hok. pose proof (lookup_lt_Some _ _ _ Hf) as Hlt.
  assert (forall f' d, dos s' !! f' = Some d -> f' = f /\ d = (id, p') \/ f' <> f /\ dos s !! f' = Some d) as Hlook.
  { intros f' d. rewrite Hdos. intros [(-> & -> & _)|[? ?]]%list_lookup_insert_Some; auto. }
  assert (forall f' d h', f' <> f -> dos s !! f' = Some d -> held d.2 = Some h' -> h' <> h) as Hother.
  { intros f' d h' Hne Hd Hhd ->. apply Hne. by eapply (Huniq f' f d (id, p) h). }
  split.
  - intros h' Hfr. unfold free_handler in Hfr. rewrite Hdos in Hfr. destruct (decide (h' = h)) as [->|Hne].
    + destruct Hh' as [Hp'|(_ & H1 & H2 & H3)]; [|done]. exfalso.
      eapply Forall_lookup_1 in Hfr; [|by apply list_lookup_insert_eq]. by apply Hfr.
    + destruct (Hsame h' Hne) as (-> & -> & ->). apply Hfree. apply Forall_lookup. intros f' d Hd.
      destruct (decide (f' = f)) as [->|Hff].
      * rewrite Hf in Hd. injection Hd as <-. cbn. rewrite Hh. congruence.
      * eapply Forall_lookup_1 in Hfr; [exact Hfr|]. by rewrite list_lookup_insert_ne.
  - intros f1 f2 d1 d2 h' H1 H2 Hd1 Hd2. apply Hlook in H1 as [[-> ->]|[Hn1 H1]], H2 as [[-> ->]|[Hn2 H2]]; [done|..|by eapply Huniq].
    + exfalso. cbn in Hd1. destruct Hh' as [Hp'|[Hp' _]]; rewrite Hp' in Hd1; [|done]. injection Hd1 as <-. by eapply Hother.
    + exfalso. cbn in Hd2. destruct Hh' as [Hp'|[Hp' _]]; rewrite Hp' in Hd2; [|done]. injection Hd2 as <-. by eapply Hother.
  - intros f' id' p1 [[-> [= -> ->]]|[Hne Hd]]%Hlook; [done|]. eapply do_ok_same; [by eapply Hdo| |by apply Hcalls].
    intros h' Hh1. apply Hsame. by eapply (Hother f' (id', p1)).
  - intros f'. rewrite Hdos, length_insert. intros Hl. rewrite Hcalls by lia. by apply Hnew.
Qed.

(** The agent moves transactions into calls, the handlers stay. *)
Lemma do_inv_same s s' :
  do_inv s -> dos s' = dos s -> (forall h, same_at h s s') -> (forall f, calls_to f s' = calls_to f s) -> do_inv s'.
Proof.
  intros [Hfree Huniq Hdo Hnew] Hdos Hsame Hcalls. split; unfold free_handler; rewrite Hdos.
  - intros h Hfr. destruct (Hsame h) as (-> & -> & ->). by apply Hfree.
  - exact Huniq.
  - intros f id p Hf. eapply do_ok_same; [by eapply Hdo|by intros; apply Hsame|by apply Hcalls].
  - intros f Hl. rewrite Hcalls. by apply Hnew.
Qed.

(** * Counting *)

Lemma count_app p l1 l2 : count p (l1 ++ l2) = (count p l1 + count p l2)%nat.
Proof. unfold count. by rewrite filter_app, length_app. Qed.
Lemma count_cons p a l : count p (a :: l) = ((if p a then 1 else 0) + count p l)%nat.
Proof. unfold count. rewrite filter_cons. destruct (p a) eqn:E; by repeat case_decide; rewrite ?E in *. Qed.

Lemma count_handling h calls : count (is_handling h) (omap handling calls) = calls_of h calls.
Proof.
  induction calls as [|[h' e|h' e] calls IH]; [done|..]; rewrite calls_of_cons; cbn [omap list_omap handling].
  - rewrite count_cons, IH, calls_of_one. cbn [is_handling]. by case_bool_decide.
  - by rewrite IH.
Qed.
Lemma count_finishing h calls : count (is_finishing h) (omap handling calls) = 0%nat.
Proof. induction calls as [|[h' e|h' e] calls IH]; [done|..]; cbn [omap list_omap handling]; by rewrite ?count_cons. Qed.

Lemma Close_conserves (h : nat) (a : @Agent nat) a' (calls : list acall) r :
  StunAgent.Close a = (a', calls, r) ->
  registered h (transactions a) = (calls_of h calls + registered h (transactions a'))%nat.
Proof.
  unfold StunAgent.Close. destruct (closed a); intros [= <- <- _]; [done|].
  unfold close_calls, closed_agent. cbn [transactions]. rewrite <- registered_calls. unfold registered at 3.
  rewrite map_to_list_empty. cbn. lia.
Qed.

(** An operation turns transactions into calls. *)
Lemma same_at_calls h s s' (calls : list acall) :
  registered h (transactions (do_agent s)) = (calls_of h calls + registered h (transactions (do_agent s')))%nat ->
  activities s' = omap handling calls ++ activities s -> do_world s' = do_world s -> same_at h s s'.
Proof.
  intros Hr Ha Hw. unfold same_at, coming, waits. rewrite Ha, Hw, !count_app, count_handling, count_finishing.
  split; [lia|done].
Qed.

Lemma handler_at_put h h' c w : handler_at h (put_handler h' c w) = if decide (h = h') then c else handler_at h w.
Proof.
  unfold handler_at, put_handler. cbn [handlers]. case_decide as Heq.
  - subst. by rewrite lookup_insert_eq.
  - by rewrite lookup_insert_ne.
Qed.

(** A handler with a token belongs to a [Do]. *)
Lemma holder h s :
  do_inv s -> coming h s <> 0%nat \/ count (is_finishing h) (activities s) <> 0%nat ->
  exists f id p, dos s !! f = Some (id, p) /\ held p = Some h.
Proof.
  intros Hi Htok. destruct (decide (Exists (fun d => held d.2 = Some h) (dos s))) as [He|Hn].
  - apply Exists_exists in He as ([id p] & [f Hf]%list_elem_of_lookup & Hh). by exists f, id, p.
  - exfalso. destruct (di_free _ Hi h) as (H1 & H2 & _); [|tauto].
    unfold free_handler. apply Forall_Exists_neg in Hn. done.
Qed.

(** The [Do] whose call is under way is past its start and not yet released. *)
Lemma holder_waiting h s :
  do_inv s -> coming h s <> 0%nat \/ count (is_finishing h) (activities s) <> 0%nat ->
  exists f id p, dos s !! f = Some (id, p) /\ held p = Some h /\ (p = AtWrite h \/ p = AtWait h) /\
    callback (handler_at h (do_world s)) = Some f /\ (coming h s + passed h s = 1)%nat /\ calls_to f s = passed h s.
Proof.
  intros Hi Htok. destruct (holder h s Hi Htok) as (f & id & p & Hf & Hh). exists f, id, p.
  split; [done|]. split; [done|]. destruct (di_do _ Hi f id p Hf) as [Hcb Hp]. specialize (Hcb h Hh).
  unfold passed in Hp. destruct p as [h'|h'|h' ?|h' ? ?|h'|h' [?|]|[?|]]; cbn in Hh; try done; injection Hh as ->;
    try (exfalso; lia); (split; [by auto|]); done.
Qed.

(** * Every step keeps the invariant *)

Lemma do_inv_initial z : do_inv (do_initial z).
Proof. split; cbn; try done. Qed.

(** A new [Do] takes a handler that nobody has. *)
Lemma do_inv_get s h id :
  do_inv s -> free_handler h s ->
  do_inv (mkDo (do_agent s) (do_closed s) (setCallback h (length (dos s)) (do_world s))
            (dos s ++ [(id, AtStart h)]) (activities s)).
Proof.
  intros Hi Hfr. destruct (di_free _ Hi h Hfr) as (H1 & H2 & H3). set (s' := mkDo _ _ _ _ _).
  assert (forall h', h' <> h -> same_at h' s s') as Hsame.
  { intros h' Hne. unfold same_at, s', setCallback. cbn. rewrite handler_at_put, decide_False by done. done. }
  assert (handler_at h (do_world s') = mkHandler (Some (length (dos s))) false) as Hh.
  { unfold s', setCallback. cbn. rewrite handler_at_put, decide_True, H3 by done. done. }
  assert (forall f, calls_to f s' = calls_to f s) as Hcalls by done.
  assert (forall f d, dos s' !! f = Some d -> f = length (dos s) /\ d = (id, AtStart h) \/ dos s !! f = Some d) as Hlook.
  { intros f d. unfold s'. cbn. intros [Hd|[Hl Hd]]%lookup_app_Some; [by right|left].
    apply list_lookup_singleton_Some in Hd as [Hd <-]. split; [lia|done]. }
  split.
  - intros h' Hfr'. unfold free_handler, s' in Hfr'. cbn in Hfr'. apply Forall_app in Hfr' as [Hfr1 Hfr2].
    apply Forall_cons in Hfr2 as [Hfr2 _]. cbn in Hfr2. destruct (Hsame h') as (-> & -> & ->); [intros ->; by apply Hfr2|]. by apply (di_free _ Hi).
  - assert (forall f d, dos s !! f = Some d -> held d.2 <> Some h /\ (f < length (dos s))%nat) as Hold.
    { intros f d Hd. split; [|by eapply lookup_lt_Some]. by eapply Forall_lookup_1 in Hfr. }
    intros f f' d d' h' [[-> ->]|Hd]%Hlook [[-> ->]|Hd']%Hlook Hh1 Hh2; [done|..|by eapply (di_unique _ Hi)].
    + injection Hh1 as <-. by apply Hold in Hd' as [? _].
    + injection Hh2 as <-. by apply Hold in Hd as [? _].
  - intros f id' p [[-> [= -> ->]]|Hd]%Hlook.
    + split; [by intros h' [= <-]; rewrite Hh|]. unfold passed, done_at. rewrite Hh.
      split; [done|]. split; [cbn [processed]; change (activities s') with (activities s); lia|].
      rewrite Hcalls. by apply (di_new _ Hi).
    + eapply do_ok_same; [by eapply (di_do _ Hi)| |done]. intros h' Hh'. apply Hsame. intros ->.
      eapply Forall_lookup_1 in Hfr; [|exact Hd]. by apply Hfr.
  - intros f. unfold s'. cbn. rewrite length_app. cbn. intros Hl. apply (di_new _ Hi). lia.
Qed.

(** A call of a callback, or its end. *)
Lemma do_inv_call s l1 l2 a w a' :
  do_inv s -> activities s = l1 ++ a :: l2 -> HandleEvent a (do_world s) = Some (w, a') ->
  do_inv (mkDo (do_agent s) (do_closed s) w (dos s) (l1 ++ option_list a' ++ l2)).
Proof.
  intros Hi Ha He. set (s' := mkDo _ _ _ _ _).
  assert (forall p, count p (activities s) = (count p l1 + ((if p a then 1 else 0) + count p l2))%nat) as Hc.
  { intros p. by rewrite Ha, count_app, count_cons. }
  destruct a as [h e|h].
  - assert (coming h s <> 0%nat) as Htok.
    { unfold coming. rewrite Hc. cbn [is_handling]. rewrite bool_decide_true by done. lia. }
    destruct (holder_waiting h s Hi (or_introl Htok)) as (f & id & p & Hf & Hh & Hp & Hcb & H1 & H2).
    cbn in He. rewrite Hcb in He. injection He as <- <-.
    assert (forall p', count p' (activities s') = (count p' l1 + ((if p' (Finishing h) then 1 else 0) + count p' l2))%nat) as Hc'.
    { intros p'. change (activities s') with (l1 ++ Finishing h :: l2). by rewrite count_app, count_cons. }
    apply (do_inv_move s s' f id p p h); try done; [by rewrite list_insert_id|by left|..].
    + intros h' Hne. unfold same_at, coming. rewrite !Hc, !Hc'. cbn [is_handling is_finishing].
      rewrite !bool_decide_false by congruence. done.
    + intros f' Hne. unfold calls_to. change (called (do_world s')) with ((f, e) :: called (do_world s)). rewrite filter_cons. by rewrite decide_False by (cbn; congruence).
    + split; [by intros h' Hh'; rewrite Hh in Hh'; injection Hh' as <-|].
      assert (coming h s = S (coming h s') /\ passed h s' = S (passed h s) /\ calls_to f s' = S (calls_to f s)) as (E1 & E2 & E3).
      { unfold coming, passed. rewrite !Hc, !Hc'. cbn [is_handling is_finishing]. rewrite bool_decide_true by done.
        change (waits h s') with (waits h s). change (done_at h s') with (done_at h s).
        split; [lia|]. split; [lia|]. unfold calls_to. change (called (do_world s')) with ((f, e) :: called (do_world s)). rewrite filter_cons. by rewrite decide_True by done. }
      destruct Hp as [-> | ->]; lia.
  - assert (count (is_finishing h) (activities s) <> 0%nat) as Htok.
    { rewrite Hc. cbn [is_finishing]. rewrite bool_decide_true by done. lia. }
    destruct (holder_waiting h s Hi (or_intror Htok)) as (f & id & p & Hf & Hh & Hp & Hcb & H1 & H2).
    cbn in He. injection He as <- <-.
    assert (forall p', count p' (activities s') = (count p' l1 + count p' l2)%nat) as Hc'.
    { intros p'. change (activities s') with (l1 ++ l2). by rewrite count_app. }
    assert (handler_at h (do_world s') = mkHandler (Some f) true) as Hh'.
    { unfold s'. cbn. by rewrite handler_at_put, decide_True, Hcb. }
    apply (do_inv_move s s' f id p p h); try done; [by rewrite list_insert_id|by left|..].
    + intros h' Hne. unfold same_at, coming. rewrite !Hc, !Hc'. cbn [is_handling is_finishing].
      rewrite !bool_decide_false by congruence. split; [done|]. split; [done|].
      unfold s'. cbn. by rewrite handler_at_put, decide_False.
    + split; [by intros h' Hh1; rewrite Hh in Hh1; injection Hh1 as <-; rewrite Hh'|].
      assert (coming h s' = coming h s) as E1.
      { unfold coming. rewrite Hc, Hc'. done. }
      assert (count (is_finishing h) (activities s) = S (count (is_finishing h) (activities s'))) as E2.
      { rewrite Hc, Hc'. cbn [is_finishing]. rewrite bool_decide_true by done. lia. }
      assert (done_at h s' = 1%nat) as E3 by (unfold done_at; by rewrite Hh').
      assert (calls_to f s' = calls_to f s) as E4 by done. unfold passed in *. destruct Hp as [-> | ->]; lia.
Qed.

Lemma same_at_world h s s' :
  do_agent s' = do_agent s -> do_world s' = do_world s -> activities s' = activities s -> same_at h s s'.
Proof. intros Ha Hw Hact. unfold same_at, coming, waits. by rewrite Ha, Hw, Hact. Qed.

(** A [Do] that goes on without touching anything else. *)
Lemma do_inv_goes s f id p p' h :
  do_inv s -> dos s !! f = Some (id, p) -> held p = Some h -> held p' = Some h ->
  let s' := mkDo (do_agent s) (do_closed s) (do_world s) (goes f id p' s) (activities s) in
  do_ok f p' s -> do_inv s'.
Proof.
  intros Hi Hf Hh Hh' s' Hok. assert (forall h, same_at h s s') as Hs by (intros; by apply same_at_world).
  apply (do_inv_move s s' f id p p' h); auto.
Qed.

Lemma do_inv_start s f id h d a' r :
  do_inv s -> dos s !! f = Some (id, AtStart h) -> StunAgent.Start id d h (do_agent s) = (a', r) ->
  do_inv (mkDo a' (do_closed s) (do_world s)
            (goes f id (match r with None => AtWrite h | Some e => AtReset h (Some (AgentError e)) end) s)
            (activities s)).
Proof.
  intros Hi Hf Hst. destruct (di_do _ Hi _ _ _ Hf) as [Hcb (H1 & H2 & H3)]. unfold StunAgent.Start in Hst.
  assert (forall e, do_inv (mkDo (do_agent s) (do_closed s) (do_world s) (goes f id (AtReset h (Some e)) s) (activities s)))
    as Hrefused by (intros e; by apply (do_inv_goes s f id (AtStart h) _ h)).
  destruct (closed (do_agent s)); [injection Hst as <- <-; apply Hrefused|].
  destruct (transactions (do_agent s) !! id) as [t|] eqn:Hid; injection Hst as <- <-; [apply Hrefused|].
  set (s' := mkDo _ _ _ _ _).
  assert (forall h', waits h' s' = ((if bool_decide (h = h') then 1 else 0) + waits h' s)%nat) as Hw.
  { intros h'. unfold waits, s'. cbn [do_agent transactions]. by rewrite registered_insert. }
  apply (do_inv_move s s' f id (AtStart h) (AtWrite h) h); auto.
  - intros h' Hne. unfold same_at, coming. rewrite Hw, bool_decide_false by done. done.
  - split; [exact Hcb|]. change (passed h s') with (passed h s). change (calls_to f s') with (calls_to f s).
    unfold coming in *. rewrite Hw, bool_decide_true by done. change (activities s') with (activities s). lia.
Qed.

Lemma do_inv_reset s f id h r :
  do_inv s -> dos s !! f = Some (id, AtReset h r) ->
  do_inv (mkDo (do_agent s) (do_closed s) (reset h (do_world s)) (goes f id (Returned r) s) (activities s)).
Proof.
  intros Hi Hf. destruct (di_do _ Hi _ _ _ Hf) as [Hcb Hp]. set (s' := mkDo _ _ _ _ _).
  assert (coming h s = 0%nat /\ count (is_finishing h) (activities s) = 0%nat) as [H1 H2].
  { unfold passed in Hp. destruct r; lia. }
  apply (do_inv_move s s' f id (AtReset h r) (Returned r) h); auto.
  - right. split; [done|]. split; [done|]. split; [done|]. unfold s', reset. cbn [do_world].
    by rewrite handler_at_put, decide_True.
  - intros h' Hne. unfold same_at. split; [done|]. split; [done|]. unfold s', reset. cbn [do_world].
    by rewrite handler_at_put, decide_False.
  - split; [done|]. change (calls_to f s') with (calls_to f s). destruct r; [by destruct Hp as (_ & _ & ?)|by destruct Hp as (_ & _ & _ & ?)].
Qed.

Lemma do_inv_step s s' : do_inv s -> do_step false s (Some s') -> do_inv s'.
Proof.
  intros Hi Hs. inversion Hs as [? h id Hfr|? f id h Hf Hc|? f id h d a' r Hf Hst|? f id h Hf|? f id h err ? Hf
    |? f id h err a' calls r Hf Hst|? f id h err a w a' Hf He|? f id h err a Hf He|? f id h Hf Hpr|? f id h r Hf
    |? o a' calls r Ho Hr|?|? a' calls r Hc Hr|? l1 l2 a w a' Ha He|? l1 l2 a Ha He]; subst; try done.
  - by apply do_inv_get.
  - pose proof (di_do _ Hi _ _ _ Hf) as Hok. by apply (do_inv_goes s f id (AtStart h) _ h).
  - by eapply do_inv_start.
  - pose proof (di_do _ Hi _ _ _ Hf) as Hok. by apply (do_inv_goes s f id (AtWrite h) _ h).
  - by destruct (di_do _ Hi _ _ _ Hf).
  - by destruct (di_do _ Hi _ _ _ Hf).
  - destruct (di_do _ Hi _ _ _ Hf) as [Hcb [H1 H2]]. apply (do_inv_goes s f id (AtWait h) _ h); try done.
    split; [done|]. assert (done_at h s = 1%nat) as Hd by (unfold done_at; by rewrite Hpr). unfold passed in *. lia.
  - by apply do_inv_reset.
  - apply (do_inv_same s); try done. intros h. apply (same_at_calls h _ _ calls); [|done|done].
    by apply (run_conserves _ h _ _ _ _ _ Hr).
  - apply (do_inv_same s); try done.
  - apply (do_inv_same s); try done. intros h. apply (same_at_calls h _ _ calls); [|done|done].
    by apply (Close_conserves h _ _ _ _ Hr).
  - by eapply do_inv_call.
Qed.

Lemma do_reachable_inv z s : do_reachable false z s -> do_inv s.
Proof. induction 1 as [|s s' _ IH Hs]; [apply do_inv_initial|by eapply do_inv_step]. Qed.

(** Nobody calls a nil callback. *)
Lemma do_no_panic s : do_inv s -> ~ do_step false s None.
Proof.
  intros Hi Hs. inversion Hs as [| | | | | | |? f id h err a Hf He| | | | | | |? l1 l2 a Ha He]; subst.
  - by destruct (di_do _ Hi _ _ _ Hf).
  - destruct a as [h e|h]; [|done]. cbn in He.
    assert (coming h s <> 0%nat) as Htok.
    { unfold coming. rewrite Ha, count_app, count_cons. cbn [is_handling]. rewrite bool_decide_true by done. lia. }
    destruct (holder_waiting h s Hi (or_introl Htok)) as (f & _ & _ & _ & _ & _ & Hcb & _). by rewrite Hcb in He.
Qed.

(** * Every callback gets the answer to its own message *)

Definition has_do (id : bytes) (h : nat) (s : do_system) : Prop :=
  exists f p, dos s !! f = Some (id, p) /\ held p = Some h.
Record own_answers (s : do_system) : Prop := {
  oa_waiting id t : transactions (do_agent s) !! id = Some t -> has_do id (tx_h t) s;
  oa_handling h m : Handling h (MessageEvent m) ∈ activities s -> has_do (TID m) h s;
  oa_called f m : (f, MessageEvent m) ∈ called (do_world s) -> exists p, dos s !! f = Some (TID m, p)
}.

Lemma run_own o (a a' : @Agent nat) (calls : list acall) r :
  run TID o a = (a', calls, r) ->
  (forall id t, transactions a' !! id = Some t -> transactions a !! id = Some t) /\
  (forall h m, Call h (MessageEvent m) ∈ calls -> exists t, transactions a !! TID m = Some t /\ tx_h t = h).
Proof.
  destruct o as [id err|gcTime|m]; cbn [run].
  - unfold StopWithError. destruct (closed a); [intros [= <- <- _]; split; [done|set_solver]|].
    destruct (transactions a !! id) as [t|]; intros [= <- <- _]; cbn [transactions];
      (split; [by intros id' t' [_ ?]%lookup_delete_Some|set_solver]).
  - unfold Collect. destruct (closed a); [intros [= <- <- _]; split; [done|set_solver]|]. intros [= <- <- _]. split.
    + cbn [transactions]. induction (filter _ _) as [|kv l IH]; [done|]. cbn [foldr].
      intros id t [_ Ht]%lookup_delete_Some. by apply IH.
    + intros h m (kv & ? & _)%list_elem_of_fmap. done.
  - unfold Process. destruct (closed a); [intros [= <- <- _]; split; [done|set_solver]|].
    destruct (transactions a !! TID m) as [t|] eqn:Hid; intros [= <- <- _]; cbn [transactions];
      (split; [by intros id' t' [_ ?]%lookup_delete_Some|]); intros h m' Hin.
    + apply list_elem_of_singleton in Hin. injection Hin as -> <-. by exists t.
    + destruct (zeroHandler a); set_solver.
Qed.

Lemma Close_own (a a' : @Agent nat) (calls : list acall) r :
  StunAgent.Close a = (a', calls, r) ->
  (forall id t, transactions a' !! id = Some t -> transactions a !! id = Some t) /\
  (forall h m, Call h (MessageEvent m) ∈ calls -> exists t, transactions a !! TID m = Some t /\ tx_h t = h).
Proof.
  unfold StunAgent.Close. destruct (closed a); intros [= <- <- _]; (split; [by intros id t; rewrite ?lookup_empty|]).
  - set_solver.
  - intros h m Hin. unfold close_calls in Hin. by apply list_elem_of_fmap in Hin as (kv & ? & _).
Qed.

Lemma waits_some id t s : transactions (do_agent s) !! id = Some t -> coming (tx_h t) s <> 0%nat.
Proof. intros Ht. unfold coming, waits. rewrite (registered_delete _ id t _ Ht), bool_decide_true by done. lia. Qed.
Lemma handling_some h e s : Handling h e ∈ activities s -> coming h s <> 0%nat.
Proof.
  intros (l1 & l2 & Hl)%list_elem_of_split. unfold coming. rewrite Hl, count_app, count_cons. cbn [is_handling].
  rewrite bool_decide_true by done. lia.
Qed.

(** The transactions and calls of [s'] are those of [s], or calls that an
    operation made of them, and every [Do] that had a handler keeps it. *)
Lemma own_answers_calls s s' (calls : list acall) :
  own_answers s -> dos s' = dos s -> do_world s' = do_world s -> activities s' = omap handling calls ++ activities s ->
  (forall id t, transactions (do_agent s') !! id = Some t -> transactions (do_agent s) !! id = Some t) ->
  (forall h m, Call h (MessageEvent m) ∈ calls -> exists t, transactions (do_agent s) !! TID m = Some t /\ tx_h t = h) ->
  own_answers s'.
Proof.
  intros [H1 H2 H3] Hd Hw Ha Ht Hc. split; unfold has_do; rewrite ?Hd, ?Hw; [|rewrite Ha|done].
  - intros id t Hid. by apply H1, Ht.
  - intros h m [Hin|Hin]%elem_of_app; [|by apply H2].
    apply list_elem_of_omap in Hin as ([h' e|h' e] & Hin & [=]). subst. destruct (Hc _ _ Hin) as (t & Hid & <-). by apply H1.
Qed.

Lemma own_answers_goes s s' f id p p' :
  own_answers s -> dos s !! f = Some (id, p) -> dos s' = goes f id p' s -> called (do_world s') = called (do_world s) ->
  activities s' = activities s -> transactions (do_agent s') = transactions (do_agent s) ->
  (forall h, held p = Some h -> coming h s <> 0%nat -> held p' = Some h) -> own_answers s'.
Proof.
  intros [H1 H2 H3] Hf Hd Hw Ha Ht Hh. unfold goes in Hd. pose proof (lookup_lt_Some _ _ _ Hf) as Hlt.
  assert (forall id h, has_do id h s -> coming h s <> 0%nat -> has_do id h s') as Hkeep.
  { intros id' h (f' & q & Hf' & Hq) Hc. unfold has_do. rewrite Hd. destruct (decide (f' = f)) as [->|Hne].
    - rewrite Hf in Hf'. injection Hf' as <- <-. exists f, p'. split; [by apply list_lookup_insert_eq|by apply Hh].
    - exists f', q. split; [|done]. by rewrite list_lookup_insert_ne. }
  split; rewrite ?Ht, ?Hw, ?Ha.
  - intros id' t Hid. apply Hkeep; [by apply H1|by eapply waits_some].
  - intros h m Hin. apply Hkeep; [by apply H2|by eapply handling_some].
  - intros f' m Hin. destruct (H3 _ _ Hin) as [q Hq]. rewrite Hd. destruct (decide (f' = f)) as [->|Hne].
    + rewrite Hf in Hq. injection Hq as -> _. exists p'. by apply list_lookup_insert_eq.
    + exists q. by rewrite list_lookup_insert_ne.
Qed.

Lemma own_answers_start s f id h d a' r :
  own_answers s -> dos s !! f = Some (id, AtStart h) -> StunAgent.Start id d h (do_agent s) = (a', r) ->
  own_answers (mkDo a' (do_closed s) (do_world s)
                (goes f id (match r with None => AtWrite h | Some e => AtReset h (Some (AgentError e)) end) s)
                (activities s)).
Proof.
  intros Ho Hf Hst. unfold StunAgent.Start in Hst.
  assert (forall p', held p' = Some h ->
    own_answers (mkDo (do_agent s) (do_closed s) (do_world s) (goes f id p' s) (activities s))) as Hgo.
  { intros p' Hp'. apply (own_answers_goes s _ f id (AtStart h) p'); try done. by intros h' [= <-]. }
  destruct (closed (do_agent s)); [injection Hst as <- <-; by apply Hgo|].
  destruct (transactions (do_agent s) !! id) as [t|]; injection Hst as <- <-; [by apply Hgo|].
  destruct (Hgo (AtWrite h) eq_refl) as [H1 H2 H3]. split; [|exact H2|exact H3].
  intros id' t. cbn [do_agent transactions]. intros [[<- <-]|[_ Hid]]%lookup_insert_Some; [|by apply H1].
  exists f, (AtWrite h). split; [|done]. apply list_lookup_insert_eq. by eapply lookup_lt_Some.
Qed.

Lemma own_answers_get s h id :
  own_answers s -> own_answers (mkDo (do_agent s) (do_closed s) (setCallback h (length (dos s)) (do_world s))
                                  (dos s ++ [(id, AtStart h)]) (activities s)).
Proof.
  intros [H1 H2 H3]. split; cbn [do_agent do_world dos activities setCallback put_handler called].
  - intros id' t Hid. destruct (H1 _ _ Hid) as (f & p & Hf & Hp). exists f, p. split; [|done]. by apply lookup_app_l_Some.
  - intros h' m Hin. destruct (H2 _ _ Hin) as (f & p & Hf & Hp). exists f, p. split; [|done]. by apply lookup_app_l_Some.
  - intros f m Hin. destruct (H3 _ _ Hin) as [p Hp]. exists p. by apply lookup_app_l_Some.
Qed.

Lemma own_answers_call s l1 l2 a w a' :
  do_inv s -> own_answers s -> activities s = l1 ++ a :: l2 -> HandleEvent a (do_world s) = Some (w, a') ->
  own_answers (mkDo (do_agent s) (do_closed s) w (dos s) (l1 ++ option_list a' ++ l2)).
Proof.
  intros Hi [H1 H2 H3] Ha He. assert (forall b, b ∈ l1 ++ l2 -> b ∈ activities s) as Hsub by (rewrite Ha; set_solver).
  destruct a as [h e|h]; cbn in He.
  - destruct (callback (handler_at h (do_world s))) as [f|] eqn:Hcb; [|done]. injection He as <- <-.
    assert (Handling h e ∈ activities s) as Hin by (rewrite Ha; set_solver).
    split; [exact H1| |].
    + intros h' m Hm. apply H2, Hsub. cbn in Hm. set_solver.
    + cbn [do_world called]. intros f1 m [[= -> <-]|Hm]%elem_of_cons; [|by apply H3].
      destruct (H2 _ _ Hin) as (f' & p & Hf & Hp). destruct (di_do _ Hi _ _ _ Hf) as [Hc _].
      rewrite (Hc h Hp) in Hcb. injection Hcb as ->. by exists p.
  - injection He as <- <-. split; [exact H1| |exact H3]. intros h' m Hm. apply H2, Hsub. exact Hm.
Qed.

Lemma own_answers_step s s' : do_inv s -> own_answers s -> do_step false s (Some s') -> own_answers s'.
Proof.
  intros Hi Ho Hs. inversion Hs as [? h id Hfr|? f id h Hf Hc|? f id h d a' r Hf Hst|? f id h Hf|? f id h err ? Hf
    |? f id h err a' calls r Hf Hst|? f id h err a w a' Hf He|? f id h err a Hf He|? f id h Hf Hpr|? f id h r Hf
    |? o a' calls r Hop Hr|?|? a' calls r Hc Hr|? l1 l2 a w a' Ha He|? l1 l2 a Ha He]; subst; try done.
  - by apply own_answers_get.
  - apply (own_answers_goes s _ f id (AtStart h) (AtReset h (Some ErrClientClosed))); try done.
  - by eapply own_answers_start.
  - apply (own_answers_goes s _ f id (AtWrite h) (AtWait h)); try done.
  - by destruct (di_do _ Hi _ _ _ Hf).
  - by destruct (di_do _ Hi _ _ _ Hf).
  - apply (own_answers_goes s _ f id (AtWait h) (AtReset h None)); try done.
  - apply (own_answers_goes s _ f id (AtReset h r) (Returned r)); try done. intros h' [= <-] Hc. exfalso. apply Hc.
    destruct (di_do _ Hi _ _ _ Hf) as [_ Hp]. by destruct r; destruct Hp.
  - destruct (run_own _ _ _ _ _ Hr). by apply (own_answers_calls s _ calls).
  - apply (own_answers_calls s _ []); try done. set_solver.
  - destruct (Close_own _ _ _ _ Hr). by apply (own_answers_calls s _ calls).
  - by eapply own_answers_call.
Qed.

Lemma do_reachable_own z s : do_reachable false z s -> own_answers s.
Proof.
  induction 1 as [|s s' Hr IH Hs]; [by split; cbn; set_solver|].
  eapply own_answers_step; [by eapply do_reachable_inv|done..].
Qed.

(** C25: [Do] as long as no write fails, in any interleaving with other [Do]s, with
    the goroutines that read and collect and with [Close], and however the pool
    reuses the handlers: a [Do] that returns without an error has called its
    callback exactly once, one that returns an error has not called it, no
    callback is ever called twice, and a message that a callback gets has the
    transaction id of the message that was sent; no handler is called without a
    callback, so nothing panics; and a [Do] that waits does not wait in vain: its
    transaction is in the agent, or the call is under way, or the flag is set, and
    only one of them. *)
Theorem Do_calls_back_once z s :
  do_reachable false z s ->
  (forall f id r, dos s !! f = Some (id, Returned r) ->
     calls_to f s = match r with None => 1%nat | Some _ => 0%nat end) /\
  (forall f, (calls_to f s <= 1)%nat) /\
  (forall f m, (f, MessageEvent m) ∈ called (do_world s) -> exists p, dos s !! f = Some (TID m, p)) /\
  ~ do_step false s None /\
  (forall f id h, dos s !! f = Some (id, AtWait h) ->
     (waits h s + count (is_handling h) (activities s) + count (is_finishing h) (activities s) + done_at h s = 1)%nat).
Proof.
  intros Hr. pose proof (do_reachable_inv z s Hr) as Hi. split; [|split; [|split; [|split]]].
  - intros f id r Hf. destruct (di_do _ Hi _ _ _ Hf) as [_ Hp]. by destruct r.
  - intros f. destruct (dos s !! f) as [[id p]|] eqn:Hf; [|rewrite (di_new _ Hi); [lia|by apply lookup_ge_None]].
    destruct (di_do _ Hi _ _ _ Hf) as [_ Hp]. destruct p as [h|h|h ?|h ? ?|h|h [?|]|[?|]]; try done; lia.
  - apply (oa_called s), (do_reachable_own z s Hr).
  - by apply do_no_panic.
  - intros f id h Hf. destruct (di_do _ Hi _ _ _ Hf) as [_ [Hp _]]. unfold coming, passed in Hp. lia.
Qed.

(** * A failed write *)

Definition id_a : bytes := replicate 12 Byte.x00.
Definition id_b : bytes := replicate 11 Byte.x00 ++ [Byte.x01].
Lemma run_step b s s' s'' :
  do_reachable b None s -> do_step b s (Some s'') -> s'' = s' -> do_reachable b None s'.
Proof. intros Hr Hs <-. by eapply do_reachable_step. Qed.

(** The agent with one transaction. *)
Definition one (id : bytes) (d : Z) (h : nat) : @Agent nat := mkAgent {[ id := mkTransaction d h ]} false None.
Lemma Start_one id d h : StunAgent.Start id d h (NewAgent None) = (one id d h, None).
Proof. unfold StunAgent.Start. cbn [closed NewAgent transactions]. by rewrite lookup_empty, insert_empty. Qed.
Lemma Collect_one id d h t :
  d < t -> run (Msg := Message) TID (OpCollect t) (one id d h)
           = (NewAgent None, [Call h (ErrorEvent ErrTransactionTimeOut)], None).
Proof.
  intros Hd. cbn [run]. unfold Collect. cbn [closed one transactions]. rewrite map_to_list_singleton, filter_cons.
  rewrite decide_True by (cbn; unfold expired; cbn; by apply Is_true_true, Z.ltb_lt).
  cbn. unfold NewAgent. do 3 f_equal. by rewrite delete_singleton_eq.
Qed.
Lemma Process_one m d h :
  run TID (OpProcess m) (one (TID m) d h) = (NewAgent None, [Call h (MessageEvent m)], None).
Proof.
  cbn [run]. unfold Process. cbn [closed one transactions zeroHandler].
  by rewrite lookup_singleton_eq, delete_singleton_eq.
Qed.
Lemma Stop_none id :
  StunAgent.Stop (Msg := Message) id (NewAgent (H := nat) None) = (NewAgent None, [], Some ErrTransactionNotExists).
Proof. unfold StunAgent.Stop, StopWithError. cbn [closed NewAgent transactions]. by rewrite lookup_empty, delete_empty. Qed.

(** A world with one handler, and a system that is not closed. *)
Definition one_handler (c : option nat) (p : bool) (l : list (nat * agent_event)) : world :=
  mkWorld {[ 0%nat := mkHandler c p ]} l.
Definition open_system (a : Agent) (w : world) (l : list (bytes * progress)) (acts : list activity) : do_system :=
  mkDo a false w l acts.
Ltac do_side :=
  match goal with
  | |- StunAgent.Start _ _ _ _ = _ => apply Start_one
  | |- run _ (OpCollect _) _ = _ => by apply Collect_one
  | |- run _ (OpProcess _) _ = _ => apply Process_one
  | |- StunAgent.Stop _ _ = _ => apply Stop_none
  | |- free_handler _ _ => repeat (apply List.Forall_cons; [done|]); apply List.Forall_nil
  | |- _ => done
  end.
Tactic Notation "do_go" hyp(Hr) constr(s') uconstr(c) :=
  eapply (run_step _ _ s') in Hr; [|eapply c; do_side|unfold open_system; f_equal; vm_compute; reflexivity].

Definition timed_out : agent_event := ErrorEvent ErrTransactionTimeOut.
Definition not_sent : progress := Returned (Some (StopErr ErrTransactionNotExists EOF)).

(** The write of A fails after its deadline was collected: [Stop] finds no
    transaction, so [Do] returns and puts the handler back while the collecting
    goroutine is about to call it. *)
Definition late : do_system :=
  open_system (NewAgent None) (one_handler None false []) [(id_a, not_sent)] [Handling 0 timed_out].

Lemma late_reachable : do_reachable true None late.
Proof.
  pose proof (do_reachable_initial true None) as Hr.
  set (w := one_handler (Some 0%nat) false []).
  do_go Hr (open_system (NewAgent None) w [(id_a, AtStart 0)] [])
    (do_get true _ 0%nat id_a).
  do_go Hr (open_system (one id_a 5 0) w [(id_a, AtWrite 0)] [])
    (do_start true _ 0%nat id_a 0%nat 5 _ None).
  do_go Hr (open_system (NewAgent None) w [(id_a, AtWrite 0)] [Handling 0 timed_out])
    (do_operation true _ (OpCollect 6) _ [Call 0%nat timed_out] None).
  do_go Hr (open_system (NewAgent None) w [(id_a, AtStop 0 EOF)] [Handling 0 timed_out])
    (do_not_written true _ 0%nat id_a 0%nat EOF).
  do_go Hr (open_system (NewAgent None) w
      [(id_a, AtReset 0 (Some (StopErr ErrTransactionNotExists EOF)))] [Handling 0 timed_out])
    (do_stop true _ 0%nat id_a 0%nat EOF _ [] (Some ErrTransactionNotExists)).
  do_go Hr late (do_reset true _ 0%nat id_a 0%nat _).
  exact Hr.
Qed.

(** When a write fails, [Do] can return and put its handler back into the pool
    although the agent has handed the handler to another goroutine.  The call then
    panics with a nil callback; or, if another [Do] has taken the handler from the
    pool in the meantime, that one's callback gets the event of the wrong
    transaction, and it returns as if it had been answered, while its own
    transaction is still waiting. *)
Theorem failed_write_misdirects :
  (exists s, do_reachable true None s /\ do_step true s None) /\
  (exists s, do_reachable true None s /\
     dos s = [(id_a, not_sent); (id_b, Returned None)] /\ called (do_world s) = [(1%nat, timed_out)] /\
     is_Some (transactions (do_agent s) !! id_b)).
Proof.
  pose proof late_reachable as Hr. split.
  { exists late. split; [done|]. by apply (do_call_panic true late [] [] (Handling 0 timed_out)). }
  do_go Hr (open_system (NewAgent None) (one_handler (Some 1%nat) false [])
      [(id_a, not_sent); (id_b, AtStart 0)] [Handling 0 timed_out])
    (do_get true late 0%nat id_b).
  set (l := [(1%nat, timed_out)]). set (w := one_handler (Some 1%nat) true l).
  do_go Hr (open_system (NewAgent None) (one_handler (Some 1%nat) false l)
      [(id_a, not_sent); (id_b, AtStart 0)] [Finishing 0])
    (do_call true _ [] [] (Handling 0 timed_out) _ (Some (Finishing 0))).
  do_go Hr (open_system (NewAgent None) w [(id_a, not_sent); (id_b, AtStart 0)] [])
    (do_call true _ [] [] (Finishing 0) _ None).
  do_go Hr (open_system (one id_b 9 0) w [(id_a, not_sent); (id_b, AtWrite 0)] [])
    (do_start true _ 1%nat id_b 0%nat 9 _ None).
  do_go Hr (open_system (one id_b 9 0) w [(id_a, not_sent); (id_b, AtWait 0)] [])
    (do_written true _ 1%nat id_b 0%nat).
  do_go Hr (open_system (one id_b 9 0) w [(id_a, not_sent); (id_b, AtReset 0 None)] [])
    (do_waited true _ 1%nat id_b 0%nat).
  do_go Hr (open_system (one id_b 9 0) (one_handler None false l) [(id_a, not_sent); (id_b, Returned None)] [])
    (do_reset true _ 1%nat id_b 0%nat _).
  eexists. split; [exact Hr|]. split; [done|]. split; [done|]. eexists. apply lookup_singleton_eq.
Qed.

(** * An answered [Do] *)

Definition answer : Message := set_TID id_a New.
Definition answered : do_system :=
  open_system (NewAgent None) (one_handler None false [(0%nat, MessageEvent answer)]) [(id_a, Returned None)] [].

Lemma answered_reachable : do_reachable false None answered.
Proof.
  pose proof (do_reachable_initial false None) as Hr. set (e := MessageEvent answer : agent_event).
  set (w := one_handler (Some 0%nat) false []).
  do_go Hr (open_system (NewAgent None) w [(id_a, AtStart 0)] []) (do_get false _ 0%nat id_a).
  do_go Hr (open_system (one id_a 5 0) w [(id_a, AtWrite 0)] [])
    (do_start false _ 0%nat id_a 0%nat 5 _ None).
  do_go Hr (open_system (NewAgent None) w [(id_a, AtWrite 0)] [Handling 0 e])
    (do_operation false _ (OpProcess answer) _ [Call 0%nat e] None).
  do_go Hr (open_system (NewAgent None) w [(id_a, AtWait 0)] [Handling 0 e])
    (do_written false _ 0%nat id_a 0%nat).
  do_go Hr (open_system (NewAgent None) (one_handler (Some 0%nat) false [(0%nat, e)]) [(id_a, AtWait 0)] [Finishing 0])
    (do_call false _ [] [] (Handling 0 e) _ (Some (Finishing 0))).
  do_go Hr (open_system (NewAgent None) (one_handler (Some 0%nat) true [(0%nat, e)]) [(id_a, AtWait 0)] [])
    (do_call false _ [] [] (Finishing 0) _ None).
  do_go Hr (open_system (NewAgent None) (one_handler (Some 0%nat) true [(0%nat, e)]) [(id_a, AtReset 0 None)] [])
    (do_waited false _ 0%nat id_a 0%nat).
  do_go Hr answered (do_reset false _ 0%nat id_a 0%nat _).
  exact Hr.
Qed.

Lemma Do_calls_back_once_witness : calls_to 0 answered = 1%nat.
Proof. exact (proj1 (Do_calls_back_once None answered answered_reachable) 0%nat id_a None eq_refl). Defined.
