(* ===== verification/StunProps.v ===== *)
(** The properties of the stun package: decoding, building, checking. *)
From stdpp Require Import base list gmap sets strings.
From Stdlib Require Import ZArith Lia.
From S2P Require Import Prelude Wire GoFmt GoSlice StunTypes StunMessage StunPacket StunCodec.
From S2P Require Import StunBuild StunAttrs StunAddr Crypto StunIntegrity.
Open Scope Z_scope.

(** * Example values for the witnesses *)

Definition example_tid : bytes := bs "abcdefghijkl".
Definition example_packet : packet :=
  Packet BindingRequest example_tid [(AttrSoftware, bs "goice")].
Definition example_message : Message :=
  set_Raw (Buffer (encode_packet example_packet) (length (encode_packet example_packet)))
    zeroMessage.

Ltac solve_packet_ok :=
  split; [reflexivity|split; [repeat constructor; by vm_compute|by vm_compute]].

(** * Decoding *)

(** C1: [Message.Decode] on bytes whose first byte does not mark ChannelData is
    a decision procedure for the STUN wire format.  It returns nil exactly when
    the bytes start with a message in the format of RFC 5389 (any padding bytes,
    any trailing bytes), and then type, transaction id, length and attributes
    are those of the one packet on the wire and [Raw] is unchanged; otherwise it
    returns an error.  It does not panic and its loop ends. *)
Theorem Decode_correct (m : Message) :
  buffer_ok (Raw m) -> visible (Raw m) <> [] -> is_channel_data (visible (Raw m)) = false ->
  (exists p m', wire (visible (Raw m)) p /\ (forall q, wire (visible (Raw m)) q -> q = p) /\
     Decode m = (m', Ok tt) /\ decoded m m' p) \/
  (exists m' e, (forall p, ~ wire (visible (Raw m)) p) /\ Decode m = (m', Err e)).
Proof.
  intros Hb Hne Hch. destruct (Decode_decides m Hb Hne Hch) as [(p & m' & Hw & Hd & Hdec)|Hno].
  - left. exists p, m'. split; [done|]. split; [|done]. intros q Hq. by apply (wire_unique _ q p) in Hq.
  - by right.
Qed.

Lemma Decode_correct_witness :
  exists m', Decode example_message = (m', Ok tt) /\ abs m' = example_packet.
Proof.
  destruct (Decode_correct example_message) as [(p & m' & Hw & Hu & Hd & Hdec)|(m' & e & Hno & _)].
  - unfold buffer_ok, bcap, example_message. cbn [Raw set_Raw blen arr]. lia.
  - intros H; vm_compute in H; discriminate H.
  - vm_compute; reflexivity.
  - exists m'. split; [exact Hd|]. destruct Hdec as [_ -> _ _ _]. symmetry. apply Hu.
    replace (visible (Raw example_message)) with (encode_packet example_packet ++ [])
      by (vm_compute; reflexivity).
    apply encode_packet_wire; [solve_packet_ok|vm_compute; by split_and!].
  - exfalso. apply (Hno example_packet).
    replace (visible (Raw example_message)) with (encode_packet example_packet ++ [])
      by (vm_compute; reflexivity).
    apply encode_packet_wire; [solve_packet_ok|vm_compute; by split_and!].
Defined.

(** C29: the doc of [Message.Decode] says that it returns an error on bad input.
    It panics in exactly two cases: on an empty buffer, and on a buffer whose
    first byte has the ChannelData bit while its array is shorter than the
    ChannelData header. *)
Theorem Decode_panics (m : Message) :
  buffer_ok (Raw m) ->
  is_panic (Decode m).2 = true <->
  visible (Raw m) = [] \/
  (is_channel_data (visible (Raw m)) = true /\ (bcap (Raw m) < 4)%nat).
Proof.
  intros Hb. destruct (visible (Raw m)) as [|b0 r] eqn:Hv.
  { unfold Decode. rewrite Hv. cbn. tauto. }
  destruct (is_channel_data (b0 :: r)) eqn:Hch.
  - unfold Decode. rewrite Hv. cbn [is_channel_data] in Hch. rewrite Hch. unfold reslice.
    change (length (array m)) with (bcap (Raw m)).
    destruct (Nat.leb_spec 4 (bcap (Raw m))); cbn.
    + destruct (u16 _ =? _); cbn; (split; [done|intros [?|[_ ?]]; [done|lia]]).
    + split; [|done]. intros _. right. split; [done|lia].
  - destruct (Decode_decides m Hb) as [(p & m' & _ & -> & _)|(m' & e & _ & ->)];
      [by rewrite Hv|by rewrite Hv|..]; cbn; (split; [done|intros [H|[H _]]; done]).
Qed.

Lemma Decode_panics_witness : is_panic (Decode zeroMessage).2 = true.
Proof. apply (Decode_panics zeroMessage); [vm_compute; lia|by left]. Defined.

(** C28: the message type field.  [Value] and [ReadValue] are inverse bijections
    between the types with a 12-bit method and a 2-bit class and the 14-bit
    values, so the two leading bits of a message are always zero. *)
Theorem MessageType_bijection :
  (forall t, type_ok t -> 0 <= Value t < 2 ^ 14 /\ ReadValue (Value t) = t) /\
  (forall v, 0 <= v < 2 ^ 14 -> type_ok (ReadValue v) /\ Value (ReadValue v) = v).
Proof.
  split.
  - intros t Ht. split; [by apply Value_type_ok|by apply ReadValue_Value].
  - intros v Hv. destruct (Value_ReadValue v Hv). done.
Qed.

(** * Building *)

Section Building.
Context `{GoRuntime}.

(** C2: [Message.Build] refines its abstract specification.  Whatever the
    message held before (any fields, any capacity, any allocation strategy of
    the runtime), [Build] with setters that implement the abstract steps [fs]
    gives a well formed message whose fields are those of the run of [fs], or
    the error of the first step that fails, or its panic. *)
Theorem Build_refines setters fs m :
  Forall2 Implements setters fs -> reusable m -> fits fs (Packet (MType m) (TID m) []) ->
  match run_setters fs (Packet (MType m) (TID m) []) with
  | Ok p => exists m', Build setters m = (m', Ok tt) /\ well_formed m' /\ abs m' = p
  | Err e => exists m', Build setters m = (m', Err e) /\ well_formed m'
  | Panic q => exists m', Build setters m = (m', Panic q)
  end.
Proof. intros Hall Hru Hfit. by apply Build_spec. Qed.

(** C27: [Message.Add] on a well formed message appends exactly the type, the
    length, the value and zero bytes up to the next multiple of four, and
    rewrites the length field; type, id and the other attributes, which may
    have moved to another array, keep their values.  The value may be a slice
    of the message itself. *)
Theorem Add_appends t v m :
  well_formed m -> slice_ok (blen (Raw m)) v ->
  packet_ok (with_attr (t, contents (array m) v) (abs m)) ->
  exists m', Add t v m = (m', Ok tt) /\ well_formed m' /\
    p_attrs (abs m') = p_attrs (abs m) ++ [(t, contents (array m) v)] /\
    MType m' = MType m /\ TID m' = TID m /\
    drop 20 (visible (Raw m')) = drop 20 (visible (Raw m))
      ++ put16 t ++ put16 (zlen (contents (array m) v)) ++ contents (array m) v
      ++ pad_of (contents (array m) v).
Proof.
  intros Hwf Hv Hok. destruct (Add_wf t v m Hwf Hv Hok) as (m' & Heq & Hwf' & Habs).
  exists m'. split; [done|]. split; [done|].
  assert (forall x, well_formed x -> drop 20 (visible (Raw x)) = encode_attrs (p_attrs (abs x))) as Hd.
  { intros x [_ (Htid & _) Hraw _]. rewrite Hraw. unfold encode_packet.
    by rewrite drop_app_length' by (by rewrite encode_header_length). }
  rewrite !Hd by done. rewrite Habs. cbn [p_attrs with_attr].
  rewrite encode_attrs_app, encode_attrs_singleton. split; [done|].
  change (MType m') with (p_type (abs m')). change (TID m') with (p_tid (abs m')).
  by rewrite Habs.
Qed.

(** C23: what any sender packs, any receiver unpacks.  For every attribute that
    satisfies the [Codec] interface, with a value it can carry: a message built
    from a type, a transaction id of 12 bytes and attributes that fit a packet,
    among which no earlier one has the type of this one, sent as the bytes of
    [Raw] and given to [Write] of any message that can be reused, decodes without
    error, and [GetFrom] of the attribute yields the value that was added.  The
    target must be one that the attribute can fill ([codec_blank]): any target,
    an address with any IP slice whose length is within its capacity, but for
    EVEN-PORT one with a clear flag, since its [GetFrom] sets the flag and never
    clears it ([EvenPort_keeps_flag]). *)
Theorem attribute_transfer {A T} `{!Codec A T} (t : MessageType) (tid : bytes) (a : A) (y : T)
    (before after : list (M unit)) (lb la : list (Z * bytes)) (m m2 : Message) :
  type_ok t -> length tid = TransactionIDSize -> codec_dom a -> codec_blank y ->
  Forall2 adds before lb -> Forall2 adds after la -> lookup_attr codec_type lb = None ->
  packet_ok (Packet t tid (lb ++ (codec_type, codec_value tid a) :: la)) ->
  reusable m -> reusable m2 ->
  exists m1, Build ([MessageType_AddTo t; TransactionID_AddTo tid] ++ before
                    ++ codec_add a :: after) m = (m1, Ok tt) /\
  exists n m3, Write (visible (Raw m1)) m2 = (m3, Ok (n, None)) /\
  exists y', codec_get m3 y = (y', Ok tt) /\ codec_shows m3 y' a.
Proof. intros. by apply codec_transfer with lb la. Qed.

(** * Integrity *)

(** C26: [MessageIntegrity.Check] on a received message whose first
    MESSAGE-INTEGRITY attribute has the 20 bytes of a digest.  It compares the
    attribute with the keyed digest of the bytes before it, under the length
    that ends at the attribute; whatever follows the attribute does not matter.
    It answers nil or [IntegrityErr] with both digests accordingly, does not
    panic, and puts the header back as it was. *)
Theorem MessageIntegrity_Check_correct key m t tid l1 v l2 region rest :
  received m (Packet t tid (l1 ++ (AttrMessageIntegrity, v) :: l2)) region rest ->
  lookup_attr AttrMessageIntegrity l1 = None -> length v = messageIntegritySize ->
  let expected := newHMAC key (integrity_text t tid (take (attrs_size l1) region)) in
  exists m', received m' (Packet t tid (l1 ++ (AttrMessageIntegrity, v) :: l2)) region rest /\
    MessageIntegrity_Check key m
    = (m', if bool_decide (v = expected) then Ok tt else Err (IntegrityErr expected v)).
Proof. intros. by apply MessageIntegrity_Check_spec. Qed.

(** The sender of a protected message. *)
Lemma protected_build key t tid ss l m :
  length tid = TransactionIDSize -> Forall2 adds ss l -> lookup_attr AttrFingerprint l = None ->
  let p := with_fingerprint (with_integrity key (Packet t tid l)) in
  packet_ok p -> reusable m ->
  exists m1, Build ([MessageType_AddTo t; TransactionID_AddTo tid] ++ ss
                    ++ [MessageIntegrity_AddTo key; Fingerprint_AddTo]) m = (m1, Ok tt) /\
    well_formed m1 /\ abs m1 = p.
Proof.
  intros Htid Hss Hfp p' Hok Hm.
  set (p := Packet t tid l) in *. set (q := with_integrity key p) in *.
  set (mi := fun p => if bool_decide (is_Some (lookup_attr AttrFingerprint (p_attrs p)))
                      then Err ErrFingerprintBeforeIntegrity
                      else Ok (with_attr (AttrMessageIntegrity, integrity_value key p) p)).
  set (fp := fun p => @Ok error _ (with_attr (AttrFingerprint, fingerprint_value p) p)).
  assert (packet_ok q) as Hokq.
  { by apply (packet_ok_prefix _ [(AttrFingerprint, fingerprint_value q)]). }
  assert (packet_ok p) as Hokp.
  { by apply (packet_ok_prefix _ [(AttrMessageIntegrity, integrity_value key p)]). }
  assert (packet_ok (Packet t tid [])) as Hok0 by (by apply (packet_ok_prefix _ l)).
  assert (mi p = Ok q) as Hmip.
  { unfold mi. rewrite bool_decide_false; [done|]. cbn [p_attrs p]. rewrite Hfp. by intros [? [=]]. }
  destruct (adds_run l (Packet t tid []) [mi; fp]) as [Hfits Hrun]; [done|].
  change (with_attrs l (Packet t tid [])) with p in Hfits, Hrun.
  assert (run_setters [mi; fp] p = Ok p') as Hrun2 by (cbn [run_setters]; by rewrite Hmip).
  rewrite Hrun2 in Hrun.
  pose proof (Build_spec ([MessageType_AddTo t; TransactionID_AddTo tid] ++ ss
     ++ [MessageIntegrity_AddTo key; Fingerprint_AddTo])
     ([(fun x => Ok (with_type t x)); (fun x => Ok (with_tid tid x))] ++ map add_step l ++ [mi; fp])
     m) as HB.
  cbn [app run_setters fits mbind result_mbind result_bind] in HB.
  unfold with_type, with_tid in HB. cbn [p_tid p_attrs p_type] in HB. rewrite Hrun in HB.
  apply HB; [|done|].
  - constructor; [apply MessageType_implements|]. constructor; [by apply TransactionID_implements|].
    apply Forall2_app; [by apply Forall2_fmap_r|].
    constructor; [apply MessageIntegrity_implements|]. constructor; [apply Fingerprint_implements|done].
  - destruct Hm. split; [done|]. split; [done|]. apply Hfits. cbn [fits]. by rewrite Hmip.
Qed.

(** C3: a protected message that arrives unchanged is accepted.  A message built
    from a type, an id, plain attributes, MESSAGE-INTEGRITY under [key] and
    FINGERPRINT passes, after transport into any message, the check of both
    attributes in any order of the two checks. *)
Theorem protected_message_accepted key t tid ss l m m2 :
  type_ok t -> length tid = TransactionIDSize -> Forall2 adds ss l ->
  lookup_attr AttrMessageIntegrity l = None -> lookup_attr AttrFingerprint l = None ->
  packet_ok (with_fingerprint (with_integrity key (Packet t tid l))) ->
  reusable m -> reusable m2 ->
  exists m1, Build ([MessageType_AddTo t; TransactionID_AddTo tid] ++ ss
                    ++ [MessageIntegrity_AddTo key; Fingerprint_AddTo]) m = (m1, Ok tt) /\
  exists n m3, Write (visible (Raw m1)) m2 = (m3, Ok (n, None)) /\
  exists m4 m5, Check [MessageIntegrity_Check key; Fingerprint_Check] m3 = (m4, Ok tt) /\
    Check [Fingerprint_Check; MessageIntegrity_Check key] m3 = (m5, Ok tt) /\ abs m4 = abs m3.
Proof.
  intros Hty Htid Hss Hmi Hfp Hok Hm Hm2.
  set (p := Packet t tid l) in *. set (q := with_integrity key p) in *.
  destruct (protected_build key t tid ss l m) as (m1 & HB & Hwf & Habs); [done..|].
  exists m1. split; [done|].
  destruct (Write_spec (visible (Raw m1)) (abs m1) m2) as (m3 & HW & Habs3 & Hwf3);
    [by rewrite Habs|by rewrite Habs|by destruct Hwf|done|].
  exists (length (visible (Raw m1))), m3. split; [done|]. rewrite Habs in Habs3.
  assert (lookup_attr AttrFingerprint (p_attrs q) = None) as Hfpq.
  { unfold q. cbn [p_attrs with_integrity with_attr p]. by rewrite lookup_attr_app, Hfp. }
  destruct (integrity_accepts key m3 p [(AttrFingerprint, fingerprint_value q)])
    as (m4 & Hc & Hwf4 & Habs4); [done|done|done|].
  exists m4, m4. cbn [Check]. unfold st_bind. rewrite Hc.
  rewrite (fingerprint_accepts m4 q), (fingerprint_accepts m3 q) by done.
  rewrite Hc. split; [done|]. split; [done|]. by rewrite Habs4, Habs3.
Qed.

End Building.

(** * Witnesses *)

Section Witnesses.
#[local] Existing Instance doubling_runtime.

Lemma Build_refines_witness :
  exists m', Build [MessageType_AddTo BindingRequest; Fingerprint_AddTo] New = (m', Ok tt) /\
    well_formed m'.
Proof.
  pose proof (Build_refines [MessageType_AddTo BindingRequest; Fingerprint_AddTo]
    [(fun p => Ok (with_type BindingRequest p));
     (fun p => Ok (with_attr (AttrFingerprint, fingerprint_value p) p))] New) as H.
  cbn [run_setters mbind result_mbind result_bind] in H.
  destruct H as (m' & H1 & H2 & _).
  - repeat constructor; [apply MessageType_implements|apply Fingerprint_implements].
  - split; [vm_compute; lia|reflexivity].
  - split; [solve_packet_ok|split; [solve_packet_ok|done]].
  - exists m'. by split.
Defined.

(** A well formed message to start from. *)
Definition started : Message := (Build [TransactionID_AddTo example_tid] zeroMessage).1.

Lemma started_well_formed : well_formed started.
Proof.
  destruct (Build_spec [TransactionID_AddTo example_tid]
              [(fun p => Ok (with_tid example_tid p))] zeroMessage) as (m' & H1 & H2 & _).
  - repeat constructor. by apply TransactionID_implements.
  - apply zeroMessage_reusable.
  - split; [solve_packet_ok|done].
  - unfold started. by rewrite H1.
Qed.

Lemma Add_appends_witness :
  exists m', Add AttrSoftware (fresh (bs "goice")) started = (m', Ok tt) /\ well_formed m'.
Proof.
  destruct (Add_appends AttrSoftware (fresh (bs "goice")) started) as (m' & H1 & H2 & _).
  - apply started_well_formed.
  - vm_compute. lia.
  - solve_packet_ok.
  - exists m'. by split.
Defined.

Lemma attribute_transfer_witness :
  exists m1, Build [MessageType_AddTo BindingSuccess; TransactionID_AddTo example_tid;
                    TextAttribute_AddToAs (fresh (bs "goice")) AttrSoftware softwareRawMaxB;
                    XORMappedAddress_AddToAs true (address_of ([zb 192; zb 0; zb 2; zb 1], 32853))
                      AttrXORMappedAddress] New = (m1, Ok tt) /\
  exists n m3, Write (visible (Raw m1)) example_message = (m3, Ok (n, None)) /\
  exists y', XORMappedAddress_GetFromAs true AttrXORMappedAddress m3 (mkAddress (Buffer [] 0) 0)
             = (y', Ok tt) /\ visible (IP y') = [zb 192; zb 0; zb 2; zb 1] /\ Port y' = 32853.
Proof.
  refine (attribute_transfer (Codec0 := xor_address_codec true AttrXORMappedAddress)
    BindingSuccess example_tid ([zb 192; zb 0; zb 2; zb 1], 32853) (mkAddress (Buffer [] 0) 0)
    [TextAttribute_AddToAs (fresh (bs "goice")) AttrSoftware softwareRawMaxB] []
    [(AttrSoftware, bs "goice")] [] New example_message _ _ _ _ _ _ _ _ _ _).
  - vm_compute. by split_and!.
  - reflexivity.
  - split; [by left|cbn; lia].
  - vm_compute. lia.
  - constructor; [|done].
    exact (codec_add_ok (Codec := text_codec AttrSoftware softwareRawMaxB) (bs "goice")
             ltac:(vm_compute; intros [=])).
  - constructor.
  - reflexivity.
  - solve_packet_ok.
  - split; [vm_compute; lia|reflexivity].
  - split; [vm_compute; lia|reflexivity].
Defined.

(** The key and the message of a protected exchange. *)
Definition example_key : bytes := bs "VOkJxbRl1RmTxUk/WvJxBt".

Lemma protected_message_accepted_witness :
  exists m1, Build [MessageType_AddTo BindingRequest; TransactionID_AddTo example_tid;
                    MessageIntegrity_AddTo example_key; Fingerprint_AddTo] New = (m1, Ok tt) /\
  exists n m3, Write (visible (Raw m1)) New = (m3, Ok (n, None)) /\
  exists m4 m5, Check [MessageIntegrity_Check example_key; Fingerprint_Check] m3 = (m4, Ok tt) /\
    Check [Fingerprint_Check; MessageIntegrity_Check example_key] m3 = (m5, Ok tt) /\ abs m4 = abs m3.
Proof.
  refine (protected_message_accepted example_key BindingRequest example_tid [] [] New New
            _ _ _ _ _ _ _ _).
  - vm_compute. by split_and!.
  - reflexivity.
  - constructor.
  - reflexivity.
  - reflexivity.
  - solve_packet_ok.
  - split; [vm_compute; lia|reflexivity].
  - split; [vm_compute; lia|reflexivity].
Defined.

(** The sender's key is accepted, another one is refused with both digests. *)
Lemma MessageIntegrity_Check_correct_witness :
  exists m, Build [TransactionID_AddTo example_tid; MessageIntegrity_AddTo example_key]
              zeroMessage = (m, Ok tt) /\
    (MessageIntegrity_Check example_key m).2 = Ok tt /\
    exists expected actual, (MessageIntegrity_Check (bs "another key") m).2 = Err (IntegrityErr expected actual) /\
      expected <> actual.
Proof.
  set (p0 := Packet (NewType 0 0) example_tid []).
  destruct (Build_spec [TransactionID_AddTo example_tid; MessageIntegrity_AddTo example_key]
      [(fun p => Ok (with_tid example_tid p));
       (fun p => if bool_decide (is_Some (lookup_attr AttrFingerprint (p_attrs p)))
                 then Err ErrFingerprintBeforeIntegrity
                 else Ok (with_attr (AttrMessageIntegrity, integrity_value example_key p) p))]
      zeroMessage) as (m & H1 & Hwf & Habs).
  - constructor; [by apply TransactionID_implements|].
    constructor; [apply MessageIntegrity_implements|constructor].
  - apply zeroMessage_reusable.
  - split; [solve_packet_ok|]. split; [solve_packet_ok|done].
  - pose proof (well_formed_received m Hwf) as Hrc. rewrite Habs in Hrc.
    destruct (MessageIntegrity_Check_correct example_key m _ _ [] _ [] _ _ Hrc eq_refl
                (hmac_sha1_length _ _)) as (m1 & _ & Hc1).
    destruct (MessageIntegrity_Check_correct (bs "another key") m _ _ [] _ [] _ _ Hrc eq_refl
                (hmac_sha1_length _ _)) as (m2 & _ & Hc2).
    exists m. split; [exact H1|]. rewrite Hc1, Hc2. split; [vm_compute; reflexivity|].
    eexists _, _. split; [vm_compute; reflexivity|discriminate].
Defined.

End Witnesses.
