(* ===== verification/StunFindings.v ===== *)
(** Further properties of the stun package, among them the places where the
    code does something else than its documentation says: [Encode],
    [CloneTo], [Equal], ERROR-CODE with a long reason. *)
From stdpp Require Import base list gmap sets strings.
From Stdlib Require Import ZArith Lia.
From S2P Require Import Prelude Wire GoFmt GoSlice StunTypes StunMessage StunPacket StunCodec.
From S2P Require Import StunBuild StunAttrs StunAddr Crypto StunIntegrity StunProps.
Open Scope Z_scope.

(** C30: FINGERPRINT detects any single changed byte.  Of two messages with the
    same FINGERPRINT value whose bytes before the attribute differ in one byte,
    wherever it is, at most one passes [FingerprintAttr.Check]. *)
Theorem fingerprint_detects_byte m1 m2 t1 tid1 l1 region1 t2 tid2 l2 region2 v pre a b post :
  received m1 (Packet t1 tid1 (l1 ++ [(AttrFingerprint, v)])) region1 [] ->
  received m2 (Packet t2 tid2 (l2 ++ [(AttrFingerprint, v)])) region2 [] ->
  lookup_attr AttrFingerprint l1 = None -> lookup_attr AttrFingerprint l2 = None ->
  length v = fingerprintSize ->
  encode_header t1 (zlen region1) tid1 ++ take (attrs_size l1) region1 = pre ++ a :: post ->
  encode_header t2 (zlen region2) tid2 ++ take (attrs_size l2) region2 = pre ++ b :: post ->
  a <> b -> Fingerprint_Check m1 = (m1, Ok tt) ->
  exists e, Fingerprint_Check m2 = (m2, Err e).
Proof.
  intros H1 H2 Hl1 Hl2 Hv He1 He2 Hab. unfold zlen in *.
  rewrite (Fingerprint_Check_spec _ _ _ _ _ _ H1 Hl1 Hv), (Fingerprint_Check_spec _ _ _ _ _ _ H2 Hl2 Hv).
  rewrite He1, He2. destruct (Z.eqb_spec (FingerprintValue (pre ++ a :: post)) (get32 v)) as [Ha|]; [|done].
  intros _. destruct (Z.eqb_spec (FingerprintValue (pre ++ b :: post)) (get32 v)) as [Hb|]; [|by eexists].
  exfalso. apply Hab. unfold FingerprintValue in *. rewrite <- Hb in Ha. apply lxor_cancel_r in Ha.
  by apply crc32_one_byte in Ha.
Qed.

Section Findings.
Context `{GoRuntime}.

(** [Message.CloneTo] into a message whose [Raw] is empty gives a message
    with the same fields and the same bytes, which no longer depends on the
    original. *)
Theorem CloneTo_empty m b :
  well_formed m -> type_ok (MType m) -> blen (Raw b) = 0%nat ->
  exists b', CloneTo m b = (b', Ok tt) /\ well_formed b' /\ abs b' = abs m /\
    visible (Raw b') = visible (Raw m).
Proof.
  intros Hwf Hty Hb. unfold CloneTo, st_bind. rewrite Hb.
  destruct (append_raw_spec 0 (visible (Raw m)) b) as (b1 & -> & Hok & Hvis); [lia|].
  change (visible (Raw b1) = visible (Raw m)) in Hvis.
  assert (visible (Raw b1) = encode_packet (abs m)) as Hvis' by (rewrite Hvis; apply Hwf).
  destruct (Decode_wire b1 (abs m)) as (b2 & Hd & Hdec); [done| |].
  { rewrite Hvis', <- (app_nil_r (encode_packet _)). apply encode_packet_wire; [apply Hwf|done]. }
  exists b2. split; [done|].
  split; [apply (decoded_well_formed b1 b2 (abs m)); try done; apply Hwf|].
  destruct Hdec as [Hraw Habs _ _ _]. split; [done|]. by rewrite Hraw.
Qed.

(** [CloneTo] into a message that already holds one is a no-op on what it
    shows: the bytes are appended, not assigned, so [Decode] sees the old
    message in front and nil is returned. *)
Theorem CloneTo_appends m b :
  well_formed m -> well_formed b -> type_ok (MType b) ->
  exists b', CloneTo m b = (b', Ok tt) /\ abs b' = abs b /\
    visible (Raw b') = visible (Raw b) ++ visible (Raw m).
Proof.
  intros Hm Hb Hty. unfold CloneTo, st_bind.
  assert (buffer_ok (Raw b)) as Hbo by apply Hb.
  destruct (append_raw_spec (blen (Raw b)) (visible (Raw m)) b) as (b1 & -> & Hok & Hvis); [done|].
  change (take (blen (Raw b)) (array b)) with (visible (Raw b)) in Hvis.
  destruct (Decode_wire b1 (abs b)) as (b2 & Hd & Hdec); [done| |].
  { rewrite Hvis, (wf_raw _ Hb). apply encode_packet_wire; [apply Hb|done]. }
  exists b2. split; [done|]. destruct Hdec as [Hraw Habs _ _ _]. split; [done|]. by rewrite Hraw.
Qed.

(** ERROR-CODE.  [ErrorCodeAttribute.AddTo] adds the code and the reason
    when the reason has at most 759 bytes, refuses it with [AttrOverflowErr]
    when it has more than 763, and panics in between: the four bytes in front
    of the reason are not counted in the capacity of the value. *)
Theorem ErrorCode_AddTo_cases code reason m :
  well_formed m -> packet_ok (with_attr (AttrErrorCode, error_code_value code reason) (abs m)) ->
  let r := ErrorCodeAttribute_AddTo (mkErrorCode code (fresh reason)) m in
  if zlen reason <=? 759 then
    r.2 = Ok tt /\ well_formed r.1 /\
    abs r.1 = with_attr (AttrErrorCode, error_code_value code reason) (abs m)
  else if zlen reason <=? 763 then r.2 = Panic SliceOutOfRange
  else r.2 = Err (AttrOverflowErr AttrErrorCode 767 (zlen reason + 4)) /\ abs r.1 = abs m.
Proof.
  intros Hwf Hok r. pose proof (ErrorCodeAttribute_implements code reason m Hwf) as Hi. cbv beta in Hi.
  fold r in Hi. destruct (Z.leb_spec (zlen reason) 759).
  - rewrite (proj2 (Z.ltb_ge 763 _)), (proj2 (Z.ltb_ge 759 _)) in Hi by lia.
    destruct (Hi Hok) as (m' & Hr & ?). by rewrite Hr.
  - destruct (Z.leb_spec (zlen reason) 763).
    + rewrite (proj2 (Z.ltb_ge 763 _)), (proj2 (Z.ltb_lt 759 _)) in Hi by lia.
      destruct Hi as (m' & Hr). by rewrite Hr.
    + rewrite (proj2 (Z.ltb_lt 763 _)) in Hi by lia. destruct Hi as (m' & Hr & _ & Ha). by rewrite Hr.
Qed.

End Findings.

Section Concrete.
#[local] Existing Instance doubling_runtime.

Definition one_attribute : Message :=
  (Build [MessageType_AddTo BindingRequest; TransactionID_AddTo example_tid;
          Software_AddTo (fresh (bs "goice"))] New).1.

(** [Message.Encode] of a message that has attributes does not encode it:
    the attributes are added once more, behind the stale length. *)
Theorem Encode_duplicates :
  (Encode one_attribute).2 = Ok tt /\
  map (fun a => (Type_ a, value_of one_attribute a)) (attrs one_attribute)
  = [(AttrSoftware, bs "goice")] /\
  map (fun a => (Type_ a, value_of (Encode one_attribute).1 a)) (attrs (Encode one_attribute).1)
  = [(AttrSoftware, bs "goice"); (AttrSoftware, bs "goice")] /\
  Length (Encode one_attribute).1 = 2 * Length one_attribute.
Proof. vm_compute. by split_and!. Qed.

Definition with_values (vs : list bytes) : Message :=
  (Build (TransactionID_AddTo example_tid :: map (fun v => Software_AddTo (fresh v)) vs) New).1.

(** [Message.Equal] is neither reflexive nor symmetric when an attribute
    type occurs twice: every attribute of the first message is compared with the
    first one of its type in the second. *)
Theorem Equal_not_equivalence :
  let ab := with_values [bs "a"; bs "b"] in
  let aa := with_values [bs "a"; bs "a"] in
  Equal ab ab = false /\ Equal aa ab = true /\ Equal ab aa = false.
Proof. vm_compute. by split_and!. Qed.

End Concrete.

Section Witnesses.
#[local] Existing Instance doubling_runtime.

Lemma CloneTo_empty_witness :
  exists b', CloneTo started zeroMessage = (b', Ok tt) /\ abs b' = abs started.
Proof.
  destruct (CloneTo_empty started zeroMessage) as (b' & H1 & _ & H2 & _).
  - apply started_well_formed.
  - vm_compute. by split_and!.
  - reflexivity.
  - exists b'. exact (conj H1 H2).
Defined.

Lemma CloneTo_appends_witness :
  exists b', CloneTo started started = (b', Ok tt) /\
    visible (Raw b') = visible (Raw started) ++ visible (Raw started).
Proof.
  destruct (CloneTo_appends started started) as (b' & H1 & _ & H2).
  - apply started_well_formed.
  - apply started_well_formed.
  - vm_compute. by split_and!.
  - exists b'. exact (conj H1 H2).
Defined.

Lemma ErrorCode_AddTo_cases_witness :
  (ErrorCodeAttribute_AddTo (mkErrorCode 400 (fresh (replicate 760 Byte.x61))) started).2
  = Panic SliceOutOfRange.
Proof.
  exact (ErrorCode_AddTo_cases 400 (replicate 760 Byte.x61) started started_well_formed
           ltac:(solve_packet_ok)).
Defined.

(** A message as it is after the bytes of [p] arrived. *)
Definition arrived (p : packet) : Message :=
  (Decode (set_Raw (Buffer (encode_packet p) (length (encode_packet p))) zeroMessage)).1.

Lemma arrived_received p :
  type_ok (p_type p) -> packet_ok p -> received (arrived p) p (encode_attrs (p_attrs p)) [].
Proof.
  intros Hty Hok. unfold arrived.
  set (m0 := set_Raw (Buffer (encode_packet p) (length (encode_packet p))) zeroMessage).
  assert (buffer_ok (Raw m0)) as Hb by (apply Nat.le_refl).
  assert (visible (Raw m0) = encode_packet p) as Hvis by apply firstn_all.
  destruct (Decode_wire m0 p Hb) as (m' & -> & Hdec).
  { rewrite Hvis, <- (app_nil_r (encode_packet p)). by apply encode_packet_wire. }
  pose proof (decoded_well_formed m0 m' p Hb Hok Hty Hvis Hdec) as Hwf.
  destruct Hdec as [_ Habs _ _ _]. rewrite <- Habs. by apply well_formed_received.
Qed.

Definition fp_packet (tid : bytes) : packet :=
  Packet BindingRequest tid
    [(AttrFingerprint, fingerprint_value (Packet BindingRequest (bs "abcdefghijkl") []))].

Lemma fingerprint_detects_byte_witness :
  exists e, Fingerprint_Check (arrived (fp_packet (bs "abcdefghijkm")))
            = (arrived (fp_packet (bs "abcdefghijkm")), Err e).
Proof.
  pose proof (arrived_received (fp_packet (bs "abcdefghijkl")) ltac:(vm_compute; by split_and!)
                ltac:(solve_packet_ok)) as H1.
  pose proof (arrived_received (fp_packet (bs "abcdefghijkm")) ltac:(vm_compute; by split_and!)
                ltac:(solve_packet_ok)) as H2.
  refine (fingerprint_detects_byte _ _ _ _ [] _ _ _ [] _ _
    (encode_header BindingRequest 8 (bs "abcdefghijk")) (zb 108) (zb 109) [] H1 H2
    eq_refl eq_refl _ _ _ _ _).
  - vm_compute. exact eq_refl.
  - vm_compute. exact eq_refl.
  - vm_compute. exact eq_refl.
  - intros Hab. vm_compute in Hab. discriminate Hab.
  - vm_compute. exact eq_refl.
Defined.

End Witnesses.
