(* ===== verification/AgentProps.v ===== *)
(** The properties of the transaction agent and of the client: every handler
    that was registered is called exactly once, whatever the interleaving. *)
From stdpp Require Import base list gmap sets relations strings.
From Stdlib Require Import ZArith Lia.
From S2P Require Import Prelude GoSlice StunTypes StunMessage StunAgent StunClient.
Open Scope Z_scope.

Section AgentProps.
Context {H : Type} `{EqDecision H} {Msg : Type} (TransactionID_of : Msg -> bytes).
Abbreviation system := (@system H Msg).
Abbreviation step := (@StunAgent.step H Msg TransactionID_of).
Abbreviation reachable := (@StunAgent.reachable H Msg TransactionID_of).

(** No operation is in progress. *)
Definition quiescent (s : system) : Prop := closing s = None /\ concat (threads s) = [].

(** C24: [Agent.Start], [Stop], [StopWithError], [Collect], [Process] and [Close]
    call each registered handler at most once, in any interleaving of any
    operations and of the handler calls they make.  When no operation is in
    progress, the handlers not yet called are those in the table, and once
    [Close] has returned there is none: every handler was called exactly as
    often as [Start] accepted it. *)
Theorem handlers_called_once handler h s :
  reachable handler s ->
  (calls_of h (delivered s) <= starts h s)%nat /\
  (quiescent s ->
     starts h s = (calls_of h (delivered s) + registered h (transactions (agent s)))%nat) /\
  (quiescent s -> closed (agent s) = true -> calls_of h (delivered s) = starts h s).
Proof.
  intros Hr. pose proof (conservation TransactionID_of handler h s Hr) as Hc.
  assert (quiescent s ->
    starts h s = (calls_of h (delivered s) + registered h (transactions (agent s)))%nat) as Hq.
  { intros [Hcl Hth]. rewrite Hc. unfold pending, waiting. rewrite Hcl, Hth. cbn. lia. }
  split; [lia|]. split; [done|]. intros Hqs Hcld. rewrite (Hq Hqs).
  rewrite (closed_empty TransactionID_of handler s Hr Hcld). unfold registered.
  cbn [transactions closed_agent]. rewrite map_to_list_empty. cbn. lia.
Qed.

(** [Agent.Collect] removes exactly the transactions whose deadline is
    before the given instant and calls each of their handlers, and no other,
    with [ErrTransactionTimeOut]; a deadline equal to it is not over. *)
Theorem Collect_exact gcTime (a : @Agent H) :
  closed a = false ->
  exists a' (calls : list (@call H Msg)), Collect gcTime a = (a', calls, None) /\
    (forall id, transactions a' !! id
       = match transactions a !! id with
         | Some t => if expired gcTime t then None else Some t
         | None => None
         end) /\
    (forall h e, Call h e ∈ calls <->
       e = ErrorEvent ErrTransactionTimeOut /\
       exists id t, transactions a !! id = Some t /\ tx_h t = h /\ tx_deadline t < gcTime).
Proof.
  intros Hc. destruct (Collect (Msg := Msg) gcTime a) as [[a' calls] r] eqn:Heq.
  destruct (Collect_table gcTime a a' calls r Heq Hc) as (-> & Ht & Hcalls).
  exists a', calls. split; [done|]. split; [|done]. intros id. rewrite Ht, map_lookup_filter.
  destruct (transactions a !! id) as [t|]; [|done]. cbn.
  destruct (expired gcTime t); [by rewrite option_guard_False by (intros Hn; by apply Hn)|].
  by rewrite option_guard_True by (by intros []).
Qed.

(** [Agent.Process] hands a message to the handler of its transaction, and
    only to it, and forgets the transaction; a message of no known transaction
    goes to the zero handler if there is one; a closed agent refuses it. *)
Theorem Process_routes (m : Msg) (a : @Agent H) :
  Process TransactionID_of m a =
  if closed a then (a, [], Some ErrAgentClosed)
  else (mkAgent (delete (TransactionID_of m) (transactions a)) false (zeroHandler a),
        match transactions a !! TransactionID_of m, zeroHandler a with
        | Some t, _ => [Call (tx_h t) (MessageEvent m)]
        | None, Some h => [ZeroCall h (MessageEvent m)]
        | None, None => []
        end, None).
Proof. unfold Process. destruct (closed a); [done|]. by destruct (transactions a !! _). Qed.
End AgentProps.

Section ClientProps.
Context {A : Type} `{!ClientAgent A}.

(** [Client.Start] with a handler either sends the packet exactly once with
    the transaction registered and no handler called, or fails and leaves the
    agent as it was; it fails silently towards the handler unless the write
    failed, and then the handler has seen [ErrTransactionStopped] once. *)
Theorem Client_Start_outcomes (m : Message) d h werr (c : @Client A) :
  exists c' calls r, Client_Start m d (Some h) werr c = (c', calls, r) /\
    match r with
    | None => c_closed c = false /\ werr = None /\ calls = [] /\
        sent c' = sent c ++ [visible (Raw m)] /\ ag_start (TID m) d h (a c) = (a c', None)
    | Some e => a c' = a c /\
        (calls = [] \/ calls = [Call h (ErrorEvent ErrTransactionStopped)] /\
           exists err, werr = Some err /\ e = ConnError err)
    end.
Proof.
  destruct (Client_Start m d (Some h) werr c) as [[c' calls] r] eqn:Heq.
  exists c', calls, r. split; [done|]. destruct r as [e|].
  - by eapply Client_Start_failed.
  - by apply Client_Start_accepted in Heq.
Qed.

(** [Client.Close] closes the agent and the connection once.  A second
    [Close] and every later [Start] return [ErrClientClosed] and change nothing. *)
Theorem Client_closed_for_good cerr cerr' (c : @Client A) :
  let '(c1, _, _) := Client_Close cerr c in
  c_closed c1 = true /\ Client_Close cerr' c1 = (c1, [], Some ErrClientClosed) /\
  forall m d h werr, Client_Start m d h werr c1 = (c1, [], Some ErrClientClosed).
Proof. apply Client_Close_once. Qed.
End ClientProps.

(** * Witnesses *)

(** Two transactions, one of them answered; the message is its transaction id. *)
Definition example_steps : @system nat bytes :=
  mkSystem closed_agent None [[]]
    [Call 1%nat (ErrorEvent ErrAgentClosed); Call 0%nat (MessageEvent (bs "a"))] [1%nat; 0%nat].

Lemma example_reachable : StunAgent.reachable id None example_steps.
Proof.
  eapply reachable_step; [eapply reachable_step; [eapply reachable_step; [eapply reachable_step;
    [eapply reachable_step; [eapply reachable_step; [eapply reachable_step;
     [apply reachable_initial|]|]|]|]|]|]|].
  - apply (step_start id (NewAgent None) [] [] [] (bs "a") 100 0%nat); reflexivity.
  - eapply (step_start id _ _ _ _ (bs "b") 100 1%nat); reflexivity.
  - eapply (step_operation id _ _ _ _ (OpProcess (bs "a"))); reflexivity.
  - apply (step_call id _ _ [] []).
  - apply step_close; reflexivity.
  - apply step_close_call.
  - apply step_close_done.
Qed.

Lemma handlers_called_once_witness : calls_of 1%nat (delivered example_steps) = 1%nat.
Proof.
  destruct (handlers_called_once id None 1%nat example_steps example_reachable) as (_ & _ & Hw).
  apply Hw; [split; reflexivity|reflexivity].
Defined.

Lemma Collect_exact_witness :
  exists a' calls,
    Collect 100 (mkAgent {[ bs "a" := mkTransaction 99 0%nat; bs "b" := mkTransaction 100 1%nat ]}
                   false None) = (a', calls, @None agent_error) /\
    transactions a' !! bs "a" = None /\ Call 0%nat (ErrorEvent (Msg := Message) ErrTransactionTimeOut) ∈ calls.
Proof.
  destruct (Collect_exact (Msg := Message) 100
    (mkAgent {[ bs "a" := mkTransaction 99 0%nat; bs "b" := mkTransaction 100 1%nat ]} false None) eq_refl)
    as (a' & calls & H1 & H2 & H3).
  exists a', calls. split; [exact H1|]. split; [rewrite H2; reflexivity|].
  apply H3. split; [reflexivity|]. exists (bs "a"), (mkTransaction 99 0%nat).
  split; [reflexivity|]. split; [reflexivity|]. cbn. lia.
Defined.
