(* ===== verification/AgentMutex.v ===== *)
(** The mutex of the transaction agent ([src/stun/agent.go]) and handlers that
    call the agent.

    [StunAgent.step] takes what an operation does under the mutex as one step.
    Here an operation is its code: where it locks, where it reads and writes the
    fields of the agent, where it unlocks, where it calls a handler and where it
    returns.  A handler is a script of operations, so it can call the agent it is
    called by; a goroutine is a stack of the operations and handlers it is in. *)
From stdpp Require Import base list gmap sets relations strings.
From Stdlib Require Import ZArith Lia.
From S2P Require Import Prelude StunTypes StunAgent.
Open Scope Z_scope.

Section Mutex.
Context {H : Type} `{EqDecision H} {Msg : Type} (TransactionID_of : Msg -> bytes).
Abbreviation Agent := (@StunAgent.Agent H).
Abbreviation call := (@StunAgent.call H Msg).

(** * The code of the operations

    [Access] reads and writes the fields; it gets the order in which a map is
    ranged over.  [Peek] reads [zeroHandler] alone, [Handle] calls a handler and
    goes on when it has returned, [Crash] is the panic of a call through nil. *)
#[warnings="-register-all"] Inductive code :=
| Lock (k : code)
| Unlock (k : code)
| Access (f : (list call -> list call) -> Agent -> Agent * code)
| Peek (f : option H -> code)
| Handle (c : call) (k : code)
| Return (r : option agent_error)
| Crash.

Fixpoint handle_each (l : list call) (k : code) : code :=
  match l with
  | [] => k
  | c :: l' => Handle c (handle_each l' k)
  end.

(** [Agent.Start]; the [Unlock] is deferred. *)
Definition Start_code (id : bytes) (deadline : Z) (h : H) : code :=
  Lock (Access (fun _ a =>
    if closed a then (a, Unlock (Return (Some ErrAgentClosed)))
    else match transactions a !! id with
         | Some _ => (a, Unlock (Return (Some ErrTransactionExists)))
         | None =>
             (mkAgent (<[id := mkTransaction deadline h]> (transactions a)) (closed a) (zeroHandler a),
              Unlock (Return None))
         end)).
(** [Agent.StopWithError] *)
Definition StopWithError_code (id : bytes) (err : agent_error) : code :=
  Lock (Access (fun _ a =>
    if closed a then (a, Unlock (Return (Some ErrAgentClosed)))
    else
      (mkAgent (delete id (transactions a)) (closed a) (zeroHandler a),
       Unlock (match transactions a !! id with
               | None => Return (Some ErrTransactionNotExists)
               | Some t => Handle (Call (tx_h t) (ErrorEvent err)) (Return None)
               end)))).
(** [Agent.Collect] *)
Definition Collect_code (gcTime : Z) : code :=
  Lock (Access (fun order a =>
    if closed a then (a, Unlock (Return (Some ErrAgentClosed)))
    else
      let timedOut := filter (fun kv => expired gcTime kv.2) (map_to_list (transactions a)) in
      let toCall := order (map (fun kv => Call (tx_h kv.2) (ErrorEvent ErrTransactionTimeOut)) timedOut) in
      (mkAgent (foldr (fun kv m => delete kv.1 m) (transactions a) timedOut) (closed a) (zeroHandler a),
       Unlock (handle_each toCall (Return None))))).
(** [Agent.Process]: [zeroHandler] is read twice, after the [Unlock]. *)
Definition Process_code (m : Msg) : code :=
  Lock (Access (fun _ a =>
    if closed a then (a, Unlock (Return (Some ErrAgentClosed)))
    else
      (mkAgent (delete (TransactionID_of m) (transactions a)) (closed a) (zeroHandler a),
       Unlock (match transactions a !! TransactionID_of m with
               | Some t => Handle (Call (tx_h t) (MessageEvent m)) (Return None)
               | None =>
                   Peek (fun z =>
                     match z with
                     | None => Return None
                     | Some _ =>
                         Peek (fun z =>
                           match z with
                           | Some h => Handle (ZeroCall h (MessageEvent m)) (Return None)
                           | None => Crash
                           end)
                     end)
               end)))).
(** [Agent.Close]: the handlers are called before the [Unlock]. *)
Definition Close_code : code :=
  Lock (Access (fun order a =>
    if closed a then (a, Unlock (Return (Some ErrAgentClosed)))
    else (a, handle_each (order (close_calls a)) (Access (fun _ _ => (closed_agent, Unlock (Return None))))))).

Inductive api :=
| ApiStart (id : bytes) (deadline : Z) (h : H)
| ApiStop (id : bytes) (err : agent_error)
| ApiCollect (gcTime : Z)
| ApiProcess (m : Msg)
| ApiClose.
Definition code_of (o : api) : code :=
  match o with
  | ApiStart id deadline h => Start_code id deadline h
  | ApiStop id err => StopWithError_code id err
  | ApiCollect gcTime => Collect_code gcTime
  | ApiProcess m => Process_code m
  | ApiClose => Close_code
  end.

(** ** What an operation does alone

    Nobody else uses the agent and the handlers do not call it: the code does what
    the functions of [StunAgent] do, which make their calls in some order. *)
Fixpoint alone (k : code) (a : Agent) : Agent * list call * option agent_error :=
  match k with
  | Lock k | Unlock k => alone k a
  | Access f => match f (fun l => l) a with (a', k) => alone k a' end
  | Peek f => alone (f (zeroHandler a)) a
  | Handle c k => let '(a', calls, r) := alone k a in (a', c :: calls, r)
  | Return r => (a, [], r)
  | Crash => (a, [], None)
  end.
Lemma handle_each_alone l k a :
  alone (handle_each l k) a = let '(a', calls, r) := alone k a in (a', l ++ calls, r).
Proof.
  induction l as [|c l IH]; cbn [handle_each]; [by destruct (alone k a) as [[??]?]|].
  cbn. rewrite IH. by destruct (alone k a) as [[??]?].
Qed.
Theorem code_alone (o : api) a :
  alone (code_of o) a =
  match o with
  | ApiStart id deadline h => let '(a', r) := Start id deadline h a in (a', [], r)
  | ApiStop id err => StopWithError id err a
  | ApiCollect gcTime => Collect gcTime a
  | ApiProcess m => Process TransactionID_of m a
  | ApiClose => Close a
  end.
Proof.
  destruct o; cbn.
  - unfold Start. destruct (closed a); [done|]. by destruct (transactions a !! id).
  - unfold StopWithError. destruct (closed a); [done|]. by destruct (transactions a !! id).
  - unfold Collect. destruct (closed a); [done|]. cbn. rewrite handle_each_alone. cbn. by rewrite app_nil_r.
  - unfold Process. destruct (closed a); [done|]. cbn. destruct (transactions a !! _); [done|]. cbn.
    by destruct (zeroHandler a).
  - unfold Close. destruct (closed a); [done|]. rewrite handle_each_alone. cbn. by rewrite app_nil_r.
Qed.

(** * Goroutines

    [may_do c ops]: the handler may answer the call [c] with the operations
    [ops].  A frame remembers the call that its handler answers; the code that
    uses the agent is no handler. *)
Variable may_do : call -> list api -> Prop.

Inductive frame :=
| Inside (k : code)
| Script (by_call : option call) (ops : list api).
Abbreviation goroutine := (list frame).

Record machine := mkMachine {
  m_agent : Agent;
  locked : bool;
  goroutines : list goroutine;
  m_delivered : list call        (** newest first *)
}.
Definition started_with (handler : option H) (scripts : list (list api)) : machine :=
  mkMachine (NewAgent handler) false (map (fun ops => [Script None ops]) scripts) [].

(** What a goroutine does with the agent and the mutex.  [Unlock] of a mutex that
    is not locked has no step, nor has [Crash]: the Go runtime ends the
    program. *)
Inductive gstep : Agent -> bool -> goroutine -> Agent -> bool -> goroutine -> list call -> Prop :=
| g_call a l b o ops fs :
    gstep a l (Script b (o :: ops) :: fs) a l (Inside (code_of o) :: Script b ops :: fs) []
| g_exit a l b fs : gstep a l (Script b [] :: fs) a l fs []
| g_lock a k fs : gstep a false (Inside (Lock k) :: fs) a true (Inside k :: fs) []
| g_unlock a k fs : gstep a true (Inside (Unlock k) :: fs) a false (Inside k :: fs) []
| g_access a l f order a' k fs :
    (forall l, order l ≡ₚ l) -> f order a = (a', k) ->
    gstep a l (Inside (Access f) :: fs) a' l (Inside k :: fs) []
| g_peek a l f fs : gstep a l (Inside (Peek f) :: fs) a l (Inside (f (zeroHandler a)) :: fs) []
| g_handle a l c k ops fs :
    may_do c ops -> gstep a l (Inside (Handle c k) :: fs) a l (Script (Some c) ops :: Inside k :: fs) [c]
| g_return a l r fs : gstep a l (Inside (Return r) :: fs) a l fs [].

Inductive mstep : machine -> machine -> Prop :=
| m_step a l gs1 g gs2 del a' l' g' new :
    gstep a l g a' l' g' new ->
    mstep (mkMachine a l (gs1 ++ g :: gs2) del) (mkMachine a' l' (gs1 ++ g' :: gs2) (new ++ del)).

Definition finished (m : machine) : Prop := Forall (fun g => g = []) (goroutines m).

(** * The discipline of the mutex

    [disciplined b k]: with the mutex held ([b]) or not, the code [k] accesses
    the fields only while it holds the mutex, locks it only when it does not, and
    returns without it; [zeroHandler] is read either way.  Only the calls that
    [Close] makes are made with it. *)
Definition closing_call (c : call) : Prop := exists h, c = Call h (ErrorEvent ErrAgentClosed).
Inductive disciplined : bool -> code -> Prop :=
| d_lock k : disciplined true k -> disciplined false (Lock k)
| d_unlock k : disciplined false k -> disciplined true (Unlock k)
| d_access f :
    (forall order a, (forall l, order l ≡ₚ l) -> disciplined true (f order a).2) -> disciplined true (Access f)
| d_peek b f : (forall z, disciplined b (f z)) -> disciplined b (Peek f)
| d_handle b c k : (b = true -> closing_call c) -> disciplined b k -> disciplined b (Handle c k)
| d_return r : disciplined false (Return r)
| d_crash : disciplined false Crash.

Lemma handle_each_disciplined b l k :
  (b = true -> Forall closing_call l) -> disciplined b k -> disciplined b (handle_each l k).
Proof.
  intros Hl Hk. induction l as [|c l IH]; [done|]. cbn. apply d_handle.
  - intros Hb. specialize (Hl Hb). by apply Forall_cons in Hl as [? _].
  - apply IH. intros Hb. specialize (Hl Hb). by apply Forall_cons in Hl as [_ ?].
Qed.
Lemma unlock_return_disciplined r : disciplined true (Unlock (Return r)).
Proof. apply d_unlock, d_return. Qed.
Hint Resolve unlock_return_disciplined d_return d_crash : core.

Lemma code_of_disciplined o : disciplined false (code_of o).
Proof.
  destruct o; cbn; apply d_lock, d_access; intros order a Ho; destruct (closed a); cbn; auto.
  - destruct (transactions a !! id); cbn; auto.
  - apply d_unlock. destruct (transactions a !! id); [|auto]. apply d_handle; [by intros|auto].
  - apply d_unlock. apply handle_each_disciplined; [by intros|auto].
  - apply d_unlock. destruct (transactions a !! _); [apply d_handle; [by intros|auto]|].
    do 2 (apply d_peek; intros [?|]; [|by auto]). apply d_handle; [by intros|auto].
  - apply handle_each_disciplined; [intros _|apply d_access; intros; cbn; auto].
    rewrite Ho. unfold close_calls. apply Forall_forall. intros c (kv & -> & _)%list_elem_of_fmap. by eexists.
Qed.
Lemma code_of_locks o : exists k, code_of o = Lock k.
Proof. destruct o; by eexists. Qed.

(** * Who holds the mutex *)

Inductive free : goroutine -> Prop :=
| free_nil : free []
| free_script b ops fs : free fs -> free (Script b ops :: fs)
| free_inside k fs : disciplined false k -> free fs -> free (Inside k :: fs).

(** A handler that [Close] called and that has called the agent. *)
Definition self_blocked (g : goroutine) : Prop :=
  exists k h done_ops o ops k' fs,
    g = Inside (Lock k) :: Script (Some (Call h (ErrorEvent ErrAgentClosed))) ops :: Inside k' :: fs /\
    may_do (Call h (ErrorEvent ErrAgentClosed)) (done_ops ++ o :: ops) /\ disciplined true k'.

Inductive owner : goroutine -> Prop :=
| own_top k fs : disciplined true k -> free fs -> owner (Inside k :: fs)
| own_calling c done_ops ops k fs :
    closing_call c -> may_do c (done_ops ++ ops) -> disciplined true k -> free fs ->
    owner (Script (Some c) ops :: Inside k :: fs)
| own_blocked g : self_blocked g -> owner g.

(** At most one goroutine owns the mutex, and one does when it is locked. *)
Inductive owned : bool -> list goroutine -> Prop :=
| owned_nobody gs : Forall free gs -> owned false gs
| owned_one gs1 g gs2 : Forall free gs1 -> owner g -> Forall free gs2 -> owned true (gs1 ++ g :: gs2).
Definition mutex_ok (m : machine) : Prop := owned (locked m) (goroutines m).

Lemma free_step a l g a' l' g' new :
  gstep a l g a' l' g' new -> free g -> (l' = l /\ free g') \/ (l = false /\ l' = true /\ owner g').
Proof.
  destruct 1; inversion_clear 1 as [|? ? ? Hf|? ? Hd Hf].
  - left. split; [done|]. apply free_inside; [apply code_of_disciplined|by apply free_script].
  - by left.
  - right. inversion Hd; subst. split_and!; [done..|]. by apply own_top.
  - inversion Hd.
  - inversion Hd.
  - left. split; [done|]. inversion Hd; subst. by apply free_inside.
  - left. split; [done|]. inversion Hd; subst. by apply free_script, free_inside.
  - by left.
Qed.
Lemma owner_step a g a' l' g' new :
  gstep a true g a' l' g' new -> owner g -> (l' = true /\ owner g') \/ (l' = false /\ free g').
Proof.
  intros Hs. inversion 1 as [k fs Hd Hf|c done_ops ops k fs Hc Hm Hd Hf|g0 (k & h & done_ops & o & ops & k' & fs & -> & Hm & _)]; subst.
  - inversion Hs; subst; inversion Hd; subst.
    + right. split; [done|]. by apply free_inside.
    + left. split; [done|]. apply own_top; [|done]. match goal with E : ?f _ _ = (_, ?k) |- _ => replace k with (f order a).2 by (by rewrite E) end. auto.
    + left. split; [done|]. apply own_top; [auto|done].
    + left. split; [done|]. eapply (own_calling c []); eauto.
  - left. inversion Hs; subst; (split; [done|]).
    + destruct (code_of_locks o) as [k' ->]. destruct Hc as [h ->]. apply own_blocked. by exists k', h, done_ops, o, ops0, k, fs.
    + by apply own_top.
  - inversion Hs.
Qed.
Lemma mutex_ok_step m m' : mstep m m' -> mutex_ok m -> mutex_ok m'.
Proof.
  intros [a l gs1 g gs2 del a' l' g' new Hs] Hm. unfold mutex_ok in *. cbn [locked goroutines] in *.
  inversion Hm as [gs Hf E1 E2|hs1 o hs2 Hf1 Ho Hf2 E1 E2]; subst.
  - apply Forall_app in Hf as [H1 [H2 H3]%Forall_cons].
    destruct (free_step _ _ _ _ _ _ _ Hs H2) as [[-> Hg]|(_ & -> & Hg)].
    + apply owned_nobody. apply Forall_app; split; [done|by apply Forall_cons].
    + by apply owned_one.
  - destruct (app_eq_inv _ _ _ _ E2) as [([|x l1] & -> & E)|([|x l1] & -> & E)]; injection E as -> ->.
    1,3: rewrite ?app_nil_r in *; destruct (owner_step _ _ _ _ _ _ Hs Ho) as [[-> Hg]|[-> Hg]];
      [by apply owned_one|apply owned_nobody; apply Forall_app; split; [done|by apply Forall_cons]].
    + apply Forall_app in Hf1 as [H1 [H2 H3]%Forall_cons].
      destruct (free_step _ _ _ _ _ _ _ Hs H2) as [[-> Hg]|(? & _)]; [|done].
      change (gs1 ++ g' :: l1 ++ o :: hs2) with (gs1 ++ (g' :: l1) ++ o :: hs2). rewrite app_assoc.
      apply owned_one; [|done..]. apply Forall_app; split; [done|by apply Forall_cons].
    + apply Forall_app in Hf2 as [H1 [H2 H3]%Forall_cons].
      destruct (free_step _ _ _ _ _ _ _ Hs H2) as [[-> Hg]|(? & _)]; [|done].
      rewrite <- app_assoc. apply owned_one; [done..|]. apply Forall_app; split; [done|by apply Forall_cons].
Qed.
Lemma mutex_ok_reachable handler scripts m : rtc mstep (started_with handler scripts) m -> mutex_ok m.
Proof.
  intros Hr. assert (mutex_ok (started_with handler scripts)) as H0.
  { apply owned_nobody. apply Forall_fmap, Forall_true. intros ops. apply free_script, free_nil. }
  revert H0. induction Hr as [|m m1 m' Hs _ IH]; [done|]. intros Hm. by eapply IH, mutex_ok_step.
Qed.

(** ** Blocking *)

Lemma goroutine_moves m i g a' l' g' new :
  goroutines m !! i = Some g -> gstep (m_agent m) (locked m) g a' l' g' new -> exists m', mstep m m'.
Proof.
  intros Hi Hs. apply list_elem_of_split_length in Hi as (gs1 & gs2 & E & _). destruct m as [a l gs del]. cbn in *.
  subst gs. eexists. by apply m_step.
Qed.
(** What keeps a goroutine from going on is the mutex. *)
Lemma goroutine_stuck m i g :
  (forall c, exists ops, may_do c ops) -> goroutines m !! i = Some g -> (free g \/ owner g /\ locked m = true) ->
  g = [] \/ (exists m', mstep m m') \/ (exists fs, g = Inside Crash :: fs) \/
  locked m = true /\ exists k fs, g = Inside (Lock k) :: fs.
Proof.
  intros Hd Hi Hg. destruct g as [|[k|b [|o ops]] fs]; [by left|..]; right.
  - destruct k as [k|k|f|f|c k|r|].
    + destruct (locked m) eqn:El; [right; right; eauto|left]. eapply goroutine_moves; [done|]. rewrite El. apply g_lock.
    + assert (locked m = true) as El.
      { destruct Hg as [Hf|[_ Hl]]; [|done]. inversion Hf as [| |? ? Hk]; inversion Hk. }
      left. eapply goroutine_moves; [done|]. rewrite El. apply g_unlock.
    + left. destruct (f (fun l => l) (m_agent m)) as [a' k'] eqn:E.
      eapply goroutine_moves; [done|]. by apply (g_access _ _ f (fun l => l) a' k').
    + left. eapply goroutine_moves; [done|]. apply g_peek.
    + left. destruct (Hd c) as [ops Hops]. eapply goroutine_moves; [done|]. by apply g_handle.
    + left. eapply goroutine_moves; [done|]. apply g_return.
    + right. left. by eexists.
  - left. eapply goroutine_moves; [done|]. apply g_exit.
  - left. eapply goroutine_moves; [done|]. apply g_call.
Qed.
Lemma owned_lookup b gs i g : owned b gs -> gs !! i = Some g -> free g \/ owner g /\ b = true.
Proof.
  intros [gs' Hf|gs1 g' gs2 H1 Ho H2] Hi; [left; exact (Forall_lookup_1 _ _ _ _ Hf Hi)|].
  apply lookup_app_Some in Hi as [Hi|[_ Hi]]; [left; exact (Forall_lookup_1 _ _ _ _ H1 Hi)|].
  apply lookup_cons_Some in Hi as [[_ ->]|[_ Hi]]; [by right|left; exact (Forall_lookup_1 _ _ _ _ H2 Hi)].
Qed.
Lemma disciplined_once k : disciplined true k -> disciplined false k -> False.
Proof.
  induction k as [k IH|k IH|f|f IH|c k IH|r|]; inversion 1; inversion 1; subst; auto.
  by apply (IH None).
Qed.
Lemma free_no_owner g : free g -> owner g -> False.
Proof.
  assert (forall k fs, disciplined true k -> free (Inside k :: fs) -> False) as Hi
    by (intros k fs Hd Hf; inversion Hf; subst; by eapply disciplined_once).
  intros Hf Ho. inversion Ho as [k fs Hd _|c d ops k fs _ _ Hd _|g0 (k & h & d & o & ops & k' & fs & -> & _ & Hd)]; subst.
  - by eapply Hi.
  - inversion Hf; subst. by eapply Hi.
  - inversion Hf; subst. match goal with Hs : free (Script _ _ :: _) |- _ => inversion Hs; subst end. by eapply Hi.
Qed.
Lemma owner_unique b gs i j g g' :
  owned b gs -> gs !! i = Some g -> gs !! j = Some g' -> owner g -> owner g' -> i = j /\ b = true.
Proof.
  intros [gs' Hf|gs1 g0 gs2 H1 _ H2] Hi Hj Hg Hg'.
  - by destruct (free_no_owner g (Forall_lookup_1 _ _ _ _ Hf Hi) Hg).
  - assert (forall n x, (gs1 ++ g0 :: gs2) !! n = Some x -> owner x -> n = length gs1) as Hn.
    { intros n x Hx Ho. apply lookup_app_Some in Hx as [Hx|[Hle Hx]].
      - by destruct (free_no_owner x (Forall_lookup_1 _ _ _ _ H1 Hx) Ho).
      - apply lookup_cons_Some in Hx as [[E ->]|[_ Hx]]; [lia|].
        by destruct (free_no_owner x (Forall_lookup_1 _ _ _ _ H2 Hx) Ho). }
    split; [|done]. by rewrite (Hn i g Hi Hg), (Hn j g' Hj Hg').
Qed.
Lemma accessing_owner b gs i f fs : owned b gs -> gs !! i = Some (Inside (Access f) :: fs) -> owner (Inside (Access f) :: fs).
Proof.
  intros Hm Hi. destruct (owned_lookup _ _ _ _ Hm Hi) as [Hf|[Ho _]]; [|done].
  inversion Hf as [| |? ? Hk]; inversion Hk.
Qed.

(** A blocked handler blocks everybody, for good. *)
Lemma self_blocked_step m m' i g :
  mutex_ok m -> mstep m m' -> goroutines m !! i = Some g -> self_blocked g ->
  goroutines m' !! i = Some g /\ m_agent m' = m_agent m.
Proof.
  intros Hm Hst Hi Hb. destruct Hst as [a l gs1 g1 gs2 del a' l' g1' new Hs]. unfold mutex_ok in Hm. cbn in *.
  assert (l = true) as -> by (by destruct (owner_unique _ _ _ _ _ _ Hm Hi Hi (own_blocked _ Hb) (own_blocked _ Hb))).
  assert ((gs1 ++ g1 :: gs2) !! length gs1 = Some g1) as H1 by (by rewrite lookup_app_r, Nat.sub_diag by lia).
  assert (i <> length gs1) as Hne.
  { intros ->. rewrite H1 in Hi. injection Hi as ->. destruct Hb as (k & h & d & o & ops & k' & fs & -> & _). inversion Hs. }
  split.
  - destruct (decide (i < length gs1)%nat) as [Hlt|Hge]; [by rewrite lookup_app_l in * by lia|].
    rewrite lookup_app_r in * by lia. rewrite lookup_cons_ne_0 in * by lia. done.
  - inversion Hs; subst; try done. exfalso. apply Hne.
    by destruct (owner_unique _ _ _ _ _ _ Hm Hi H1 (own_blocked _ Hb) (accessing_owner _ _ _ _ _ Hm H1)).
Qed.

(** [Process] has called a zero handler that was there and is gone. *)
Definition crashed (m : machine) : Prop := exists i fs, goroutines m !! i = Some (Inside Crash :: fs).

(** Every goroutine is over or waits for the mutex, or a step is possible. *)
Lemma all_wait m :
  (forall c, exists ops, may_do c ops) -> mutex_ok m ->
  (exists m', mstep m m') \/ crashed m \/
  forall i g, goroutines m !! i = Some g ->
    g = [] \/ locked m = true /\ exists k fs, g = Inside (Lock k) :: fs.
Proof.
  intros Hd Hm.
  enough (forall gs : list goroutine, (forall g, g ∈ gs -> g ∈ goroutines m) ->
    (exists m', mstep m m') \/ crashed m \/
    forall g, g ∈ gs -> g = [] \/ locked m = true /\ exists k fs, g = Inside (Lock k) :: fs) as He.
  { destruct (He (goroutines m)) as [?|[?|Hw]]; [done|by left|right; by left|].
    right. right. intros i g Hi. apply Hw. by eapply list_elem_of_lookup_2. }
  intros gs. induction gs as [|g gs IH]; intros Hgs; [right; right; set_solver|].
  destruct IH as [IH|[IH|IH]]; [set_solver|by left|right; by left|].
  destruct (list_elem_of_lookup_1 (goroutines m) g) as [j Hj]; [set_solver|].
  destruct (goroutine_stuck m j g Hd Hj (owned_lookup _ _ _ _ Hm Hj)) as [->|[Hs|[[fs ->]|Hl]]];
    [right; right|by left|right; left; by exists j, fs|right; right]; intros x [->|Hx]%elem_of_cons; auto.
Qed.
Lemma machine_progress m :
  (forall c, exists ops, may_do c ops) -> mutex_ok m ->
  finished m \/ (exists m', mstep m m') \/ crashed m \/ exists i g, goroutines m !! i = Some g /\ self_blocked g.
Proof.
  intros Hd Hm. destruct (all_wait m Hd Hm) as [?|[?|Hw]]; [right; by left|right; right; by left|].
  unfold mutex_ok in Hm. inversion Hm as [gs Hf El E|gs1 g gs2 ? Ho ? El E].
  - left. apply Forall_lookup_2. intros i g Hi. destruct (Hw i g Hi) as [?|[Hl _]]; [done|congruence].
  - right. right. right.
    assert (goroutines m !! length gs1 = Some g) as Hi by (by rewrite <- E, lookup_app_r, Nat.sub_diag by lia).
    rewrite E. exists (length gs1), g. split; [exact Hi|].
    destruct (Hw _ _ Hi) as [->|(_ & k & fs & ->)]; [inversion Ho; subst; unfold self_blocked in *; naive_solver|].
    inversion Ho as [? ? Hk| |? Hb]; subst; [inversion Hk|done].
Qed.

(** ** When [Process] panics

    The zero handler is there until the agent is closed.  [sound b k]: with the
    agent closed, if [b], the code [k] panics only if the agent is closed. *)
Section Sound.
Context (handler : option H).
Definition zero_ok (a : Agent) : Prop := zeroHandler a = if closed a then None else handler.
Inductive sound : bool -> code -> Prop :=
| s_lock b k : sound b k -> sound b (Lock k)
| s_unlock b k : sound b k -> sound b (Unlock k)
| s_access b f :
    (forall order a, (forall l, order l ≡ₚ l) -> zero_ok a -> (b = true -> closed a = true) ->
       zero_ok (f order a).1 /\ (closed a = true -> closed (f order a).1 = true)) ->
    (forall order a, (forall l, order l ≡ₚ l) -> zero_ok a -> (b = true -> closed a = true) ->
       sound (closed (f order a).1) (f order a).2) -> sound b (Access f)
| s_peek b f : (forall b', (b = true -> b' = true) -> sound b' (f (if b' then None else handler))) -> sound b (Peek f)
| s_handle b c k : sound b k -> sound b (Handle c k)
| s_return b r : sound b (Return r)
| s_crash : handler <> None -> sound true Crash.

Lemma sound_mono b b' k : sound b k -> (b = true -> b' = true) -> sound b' k.
Proof.
  intros Hs. revert b'. induction Hs as [| |b f Hf _ IH|b f Hf IH| | |]; intros b1 Hb; try (constructor; by auto).
  rewrite Hb by done. by apply s_crash.
Qed.
Lemma handle_each_sound b l k : sound b k -> sound b (handle_each l k).
Proof. intros Hk. induction l; [done|by apply s_handle]. Qed.
Hint Resolve s_return s_unlock s_handle handle_each_sound : core.
Lemma code_of_sound b o : sound b (code_of o).
Proof.
  destruct o; cbn; apply s_lock, s_access; intros order a Ho Hz Hb; unfold zero_ok in *;
    destruct (closed a) eqn:Hc; cbn; rewrite ?Hc in *; try (by auto).
  - destruct (transactions a !! id); cbn; rewrite ?Hc; auto.
  - destruct (transactions a !! id); cbn; rewrite ?Hc; auto.
  - destruct (transactions a !! id); auto.
  - destruct (transactions a !! _); auto.
    apply s_unlock, s_peek. intros b1 _. destruct b1; [auto|]. destruct handler as [h|] eqn:Eh; [|auto].
    apply s_peek. intros b2 _. destruct b2; [apply s_crash; by rewrite Eh|rewrite Eh; auto].
  - apply handle_each_sound, s_access; intros order' a' _ _ _; cbn; unfold zero_ok; auto.
Qed.

Definition sound_frame (b : bool) (fr : frame) : Prop :=
  match fr with Inside k => sound b k | Script _ _ => True end.
Definition machine_sound (m : machine) : Prop :=
  zero_ok (m_agent m) /\ Forall (Forall (sound_frame (closed (m_agent m)))) (goroutines m).
Lemma sound_frames_mono b b' g :
  Forall (sound_frame b) g -> (b = true -> b' = true) -> Forall (sound_frame b') g.
Proof. intros Hg Hb. eapply Forall_impl; [exact Hg|]. intros [k|]; [|done]. intros Hk. by eapply sound_mono. Qed.

Lemma sound_step a l g a' l' g' new :
  gstep a l g a' l' g' new -> zero_ok a -> Forall (sound_frame (closed a)) g ->
  zero_ok a' /\ (closed a = true -> closed a' = true) /\ Forall (sound_frame (closed a')) g'.
Proof.
  intros Hs Hz Hg. destruct Hs as [| | | |a l f order a' k fs Ho Hf| | |]; try (split; [done|]; split; [done|]);
    apply Forall_cons in Hg as [Hk Hg]; cbn in Hk; auto;
    try (inversion Hk; subst; repeat (apply Forall_cons; split); by auto).
  - repeat (apply Forall_cons; split); auto. apply code_of_sound.
  - inversion Hk as [| |? ? Ha| | | |]; subst.
    match goal with Hk : forall _ _, _ -> _ -> _ -> sound _ _ |- _ => pose proof (Hk order a Ho Hz (fun E => E)) as H3 end.
    destruct (Ha order a Ho Hz (fun E => E)) as (H1 & H2). rewrite Hf in H1, H2, H3. cbn in *. split_and!; auto. apply Forall_cons; split; [done|]. by eapply sound_frames_mono.
  - apply Forall_cons; split; [|done]. inversion Hk as [| | |? ? Hp| | |]; subst. cbn. rewrite Hz. by apply Hp.
Qed.
Lemma machine_sound_reachable scripts m : rtc mstep (started_with handler scripts) m -> machine_sound m.
Proof.
  intros Hr. assert (machine_sound (started_with handler scripts)) as H0.
  { split; [done|]. apply Forall_fmap, Forall_true. intros ops. by repeat constructor. }
  revert H0. induction Hr as [|m m1 m' Hs _ IH]; [done|]. intros Hm. apply IH. clear IH.
  destruct Hs as [a l gs1 g gs2 del a' l' g' new Hs]. destruct Hm as [Hz Hg]. cbn in *.
  apply Forall_app in Hg as [H1 [H2 H3]%Forall_cons].
  destruct (sound_step _ _ _ _ _ _ _ Hs Hz H2) as (Hz' & Hc & Hg'). split; [done|]. cbn.
  apply Forall_app; split; [|apply Forall_cons; split; [done|]];
    (eapply Forall_impl; [eassumption|]); intros fs Hfs; by eapply sound_frames_mono.
Qed.
Lemma crash_closed scripts m :
  rtc mstep (started_with handler scripts) m -> crashed m -> closed (m_agent m) = true /\ handler <> None.
Proof.
  intros [_ Hg]%machine_sound_reachable (i & fs & Hi). apply (Forall_lookup_1 _ _ _ _ Hg) in Hi.
  apply Forall_cons in Hi as [Hk _]. cbn in Hk. by inversion Hk.
Qed.
End Sound.

(** C31: the agent's mutex, with handlers that may call the agent: a handler
    answers each call with some list of operations, any list [may_do] allows.
    Whatever operations any number of goroutines run: the table of transactions and the
    flag [closed] are accessed by one goroutine at a time, with the mutex locked;
    and as long as some goroutine has not finished, one of them can go on, with
    two exceptions.  [Process], which reads [zeroHandler] twice after it has
    unlocked, panics if [Close] clears it between the two; this needs a zero
    handler and leaves the agent closed.  And a handler called by [Close], which
    makes its calls before it unlocks, deadlocks the agent if it calls it: the
    handler's goroutine never goes on, the mutex is never unlocked again and the
    agent stays as it is. *)
Theorem Close_alone_deadlocks handler scripts m :
  (forall c, exists ops, may_do c ops) ->
  rtc mstep (started_with handler scripts) m ->
  (forall i j f f' fs fs', goroutines m !! i = Some (Inside (Access f) :: fs) ->
     goroutines m !! j = Some (Inside (Access f') :: fs') -> i = j /\ locked m = true) /\
  (finished m \/ (exists m', mstep m m') \/
   (crashed m /\ closed (m_agent m) = true /\ handler <> None) \/
   exists i g, goroutines m !! i = Some g /\ self_blocked g) /\
  (forall i g m', goroutines m !! i = Some g -> self_blocked g -> rtc mstep m m' ->
     goroutines m' !! i = Some g /\ locked m' = true /\ m_agent m' = m_agent m).
Proof.
  intros Hd Hr. pose proof (mutex_ok_reachable _ _ _ Hr) as Hm. split_and!.
  - intros i j f f' fs fs' Hi Hj.
    by apply (owner_unique _ _ i j _ _ Hm Hi Hj); eapply accessing_owner.
  - destruct (machine_progress m Hd Hm) as [?|[?|[Hc|?]]]; auto.
    right. right. left. split; [done|]. by eapply crash_closed.
  - intros i g m' Hi Hb Hs. revert Hm Hi. clear Hr. induction Hs as [m|m m1 m' Hs _ IH]; intros Hm Hi.
    + split; [done|]. split; [|done]. by destruct (owner_unique _ _ _ _ _ _ Hm Hi Hi (own_blocked _ Hb) (own_blocked _ Hb)).
    + destruct (self_blocked_step m m1 i g Hm Hs Hi Hb) as [Hi1 Ha1].
      destruct (IH (mutex_ok_step _ _ Hs Hm) Hi1) as (H1 & H2 & H3). split_and!; [done|done|congruence].
Qed.
End Mutex.

(** * Witnesses *)

(** A handler that stops its transaction again when [Close] calls it. *)
Definition calls_back (c : @StunAgent.call nat bytes) (ops : list (@api nat bytes)) : Prop :=
  ops = match c with
        | Call _ (ErrorEvent ErrAgentClosed) => [ApiStop (bs "a") ErrTransactionStopped]
        | _ => []
        end.
Definition close_call : @StunAgent.call nat bytes := Call 0%nat (ErrorEvent ErrAgentClosed).
Definition one_transaction : @StunAgent.Agent nat :=
  mkAgent {[ bs "a" := mkTransaction 100 0%nat ]} false None.

(** The goroutine that closes the agent, in the handler that calls it back. *)
Definition deadlocked_goroutine : list (@frame nat bytes) :=
  [Inside (code_of id (ApiStop (bs "a") ErrTransactionStopped)); Script (Some close_call) [];
   Inside (Access (fun _ _ => (closed_agent, Unlock (Return None)))); Script None []].
Definition deadlocked : @machine nat bytes :=
  mkMachine one_transaction true [deadlocked_goroutine] [close_call].

(** The goroutine after [gs] does what is next in its code. *)
Tactic Notation "advance" uconstr(gs) :=
  eapply rtc_l;
  [apply (m_step id calls_back _ _ gs);
   first [apply g_call | apply g_lock | apply g_unlock | apply g_return | apply g_peek
         |apply (g_access id calls_back _ _ _ (fun l => l)); reflexivity | apply g_handle; reflexivity]|].

Lemma deadlocked_reachable :
  rtc (mstep id calls_back) (started_with None [[ApiStart (bs "a") 100 0%nat; ApiClose]]) deadlocked.
Proof. do 10 advance []. apply rtc_refl. Qed.
Lemma deadlocked_self_blocked : self_blocked calls_back deadlocked_goroutine.
Proof.
  do 2 eexists. exists []. do 4 eexists. split; [reflexivity|]. split; [reflexivity|].
  apply d_access. intros order a _. apply d_unlock, d_return.
Qed.

Lemma Close_alone_deadlocks_witness :
  self_blocked calls_back deadlocked_goroutine /\
  forall m, rtc (mstep id calls_back) deadlocked m ->
    goroutines m !! 0%nat = Some deadlocked_goroutine /\ locked m = true /\ m_agent m = one_transaction.
Proof.
  split; [exact deadlocked_self_blocked|]. intros m.
  destruct (Close_alone_deadlocks id calls_back None [[ApiStart (bs "a") 100 0%nat; ApiClose]] deadlocked) as (_ & _ & Hd).
  - intros c. eexists. reflexivity.
  - exact deadlocked_reachable.
  - intros Hs. exact (Hd 0%nat deadlocked_goroutine m eq_refl deadlocked_self_blocked Hs).
Defined.

(** [Process] and [Close] of an agent with a zero handler: [Close] clears it
    between the test of [Process] and its call. *)
Lemma Process_panics_while_closing :
  exists m, rtc (mstep id calls_back) (started_with (Some 7%nat) [[ApiProcess (bs "b")]; [ApiClose]]) m /\ crashed m.
Proof.
  eexists. split.
  - do 5 advance []. do 5 advance [_].
    advance []. apply rtc_refl.
  - exists 0%nat. eexists. reflexivity.
Qed.
