(* ===== verification/IceCandidate.v ===== *)
(** Candidates: [src/ice/candidate.go].

    The parser walks the buffer by index, first over the six mandatory fields,
    then over key-value pairs; it writes the candidate as it goes, so the fields
    parsed before an error stay. *)
From stdpp Require Import base list sets strings.
From Stdlib Require Import ZArith Lia.
From S2P Require Import Prelude GoFmt.
Open Scope Z_scope.

(** * Data *)

Inductive CandidateType :=
| CandidateUnknown | CandidateHost | CandidateServerReflexive | CandidatePeerReflexive
| CandidateRelay.
#[export] Instance CandidateType_eq_decision : EqDecision CandidateType.
Proof. solve_decision. Defined.

Definition candidateHost : bytes := bs "host".
Definition candidateServerReflexive : bytes := bs "srflx".
Definition candidatePeerReflexive : bytes := bs "prflx".
Definition candidateRelay : bytes := bs "relay".

Definition CandidateType_String (t : CandidateType) : bytes :=
  match t with
  | CandidateHost => candidateHost
  | CandidateServerReflexive => candidateServerReflexive
  | CandidatePeerReflexive => candidatePeerReflexive
  | CandidateRelay => candidateRelay
  | CandidateUnknown => bs "unknown"
  end.

Inductive TransportType := TransportZero | TransportUDP | TransportUnknown.
#[export] Instance TransportType_eq_decision : EqDecision TransportType.
Proof. solve_decision. Defined.
Definition TransportType_String (t : TransportType) : bytes :=
  match t with TransportUDP => bs "UDP" | _ => bs "Unknown" end.

Record Attribute := mkAttribute { Key : bytes; AttrValue : bytes }.
#[export] Instance Attribute_eq_decision : EqDecision Attribute.
Proof. solve_decision. Defined.

Record Candidate := mkCandidate {
  addr : bytes;
  baseAddr : bytes;
  relatedAddr : bytes;
  transport : TransportType;
  transportValue : bytes;
  Foundation : Z;
  ComponentID : Z;
  Priority : Z;
  Type_ : CandidateType;
  NetworkCost : Z;
  Generation : Z;
  CAttributes : list Attribute
}.
#[export] Instance Candidate_eq_decision : EqDecision Candidate.
Proof. solve_decision. Defined.

(** [new(Candidate)] *)
Definition zeroCandidate : Candidate :=
  mkCandidate [] [] [] TransportZero [] 0 0 0 CandidateUnknown 0 0 [].

Definition set_addr v c := mkCandidate v (baseAddr c) (relatedAddr c) (transport c)
  (transportValue c) (Foundation c) (ComponentID c) (Priority c) (Type_ c) (NetworkCost c)
  (Generation c) (CAttributes c).
Definition set_baseAddr v c := mkCandidate (addr c) v (relatedAddr c) (transport c)
  (transportValue c) (Foundation c) (ComponentID c) (Priority c) (Type_ c) (NetworkCost c)
  (Generation c) (CAttributes c).
Definition set_relatedAddr v c := mkCandidate (addr c) (baseAddr c) v (transport c)
  (transportValue c) (Foundation c) (ComponentID c) (Priority c) (Type_ c) (NetworkCost c)
  (Generation c) (CAttributes c).
Definition set_transport t v c := mkCandidate (addr c) (baseAddr c) (relatedAddr c) t v
  (Foundation c) (ComponentID c) (Priority c) (Type_ c) (NetworkCost c) (Generation c)
  (CAttributes c).
Definition set_Foundation v c := mkCandidate (addr c) (baseAddr c) (relatedAddr c) (transport c)
  (transportValue c) v (ComponentID c) (Priority c) (Type_ c) (NetworkCost c) (Generation c)
  (CAttributes c).
Definition set_ComponentID v c := mkCandidate (addr c) (baseAddr c) (relatedAddr c) (transport c)
  (transportValue c) (Foundation c) v (Priority c) (Type_ c) (NetworkCost c) (Generation c)
  (CAttributes c).
Definition set_Priority v c := mkCandidate (addr c) (baseAddr c) (relatedAddr c) (transport c)
  (transportValue c) (Foundation c) (ComponentID c) v (Type_ c) (NetworkCost c) (Generation c)
  (CAttributes c).
Definition set_Type v c := mkCandidate (addr c) (baseAddr c) (relatedAddr c) (transport c)
  (transportValue c) (Foundation c) (ComponentID c) (Priority c) v (NetworkCost c) (Generation c)
  (CAttributes c).
Definition set_NetworkCost v c := mkCandidate (addr c) (baseAddr c) (relatedAddr c) (transport c)
  (transportValue c) (Foundation c) (ComponentID c) (Priority c) (Type_ c) v (Generation c)
  (CAttributes c).
Definition set_Generation v c := mkCandidate (addr c) (baseAddr c) (relatedAddr c) (transport c)
  (transportValue c) (Foundation c) (ComponentID c) (Priority c) (Type_ c) (NetworkCost c) v
  (CAttributes c).
Definition set_CAttributes v c := mkCandidate (addr c) (baseAddr c) (relatedAddr c) (transport c)
  (transportValue c) (Foundation c) (ComponentID c) (Priority c) (Type_ c) (NetworkCost c)
  (Generation c) v.

(** [Candidate.reset] *)
Definition reset (c : Candidate) : Candidate :=
  mkCandidate [] (baseAddr c) [] TransportUnknown [] (Foundation c) (ComponentID c) (Priority c)
    (Type_ c) 0 0 [].

(** [Candidate.Equal] *)
Definition Candidate_Equal (c b : Candidate) : bool :=
  if negb (bool_decide (addr c = addr b)) then false
  else if negb (bool_decide (transport c = transport b)) then false
  else if negb (Foundation c =? Foundation b) then false
  else if negb (ComponentID c =? ComponentID b) then false
  else if negb (Priority c =? Priority b) then false
  else if negb (bool_decide (Type_ c = Type_ b)) then false
  else true.

(** [Attributes.Value]; [None] is nil. *)
Fixpoint Attributes_Value (k : bytes) (a : list Attribute) : option bytes :=
  match a with
  | [] => None
  | x :: a' => if bool_decide (Key x = k) then Some (AttrValue x) else Attributes_Value k a'
  end.

(** [bytes.Equal] does not tell nil from empty. *)
Definition Attributes_equal (a b : list Attribute) : bool :=
  let within a b :=
    forallb (fun x => bool_decide (default [] (Attributes_Value (Key x) b) = AttrValue x)) a in
  if negb (length a =? length b)%nat then false
  else within a b && within b a.

(** * Addresses as text *)

(** Index of the last occurrence. *)
Fixpoint last_index_from (i : nat) (sep : byte) (s : bytes) (found : option nat) : option nat :=
  match s with
  | [] => found
  | c :: s' =>
      last_index_from (S i) sep s' (if bool_decide (c = sep) then Some i else found)
  end.
Definition last_index (sep : byte) (s : bytes) : option nat := last_index_from 0 sep s None.

Definition lbracket : byte := zb 91.
Definition rbracket : byte := zb 93.

(** [net.SplitHostPort]: [None] for any of its errors; the results are then
    empty. *)
Definition SplitHostPort (s : bytes) : option (bytes * bytes) :=
  match last_index colon s with
  | None => None
  | Some i =>
      let has c l := bool_decide (is_Some (index_of c l)) in
      if bool_decide (head s = Some lbracket) then
        match index_of rbracket s with
        | None => None
        | Some e =>
            if (S e =? i)%nat then
              let host := take (e - 1) (drop 1 s) in
              if has lbracket (drop 1 s) || has rbracket (drop (S e) s) then None
              else Some (host, drop (S i) s)
            else None
        end
      else
        let host := take i s in
        if has colon host then None
        else if has lbracket s || has rbracket s then None
        else Some (host, drop (S i) s)
  end.

(** [Candidate.String] *)
Definition Candidate_String (c : Candidate) : bytes :=
  let '(host, port) := default ([], []) (SplitHostPort (addr c)) in
  let s := bs "a=candidate:" ++ itoa (Foundation c) ++ bs " " ++ itoa (ComponentID c) ++ bs " "
    ++ TransportType_String (transport c) ++ bs " " ++ itoa (Priority c) ++ bs " " ++ host
    ++ bs " " ++ port ++ bs " typ " ++ CandidateType_String (Type_ c) in
  if bool_decide (Type_ c = CandidateServerReflexive) then
    let '(rhost, rport) := default ([], []) (SplitHostPort (baseAddr c)) in
    s ++ bs " raddr " ++ rhost ++ bs " rport " ++ rport
  else s.

(** * Numbers *)

Definition is_digit (c : byte) : bool := let z := bz c in (48 <=? z) && (z <=? 57).
Definition hex_val (c : byte) : option Z :=
  let z := bz c in
  if (48 <=? z) && (z <=? 57) then Some (z - 48)
  else if (97 <=? z) && (z <=? 102) then Some (z - 87)
  else if (65 <=? z) && (z <=? 70) then Some (z - 55)
  else None.

Fixpoint hex_prefix (s : bytes) (n : Z) : Z :=
  match s with
  | [] => n
  | c :: s' => match hex_val c with None => n | Some d => hex_prefix s' (n * 16 + d) end
  end.

(** [fmt.Sscanf(s, "%x", &i)] on a text without leading space or sign: the
    leading hexadecimal digits, as an int64. *)
Definition scan_hex (s : bytes) : option Z :=
  match s with
  | c :: _ =>
      match hex_val c with
      | None => None
      | Some _ => let n := hex_prefix s 0 in if n <? 2 ^ 63 then Some n else None
      end
  | [] => None
  end.

(** The loop of [parseInt]: the index of the first digit, else of the last
    byte. *)
Fixpoint skip_to_digit (s : bytes) : bytes :=
  match s with
  | [] => []
  | [c] => [c]
  | c :: s' => if is_digit c then s else skip_to_digit s'
  end.

(** [parseInt]; [None] is an error. *)
Definition parseInt (v : bytes) : option Z :=
  let v2 := skip_to_digit v in
  match atoi v2 with
  | Ok i => Some i
  | _ => scan_hex v2
  end.

(** * The parser *)

Inductive field :=
| FFoundation | FComponentID | FPriority | FNetworkCost | FGeneration.
Inductive parse_cause := BadInt (f : field) | UnknownCandidate (v : bytes).
Inductive parse_error :=
| BufferTooSmall (n : nat)
| FailedChar (i pos : nat) (e : parse_cause)
| FailedAttribute (i : nat) (e : parse_cause).

(** A parse function: the new candidate, or an error that leaves it. *)
Definition parseFn := bytes -> Candidate -> Candidate + parse_cause.

Definition parse_int_field (f : field) (set : Z -> Candidate -> Candidate) : parseFn := fun v c =>
  match parseInt v with Some i => inl (set i c) | None => inr (BadInt f) end.

Definition parseFoundation : parseFn := parse_int_field FFoundation set_Foundation.
Definition parseComponentID : parseFn := parse_int_field FComponentID set_ComponentID.
Definition parsePriority : parseFn := parse_int_field FPriority set_Priority.
Definition parseNetworkCost : parseFn := parse_int_field FNetworkCost set_NetworkCost.
Definition parseGeneration : parseFn := parse_int_field FGeneration set_Generation.
Definition parsePort : parseFn := fun v c => inl (set_addr (addr c ++ bs ":" ++ v) c).
Definition parseRelatedPort : parseFn := fun v c =>
  inl (set_relatedAddr (relatedAddr c ++ bs ":" ++ v) c).
Definition parseConnectionAddress : parseFn := fun v c => inl (set_addr v c).
Definition parseRelatedAddress : parseFn := fun v c => inl (set_relatedAddr v c).
Definition parseTransport : parseFn := fun v c =>
  if bool_decide (v = bs "udp") || bool_decide (v = bs "UDP")
  then inl (set_transport TransportUDP (transportValue c) c)
  else inl (set_transport TransportUnknown v c).
Definition parseType : parseFn := fun v c =>
  if bool_decide (v = candidateHost) then inl (set_Type CandidateHost c)
  else if bool_decide (v = candidatePeerReflexive) then inl (set_Type CandidatePeerReflexive c)
  else if bool_decide (v = candidateRelay) then inl (set_Type CandidateRelay c)
  else if bool_decide (v = candidateServerReflexive)
  then inl (set_Type CandidateServerReflexive c)
  else inr (UnknownCandidate v).

Definition aGeneration : bytes := bs "generation".
Definition aNetworkCost : bytes := bs "network-cost".
Definition aType : bytes := bs "typ".
Definition aRelatedAddress : bytes := bs "raddr".
Definition aRelatedPort : bytes := bs "rport".

Definition parseAttribute (k v : bytes) (c : Candidate) : Candidate + parse_cause :=
  if bool_decide (k = aGeneration) then parseGeneration v c
  else if bool_decide (k = aNetworkCost) then parseNetworkCost v c
  else if bool_decide (k = aType) then parseType v c
  else if bool_decide (k = aRelatedAddress) then parseRelatedAddress v c
  else if bool_decide (k = aRelatedPort) then parseRelatedPort v c
  else inl (set_CAttributes (CAttributes c ++ [mkAttribute k v]) c).

Definition fns : list parseFn :=
  [parseFoundation; parseComponentID; parseTransport; parsePriority; parseConnectionAddress;
   parsePort].
Definition mandatoryElements : nat := 6.
Definition minBufLen : nat := 10.

Definition sub (buf : bytes) (i j : nat) : bytes := take (j - i) (drop i buf).

(** The first loop of [parse]; [rest] is what is left of [buf] at index [i].
    The last component is [last]. *)
Fixpoint parse_fields (buf rest : bytes) (i pos l : nat) (c : Candidate) :
    Candidate * (nat + parse_error) :=
  match rest with
  | [] => (c, inl 0%nat)
  | b :: rest' =>
      if (mandatoryElements - 1 <? pos)%nat then (c, inl i)
      else if negb (bool_decide (b = sp)) then parse_fields buf rest' (S i) pos (S l) c
      else
        match fns !! pos with
        | None => (c, inl i)
        | Some f =>
            match f (sub buf (i - l) i) c with
            | inr e => (c, inr (FailedChar i pos e))
            | inl c' => parse_fields buf rest' (S i) (S pos) 0 c'
            end
        end
  end.

(** The second loop, over the key-value pairs. *)
Fixpoint parse_pairs (last : nat) (buf rest : bytes) (i start fin vStart : nat) (c : Candidate) :
    Candidate * option parse_error :=
  match rest with
  | [] => (c, None)
  | b :: rest' =>
      let at_end := (i =? length buf - 1)%nat in
      if negb (bool_decide (b = sp)) && negb at_end then
        if (start =? 0)%nat then parse_pairs last buf rest' (S i) i fin vStart c
        else if (vStart =? 0)%nat && negb (fin =? 0)%nat
        then parse_pairs last buf rest' (S i) start fin i c
        else parse_pairs last buf rest' (S i) start fin vStart c
      else if (start =? 0)%nat then parse_pairs last buf rest' (S i) start fin vStart c
      else if (fin =? 0)%nat then parse_pairs last buf rest' (S i) start i vStart c
      else if (vStart =? 0)%nat then parse_pairs last buf rest' (S i) start fin vStart c
      else
        let j := if at_end && negb (bool_decide (b = sp)) then length buf else i in
        match parseAttribute (sub buf start fin) (sub buf vStart j) c with
        | inr e => (c, Some (FailedAttribute (j + last) e))
        | inl c' => parse_pairs last buf rest' (S i) 0 0 0 c'
        end
  end.

(** [candidateParser.parse] *)
Definition parse (buf : bytes) (c : Candidate) : Candidate * option parse_error :=
  if (length buf <? minBufLen)%nat then (c, Some (BufferTooSmall (length buf)))
  else
    let buf := if bool_decide (head buf = Some (zb 97)) then trim_prefix (bs "a=") buf else buf in
    let buf :=
      if bool_decide (head buf = Some (zb 99)) then trim_prefix (bs "candidate:") buf else buf in
    match parse_fields buf buf 0 0 0 c with
    | (c, inr e) => (c, Some e)
    | (c, inl last) =>
        if (last =? 0)%nat then (c, None)
        else let buf := drop (last - 1) buf in parse_pairs last buf buf 0 0 0 0 c
    end.

(** [ParseAttribute] *)
Definition ParseAttribute (v : bytes) (c : Candidate) := parse v c.

(** * Priority

    int32 arithmetic. *)
Definition type_preference (t : CandidateType) : Z :=
  match t with
  | CandidateHost => 126
  | CandidateServerReflexive => 100
  | CandidatePeerReflexive => 110
  | CandidateRelay => 0
  | CandidateUnknown => 0
  end.

Definition calcCandidatePriority (t : CandidateType) (localPreference componentID : Z) : Z :=
  i32 (i32 (i32 (Z.shiftl (Z.land (type_preference t) 0xff) 24)
            + i32 (Z.shiftl (Z.land (i32 localPreference) 0xffff) 8))
       + Z.land (i32 (256 - i32 componentID)) 0xff).

(** * Examples *)

Example parse_example :
  ParseAttribute (bs "a=candidate:3862931549 1 udp 2113937151 192.168.220.128 56032 typ host generation 0 network-cost 50")
    zeroCandidate
  = (mkCandidate (bs "192.168.220.128:56032") [] [] TransportUDP [] 3862931549 1 2113937151
       CandidateHost 50 0 [], None).
Proof. vm_compute. reflexivity. Qed.

Example parse_pjnath :
  Foundation (ParseAttribute (bs "a=candidate:Sc0a82b28 1 UDP 1694498815 14.108.27.205 55501 typ srflx")
    zeroCandidate).1 = 0x0a82b28.
Proof. vm_compute. reflexivity. Qed.

(** * The loops on well formed text *)

Lemma parse_fields_word buf pre w1 w2 rest pos f c :
  buf = pre ++ (w1 ++ w2) ++ sp :: rest -> sp ∉ w2 -> (pos < 6)%nat -> fns !! pos = Some f ->
  parse_fields buf (w2 ++ sp :: rest) (length pre + length w1) pos (length w1) c =
  match f (w1 ++ w2) c with
  | inr e => (c, inr (FailedChar (length pre + length (w1 ++ w2)) pos e))
  | inl c' => parse_fields buf rest (S (length pre + length (w1 ++ w2))) (S pos) 0 c'
  end.
Proof.
  intros Hbuf Hw Hpos Hf. revert w1 Hbuf. induction w2 as [|b w2 IH]; intros w1 Hbuf.
  - rewrite app_nil_r in *. cbn [app parse_fields].
    destruct (Nat.ltb_spec (mandatoryElements - 1) pos) as [Hlt|_]; [unfold mandatoryElements in Hlt; lia|].
    rewrite bool_decide_eq_true_2 by done. cbn [negb]. rewrite Hf.
    replace (sub buf _ _) with w1; [done|]. unfold sub.
    replace (length pre + length w1 - length w1)%nat with (length pre) by lia.
    rewrite Hbuf, drop_app_length.
    replace (length pre + length w1 - length pre)%nat with (length w1) by lia.
    by rewrite take_app_length.
  - cbn [app parse_fields].
    destruct (Nat.ltb_spec (mandatoryElements - 1) pos) as [Hlt|_]; [unfold mandatoryElements in Hlt; lia|].
    rewrite bool_decide_eq_false_2 by set_solver. cbn [negb].
    specialize (IH ltac:(set_solver) (w1 ++ [b])). rewrite <- !app_assoc in IH. cbn [app] in IH.
    rewrite !length_app in IH. cbn [length] in IH.
    replace (length pre + (length w1 + 1))%nat with (S (length pre + length w1)) in IH by lia.
    replace (length w1 + 1)%nat with (S (length w1)) in IH by lia.
    rewrite !length_app. cbn [length]. rewrite IH by (by rewrite Hbuf, <- !app_assoc). done.
Qed.

(** One field; [pre] is what is before it. *)
Lemma parse_fields_field pre w rest pos f c c' :
  let buf := pre ++ w ++ sp :: rest in
  sp ∉ w -> (pos < 6)%nat -> fns !! pos = Some f -> f w c = inl c' ->
  parse_fields buf (w ++ sp :: rest) (length pre) pos 0 c =
  parse_fields buf rest (length (pre ++ w ++ [sp])) (S pos) 0 c'.
Proof.
  intros buf Hw Hpos Hf Hc. pose proof (parse_fields_word buf pre [] w rest pos f c eq_refl Hw Hpos Hf) as Hp.
  cbn [app length] in Hp. rewrite Nat.add_0_r, Hc in Hp. rewrite Hp. f_equal.
  rewrite !length_app. cbn. lia.
Qed.

Definition fields_text (ws : list bytes) : bytes := ws ≫= fun w => w ++ [sp].

Fixpoint run_fields (fs : list parseFn) (ws : list bytes) (c : Candidate) : option Candidate :=
  match fs, ws with
  | [], [] => Some c
  | f :: fs', w :: ws' =>
      match f w c with inl c' => run_fields fs' ws' c' | inr _ => None end
  | _, _ => None
  end.

Lemma parse_fields_all ws rest pre pos c c' :
  Forall (fun w => sp ∉ w) ws -> (pos + length ws = 6)%nat ->
  run_fields (drop pos fns) ws c = Some c' ->
  parse_fields (pre ++ fields_text ws ++ rest) (fields_text ws ++ rest) (length pre) pos 0 c
  = parse_fields (pre ++ fields_text ws ++ rest) rest (length (pre ++ fields_text ws)) 6 0 c'.
Proof.
  revert pre pos c. induction ws as [|w ws IH]; intros pre pos c Hws Hpos Hrun.
  - cbn in Hpos. assert (pos = 6%nat) as -> by lia. cbn in Hrun. injection Hrun as ->.
    cbn [fields_text mbind list_bind app]. by rewrite app_nil_r.
  - apply Forall_cons in Hws as [Hw Hws]. cbn [length] in Hpos.
    destruct (lookup_lt_is_Some_2 fns pos) as [f Hf]; [cbn; lia|].
    rewrite (drop_S _ f) in Hrun by done. cbn [run_fields] in Hrun.
    destruct (f w c) as [c1|] eqn:Hc1; [|done].
    change (fields_text (w :: ws)) with ((w ++ [sp]) ++ fields_text ws).
    rewrite <- !app_assoc. cbn [app].
    rewrite (parse_fields_field pre w (fields_text ws ++ rest) pos f c c1) by (done || lia).
    specialize (IH (pre ++ w ++ [sp]) (S pos) c1 Hws ltac:(lia) Hrun).
    rewrite <- !app_assoc in IH. cbn [app] in IH. rewrite IH. f_equal.
Qed.

(** ** The second loop *)

Lemma parse_pairs_key last buf w r i start c :
  sp ∉ w -> start <> 0%nat -> (i + length w < length buf)%nat ->
  parse_pairs last buf (w ++ r) i start 0 0 c = parse_pairs last buf r (i + length w) start 0 0 c.
Proof.
  revert i. induction w as [|b w IH]; intros i Hw Hs Hi; [by rewrite Nat.add_0_r|].
  cbn [app parse_pairs length] in *. rewrite bool_decide_eq_false_2 by set_solver.
  destruct (Nat.eqb_spec i (length buf - 1)) as [|_]; [lia|]. cbn [negb andb].
  destruct (Nat.eqb_spec start 0) as [|_]; [done|]. cbn [Nat.eqb andb negb].
  rewrite IH; [f_equal; lia|set_solver|done|lia].
Qed.

Lemma parse_pairs_value last buf w r i start fin vStart c :
  sp ∉ w -> start <> 0%nat -> fin <> 0%nat -> vStart <> 0%nat -> (i + length w < length buf)%nat ->
  parse_pairs last buf (w ++ r) i start fin vStart c
  = parse_pairs last buf r (i + length w) start fin vStart c.
Proof.
  revert i. induction w as [|b w IH]; intros i Hw Hs Hf Hv Hi; [by rewrite Nat.add_0_r|].
  cbn [app parse_pairs length] in *. rewrite bool_decide_eq_false_2 by set_solver.
  destruct (Nat.eqb_spec i (length buf - 1)) as [|_]; [lia|]. cbn [negb andb].
  destruct (Nat.eqb_spec start 0) as [|_]; [done|].
  destruct (Nat.eqb_spec vStart 0) as [|_]; [done|]. cbn [andb].
  rewrite IH; [f_equal; lia|set_solver|done|done|done|lia].
Qed.

Lemma sub_at (pre w rest : bytes) n m :
  n = length pre -> m = (length pre + length w)%nat -> sub (pre ++ w ++ rest) n m = w.
Proof.
  intros -> ->. unfold sub. rewrite drop_app_length.
  replace (length pre + length w - length pre)%nat with (length w) by lia. apply take_app_length.
Qed.

(** Up to the end of the first byte of the value. *)
Lemma parse_pairs_start last pre k b v rest c :
  let buf := pre ++ k ++ sp :: (b :: v) ++ rest in
  pre <> [] -> k <> [] -> sp ∉ k -> b <> sp -> (0 < length (v ++ rest))%nat ->
  parse_pairs last buf (k ++ sp :: (b :: v) ++ rest) (length pre) 0 0 0 c
  = parse_pairs last buf (v ++ rest) (S (S (length pre + length k))) (length pre)
      (length pre + length k) (S (length pre + length k)) c.
Proof.
  intros buf Hpre Hk Hsk Hb Hr. rewrite length_app in Hr.
  assert (length buf = (length pre + length k + 2 + length v + length rest)%nat) as Hlen.
  { unfold buf. rewrite !length_app. cbn [length app]. rewrite length_app. lia. }
  destruct pre as [|p0 pre0] eqn:Hpre0; [done|]. rewrite <- Hpre0 in *.
  assert (length pre <> 0%nat) as Hp by (rewrite Hpre0; done).
  destruct k as [|k0 k']; [done|]. cbn [app parse_pairs length] in *.
  rewrite bool_decide_eq_false_2 by set_solver.
  rewrite (proj2 (Nat.eqb_neq (length pre) _)) by lia. rewrite Nat.eqb_refl. cbn [negb andb].
  rewrite parse_pairs_key; [|set_solver|done|lia]. cbn [parse_pairs].
  rewrite bool_decide_eq_true_2 by done. rewrite Nat.eqb_refl. cbn [negb andb].
  rewrite (proj2 (Nat.eqb_neq (length pre) 0)) by done.
  rewrite bool_decide_eq_false_2 by done.
  rewrite (proj2 (Nat.eqb_neq (S (S (length pre) + length k')) _)) by lia. cbn [negb andb].
  replace (S (length pre) + length k')%nat with (length pre + S (length k'))%nat by lia.
  by rewrite (proj2 (Nat.eqb_neq (length pre + S (length k')) 0)) by lia.
Qed.

(** A pair that is followed by a space. *)
Lemma parse_pairs_pair last pre k v rest c c' :
  let buf := pre ++ k ++ sp :: v ++ sp :: rest in
  pre <> [] -> k <> [] -> v <> [] -> sp ∉ k -> sp ∉ v -> parseAttribute k v c = inl c' ->
  parse_pairs last buf (k ++ sp :: v ++ sp :: rest) (length pre) 0 0 0 c
  = parse_pairs last buf rest (length (pre ++ k ++ sp :: v ++ [sp])) 0 0 0 c'.
Proof.
  intros buf Hpre Hk Hv Hsk Hsv Hp. destruct v as [|b v]; [done|].
  unfold buf. rewrite parse_pairs_start; [|done|done|done|set_solver|rewrite length_app; cbn; lia].
  assert (length buf = (length pre + length k + 3 + length v + length rest)%nat) as Hlen.
  { unfold buf. rewrite !length_app. cbn [length app]. rewrite length_app. cbn. lia. }
  assert (0 < length pre)%nat by (destruct pre; [done|cbn; lia]). fold buf.
  rewrite parse_pairs_value; [|set_solver|lia..]. cbn [parse_pairs].
  rewrite bool_decide_eq_true_2 by done. cbn [negb andb]. rewrite andb_false_r.
  destruct (Nat.eqb_spec (length pre) 0); [lia|].
  destruct (Nat.eqb_spec (length pre + length k) 0); [lia|]. cbn [Nat.eqb].
  assert (sub buf (length pre) (length pre + length k) = k) as -> by (by apply sub_at).
  assert (sub buf (S (length pre + length k)) (S (S (length pre + length k)) + length v) = b :: v) as ->.
  { unfold buf.
    replace (pre ++ k ++ sp :: (b :: v) ++ sp :: rest)
      with ((pre ++ k ++ [sp]) ++ (b :: v) ++ sp :: rest) by (by rewrite <- !app_assoc).
    apply sub_at; rewrite !length_app; cbn; lia. }
  rewrite Hp. f_equal. rewrite !length_app. cbn [length app]. rewrite length_app. cbn. lia.
Qed.

(** The last pair; its value must have two bytes to be seen. *)
Lemma parse_pairs_last last pre k v c c' :
  let buf := pre ++ k ++ sp :: v in
  pre <> [] -> k <> [] -> (2 <= length v)%nat -> sp ∉ k -> sp ∉ v ->
  parseAttribute k v c = inl c' ->
  parse_pairs last buf (k ++ sp :: v) (length pre) 0 0 0 c = (c', None).
Proof.
  intros buf Hpre Hk Hv Hsk Hsv Hp. destruct v as [|b v]; [cbn in Hv; lia|].
  destruct v as [|e v0 _] using rev_ind; [cbn in Hv; lia|].
  assert (length buf = (length pre + length k + 3 + length v0)%nat) as Hlen.
  { unfold buf. rewrite !length_app. cbn [length app]. rewrite length_app. cbn. lia. }
  assert (0 < length pre)%nat by (destruct pre; [done|cbn; lia]).
  pose proof (parse_pairs_start last pre k b v0 [e] c Hpre Hk Hsk ltac:(set_solver)
                ltac:(rewrite length_app; cbn; lia)) as Hst.
  cbn [app] in Hst |- *. fold buf in Hst. rewrite Hst.
  rewrite parse_pairs_value; [|set_solver|lia..]. cbn [parse_pairs].
  rewrite bool_decide_eq_false_2 by set_solver.
  destruct (Nat.eqb_spec (S (S (length pre + length k)) + length v0) (length buf - 1)); [|lia].
  cbn [negb andb].
  destruct (Nat.eqb_spec (length pre) 0); [lia|].
  destruct (Nat.eqb_spec (length pre + length k) 0); [lia|]. cbn [Nat.eqb].
  assert (sub buf (length pre) (length pre + length k) = k) as -> by (by apply sub_at).
  assert (sub buf (S (length pre + length k)) (length buf) = b :: v0 ++ [e]) as ->.
  { unfold buf. replace (pre ++ k ++ sp :: b :: v0 ++ [e])
      with ((pre ++ k ++ [sp]) ++ (b :: v0 ++ [e]) ++ []) by (by rewrite <- !app_assoc, app_nil_r).
    apply sub_at; rewrite ?length_app; cbn; rewrite ?length_app; cbn; lia. }
  by rewrite Hp.
Qed.

(** * Printing and parsing *)

Lemma last_index_from_app i sep l1 l2 found :
  sep ∉ l2 -> last_index_from i sep (l1 ++ sep :: l2) found = Some (i + length l1)%nat.
Proof.
  intros Hl2. revert i found. induction l1 as [|c l1 IH]; intros i found; cbn.
  - rewrite bool_decide_eq_true_2 by done. rewrite Nat.add_0_r.
    assert (forall j f, last_index_from j sep l2 f = f) as Hno; [|apply Hno].
    induction l2 as [|d l2 IH]; [done|]. intros j f. cbn.
    rewrite bool_decide_eq_false_2 by set_solver. apply IH. set_solver.
  - rewrite IH. f_equal. lia.
Qed.

(** A host name or dotted address, or a port. *)
Definition plain (w : bytes) : Prop :=
  w <> [] /\ (sp ∉ w) /\ (colon ∉ w) /\ (lbracket ∉ w) /\ (rbracket ∉ w).

Lemma plain_text w :
  w <> [] -> forallb (fun c => negb (bool_decide (c = sp) || bool_decide (c = colon)
    || bool_decide (c = lbracket) || bool_decide (c = rbracket))) w = true -> plain w.
Proof.
  intros Hw Hf. split; [done|]. rewrite forallb_forall in Hf.
  split_and!; intros Hin; apply list_elem_of_In, Hf in Hin; by vm_compute in Hin.
Qed.

Lemma SplitHostPort_plain host port :
  plain host -> plain port -> SplitHostPort (host ++ colon :: port) = Some (host, port).
Proof.
  intros (Hh1 & _ & Hh3 & Hh4 & Hh5) (_ & _ & Hp3 & Hp4 & Hp5). unfold SplitHostPort, last_index.
  rewrite last_index_from_app by done. cbn [Nat.add].
  rewrite bool_decide_eq_false_2.
  2:{ destruct host as [|c host]; [done|]. cbn. intros [= ->]. set_solver. }
  rewrite take_app_length.
  rewrite (index_of_none colon host), (index_of_none lbracket), (index_of_none rbracket)
    by (done || (rewrite not_elem_of_app, not_elem_of_cons; split_and!; done)).
  rewrite bool_decide_eq_false_2 by (by intros [? [=]]). cbn [orb].
  do 2 f_equal. change (S (length host)) with (1 + length host)%nat.
  rewrite Nat.add_comm, <- drop_drop, drop_app_length. done.
Qed.

Lemma itoa_digits n : 0 <= n -> Forall (fun c => is_Some (digit_val c)) (itoa n).
Proof. intros Hn. unfold itoa. rewrite (proj2 (Z.ltb_ge n 0)) by done. by apply format_uint_digits. Qed.

Lemma digit_not_sp l : Forall (fun c => is_Some (digit_val c)) l -> sp ∉ l.
Proof. intros Hl Hin. rewrite Forall_forall in Hl. destruct (Hl _ Hin) as [x Hx]. done. Qed.

Lemma skip_to_digit_number l :
  Forall (fun c => is_Some (digit_val c)) l -> skip_to_digit l = l.
Proof.
  destruct l as [|c [|d l]]; [done|done|]. intros Hl. apply Forall_cons in Hl as [[x Hc] _].
  cbn [skip_to_digit]. unfold digit_val in Hc. unfold is_digit. by destruct (_ && _).
Qed.

Lemma parseInt_itoa n : 0 <= n < 2 ^ 63 -> parseInt (itoa n) = Some n.
Proof.
  intros Hn. unfold parseInt. rewrite skip_to_digit_number by (apply itoa_digits; lia).
  by rewrite atoi_itoa by lia.
Qed.

Definition pair_text (kv : bytes * bytes) : bytes := kv.1 ++ sp :: kv.2.
Fixpoint pairs_text (l : list (bytes * bytes)) : bytes :=
  match l with
  | [] => []
  | [kv] => pair_text kv
  | kv :: l' => pair_text kv ++ sp :: pairs_text l'
  end.
Fixpoint run_pairs (l : list (bytes * bytes)) (c : Candidate) : option Candidate :=
  match l with
  | [] => Some c
  | (k, v) :: l' =>
      match parseAttribute k v c with inl c' => run_pairs l' c' | inr _ => None end
  end.
Definition pair_ok (kv : bytes * bytes) : Prop :=
  kv.1 <> [] /\ kv.2 <> [] /\ (sp ∉ kv.1) /\ (sp ∉ kv.2).

Lemma parse_pairs_all n l pre c c' :
  pre <> [] -> Forall pair_ok l -> (forall kv, last l = Some kv -> (2 <= length kv.2)%nat) ->
  run_pairs l c = Some c' ->
  parse_pairs n (pre ++ pairs_text l) (pairs_text l) (length pre) 0 0 0 c = (c', None).
Proof.
  revert pre c. induction l as [|[k v] l IH]; intros pre c Hpre Hl Hlast Hrun.
  { cbn in *. by injection Hrun as ->. }
  apply Forall_cons in Hl as [(Hk & Hv & Hsk & Hsv) Hl]. cbn [fst snd] in *.
  cbn [run_pairs] in Hrun. destruct (parseAttribute k v c) as [c1|] eqn:Hc1; [|done].
  destruct l as [|kv l].
  - cbn in Hrun. injection Hrun as ->. unfold pairs_text, pair_text. cbn [fst snd].
    apply parse_pairs_last; try done. by apply (Hlast (k, v)).
  - change (pairs_text ((k, v) :: kv :: l)) with ((k ++ sp :: v) ++ sp :: pairs_text (kv :: l)).
    rewrite <- !app_assoc. cbn [app].
    rewrite (parse_pairs_pair n pre k v (pairs_text (kv :: l)) c c1) by done.
    replace (pre ++ k ++ sp :: v ++ sp :: pairs_text (kv :: l))
      with ((pre ++ k ++ sp :: v ++ [sp]) ++ pairs_text (kv :: l))
      by (rewrite <- !app_assoc; cbn; by rewrite <- !app_assoc).
    apply IH; [by destruct pre|done|done|done].
Qed.

(** The six fields, and what follows them. *)
Lemma parse_mandatory ws rest c c1 :
  Forall (fun w => sp ∉ w) ws -> length ws = 6%nat -> run_fields fns ws c = Some c1 ->
  rest <> [] ->
  ParseAttribute (bs "a=candidate:" ++ fields_text ws ++ rest) c =
  parse_pairs (length (fields_text ws)) ([sp] ++ rest) rest (length [sp]) 0 0 0 c1.
Proof.
  intros Hws H6 Hrun Hne. unfold ParseAttribute, parse. set (text := fields_text ws ++ rest).
  change (bs "a=candidate:" ++ text) with (zb 97 :: zb 61 :: bs "candidate:" ++ text).
  rewrite (proj2 (Nat.ltb_ge _ minBufLen)) by (cbn; unfold minBufLen; lia).
  change (if bool_decide (head (zb 97 :: zb 61 :: bs "candidate:" ++ text) = Some (zb 97))
          then trim_prefix (bs "a=") (zb 97 :: zb 61 :: bs "candidate:" ++ text) else _)
    with (bs "candidate:" ++ text).
  change (if bool_decide (head (bs "candidate:" ++ text) = Some (zb 99))
          then trim_prefix (bs "candidate:") (bs "candidate:" ++ text) else _)
    with text.
  pose proof (parse_fields_all ws rest [] 0 c c1 Hws ltac:(lia) Hrun) as Hf.
  cbn [app length] in Hf. unfold text at 1 2. rewrite Hf.
  assert (exists x, fields_text ws = x ++ [sp]) as [x Hx].
  { destruct ws as [|w ws'] using rev_ind; [done|]. exists (fields_text ws' ++ w).
    unfold fields_text. rewrite bind_app. cbn. by rewrite app_nil_r, <- app_assoc. }
  destruct rest as [|b r]; [done|]. cbn [parse_fields].
  change (mandatoryElements - 1 <? 6)%nat with true. cbn iota.
  rewrite (proj2 (Nat.eqb_neq _ 0)) by (rewrite Hx, length_app; cbn; lia).
  assert (drop (length (fields_text ws) - 1) text = [sp] ++ b :: r) as ->; [|done].
  unfold text. rewrite Hx, length_app. cbn [length].
  replace (length x + 1 - 1)%nat with (length x) by lia. by rewrite <- app_assoc, drop_app_length.
Qed.

(** A whole line: six fields and at least one pair. *)
Lemma parse_line ws l c c1 c2 :
  Forall (fun w => sp ∉ w) ws -> length ws = 6%nat -> run_fields fns ws c = Some c1 ->
  l <> [] -> Forall pair_ok l ->
  (forall kv, last l = Some kv -> (2 <= length kv.2)%nat) ->
  run_pairs l c1 = Some c2 ->
  ParseAttribute (bs "a=candidate:" ++ fields_text ws ++ pairs_text l) c = (c2, None).
Proof.
  intros Hws H6 Hrun Hne Hl Hlast Hpairs. rewrite (parse_mandatory ws _ c c1); try done.
  - by apply parse_pairs_all.
  - destruct l as [|[k v] l]; [done|]. apply Forall_cons in Hl as [(Hk & _) _]. cbn in Hk.
    destruct k; [done|]. by destruct l.
Qed.

Lemma text_no_sp w : forallb (fun c => negb (bool_decide (c = sp))) w = true -> sp ∉ w.
Proof.
  intros Hw Hin. rewrite forallb_forall in Hw. apply list_elem_of_In, Hw in Hin.
  by rewrite bool_decide_eq_true_2 in Hin.
Qed.

(** A candidate that the text can carry: IPv4 or a host name. *)
Record printable (c : Candidate) : Prop := {
  pr_foundation : 0 <= Foundation c < 2 ^ 63;
  pr_component : 0 <= ComponentID c < 2 ^ 63;
  pr_priority : 0 <= Priority c < 2 ^ 63;
  pr_transport : transport c = TransportUDP;
  pr_type : Type_ c <> CandidateUnknown;
  pr_addr : exists host port, addr c = host ++ colon :: port /\ plain host /\ plain port;
  pr_base : Type_ c = CandidateServerReflexive ->
    exists host port, baseAddr c = host ++ colon :: port /\ plain host /\ plain port /\
      (2 <= length port)%nat
}.

Lemma sp_text (ws : list bytes) : fields_text ws = ws ≫= fun w => w ++ [sp].
Proof. done. Qed.

Lemma candidate_roundtrip c c0 :
  printable c ->
  exists c', ParseAttribute (Candidate_String c) c0 = (c', None) /\ Candidate_Equal c c' = true /\
    (Type_ c = CandidateServerReflexive -> relatedAddr c' = baseAddr c).
Proof.
  intros [Hf Hc Hp Ht Hty (host & port & Ha & Hh & Hpo) Hbase].
  set (ws := [itoa (Foundation c); itoa (ComponentID c); bs "UDP"; itoa (Priority c); host; port]).
  set (c1 := set_addr (host ++ bs ":" ++ port) (set_addr host (set_Priority (Priority c)
    (set_transport TransportUDP (transportValue c0) (set_ComponentID (ComponentID c)
       (set_Foundation (Foundation c) c0)))))).
  assert (run_fields fns ws c0 = Some c1) as Hrun.
  { unfold ws. cbn [run_fields fns]. unfold parseFoundation, parseComponentID, parsePriority, parse_int_field.
    rewrite !parseInt_itoa by done. done. }
  assert (Forall (fun w => sp ∉ w) ws) as Hws.
  { unfold ws. destruct Hh as (_ & Hh & _), Hpo as (_ & Hpo & _).
    repeat constructor; try done; try (apply digit_not_sp, itoa_digits; lia).
    by apply text_no_sp. }
  assert (forall t, t <> CandidateUnknown ->
            parseType (CandidateType_String t) c1 = inl (set_Type t c1)) as Htype by (by intros []).
  assert (forall c', addr c' = addr c -> transport c' = transport c -> Foundation c' = Foundation c ->
    ComponentID c' = ComponentID c -> Priority c' = Priority c -> Type_ c' = Type_ c ->
    Candidate_Equal c c' = true) as Heq.
  { intros c' H1 H2 H3 H4 H5 H6. unfold Candidate_Equal. rewrite H1, H2, H3, H4, H5, H6. by rewrite !bool_decide_eq_true_2, !Z.eqb_refl. }
  unfold Candidate_String. rewrite Ha, SplitHostPort_plain by done. cbn [default from_option id].
  rewrite Ht. case_bool_decide as Hsr.
  - destruct (Hbase Hsr) as (rh & rp & Hb & Hrh & Hrp & Hlen). rewrite Hb, SplitHostPort_plain by done.
    cbn [default from_option id]. rewrite Hsr.
    exists (set_relatedAddr (rh ++ bs ":" ++ rp) (set_relatedAddr rh (set_Type CandidateServerReflexive c1))).
    split.
    + rewrite <- (parse_line ws [(aType, bs "srflx"); (aRelatedAddress, rh); (aRelatedPort, rp)] c0 c1);
        try done.
      * f_equal. unfold ws, fields_text, pairs_text, pair_text. cbn [mbind list_bind fst snd].
        rewrite <- !app_assoc. cbn [app]. reflexivity.
      * destruct Hrh as (? & ? & _), Hrp as (? & ? & _).
        repeat constructor; try done; by apply text_no_sp.
      * intros kv [= <-]. done.
    + split; [apply Heq; cbn; rewrite ?Hsr; done|]. by intros _.
  - exists (set_Type (Type_ c) c1). split; [|split; [apply Heq; done|done]].
    rewrite <- (parse_line ws [(aType, CandidateType_String (Type_ c))] c0 c1 (set_Type (Type_ c) c1));
      try done.
    + f_equal. unfold ws, fields_text, pairs_text, pair_text. cbn [mbind list_bind fst snd].
      rewrite <- !app_assoc. cbn [app]. reflexivity.
    + repeat constructor; destruct (Type_ c); try done; by apply text_no_sp.
    + intros kv [= <-]. destruct (Type_ c); cbn; try done; lia.
    + cbn [run_pairs]. unfold parseAttribute. change (bool_decide (aType = aGeneration)) with false.
      change (bool_decide (aType = aNetworkCost)) with false.
      change (bool_decide (aType = aType)) with true. cbn iota. by rewrite Htype.
Qed.

(** * The priority formula of RFC 5245 section 4.1.2.1 *)

Lemma i32_id z : - 2 ^ 31 <= z < 2 ^ 31 -> i32 z = z.
Proof. intros. unfold i32. rewrite Z.mod_small; lia. Qed.

Lemma type_preference_range t : 0 <= type_preference t <= 126.
Proof. destruct t; cbn; lia. Qed.

Lemma calcCandidatePriority_formula t localPreference componentID :
  0 <= localPreference < 2 ^ 16 -> 1 <= componentID <= 256 ->
  calcCandidatePriority t localPreference componentID
  = 2 ^ 24 * type_preference t + 2 ^ 8 * localPreference + (256 - componentID).
Proof.
  intros Hl Hc. pose proof (type_preference_range t) as Ht. unfold calcCandidatePriority.
  change 0xffff with (Z.ones 16). change 0xff with (Z.ones 8).
  rewrite !Z.land_ones by lia. rewrite (i32_id localPreference), (i32_id componentID) by lia.
  rewrite (i32_id (256 - componentID)) by lia.
  rewrite (Z.mod_small localPreference), (Z.mod_small (type_preference t)),
    (Z.mod_small (256 - componentID)) by lia.
  rewrite !Z.shiftl_mul_pow2 by lia.
  rewrite (i32_id (type_preference t * _)), (i32_id (localPreference * _)) by lia.
  rewrite (i32_id (_ * _ + _ * _)) by lia. rewrite i32_id by lia. lia.
Qed.
