(* ===== verification/NetAddr.v ===== *)
(** Network addresses as text: what [src/ice/util.go], the [String] methods of
    [src/stun/addr.go] and [xoraddr.go], and [calcFoundation] of
    [src/ice/gather.go] use of the [net] package.

    An IP is the list of its bytes: 4, or 16 with IPv4 addresses mapped, or
    empty for nil.  [net.ParseIP] is that of the Go releases this code was
    written for: leading zeros are decimal. *)
From stdpp Require Import base list sets strings.
From Stdlib Require Import ZArith Lia.
From S2P Require Import Prelude Wire GoFmt GoSlice Crypto StunAddr IceCandidate.
Open Scope Z_scope.

Definition dot : byte := zb 46.

(** [IP.To4], as a list that is empty for nil. *)
Definition v4_prefix : bytes := replicate 10 Byte.x00 ++ [zb 255; zb 255].
Definition To4 (ip : bytes) : bytes :=
  if (length ip =? 4)%nat then ip
  else if (length ip =? 16)%nat && bool_decide (take 12 ip = v4_prefix) then drop 12 ip
  else [].

Definition dotted (ip : bytes) : bytes := join [dot] (map (fun b => itoa (bz b)) ip).

(** The sixteen bit groups of an IPv6 address. *)
Fixpoint groups (ip : bytes) : list Z :=
  match ip with
  | a :: b :: ip' => get16 [a; b] :: groups ip'
  | _ => []
  end.

Fixpoint zero_run (l : list Z) : nat :=
  match l with 0 :: l' => S (zero_run l') | _ => 0 end.

(** The first longest run of at least two zero groups, as start and length. *)
Fixpoint longest_run (fuel i : nat) (l : list Z) (best : nat * nat) : nat * nat :=
  match fuel, l with
  | S fuel', _ :: l' =>
      let n := zero_run l in
      if (best.2 <? n)%nat
      then longest_run fuel' (i + S n) (drop (S n) l) (i, n)
      else longest_run fuel' (S i) l' best
  | _, _ => best
  end.

Definition IP_String (ip : bytes) : bytes :=
  match ip with
  | [] => bs "<nil>"
  | _ =>
      match To4 ip with
      | _ :: _ => dotted (To4 ip)
      | [] =>
          if negb (length ip =? 16)%nat then bs "?" ++ hex_bytes ip
          else
            let gs := groups ip in
            let '(e, n) := longest_run 8 0 gs (0%nat, 1%nat) in
            let hex l := join [colon] (map fmt_x l) in
            if (n <=? 1)%nat then hex gs
            else hex (take e gs) ++ bs "::" ++ hex (drop (e + n) gs)
      end
  end.

(** [net.JoinHostPort] *)
Definition JoinHostPort (host port : bytes) : bytes :=
  if bool_decide (is_Some (index_of colon host)) || bool_decide (is_Some (index_of (zb 37) host))
  then [lbracket] ++ host ++ [rbracket; colon] ++ port
  else host ++ [colon] ++ port.

(** ** Parsing *)

Definition big : Z := 0xFFFFFF.

(** [dtoi] and [xtoi]: the number in front and what follows it. *)
Fixpoint digits_from (val : byte -> option Z) (base : Z) (s : bytes) (n : Z) (seen : bool) :
    option (Z * bytes) :=
  match s with
  | c :: s' =>
      match val c with
      | Some d =>
          let n := n * base + d in
          if big <=? n then None else digits_from val base s' n true
      | None => if seen then Some (n, s) else None
      end
  | [] => if seen then Some (n, []) else None
  end.
Definition dtoi (s : bytes) := digits_from digit_val 10 s 0 false.
Definition xtoi (s : bytes) := digits_from hex_val 16 s 0 false.

Fixpoint parse_quad (k : nat) (s : bytes) : option bytes :=
  match k with
  | O => match s with [] => Some [] | _ => None end
  | S k' =>
      match dtoi s with
      | Some (n, s') =>
          if 0xFF <? n then None
          else
            match k', s' with
            | O, [] => Some [zb n]
            | S _, c :: s'' =>
                if bool_decide (c = dot) then cons (zb n) <$> parse_quad k' s'' else None
            | _, _ => None
            end
      | None => None
      end
  end.
Definition parseIPv4 (s : bytes) : option bytes := parse_quad 4 s.

(** The loop of [parseIPv6]: the bytes so far, and where the ellipsis is. *)
Fixpoint v6_loop (fuel : nat) (s ip : bytes) (ellipsis : option nat) :
    option (bytes * bytes * option nat) :=
  match fuel with
  | O => Some (s, ip, ellipsis)
  | S fuel' =>
      if (16 <=? length ip)%nat then Some (s, ip, ellipsis)
      else
        match xtoi s with
        | None => None
        | Some (n, s') =>
            if 0xFFFF <? n then None
            else
              match s' with
              | [] => Some ([], ip ++ put16 n, ellipsis)
              | c :: s'' =>
                  if bool_decide (c = dot) then
                    if bool_decide (ellipsis = None) && negb (length ip =? 12)%nat then None
                    else if (16 <? length ip + 4)%nat then None
                    else
                      match parseIPv4 s with
                      | None => None
                      | Some q => Some ([], ip ++ q, ellipsis)
                      end
                  else if negb (bool_decide (c = colon)) then None
                  else
                    let ip := ip ++ put16 n in
                    match s'' with
                    | [] => None
                    | c2 :: s3 =>
                        if bool_decide (c2 = colon) then
                          match ellipsis with
                          | Some _ => None
                          | None =>
                              match s3 with
                              | [] => Some ([], ip, Some (length ip))
                              | _ => v6_loop fuel' s3 ip (Some (length ip))
                              end
                          end
                        else v6_loop fuel' s'' ip ellipsis
                    end
              end
        end
  end.

Definition parseIPv6 (s : bytes) : option bytes :=
  let start :=
    if bool_decide (take 2 s = bs "::") then (drop 2 s, Some 0%nat) else (s, None) in
  if bool_decide (start = ([], Some 0%nat)) then Some (replicate 16 Byte.x00)
  else
    match v6_loop 8 start.1 [] start.2 with
    | Some ([], ip, ellipsis) =>
        if (length ip <? 16)%nat then
          match ellipsis with
          | None => None
          | Some e => Some (take e ip ++ replicate (16 - length ip) Byte.x00 ++ drop e ip)
          end
        else match ellipsis with Some _ => None | None => Some ip end
    | _ => None
    end.

(** [net.ParseIP]: nil is the empty list. *)
Fixpoint first_separator (s : bytes) : option byte :=
  match s with
  | [] => None
  | c :: s' => if bool_decide (c = dot) || bool_decide (c = colon) then Some c else first_separator s'
  end.
Definition ParseIP (s : bytes) : bytes :=
  match first_separator s with
  | None => []
  | Some c =>
      if bool_decide (c = dot)
      then match parseIPv4 s with Some q => v4_prefix ++ q | None => [] end
      else default [] (parseIPv6 s)
  end.

Definition UDPAddr : Type := bytes * Z.
(** [net.UDPAddr.String]; the zone is empty. *)
Definition UDPAddr_String (a : UDPAddr) : bytes :=
  JoinHostPort (match a.1 with [] => [] | ip => IP_String ip end) (itoa a.2).

(** ** The functions of the program *)

(** [strconv.Atoi] when its error is only logged: zero on a syntax error, the
    nearest int64 on overflow. *)
Definition atoi_value (s : bytes) : Z :=
  match atoi s with
  | Ok n => n
  | Err ErrRange => if bool_decide (head s = Some (zb 45)) then - 2 ^ 63 else 2 ^ 63 - 1
  | _ => 0
  end.

(** [addrToUDPAddr]: errors are logged, not returned. *)
Definition addrToUDPAddr (addr : bytes) : bytes * Z :=
  let '(host, port) := default ([], []) (SplitHostPort addr) in
  (ParseIP host, atoi_value port).

(** [udpAddrToAddr] *)
Definition udpAddrToAddr (udpAddr : bytes * Z) : bytes :=
  IP_String udpAddr.1 ++ bs ":" ++ itoa udpAddr.2.

(** [XORMappedAddress.String], [MappedAddress.String] *)
Definition Address_String (a : Address) : bytes :=
  JoinHostPort (IP_String (visible (IP a))) (itoa (Port a)).

(** [net.IP.Equal] *)
Definition IP_Equal (ip x : bytes) : bool :=
  if (length ip =? length x)%nat then bool_decide (ip = x)
  else if (length ip =? 4)%nat && (length x =? 16)%nat then bool_decide (take 12 x = v4_prefix /\ ip = drop 12 x)
  else if (length ip =? 16)%nat && (length x =? 4)%nat then bool_decide (take 12 ip = v4_prefix /\ drop 12 ip = x)
  else false.

(** [AddressType] is a byte; its text panics for values it does not have. *)
Definition AddressIPv4 : Z := 0.
Definition AddressIPv6 : Z := 1.
Definition AddressFQDN : Z := 2.
Definition AddressType_String (a : Z) : result Empty_set bytes :=
  if a =? AddressIPv4 then Ok (bs "IPv4")
  else if a =? AddressIPv6 then Ok (bs "IPv6")
  else if a =? AddressFQDN then Ok (bs "FQDN")
  else Panic (PanicCall (bs "unexpected address type")).

(** [ConnectionAddress] with its [reset], [Equal] and [str], of
    [src/ice/candidate.go]. *)
Record ConnectionAddress := mkConnectionAddress {
  ca_Host : bytes;
  ca_IP : bytes;
  ca_Type : Z
}.
Definition ConnectionAddress_reset (a : ConnectionAddress) : ConnectionAddress :=
  mkConnectionAddress [] (map (fun _ => Byte.x00) (ca_IP a)) AddressIPv4.
Definition ConnectionAddress_Equal (a b : ConnectionAddress) : bool :=
  if negb (ca_Type a =? ca_Type b) then false
  else if ca_Type a =? AddressFQDN then bool_decide (ca_Host a = ca_Host b)
  else IP_Equal (ca_IP a) (ca_IP b).
Definition ConnectionAddress_String (a : ConnectionAddress) : bytes :=
  if ca_Type a =? AddressFQDN then ca_Host a else IP_String (ca_IP a).

(** [calcFoundation] *)
Definition calcFoundation (baseAddr : bytes) : Z := get32 (take 4 (md5 baseAddr)).

(** Constants of [src/ice/gather.go]. *)
Definition defaultPreference : Z := 0xffff.
Definition maxCandidates : nat := 8.

Example ip_1 : IP_String [zb 192; zb 0; zb 2; zb 1] = bs "192.0.2.1".
Proof. vm_compute. reflexivity. Qed.
Example ip_2 : IP_String (ParseIP (bs "2001:db8:0:0:1:0:0:1")) = bs "2001:db8::1:0:0:1".
Proof. vm_compute. reflexivity. Qed.
Example ip_3 : IP_String (ParseIP (bs "::ffff:10.1.2.3")) = bs "10.1.2.3".
Proof. vm_compute. reflexivity. Qed.
Example ip_4 : map ParseIP [bs "1.2.3"; bs "1.2.3.256"; bs ":"; bs "1::2::3"; bs "localhost"]
  = [[]; []; []; []; []].
Proof. vm_compute. reflexivity. Qed.
Example ip_5 : map (fun s => IP_String (ParseIP (bs s))) ["::"; "::1"; "fe80::"; "1:2:3:4:5:6:7:8"]%string
  = map bs ["::"; "::1"; "fe80::"; "1:2:3:4:5:6:7:8"]%string.
Proof. vm_compute. reflexivity. Qed.

(** * Equality of addresses *)

(** The shortest form of an IP: what [IP.Equal] compares. *)
Definition canonical (ip : bytes) : bytes := match To4 ip with [] => ip | v => v end.

Lemma To4_cases ip :
  length ip = 4%nat /\ To4 ip = ip \/
  length ip = 16%nat /\ take 12 ip = v4_prefix /\ To4 ip = drop 12 ip \/
  length ip <> 4%nat /\ (length ip = 16%nat -> take 12 ip <> v4_prefix) /\ To4 ip = [].
Proof.
  unfold To4. destruct (Nat.eqb_spec (length ip) 4); [by left|].
  destruct (Nat.eqb_spec (length ip) 16); cbn [andb]; [case_bool_decide|]; auto 10.
Qed.

Lemma canonical_cases ip :
  length ip = 4%nat /\ canonical ip = ip \/
  length ip = 16%nat /\ ip = v4_prefix ++ canonical ip /\ length (canonical ip) = 4%nat \/
  length ip <> 4%nat /\ (length ip = 16%nat -> take 12 ip <> v4_prefix) /\ canonical ip = ip.
Proof.
  unfold canonical. destruct (To4_cases ip) as [[Hl ->]|[(Hl & Hp & ->)|(Hl & Hp & ->)]].
  - left. split; [done|]. by destruct ip.
  - right. left. assert (length (drop 12 ip) = 4%nat) as Hd by (rewrite length_drop; lia).
    destruct (drop 12 ip) eqn:E; [done|]. split; [done|]. split; [|done]. by rewrite <- E, <- Hp, take_drop.
  - auto 10.
Qed.

(** [IP.Equal] compares the shortest forms. *)
Lemma IP_Equal_canonical ip x : IP_Equal ip x = true <-> canonical ip = canonical x.
Proof.
  unfold IP_Equal. pose proof (canonical_cases ip) as Hi. pose proof (canonical_cases x) as Hx.
  revert Hi Hx. generalize (canonical ip) as v, (canonical x) as w. intros v w.
  intros [[Hl ->]|[(Hl & -> & Hv)|(Hl & Hp & ->)]] [[Hl' ->]|[(Hl' & -> & Hw)|(Hl' & Hp' & ->)]].
  all: repeat match goal with |- context [(?a =? ?b)%nat] => destruct (Nat.eqb_spec a b); cbn [andb] end;
    try lia; rewrite ?bool_decide_eq_true; try tauto.
  all: split; [intros Heq|intros Heq; try (apply (f_equal length) in Heq; congruence)].
  all: try done; try (exfalso; naive_solver).
  all: try (by apply app_inv_head in Heq); try (by subst).
  - exfalso. subst x. by apply Hp'.
  - exfalso. subst ip. by apply Hp.
Qed.

(** Addresses that [IP.Equal] takes for equal. *)
Definition ip_equiv (ip x : bytes) : Prop := IP_Equal ip x = true.
#[export] Instance ip_equiv_equivalence : Equivalence ip_equiv.
Proof.
  unfold ip_equiv. split.
  - intros ip. by apply IP_Equal_canonical.
  - intros ip x H%IP_Equal_canonical. by apply IP_Equal_canonical.
  - intros ip x y H%IP_Equal_canonical H'%IP_Equal_canonical. apply IP_Equal_canonical. congruence.
Qed.

Lemma IP_String_canonical ip : IP_String ip = IP_String (canonical ip).
Proof.
  destruct (canonical_cases ip) as [[_ ->]|[(Hl & Hi & Hv)|(_ & _ & ->)]]; try done.
  assert (To4 ip = canonical ip) as H4.
  { rewrite Hi at 1. by destruct (canonical ip) as [|? [|? [|? [|? [|]]]]]. }
  assert (To4 (canonical ip) = canonical ip) as H4' by (unfold To4; by rewrite Hv).
  unfold IP_String. rewrite H4, H4'. destruct (canonical ip); [done|]. by destruct ip.
Qed.

(** Equal addresses have the same text. *)
#[export] Instance IP_String_proper : Proper (ip_equiv ==> eq) IP_String.
Proof.
  intros ip x H%IP_Equal_canonical. rewrite (IP_String_canonical ip), (IP_String_canonical x). by rewrite H.
Qed.

Lemma ConnectionAddress_Equal_String a b :
  ConnectionAddress_Equal a b = true -> ConnectionAddress_String a = ConnectionAddress_String b.
Proof.
  unfold ConnectionAddress_Equal, ConnectionAddress_String. destruct (Z.eqb_spec (ca_Type a) (ca_Type b)) as [->|]; [|done].
  cbn [negb]. destruct (ca_Type b =? AddressFQDN); [by rewrite bool_decide_eq_true|]. intros H. fold (ip_equiv (ca_IP a) (ca_IP b)) in H.
  by rewrite H.
Qed.
