(* ===== verification/StunText.v ===== *)
(** Messages and errors of the stun package as text: [Message.String] with
    [getAttrIntercepter], which reads attributes again and so can panic, the
    [String] methods of the attributes and the [Error] methods that StunTypes
    does not hold.

    Packages that log a message call [Message.String] before the logger decides
    whether to print, so its panics are those of the caller. *)
From stdpp Require Import base list sets strings.
From Stdlib Require Import ZArith Lia.
From S2P Require Import StunAgent StunClient.
From S2P Require Import Prelude Wire GoFmt GoSlice StunTypes StunMessage StunPacket StunCodec.
From S2P Require Import StunBuild StunAttrs StunAddr NetAddr.
Open Scope Z_scope.

(** * Operations *)

(** [RawAttribute.String] *)
Definition RawAttribute_String (m : Message) (a : RawAttribute) : bytes :=
  AttrType_String (Type_ a) ++ bs ": 0x" ++ hex_bytes (value_of m a).

(** [AttrOverflowErr.Error], [AttrLengthErr.Error] *)
Definition AttrOverflowErr_Error (t max got : Z) : bytes :=
  bs "incorrect length of " ++ AttrType_String t ++ bs " attribute: " ++ itoa got
  ++ bs " exceeds maximum " ++ itoa max.
Definition AttrLengthErr_Error (attr got expected : Z) : bytes :=
  bs "incorrect length of " ++ AttrType_String attr ++ bs " attribute: got " ++ itoa got
  ++ bs ", expected " ++ itoa expected.

(** [MessageIntegrity.String], [IntegrityErr.Error], [CRCMismatch.Error] *)
Definition MessageIntegrity_String (i : bytes) : bytes := bs "KEY: 0x" ++ hex_bytes i.
Definition IntegrityErr_Error (expected actual : bytes) : bytes :=
  bs "Integrity check failed: 0x" ++ hex_bytes expected ++ bs " (expected) !- 0x" ++ hex_bytes actual
  ++ bs " (actual)".
Definition CRCMismatch_Error (expected actual : Z) : bytes :=
  bs "CRC mismatch: " ++ fmt_x expected ++ bs " (expected) != " ++ fmt_x actual ++ bs " (actual)".

(** [BadAttrLength.Error] of [src/turn/turn.go] *)
Definition BadAttrLength_Error (attr got expected : Z) : bytes :=
  bs "incorrect length for " ++ AttrType_String attr ++ bs ": got " ++ itoa got
  ++ bs ", expected " ++ itoa expected.

(** The text of every error; [io] is what a connection says of its own. *)
Definition error_Error (io : Z -> bytes) (e : error) : bytes :=
  match e with
  | ErrUnexpectedHeaderEOF => bs "unexpected EOF: not enough bytes to read header"
  | ErrFormatError => bs "data format error"
  | ErrDecode e => DecodeErr_Error e
  | EOF => bs "EOF"
  | ErrUnexpectedEOF => bs "unexpected EOF"
  | ErrAttributeNotFound => bs "attribute not found"
  | AttrOverflowErr t max got => AttrOverflowErr_Error t max got
  | AttrLengthErr a got expected => AttrLengthErr_Error a got expected
  | ErrBadIPLength => bs "invalid length of IP value"
  | ErrNoDefaultReason => bs "no default reason for ErrorCode"
  | ErrBadUnknownAttrsSize => bs "bad UNKNOWN-ATTRIBUTES size"
  | ErrFingerprintBeforeIntegrity => bs "FINGERPRINT before MESSAGE-INTEGRITY attribute"
  | IntegrityErr expected actual => IntegrityErr_Error expected actual
  | CRCMismatch expected actual => CRCMismatch_Error expected actual
  | BadAttrLength attr got expected => BadAttrLength_Error attr got expected
  | Errorf msg => msg
  | IOError code => io code
  end.

(** The errors of the agent and of the client; a [CloseErr] names the connection
    first. *)
Definition agent_error_Error (io : Z -> bytes) (e : agent_error) : bytes :=
  match e with
  | ErrTransactionStopped => bs "transaction is stopped"
  | ErrTransactionNotExists => bs "transaction not exists"
  | ErrTransactionExists => bs "transaction exists with same id"
  | ErrAgentClosed => bs "agent is closed"
  | ErrTransactionTimeOut => bs "transaction is timed out"
  | OtherError e => error_Error io e
  end.
(** [sprintErr] *)
Definition sprintErr {E} (show : E -> bytes) (err : option E) : bytes :=
  match err with None => bs "<nil>" | Some e => show e end.
(** [StopErr.Error], [CloseErr.Error] *)
Definition client_error_Error (io : Z -> bytes) (e : client_error) : bytes :=
  match e with
  | ErrClientClosed => bs "client is closed"
  | ErrNoConnection => bs "no connection provided"
  | AgentError e => agent_error_Error io e
  | ConnError e => error_Error io e
  | StopErr err cause =>
      bs "error while stopping due to " ++ error_Error io cause ++ bs ": " ++ agent_error_Error io err
  | CloseErr agent conn =>
      bs "failed to close: " ++ sprintErr (error_Error io) conn ++ bs " (connection), "
      ++ sprintErr (agent_error_Error io) agent ++ bs " (agent)"
  end.
Example close_err_1 io : client_error_Error io (CloseErr (Some (OtherError ErrUnexpectedEOF)) None)
  = bs "failed to close: <nil> (connection), unexpected EOF (agent)".
Proof. reflexivity. Qed.

(** The type of a [getFromer]: what [new] makes for the type of an attribute. *)
Inductive getFromer := fromMappedAddress | fromXORMappedAddress | fromTextAttribute | fromErrorCode.
#[export] Instance getFromer_eq_decision : EqDecision getFromer.
Proof. solve_decision. Defined.
Definition getFromer_of (attr : Z) : option getFromer :=
  if attr =? AttrMappedAddress then Some fromMappedAddress
  else if (attr =? AttrXORMappedAddress) || (attr =? AttrXORPeerAddress) || (attr =? AttrXORRelayedAddress)
  then Some fromXORMappedAddress
  else if (attr =? AttrUsername) || (attr =? AttrNonce) || (attr =? AttrRealm) || (attr =? AttrSoftware)
  then Some fromTextAttribute
  else if attr =? AttrErrorCode then Some fromErrorCode
  else None.

Definition newAddress : Address := mkAddress (Buffer [] 0) 0.

Section Text.
Context `{GoRuntime}.
Variable supportsUnaligned : bool.

(** [fromer.GetFromAs(m, attr)] and then [fromer.String()]. *)
Definition fromer_text (f : getFromer) (m : Message) (attr : Z) : result error bytes :=
  match f with
  | fromMappedAddress =>
      let '(a, r) := MappedAddress_GetFromAs attr m newAddress in _ ← r; Ok (Address_String a)
  | fromXORMappedAddress =>
      let '(a, r) := XORMappedAddress_GetFromAs supportsUnaligned attr m newAddress in
      _ ← r; Ok (Address_String a)
  | fromTextAttribute => let '(v, r) := TextAttribute_GetFromAs attr m [] in _ ← r; Ok v
  | fromErrorCode =>
      let '(c, r) := ErrorCodeAttribute_GetFromAs attr m (mkErrorCode 0 (fresh [])) in
      _ ← r; Ok (ErrorCodeAttribute_String m c)
  end.

(** [getAttrIntercepter] *)
Definition getAttrIntercepter (attr : Z) (value : bytes) (m : Message) : result Empty_set bytes :=
  match getFromer_of attr with
  | None => Ok (hex_bytes value)
  | Some f =>
      match fromer_text f m attr with
      | Ok s => Ok s
      | Err _ => Ok (hex_bytes value)
      | Panic p => Panic p
      end
  end.

(** The loop of [Message.String] *)
Fixpoint attributes_text (m : Message) (l : list RawAttribute) : result Empty_set bytes :=
  match l with
  | [] => Ok []
  | a :: l' =>
      s ← getAttrIntercepter (Type_ a) (value_of m a) m;
      r ← attributes_text m l';
      Ok (AttrType_String (Type_ a) ++ bs ": " ++ s ++ [zb 10] ++ r)
  end.

(** [Message.String] *)
Definition Message_String (m : Message) : result Empty_set bytes :=
  l ← attributes_text m (attrs m);
  Ok (method_String (Method (MType m)) ++ bs " " ++ class_text (Class (MType m)) ++ [zb 10]
      ++ bs "Header: length=" ++ itoa (Length m) ++ bs ",tx_id=" ++ hex_bytes (TID m) ++ [zb 10]
      ++ bs "Attributes:" ++ [zb 10] ++ l).

(** * When a message has no text *)

Definition is_xor_address (t : Z) : bool :=
  (t =? AttrXORMappedAddress) || (t =? AttrXORPeerAddress) || (t =? AttrXORRelayedAddress).

(** The family of the address that [a]'s type leads to cannot be read. *)
Definition family_unreadable (m : Message) (a : RawAttribute) : bool :=
  is_xor_address (Type_ a) &&
  match Get m (Type_ a) with Ok s => (length (reachable (array m) s) <? 2)%nat | _ => false end.

Lemma fromer_text_panics f m t :
  getFromer_of t = Some f -> is_Some (Attributes_Get t (attrs m)) ->
  match fromer_text f m t with
  | Panic p => p = SliceOutOfRange /\ family_unreadable m (mkRawAttribute t 0 (fresh [])) = true
  | _ => family_unreadable m (mkRawAttribute t 0 (fresh [])) = false
  end.
Proof.
  intros Hf [a Ha]. assert (Get m t = Ok (AValue a)) as Hg by (unfold Get; by rewrite Ha).
  unfold family_unreadable. cbn [Type_]. rewrite Hg.
  assert (is_xor_address t = bool_decide (f = fromXORMappedAddress)) as ->.
  { revert Hf. unfold getFromer_of, is_xor_address.
    repeat case_match; intros; simplify_eq; try done; repeat (match goal with H : (_ =? _) = true |- _ =>
      apply Z.eqb_eq in H; subst end); done. }
  destruct f; cbn [fromer_text bool_decide].
  - rewrite bool_decide_false by done. unfold MappedAddress_GetFromAs. rewrite Hg.
    destruct (_ <=? 4)%nat; [done|]. by destruct (negb _ && _).
  - rewrite bool_decide_true by done. unfold XORMappedAddress_GetFromAs, reslice. rewrite Hg.
    change (0 <=? 2)%nat with true. rewrite andb_true_l. destruct (Nat.leb_spec 2 (length (reachable (array m) (AValue a)))).
    + rewrite (proj2 (Nat.ltb_ge (length (reachable _ _)) 2)) by lia. destruct (negb _ && _); [done|]. destruct (_ <=? 4)%nat; [done|].
      destruct (_ <? _)%nat; [done|]. by destruct (xorBytes _ _ _ _).
    + split; [done|]. by rewrite (proj2 (Nat.ltb_lt _ _)) by lia.
  - rewrite bool_decide_false by done. unfold TextAttribute_GetFromAs. by rewrite Hg.
  - rewrite bool_decide_false by done. unfold ErrorCodeAttribute_GetFromAs, ErrorCodeAttribute_GetFrom.
    destruct (Get m AttrErrorCode) eqn:E; [|done|unfold Get in E; by destruct (Attributes_Get AttrErrorCode (attrs m))].
    by destruct (contents _ _) as [|? [|? [|? [|? ?]]]].
Qed.

Lemma Attributes_Get_is_Some a l : a ∈ l -> is_Some (Attributes_Get (Type_ a) l).
Proof.
  induction 1 as [a l|a b l _ IH]; cbn; [by rewrite Z.eqb_refl|]. by destruct (Type_ b =? Type_ a).
Qed.

Lemma getAttrIntercepter_panics m a v :
  a ∈ attrs m ->
  match getAttrIntercepter (Type_ a) v m with
  | Panic p => p = SliceOutOfRange /\ family_unreadable m a = true
  | _ => family_unreadable m a = false
  end.
Proof.
  intros Ha. unfold getAttrIntercepter. destruct (getFromer_of (Type_ a)) as [f|] eqn:Hf.
  - pose proof (fromer_text_panics f m (Type_ a) Hf (Attributes_Get_is_Some a _ Ha)) as H'.
    unfold family_unreadable in *. cbn [Type_] in H'. by destruct (fromer_text f m (Type_ a)).
  - unfold family_unreadable, is_xor_address. revert Hf. unfold getFromer_of.
    by destruct (Type_ a =? AttrMappedAddress) eqn:E1, (_ || _ || _) eqn:E2.
Qed.

(** A message has a text unless it holds an XOR address attribute whose first
    value starts within the last two bytes of its array. *)
Lemma Message_String_outcomes m :
  match Message_String m with
  | Panic p => p = SliceOutOfRange /\ existsb (family_unreadable m) (attrs m) = true
  | _ => existsb (family_unreadable m) (attrs m) = false
  end.
Proof.
  unfold Message_String.
  assert (forall l, (forall a, a ∈ l -> a ∈ attrs m) ->
    match attributes_text m l with
    | Panic p => p = SliceOutOfRange /\ existsb (family_unreadable m) l = true
    | _ => existsb (family_unreadable m) l = false
    end) as H'.
  { induction l as [|a l IH]; intros Hl; [done|]. cbn [attributes_text existsb].
    pose proof (getAttrIntercepter_panics m a (value_of m a) (Hl a ltac:(left))) as Ha.
    destruct (getAttrIntercepter _ _ _) as [s|[]|p]; [|by destruct Ha as [-> ->]].
    rewrite Ha. cbn. specialize (IH ltac:(intros; apply Hl; by right)). by destruct (attributes_text m l) as [|[]|]. }
  specialize (H' (attrs m) (fun _ Ha => Ha)). by destruct (attributes_text m (attrs m)) as [|[]|].
Qed.
End Text.
