(* ===== verification/Turn.v ===== *)
(** TURN: [src/turn/*.go] and the ICE attributes of [src/ice/attr/*.go].

    The attributes implement the [Codec] interface.  [ChannelData] is not an
    attribute: it replaces the bytes of a message as a whole. *)
From stdpp Require Import base list sets strings.
From Stdlib Require Import ZArith Lia.
From Stdlib Require Import Floats.SpecFloat.
From S2P Require Import Prelude Wire GoFmt GoSlice StunTypes StunMessage StunPacket StunCodec.
From S2P Require Import StunBuild StunAttrs StunAddr StunText.
Open Scope Z_scope.

Definition DefaultPort : Z := 3478.
Definition DefaultTLSPort : Z := 5349.

Definition AllocateRequest := NewType MethodAllocate ClassRequest.
Definition CreatePermissionRequest := NewType MethodCreatePermission ClassRequest.
Definition CreatePermissionResponse := NewType MethodCreatePermission ClassSuccessResponse.
Definition SendIndication := NewType MethodSend ClassIndication.
Definition DataIndication := NewType MethodData ClassIndication.
Definition ChannelBindRequest := NewType MethodChannelBind ClassRequest.
Definition RefreshRequest := NewType MethodRefresh ClassRequest.
Definition ChannelDataRequest := NewType MethodChannelData ClassRequest.
Definition RefreshResponse := NewType MethodRefresh ClassSuccessResponse.

(** The head that the getters of this package share: look the value up and
    compare its length. *)
Definition get_sized {A} (t : Z) (size : nat) (m : Message) (read : slice -> bytes -> A -> A) :
    ST A error unit := fun x =>
  match Get m t with
  | Err e => (x, Err e)
  | Panic p => (x, Panic p)
  | Ok s =>
      let v := contents (array m) s in
      if negb (length v =? size)%nat then (x, Err (BadAttrLength t (zlen v) (Z.of_nat size)))
      else (read s v x, Ok tt)
  end.

Lemma get_sized_ok {A} t size m (read : slice -> bytes -> A -> A) x v :
  lookup_attr t (p_attrs (abs m)) = Some v -> length v = size ->
  exists s, contents (array m) s = v /\ get_sized t size m read x = (read s v x, Ok tt).
Proof.
  intros Hl Hv. destruct (Get_found _ _ _ Hl) as (s & Hs & Hc). exists s. split; [done|].
  unfold get_sized. by rewrite Hs, Hc, Hv, Nat.eqb_refl.
Qed.

Lemma get_sized_bad {A} t size m (read : slice -> bytes -> A -> A) x v :
  lookup_attr t (p_attrs (abs m)) = Some v -> length v <> size ->
  get_sized t size m read x = (x, Err (BadAttrLength t (zlen v) (Z.of_nat size))).
Proof.
  intros Hl Hv. destruct (Get_found _ _ _ Hl) as (s & Hs & Hc).
  unfold get_sized. rewrite Hs, Hc. by destruct (Nat.eqb_spec (length v) size).
Qed.

Section Attributes.
Context `{GoRuntime}.

(** * CHANNEL-NUMBER ([chann.go]) *)

Definition channelNumberSize : nat := 4.
Definition ChannelNumber_AddTo (n : Z) : M unit :=
  Add AttrChannelNumber (fresh (put16 (u16 n) ++ [Byte.x00; Byte.x00])).
Definition ChannelNumber_GetFrom (m : Message) : ST Z error unit :=
  get_sized AttrChannelNumber channelNumberSize m (fun _ v _ => get16 v).

(** * LIFETIME ([lifetime.go])

    [Duration.Seconds] is a float64: whole seconds plus the rest divided by
    1e9, in IEEE arithmetic.  The conversion to uint32 truncates; where the
    value does not fit, Go leaves the result open and the model takes the low
    bits. *)
Definition float_of (z : Z) : spec_float := binary_normalize 53 1024 z 0 false.
Definition Second : Z := 1000000000.
Definition Seconds (d : Z) : spec_float :=
  let sec := Z.quot d Second in
  let nsec := Z.rem d Second in
  SFadd 53 1024 (float_of sec) (SFdiv 53 1024 (float_of nsec) (float_of Second)).
Definition trunc (f : spec_float) : Z :=
  match f with
  | S754_finite s m e =>
      let a := if 0 <=? e then Z.shiftl (Zpos m) e else Z.shiftr (Zpos m) (- e) in
      if s then - a else a
  | _ => 0
  end.

Definition DefaultLifetime : Z := 600 * Second.
Definition lifetimeSize : nat := 4.
Definition Lifetime_AddTo (l : Z) : M unit :=
  Add AttrLifetime (fresh (put32 (u32 (trunc (Seconds l))))).
Definition Lifetime_GetFrom (m : Message) : ST Z error unit :=
  get_sized AttrLifetime lifetimeSize m (fun _ v _ => i64 (Second * get32 v)).
Definition ZeroLifetime : M unit := Lifetime_AddTo 0.

(** * EVEN-PORT ([evenport.go]): a getter that only ever sets the flag. *)
Definition evenPortSize : nat := 1.
Definition firstBitSet : Z := 2 ^ 8 - 1.
Definition EvenPort_AddTo (ReservePort : bool) : M unit :=
  Add AttrEvenPort (fresh [if ReservePort then zb firstBitSet else Byte.x00]).
Definition EvenPort_GetFrom (m : Message) : ST bool error unit :=
  get_sized AttrEvenPort evenPortSize m
    (fun _ v ReservePort => if 0 <? Z.land (bz (nth 0 v Byte.x00)) firstBitSet then true else ReservePort).
Definition EvenPort_String (ReservePort : bool) : bytes :=
  if ReservePort then bs "reserve: true" else bs "reserve: false".

(** * REQUESTED-TRANSPORT ([reqtrans.go]) *)
Definition ProtoUDP : byte := zb 17.
Definition Protocol_String (p : byte) : bytes :=
  if bz p =? 17 then bs "UDP" else itoa (bz p).
Definition RequestedTransport_String (p : byte) : bytes := bs "protocol: " ++ Protocol_String p.
Definition requestedTransportSize : nat := 4.
Definition RequestedTransport_AddTo (p : byte) : M unit :=
  Add AttrRequestedTransport (fresh [p; Byte.x00; Byte.x00; Byte.x00]).
Definition RequestedTransport_GetFrom (m : Message) : ST byte error unit :=
  get_sized AttrRequestedTransport requestedTransportSize m (fun _ v _ => nth 0 v Byte.x00).
Definition RequestedTransportUDP : M unit := RequestedTransport_AddTo ProtoUDP.

(** * RESERVATION-TOKEN ([rsrvtoken.go]): the target becomes the slice itself. *)
Definition reservationTokenSize : nat := 8.
Definition ReservationToken_AddTo (t : slice) : M unit :=
  if negb (slen t =? reservationTokenSize)%nat
  then st_err (BadAttrLength AttrReservationToken (Z.of_nat (slen t)) (Z.of_nat reservationTokenSize))
  else Add AttrReservationToken t.
Definition ReservationToken_GetFrom (m : Message) : ST slice error unit :=
  get_sized AttrReservationToken reservationTokenSize m (fun s _ _ => s).

(** * DATA ([data.go]), DONT-FRAGMENT ([dontfrag.go]), USE-CANDIDATE *)
Definition Data_AddTo (d : slice) : M unit := Add AttrData d.
Definition Data_GetFrom (m : Message) : ST slice error unit := fun d =>
  match Get m AttrData with
  | Ok s => (s, Ok tt)
  | Err e => (d, Err e)
  | Panic p => (d, Panic p)
  end.
Definition DontFragment_AddTo : M unit := Add AttrDontFragment (fresh []).
Definition DontFragment_IsSet (m : Message) : bool := is_ok (Get m AttrDontFragment).
Definition UseCandidate_AddTo : M unit := Add AttrUseCandidate (fresh []).

(** * XOR-PEER-ADDRESS, XOR-RELAYED-ADDRESS *)
Definition PeerAddress_AddTo u (a : Address) := XORMappedAddress_AddToAs u a AttrXORPeerAddress.
Definition PeerAddress_GetFrom u := XORMappedAddress_GetFromAs u AttrXORPeerAddress.
Definition RelayedAddress_AddTo u (a : Address) :=
  XORMappedAddress_AddToAs u a AttrXORRelayedAddress.
Definition RelayedAddress_GetFrom u := XORMappedAddress_GetFromAs u AttrXORRelayedAddress.

(** * PRIORITY, ICE-CONTROLLING, ICE-CONTROLLED ([src/ice/attr]) *)
Definition prioritySize : nat := 4.
Definition Priority_AddTo (n : Z) : M unit := Add AttrPriority (fresh (put32 n)).
Definition Priority_GetFrom (m : Message) : ST Z error unit :=
  get_sized AttrPriority prioritySize m (fun _ v _ => get32 v).

Definition iceControllingSize : nat := 8.
Definition IceControlling_AddTo (n : Z) : M unit := Add AttrICEControlling (fresh (put64 n)).
Definition IceControlling_GetFrom (m : Message) : ST Z error unit :=
  get_sized AttrICEControlling iceControllingSize m (fun _ v _ => get64 v).

Definition iceControlledSize : nat := 8.
Definition IceControlled_AddTo (n : Z) : M unit := Add AttrICEControlled (fresh (put64 n)).
Definition IceControlled_GetFrom (m : Message) : ST Z error unit :=
  get_sized AttrICEControlled iceControlledSize m (fun _ v _ => get64 v).

(** * ChannelData ([channeldata.go])

    The error texts show the type, or the whole message. *)
Variable supportsUnaligned : bool.

Definition MinChannelNumber : Z := 0x4000.
Definition MaxChannelNumber : Z := 0x7fff.
Record ChannelData := mkChannelData { ChannelNumber : Z; cd_Data : bytes }.

Definition bad_channel (n : Z) : error := Errorf (bs "channel number is invalid :" ++ itoa n).

(** What a reader of a message that loses its array still sees. *)
Definition replace_raw (v : bytes) (m : Message) : Message :=
  mkMessage (MType m) (Length m) (TID m)
    (map (moved_attr (Some (array m))) <$> Attributes m) (append (Buffer [] 0) v).1.

(** [ChannelData.AddTo] *)
Definition ChannelData_AddTo (c : ChannelData) : M unit := fun m =>
  if negb (Method (MType m) =? MethodChannelData) then
    (m, Err (Errorf (bs "channel data works only on channelData method, now is "
                     ++ MessageType_String (MType m))))
  else if (ChannelNumber c <? MinChannelNumber) || (MaxChannelNumber <? ChannelNumber c)
  then (m, Err (bad_channel (ChannelNumber c)))
  else
    (replace_raw (put16 (ChannelNumber c) ++ put16 (u16 (zlen (cd_Data c))) ++ cd_Data c) m, Ok tt).

(** [binary.Read] of [n] bytes. *)
Definition read_full (n : nat) (b : bytes) : result error (bytes * bytes) :=
  if (n <=? length b)%nat then Ok (take n b, drop n b)
  else match b with [] => Err EOF | _ => Err ErrUnexpectedEOF end.

(** [ChannelData.GetFrom] *)
Definition ChannelData_GetFrom (m : Message) : ST ChannelData error unit := fun c =>
  if negb (Method (MType m) =? MethodChannelData)
  then
    match Message_String supportsUnaligned m with
    | Ok s => (c, Err (Errorf (bs "expect MethodChannelData,but got " ++ s)))
    | Err e => match e with end
    | Panic p => (c, Panic p)
    end
  else
    match read_full 2 (visible (Raw m)) with
    | Err e => (c, Err e)
    | Panic p => (c, Panic p)
    | Ok (n, b) =>
        let c := mkChannelData (get16 n) (cd_Data c) in
        if (ChannelNumber c <? MinChannelNumber) || (MaxChannelNumber <? ChannelNumber c)
        then (c, Err (bad_channel (ChannelNumber c)))
        else
          match read_full 2 b with
          | Err e => (c, Err e)
          | Panic p => (c, Panic p)
          | Ok (l, b) =>
              let length := Z.to_nat (get16 l) in
              let c := mkChannelData (ChannelNumber c) (replicate length Byte.x00) in
              match read_full length b with
              | Err e => (c, Err e)
              | Panic p => (c, Panic p)
              | Ok (d, _) => (mkChannelData (ChannelNumber c) d, Ok tt)
              end
          end
    end.

End Attributes.

(** * Whole seconds survive the float64 *)

Lemma digits_lower m : 2 ^ (Zpos (digits2_pos m) - 1) <= Zpos m.
Proof.
  induction m as [m IH|m IH|]; cbn [digits2_pos]; [..|done].
  all: rewrite Pos2Z.inj_succ; unfold Z.succ; rewrite Z.add_simpl_r.
  all: replace (Zpos (digits2_pos m)) with (Zpos (digits2_pos m) - 1 + 1) by lia.
  all: rewrite Z.pow_add_r by lia; lia.
Qed.

Lemma digits_shift p m : Zpos (digits2_pos (shift_pos p m)) = Zpos (digits2_pos m) + Zpos p.
Proof.
  revert m. induction p as [|p IH] using Pos.peano_ind; intros m.
  - cbn. lia.
  - unfold shift_pos in *. rewrite Pos.iter_succ. cbn [digits2_pos]. rewrite Pos2Z.inj_succ, IH. lia.
Qed.

Lemma round_aux_exact m e :
  Zpos (digits2_pos m) = 53 -> -1074 <= e <= 971 ->
  binary_round_aux 53 1024 false (Zpos m) e loc_Exact = S754_finite false m e.
Proof.
  intros Hd He. unfold binary_round_aux.
  assert (shr_fexp 53 1024 (Zpos m) e loc_Exact = (Build_shr_record (Zpos m) false false, e)) as Hs.
  { unfold shr_fexp, shr. cbn [Zdigits2 shr_record_of_loc]. rewrite Hd.
    assert (fexp 53 1024 (53 + e) - e = 0) as ->; [|done].
    unfold fexp, SpecFloat.emin. lia. }
  rewrite Hs. cbn [loc_of_shr_record round_nearest_even shr_m]. rewrite Hs. cbn [shr_m].
  by rewrite (proj2 (Z.leb_le e (1024 - 53))) by lia.
Qed.

Lemma float_of_exact n : 0 <= n < 2 ^ 32 -> trunc (float_of n) = n.
Proof.
  intros Hn. destruct n as [|m|m]; [done| |lia]. unfold float_of, binary_normalize, binary_round.
  pose proof (digits_lower m) as Hlow.
  assert (Zpos (digits2_pos m) <= 32) as Hd.
  { destruct (Z.le_gt_cases (Zpos (digits2_pos m)) 32) as [|Hgt]; [done|].
    pose proof (Z.pow_le_mono_r 2 32 (Zpos (digits2_pos m) - 1) ltac:(lia) ltac:(lia)). lia. }
  unfold shl_align. rewrite Z.add_0_r, Z.sub_0_r.
  assert (fexp 53 1024 (Zpos (digits2_pos m)) = Zpos (digits2_pos m) - 53) as ->.
  { unfold fexp, SpecFloat.emin. lia. }
  destruct (Zpos (digits2_pos m) - 53) as [|p|p] eqn:Hp; [lia..|].
  change (Pos.iter xO m p) with (shift_pos p m).
  rewrite round_aux_exact by (rewrite ?digits_shift; lia).
  cbn [trunc]. destruct (Z.leb_spec 0 (Zneg p)); [lia|].
  change (- Zneg p) with (Zpos p). rewrite shift_pos_correct, Z.shiftr_div_pow2 by lia.
  rewrite Z.pow_pos_fold, Z.mul_comm. apply Z.div_mul. lia.
Qed.

Lemma Seconds_whole n : 0 <= n < 2 ^ 32 -> trunc (Seconds (n * Second)) = n.
Proof.
  intros Hn. unfold Seconds. rewrite Z.quot_mul, Z.rem_mul by done.
  assert (SFdiv 53 1024 (float_of 0) (float_of Second) = S754_zero false) as -> by reflexivity.
  rewrite <- (float_of_exact n Hn) at 2. destruct (float_of n) as [[]| | |]; done.
Qed.

(** Float arithmetic on examples: whole seconds are exact, a fraction is cut
    off, but from 2^24 seconds on the sum rounds up. *)
Example seconds_1 : trunc (Seconds DefaultLifetime) = 600. Proof. vm_compute. reflexivity. Qed.
Example seconds_2 : trunc (Seconds (7 * Second + 999999999)) = 7. Proof. vm_compute. reflexivity. Qed.
Example seconds_3 : trunc (Seconds (2 ^ 24 * Second + 999999999)) = 2 ^ 24 + 1.
Proof. vm_compute. reflexivity. Qed.

(** * The codecs *)

Section Codecs.
Context `{GoRuntime}.

(** An attribute of a fixed size whose value is read without looking at the
    old target. *)
Definition sized_codec {A T} (t : Z) (size : nat) (value : A -> bytes) (dom : A -> Prop)
    (blank : T -> Prop) (get : Message -> ST T error unit) (view : T -> A)
    (read : slice -> bytes -> T -> T)
    (get_eq : forall m, get m = get_sized t size m read)
    (value_size : forall a, dom a -> length (value a) = size)
    (read_value : forall a s y, dom a -> blank y -> view (read s (value a) y) = a) :
  Codec A T.
Proof.
  refine {| codec_type := t; codec_value _ a := value a; codec_dom := dom; codec_blank := blank;
            codec_add a := Add t (fresh (value a)); codec_get := get;
            codec_shows _ y a := view y = a |}.
  - intros a _. apply Add_implements.
  - intros m a y Ha Hy _ Hl.
    destruct (get_sized_ok t size m read y (value a) Hl (value_size a Ha)) as (s & _ & Hg).
    exists (read s (value a) y). rewrite get_eq. split; [done|]. by apply read_value.
Defined.

Definition channel_number_codec : Codec Z Z.
Proof.
  refine (sized_codec AttrChannelNumber channelNumberSize
            (fun n => put16 (u16 n) ++ [Byte.x00; Byte.x00]) (fun n => 0 <= n < 2 ^ 16)
            (fun _ => True) ChannelNumber_GetFrom id (fun _ v _ => get16 v)
            (fun _ => eq_refl) (fun _ _ => eq_refl) _).
  intros n s y Hn _. rewrite get16_put16_app. unfold u16. rewrite Zmod_mod. by apply Z.mod_small.
Defined.

(** Durations of whole seconds. *)
Definition lifetime_codec : Codec Z Z.
Proof.
  refine (sized_codec AttrLifetime lifetimeSize
            (fun l => put32 (u32 (trunc (Seconds l))))
            (fun l => exists n, l = n * Second /\ 0 <= n < 2 ^ 32)
            (fun _ => True) Lifetime_GetFrom id (fun _ v _ => i64 (Second * get32 v))
            (fun _ => eq_refl) (fun _ _ => eq_refl) _).
  intros l s y (n & -> & Hn) _. rewrite Seconds_whole by done. rewrite get32_put32.
  unfold u32. rewrite Zmod_mod, Z.mod_small by done. unfold i64, Second, id.
  rewrite Z.mod_small; lia.
Defined.

Definition even_port_codec : Codec bool bool.
Proof.
  refine (sized_codec AttrEvenPort evenPortSize
            (fun r : bool => [if r then zb firstBitSet else Byte.x00]) (fun _ => True)
            (fun y => y = false) EvenPort_GetFrom id
            (fun _ v r => if 0 <? Z.land (bz (nth 0 v Byte.x00)) firstBitSet then true else r)
            (fun _ => eq_refl) (fun _ _ => eq_refl) _).
  by intros [] s y _ ->.
Defined.

Definition requested_transport_codec : Codec byte byte.
Proof.
  refine (sized_codec AttrRequestedTransport requestedTransportSize
            (fun p => [p; Byte.x00; Byte.x00; Byte.x00]) (fun _ => True) (fun _ => True)
            RequestedTransport_GetFrom id (fun _ v _ => nth 0 v Byte.x00)
            (fun _ => eq_refl) (fun _ _ => eq_refl) _).
  done.
Defined.

Definition priority_codec : Codec Z Z.
Proof.
  refine (sized_codec AttrPriority prioritySize put32 (fun n => 0 <= n < 2 ^ 32)
            (fun _ => True) Priority_GetFrom id (fun _ v _ => get32 v)
            (fun _ => eq_refl) (fun _ _ => eq_refl) _).
  intros n s y Hn _. rewrite get32_put32. by apply Z.mod_small.
Defined.

Definition role_codec (t : Z) : Codec Z Z.
Proof.
  refine (sized_codec t 8 put64 (fun n => 0 <= n < 2 ^ 64)
            (fun _ => True) (fun m => get_sized t 8 m (fun _ v _ => get64 v)) id
            (fun _ v _ => get64 v) (fun _ => eq_refl) (fun _ _ => eq_refl) _).
  intros n s y Hn _. rewrite get64_put64. by apply Z.mod_small.
Defined.

(** The getters that hand out a view of the message. *)
Definition reservation_token_codec : Codec bytes slice.
Proof.
  refine {| codec_type := AttrReservationToken; codec_value _ v := v;
            codec_dom v := length v = reservationTokenSize; codec_blank _ := True;
            codec_add v := ReservationToken_AddTo (fresh v);
            codec_get := ReservationToken_GetFrom;
            codec_shows m y v := contents (array m) y = v |}.
  - intros v Hv m Hwf Hok. unfold ReservationToken_AddTo. cbn [slen fresh].
    rewrite Hv, Nat.eqb_refl. by apply Add_fresh_wf.
  - intros m v y Hv _ _ Hl.
    destruct (get_sized_ok AttrReservationToken reservationTokenSize m (fun s _ _ => s) y v Hl Hv)
      as (s & Hs & Hg). by exists s.
Defined.

Definition data_codec : Codec bytes slice.
Proof.
  refine {| codec_type := AttrData; codec_value _ v := v;
            codec_dom _ := True; codec_blank _ := True;
            codec_add v := Data_AddTo (fresh v); codec_get := Data_GetFrom;
            codec_shows m y v := contents (array m) y = v |}.
  - intros v _. apply Add_implements.
  - intros m v y _ _ _ Hl. destruct (Get_found _ _ _ Hl) as (s & Hs & Hc).
    exists s. unfold Data_GetFrom. by rewrite Hs.
Defined.

(** * ChannelData over the wire *)

Variable supportsUnaligned : bool.

Lemma append_empty v : visible (append (Buffer [] 0) v).1 = v.
Proof. apply (append_visible (Buffer [] 0)). unfold buffer_ok. cbn. lia. Qed.

Lemma channel_range_bit n :
  MinChannelNumber <= n <= MaxChannelNumber ->
  exists b0 b1, put16 n = [b0; b1] /\ Z.land (bz b0) 0x40 = 0x40.
Proof.
  unfold MinChannelNumber, MaxChannelNumber. intros Hn.
  exists (zb (Z.shiftr n 8)), (zb n). split; [done|].
  assert (64 <= bz (zb (Z.shiftr n 8)) < 128) as Hb.
  { rewrite bz_zb, Z.shiftr_div_pow2 by lia. change (2 ^ 8) with 256. Z.div_mod_to_equations. lia. }
  set (b := zb _) in *. clearbody b. destruct b; try reflexivity; exfalso; vm_compute in Hb;
    destruct Hb as [H1 H2]; congruence.
Qed.

Definition channel_bytes (c : ChannelData) : bytes :=
  put16 (ChannelNumber c) ++ put16 (zlen (cd_Data c)) ++ cd_Data c.

(** [AddTo] checks the method, then the range, and then the message is the
    frame; the length field is the low 16 bits. *)
Lemma ChannelData_AddTo_spec c m :
  Method (MType m) = MethodChannelData ->
  MinChannelNumber <= ChannelNumber c <= MaxChannelNumber ->
  exists m', ChannelData_AddTo c m = (m', Ok tt) /\ visible (Raw m') = channel_bytes c /\
    MType m' = MType m /\ TID m' = TID m /\ buffer_ok (Raw m').
Proof.
  intros Hm Hc. unfold ChannelData_AddTo. rewrite Hm, Z.eqb_refl. cbn [negb].
  rewrite (proj2 (Z.ltb_ge _ _)), (proj2 (Z.ltb_ge _ _)) by lia. cbn [orb].
  eexists; split; [done|]. unfold replace_raw. cbn [Raw MType TID].
  rewrite append_empty. unfold channel_bytes. rewrite put16_u16. split_and!; try done.
  apply append_ok. unfold buffer_ok. cbn. lia.
Qed.

(** A frame decodes as ChannelData if the length fits. *)
Lemma Decode_frame c m :
  MinChannelNumber <= ChannelNumber c <= MaxChannelNumber -> visible (Raw m) = channel_bytes c ->
  Decode m =
  (if zlen (cd_Data c) <? 65532
   then (set_MType (NewType MethodChannelData ClassSuccessResponse) m, Ok tt)
   else (m, Err ErrFormatError)).
Proof.
  intros Hc Hvis. destruct (channel_range_bit _ Hc) as (b0 & b1 & Hput & Hbit).
  assert (length (channel_bytes c) = (4 + length (cd_Data c))%nat) as Hlen by done.
  assert (exists r, array m = channel_bytes c ++ r) as [r Hr].
  { exists (drop (blen (Raw m)) (array m)). rewrite <- Hvis. unfold visible. by rewrite take_drop. }
  unfold Decode. rewrite Hvis. unfold channel_bytes at 1. rewrite Hput. cbn [app].
  rewrite Hbit. cbn [Z.eqb Pos.eqb]. unfold reslice. rewrite Hr.
  rewrite (proj2 (Nat.leb_le 4 _)) by (rewrite length_app, Hlen; lia).
  change (drop 2 (channel_bytes c ++ r)) with (put16 (zlen (cd_Data c)) ++ cd_Data c ++ r).
  cbn [Nat.leb andb]. rewrite take_app_length' by done. rewrite get16_put16, Hlen.
  unfold zlen. destruct (Z.ltb_spec (Z.of_nat (length (cd_Data c))) 65532).
  - rewrite (u16_id (Z.of_nat _)) by lia. rewrite u16_id by lia.
    by rewrite (proj2 (Z.eqb_eq _ _)) by lia.
  - pose proof (Z.mod_pos_bound (u16 (Z.of_nat (length (cd_Data c))) + 4) (2 ^ 16) ltac:(lia)) as Hb.
    change (2 ^ 16) with 65536 in Hb.
    change ((u16 (Z.of_nat (length (cd_Data c))) + 4) mod 65536)
      with (u16 (u16 (Z.of_nat (length (cd_Data c))) + 4)) in Hb.
    by rewrite (proj2 (Z.eqb_neq _ _)) by lia.
Qed.

(** The channel and the data of a frame. *)
Lemma ChannelData_GetFrom_frame c c0 m :
  MinChannelNumber <= ChannelNumber c <= MaxChannelNumber -> zlen (cd_Data c) < 2 ^ 16 ->
  Method (MType m) = MethodChannelData -> visible (Raw m) = channel_bytes c ->
  ChannelData_GetFrom supportsUnaligned m c0 = (c, Ok tt).
Proof.
  intros Hc Hl Hm Hvis.
  assert (length (channel_bytes c) = (4 + length (cd_Data c))%nat) as Hlen by done.
  unfold ChannelData_GetFrom. rewrite Hm, Z.eqb_refl. cbn [negb]. rewrite Hvis. unfold read_full at 1.
  rewrite (proj2 (Nat.leb_le 2 _)) by (rewrite Hlen; lia).
  unfold channel_bytes. rewrite take_app_length', drop_app_length' by done.
  cbn [ChannelNumber cd_Data]. rewrite get16_put16.
  unfold MinChannelNumber, MaxChannelNumber in *. rewrite u16_id by lia.
  rewrite (proj2 (Z.ltb_ge _ _)), (proj2 (Z.ltb_ge _ _)) by lia. cbn [orb].
  unfold read_full at 1. rewrite (proj2 (Nat.leb_le 2 _)) by (rewrite length_app, put16_length; lia).
  rewrite take_app_length', drop_app_length' by done. rewrite get16_put16.
  unfold zlen in *. rewrite u16_id, Nat2Z.id by lia.
  unfold read_full. rewrite Nat.leb_refl, take_ge by done. by destruct c.
Qed.

(** Writing a frame into a message. *)
Lemma Write_frame c m :
  MinChannelNumber <= ChannelNumber c <= MaxChannelNumber ->
  exists m1, visible (Raw m1) = channel_bytes c /\
    Write (channel_bytes c) m =
    (if zlen (cd_Data c) <? 65532
     then (set_MType (NewType MethodChannelData ClassSuccessResponse) m1,
           Ok (length (channel_bytes c), None))
     else (m1, Ok (length (channel_bytes c), Some ErrFormatError))).
Proof.
  intros Hc. unfold Write. unfold st_bind.
  destruct (append_raw_spec 0 (channel_bytes c) m) as (m1 & -> & Hb1 & Hvis); [lia|].
  change (visible (Raw m1) = channel_bytes c) in Hvis. exists m1. split; [done|].
  unfold with_error. rewrite (Decode_frame c m1 Hc Hvis). by destruct (_ <? _).
Qed.

(** A receiver accepts the frame and reads the channel and the data. *)
Lemma ChannelData_receive c c0 m :
  MinChannelNumber <= ChannelNumber c <= MaxChannelNumber -> zlen (cd_Data c) < 65532 ->
  exists m', Write (channel_bytes c) m = (m', Ok (length (channel_bytes c), None)) /\
    ChannelData_GetFrom supportsUnaligned m' c0 = (c, Ok tt).
Proof.
  intros Hc Hl. destruct (Write_frame c m Hc) as (m1 & Hvis & ->).
  rewrite (proj2 (Z.ltb_lt _ _)) by done. eexists. split; [done|].
  apply ChannelData_GetFrom_frame; [done|lia|done|exact Hvis].
Qed.

End Codecs.
