(* ===== verification/TurnProps.v ===== *)
(** The properties of the TURN attributes and of ChannelData. *)
From stdpp Require Import base list sets strings.
From Stdlib Require Import ZArith Lia.
From S2P Require Import Prelude Wire GoFmt GoSlice StunTypes StunMessage StunPacket StunCodec.
From S2P Require Import StunBuild StunAttrs StunAddr StunProps Turn.
Open Scope Z_scope.

(** What a getter of an attribute of a fixed size does on any message: the value
    is taken only when the attribute is there and has that size; every error
    leaves the target alone. *)
Definition strict {T} (t : Z) (size : nat) (get : Message -> ST T error unit) : Prop :=
  forall m y,
    match lookup_attr t (p_attrs (abs m)) with
    | None => get m y = (y, Err ErrAttributeNotFound)
    | Some v =>
        if (length v =? size)%nat then exists y', get m y = (y', Ok tt)
        else get m y = (y, Err (BadAttrLength t (zlen v) (Z.of_nat size)))
    end.

Lemma get_sized_strict {T} t size (read : slice -> bytes -> T -> T) :
  strict t size (fun m => get_sized t size m read).
Proof.
  intros m y. destruct (lookup_attr t _) as [v|] eqn:Hl.
  - destruct (Nat.eqb_spec (length v) size) as [Hv|Hv].
    + destruct (get_sized_ok t size m read y v Hl Hv) as (s & _ & Hg). by eexists.
    + by apply get_sized_bad.
  - unfold get_sized. by rewrite (Get_missing _ _ Hl).
Qed.

(** the getters of CHANNEL-NUMBER, LIFETIME, EVEN-PORT, REQUESTED-TRANSPORT,
    RESERVATION-TOKEN, PRIORITY, ICE-CONTROLLING and ICE-CONTROLLED, on any
    message whatsoever: an error when the attribute is missing or has another
    size, with the target as it was, and a value otherwise; never a panic. *)
Theorem getters_strict :
  strict AttrChannelNumber 4 ChannelNumber_GetFrom /\ strict AttrLifetime 4 Lifetime_GetFrom /\
  strict AttrEvenPort 1 EvenPort_GetFrom /\
  strict AttrRequestedTransport 4 RequestedTransport_GetFrom /\
  strict AttrReservationToken 8 ReservationToken_GetFrom /\
  strict AttrPriority 4 Priority_GetFrom /\ strict AttrICEControlling 8 IceControlling_GetFrom /\
  strict AttrICEControlled 8 IceControlled_GetFrom.
Proof. split_and!; apply get_sized_strict. Qed.

(** A flag that was set stays set, whatever the attribute says: an EVEN-PORT that
    was sent without the flag is read as one with it. *)
Theorem EvenPort_keeps_flag `{GoRuntime} m v :
  lookup_attr AttrEvenPort (p_attrs (abs m)) = Some v -> length v = evenPortSize ->
  EvenPort_GetFrom m true = (true, Ok tt).
Proof.
  intros Hl Hv. unfold EvenPort_GetFrom.
  destruct (get_sized_ok AttrEvenPort evenPortSize m
    (fun _ v ReservePort => if 0 <? Z.land (bz (nth 0 v Byte.x00)) firstBitSet then true else ReservePort)
    true v Hl Hv) as (s & _ & ->).
  by destruct (0 <? _).
Qed.

Section TurnProps.
Context `{GoRuntime}.
Variable supportsUnaligned : bool.

(** C32: ChannelData.  A frame that [ChannelData.AddTo] makes, for a channel
    number between 0x4000 and 0x7FFF and up to 65531 bytes of data, is
    recognised by [Decode] in any receiving message, whatever it held, and
    [GetFrom] gives channel and data back, whatever the target held. *)
Theorem ChannelData_transfer c m :
  Method (MType m) = MethodChannelData ->
  MinChannelNumber <= ChannelNumber c <= MaxChannelNumber -> zlen (cd_Data c) < 65532 ->
  exists m1, ChannelData_AddTo c m = (m1, Ok tt) /\
  forall m2 c0, exists n m3, Write (visible (Raw m1)) m2 = (m3, Ok (n, None)) /\
    ChannelData_GetFrom supportsUnaligned m3 c0 = (c, Ok tt).
Proof.
  intros Hm Hc Hl. destruct (ChannelData_AddTo_spec c m Hm Hc) as (m1 & Ha & Hv & _).
  exists m1. split; [done|]. intros m2 c0. rewrite Hv.
  destruct (ChannelData_receive supportsUnaligned c c0 m2 Hc Hl) as (m3 & Hw & Hg). eauto.
Qed.

(** the length test of [Decode] for ChannelData adds the header size in
    16 bits, so it refuses every frame with 65532 bytes of data or more, also
    those of up to 65535 bytes that the frame format can express and [AddTo]
    makes. *)
Theorem ChannelData_too_long c m :
  MinChannelNumber <= ChannelNumber c <= MaxChannelNumber -> 65532 <= zlen (cd_Data c) ->
  exists m', Write (channel_bytes c) m = (m', Ok (length (channel_bytes c), Some ErrFormatError)).
Proof.
  intros Hc Hl. destruct (Write_frame c m Hc) as (m1 & _ & ->).
  rewrite (proj2 (Z.ltb_ge _ _)) by done. by exists m1.
Qed.

(** LIFETIME keeps a duration of whole seconds below 2^32 exactly, through
    the conversions to float64 and back. *)
Theorem Lifetime_roundtrip n m y :
  0 <= n < 2 ^ 32 -> well_formed m -> lookup_attr AttrLifetime (p_attrs (abs m)) = None ->
  packet_ok (with_attr (AttrLifetime, put32 n) (abs m)) ->
  exists m', Lifetime_AddTo (n * Second) m = (m', Ok tt) /\ well_formed m' /\
    Lifetime_GetFrom m' y = (n * Second, Ok tt).
Proof.
  intros Hn Hwf Hno Hok.
  assert (put32 (u32 (trunc (Seconds (n * Second)))) = put32 n) as Hv.
  { rewrite Seconds_whole by done. unfold u32. by rewrite Z.mod_small by done. }
  destruct (codec_add_ok (Codec := lifetime_codec) (n * Second) (ex_intro _ n (conj eq_refl Hn)) m Hwf)
    as (m' & Ha & Hwf' & Habs).
  { cbn [codec_type codec_value lifetime_codec sized_codec]. by rewrite Hv. }
  exists m'. split; [done|]. split; [done|].
  destruct (codec_get_ok (Codec := lifetime_codec) m' (n * Second) y (ex_intro _ n (conj eq_refl Hn)) I)
    as (y' & Hg & Hs).
  - by destruct Hwf' as [_ (? & _) _ _].
  - rewrite Habs. cbn [codec_type codec_value lifetime_codec sized_codec p_attrs with_attr].
    rewrite lookup_attr_app, Hno. cbn [lookup_attr]. by rewrite Z.eqb_refl.
  - cbn in Hs. unfold id in Hs. by subst y'.
Qed.
End TurnProps.

(** * Witnesses *)

Section Witnesses.
#[local] Existing Instance doubling_runtime.

Definition example_frame : ChannelData := mkChannelData 0x4001 (bs "payload").

Lemma ChannelData_transfer_witness :
  exists m1, ChannelData_AddTo example_frame (set_MType ChannelDataRequest New) = (m1, Ok tt) /\
  forall m2 c0, exists n m3, Write (visible (Raw m1)) m2 = (m3, Ok (n, None)) /\
    ChannelData_GetFrom true m3 c0 = (example_frame, Ok tt).
Proof.
  apply (ChannelData_transfer true example_frame).
  - reflexivity.
  - vm_compute. split; intros [=].
  - vm_compute. reflexivity.
Defined.

Definition long_frame : ChannelData :=
  mkChannelData 0x4001 (replicate (Z.to_nat 65532) Byte.x00).

Lemma ChannelData_too_long_witness :
  exists m', Write (channel_bytes long_frame) New
    = (m', Ok (length (channel_bytes long_frame), Some ErrFormatError)).
Proof.
  apply ChannelData_too_long.
  - vm_compute. split; intros [=].
  - unfold zlen, long_frame. cbn [cd_Data]. rewrite length_replicate. vm_compute. intros [=].
Defined.

Lemma Lifetime_roundtrip_witness :
  exists m', Lifetime_AddTo (600 * Second) started = (m', Ok tt) /\
    Lifetime_GetFrom m' 0 = (600 * Second, Ok tt).
Proof.
  destruct (Lifetime_roundtrip 600 started 0) as (m' & H1 & _ & H2).
  - lia.
  - apply started_well_formed.
  - reflexivity.
  - solve_packet_ok.
  - exists m'. exact (conj H1 H2).
Defined.
End Witnesses.
