(* ===== verification/Fuzz.v ===== *)
(** The fuzz targets of [src/stun/fuzz.go] and [src/turn/fuzz.go]: functions that
    panic when an encoded value does not come back, here as functions into
    [result] whose [Ok] is the int they return.

    The targets feed attributes from one message to another; an attribute that
    is a view of the message it was read from is a view of that message's
    array ([view_of]). *)
From stdpp Require Import base list sets strings.
From Stdlib Require Import ZArith Lia.
From S2P Require Import Prelude Wire GoFmt GoSlice StunTypes StunMessage StunAttrs StunAddr StunText Turn.
Open Scope Z_scope.

(** * Message types *)

(** [binary.Uvarint]: the value and the number of bytes, not positive on an
    overflow; it is 0 for a buffer that is too short. *)
Fixpoint uvarint_from (buf : bytes) (i x s : Z) : Z * Z :=
  match buf with
  | [] => (0, 0)
  | b :: buf' =>
      if bz b <? 0x80 then
        if (9 <? i) || (i =? 9) && (1 <? bz b) then (0, - (i + 1))
        else (Z.lor x (u64 (Z.shiftl (bz b) s)), i + 1)
      else uvarint_from buf' (i + 1) (Z.lor x (u64 (Z.shiftl (Z.land (bz b) 0x7f) s))) (s + 7)
  end.
Definition Uvarint (buf : bytes) : Z * Z := uvarint_from buf 0 0 0.

Definition FuzzType (data : bytes) : result Empty_set Z :=
  let '(vt, _) := Uvarint data in
  let v := Z.land (u16 vt) 0x1fff in
  let t := ReadValue v in
  let v2 := Value t in
  if negb (v =? v2) then Panic (PanicCall (bs "v != v2"))
  else
    let t2 := ReadValue v2 in
    if negb (bool_decide (t2 = t)) then Panic (PanicCall (bs "t2 != t"))
    else Ok 0.

Section Messages.
Context `{GoRuntime}.
(** What a connection says of its own errors; [show] is the text of an error
    given to [panic]. *)
Variable io : Z -> bytes.
Abbreviation show := (error_Error io).
Variable supportsUnaligned : bool.

(** * Messages

    The message [m] is a variable of the package that keeps what an earlier call
    has left in it; [data] is a slice, so bytes 4 to 8 may lie behind its
    length. *)
Definition FuzzMessage (data : buffer) (m : Message) : Message * result Empty_set Z :=
  let '(m, _) := Reset m in
  match reslice (E := Empty_set) (arr data) 4 8 with
  | Panic p => (m, Panic p)
  | Err e => match e with end
  | Ok _ =>
      let data := write_at 4 (put32 magicCookie) data in
      match Write (visible data) m with
      | (m, Panic p) => (m, Panic p)
      | (m, Err e) => (m, Ok 0)
      | (m, Ok (_, Some e)) => (m, Ok 0)
      | (m, Ok (_, None)) =>
          match Write (visible (Raw m)) New with
          | (_, Panic p) => (m, Panic p)
          | (_, Err e) | (_, Ok (_, Some e)) => (m, Panic (PanicCall (show e)))
          | (m2, Ok (_, None)) =>
              if negb (bool_decide (TID m2 = TID m)) then (m, Panic (PanicCall (bs "transaction ID mismatch")))
              else if negb (bool_decide (MType m2 = MType m)) then (m, Panic (PanicCall (bs "type missmatch")))
              else if negb (length (attrs m2) =? length (attrs m))%nat
              then (m, Panic (PanicCall (bs "attributes length missmatch")))
              else (m, Ok 1)
          end
      end
  end.

(** * Attributes *)

(** A [Getter] and [Setter] with its type: the target of [GetFrom], [new] of it,
    and [AddTo] of what a message was read into. *)
Record attr := mkAttr {
  at_target : Type;
  at_type : Z;
  at_new : at_target;
  at_get : Message -> ST at_target error unit;
  at_add : Message -> at_target -> M unit
}.
Definition view_of (m : Message) (s : slice) : slice := moved (Some (array m)) s.
Definition nilAddress : Address := mkAddress (Buffer [] 0) 0.

Definition attr_of_text (t : Z) (get : Message -> ST bytes error unit) (add : slice -> M unit) : attr :=
  mkAttr bytes t [] get (fun _ v => add (fresh v)).
Definition stun_attributes : list attr :=
  [attr_of_text AttrRealm Realm_GetFrom Realm_AddTo;
   mkAttr Address AttrXORMappedAddress nilAddress (XORMappedAddress_GetFrom supportsUnaligned)
     (fun _ => XORMappedAddress_AddTo supportsUnaligned);
   attr_of_text AttrNonce Nonce_GetFrom Nonce_AddTo;
   attr_of_text AttrSoftware Software_GetFrom Software_AddTo;
   mkAttr Address AttrAlternateServer nilAddress AlternateServer_GetFrom (fun _ => AlternateServer_AddTo);
   mkAttr ErrorCodeAttribute AttrErrorCode (mkErrorCode 0 (fresh [])) ErrorCodeAttribute_GetFrom
     (fun m c => ErrorCodeAttribute_AddTo (mkErrorCode (Code c) (view_of m (Reason c))));
   mkAttr (list Z) AttrUnknownAttributes [] UnknownAttributes_GetFrom (fun _ => UnknownAttributes_AddTo);
   attr_of_text AttrUsername Username_GetFrom Username_AddTo].
Definition turn_attributes : list attr :=
  [mkAttr byte AttrRequestedTransport Byte.x00 RequestedTransport_GetFrom (fun _ => RequestedTransport_AddTo);
   mkAttr Address AttrXORRelayedAddress nilAddress (RelayedAddress_GetFrom supportsUnaligned)
     (fun _ => RelayedAddress_AddTo supportsUnaligned);
   mkAttr Z AttrChannelNumber 0 ChannelNumber_GetFrom (fun _ => ChannelNumber_AddTo);
   mkAttr slice AttrData (fresh []) Data_GetFrom (fun m d => Data_AddTo (view_of m d));
   mkAttr bool AttrEvenPort false EvenPort_GetFrom (fun _ => EvenPort_AddTo);
   mkAttr Z AttrLifetime 0 Lifetime_GetFrom (fun _ => Lifetime_AddTo);
   mkAttr slice AttrReservationToken (fresh []) ReservationToken_GetFrom
     (fun m t => ReservationToken_AddTo (view_of m t))].

(** [attrs.pick] *)
Definition pick (a : list attr) (v : byte) : option attr := a !! (Z.to_nat (bz v) mod length a)%nat.

(** [&Message{Raw: make([]byte, 0, 2048)}] *)
Definition raw_message : Message :=
  mkMessage (NewType 0 0) 0 (replicate 12 Byte.x00) None (Buffer (replicate 2048 Byte.x00) 0).

(** The body that both [FuzzSetters] share; [tolerated] are the errors of
    [AddTo] that do not panic.  [WriteHeader] and [Add] return nothing, so their
    [Err] cases stand for no code and are never taken. *)
Definition fuzz_attr (tolerated : error -> bool) (a : attr) (value : bytes) : result Empty_set Z :=
  match (WriteHeader;;; Add (at_type a) (fresh value)) raw_message with
  | (_, Panic p) => Panic p
  | (_, Err e) => Panic (PanicCall (show e))
  | (m1, Ok _) =>
      match at_get a m1 (at_new a) with
      | (_, Panic p) => Panic p
      | (_, Err e) => if bool_decide (e = ErrAttributeNotFound) then Panic (PanicCall (show e)) else Ok 1
      | (g, Ok _) =>
          match (WriteHeader;;; at_add a m1 g) raw_message with
          | (_, Panic p) => Panic p
          | (_, Err e) => if tolerated e then Ok 1 else Panic (PanicCall (show e))
          | (m2, Ok _) =>
              match WriteHeader raw_message with
              | (_, Panic p) => Panic p
              | (_, Err e) => Panic (PanicCall (show e))
              | (m3, Ok _) =>
                  match Get m2 (at_type a) with
                  | Panic p => Panic p
                  | Err e => Panic (PanicCall (show e))
                  | Ok v =>
                      match Add (at_type a) (view_of m2 v) m3 with
                      | (_, Panic p) => Panic p
                      | (_, Err e) => Panic (PanicCall (show e))
                      | (m3, Ok _) =>
                          if negb (Equal m2 m3) then Panic (PanicCall (bs "not equal")) else Ok 1
                      end
                  end
              end
          end
      end
  end.

Definition is_overflow (e : error) : bool := match e with AttrOverflowErr _ _ _ => true | _ => false end.
Definition fuzz_value (data : bytes) : bytes := if (1 <? length data)%nat then drop 1 data else data.
Definition first_byte (data : bytes) : byte := match data with [] => Byte.x00 | b :: _ => b end.

Definition stun_FuzzSetters (data : bytes) : result Empty_set Z :=
  match pick stun_attributes (first_byte data) with
  | None => Panic IndexOutOfRange
  | Some a => fuzz_attr is_overflow a (fuzz_value data)
  end.
Definition turn_FuzzSetters (data : bytes) : result Empty_set Z :=
  match pick turn_attributes (first_byte data) with
  | None => Panic IndexOutOfRange
  | Some a => fuzz_attr (fun _ => false) a (fuzz_value data)
  end.
End Messages.
