(* ===== verification/FuzzProps.v ===== *)
(** What the fuzz targets of [src/stun/fuzz.go] and [src/turn/fuzz.go] return:
    that they never fail, or exactly when they do. *)
From stdpp Require Import base list sets strings.
From Stdlib Require Import ZArith Lia.
From S2P Require Import Prelude Wire GoFmt GoSlice StunTypes StunMessage StunPacket StunCodec StunBuild StunAttrs.
From S2P Require Import StunAddr Turn Fuzz.
Open Scope Z_scope.

(** * Types *)

(** The fuzz target for message types never fails: whatever the number read
    from the data, its 13 low bits survive [ReadValue] and [Value], and so does
    the type. *)
Theorem FuzzType_never_fails (data : bytes) : FuzzType data = Ok 0.
Proof.
  unfold FuzzType. destruct (Uvarint data) as [vt n].
  assert (0 <= Z.land (u16 vt) 0x1fff < 2 ^ 14) as Hv.
  { change 0x1fff with (Z.ones 13). rewrite Z.land_ones by lia.
    pose proof (Z.mod_pos_bound (u16 vt) (2 ^ 13) ltac:(lia)). lia. }
  destruct (Value_ReadValue _ Hv) as [-> _]. rewrite Z.eqb_refl. cbn [negb].
  by rewrite bool_decide_eq_true_2.
Qed.

(** * Messages *)

Section Messages.
Context `{GoRuntime}.
Variable io : Z -> bytes.

Lemma append_raw_keeps v m :
  buffer_ok (Raw m) ->
  exists m1, append_raw 0 v m = (m1, Ok tt) /\ buffer_ok (Raw m1) /\ visible (Raw m1) = v /\
    TID m1 = TID m /\ MType m1 = MType m /\ length (attrs m1) = length (attrs m).
Proof.
  intros Hb. destruct (append_raw_spec 0 v m) as (m1 & E & Hb1 & Hvis); [lia|].
  exists m1. split; [done|]. split; [done|]. split; [done|].
  unfold append_raw, reslice_raw, set_len, st_bind in E. cbn in E.
  destruct (append _ v) as [b o]. injection E as <-. cbn. split; [done|]. split; [done|].
  unfold attrs. cbn. destruct (Attributes m); cbn; [by rewrite length_map|done].
Qed.

(** Writing at least four bytes. *)
Lemma Write_four_bytes data m :
  buffer_ok (Raw m) -> (4 <= length data)%nat ->
  exists m1, TID m1 = TID m /\ buffer_ok (Raw m1) /\ visible (Raw m1) = data /\
  ((is_channel_data data = true /\
    Write data m = if u16 (get16 (drop 2 data) + 4) =? Z.of_nat (length data)
      then (set_MType (NewType MethodChannelData ClassSuccessResponse) m1, Ok (length data, None))
      else (m1, Ok (length data, Some ErrFormatError))) /\ length (attrs m1) = length (attrs m) \/
   is_channel_data data = false /\
   ((exists p m', wire data p /\ decoded m1 m' p /\ Write data m = (m', Ok (length data, None))) \/
    (exists m' e, (forall p, ~ wire data p) /\ Write data m = (m', Ok (length data, Some e))))).
Proof.
  intros Hb Hlen. unfold Write. unfold st_bind.
  destruct (append_raw_keeps data m Hb) as (m1 & -> & Hb1 & Hvis & Ht & _ & Hat).
  exists m1. split; [done|]. split; [done|]. split; [done|]. unfold with_error.
  destruct (is_channel_data data) eqn:Ech.
  - left. split; [|done]. split; [done|]. unfold Decode. rewrite Hvis.
    destruct data as [|b0 r]; [done|]. cbn [is_channel_data] in Ech. rewrite Ech.
    assert (exists r', array m1 = (b0 :: r) ++ r') as [r' Hr].
    { exists (drop (blen (Raw m1)) (array m1)). rewrite <- Hvis. unfold visible. by rewrite take_drop. }
    rewrite Hr. unfold reslice. rewrite (proj2 (Nat.leb_le 4 _)) by (rewrite length_app; lia). cbn [Nat.leb andb].
    assert (get16 (take (4 - 2) (drop 2 ((b0 :: r) ++ r'))) = get16 (drop 2 (b0 :: r))) as ->.
    { destruct r as [|b1 [|b2 [|b3 r]]]; cbn in Hlen; try lia. done. }
    by destruct (u16 (get16 (drop 2 (b0 :: r)) + 4) =? Z.of_nat (length (b0 :: r))) eqn:Esize.
  - right. split; [done|]. rewrite <- Hvis.
    destruct (Decode_decides m1 Hb1) as [(p & m' & Hw & -> & Hdec)|(m' & e & Hno & ->)].
    + rewrite Hvis. intros ->. cbn in Hlen. lia.
    + by rewrite Hvis.
    + left. by exists p, m'.
    + right. by exists m', e.
Qed.

(** The fuzz target for messages.  On at least eight bytes it decodes a STUN
    message exactly when they are one and then reads the same transaction id,
    type and number of attributes from what the message holds: it never fails
    there.  It does fail on a ChannelData frame after a message with a
    transaction id, because decoding the frame leaves the old id in place; and
    on data that cannot be resliced to eight bytes. *)
Theorem FuzzMessage_outcomes (data : buffer) (m : Message) :
  buffer_ok data -> reusable m ->
  let b := visible (write_at 4 (put32 magicCookie) data) in
  let r := (FuzzMessage io data m).2 in
  ((bcap data < 8)%nat -> r = Panic SliceOutOfRange) /\
  ((8 <= blen data)%nat -> is_channel_data b = false ->
   (exists p, wire b p) /\ r = Ok 1 \/ (forall p, ~ wire b p) /\ r = Ok 0) /\
  ((8 <= blen data)%nat -> is_channel_data b = true ->
   r = if u16 (get16 (drop 2 b) + 4) =? Z.of_nat (length b)
       then if bool_decide (TID m = replicate 12 Byte.x00) then Ok 1
            else Panic (PanicCall (bs "transaction ID mismatch"))
       else Ok 0).
Proof.
  intros Hd Hm b r. subst r. unfold FuzzMessage. change (Reset m) with ((Reset m).1, @Ok error unit tt).
  set (m0 := (Reset m).1). cbn iota beta.
  assert (buffer_ok (Raw m0) /\ attrs m0 = [] /\ TID m0 = TID m) as (Hb0 & Hat0 & Ht0).
  { unfold m0, Reset, attrs, buffer_ok. cbn. split; [lia|]. by destruct (Attributes m). }
  change (reslice (arr data) 4 8) with
    (if (8 <=? bcap data)%nat then Ok (take 4 (drop 4 (arr data))) else @Panic Empty_set bytes SliceOutOfRange).
  split; [|split].
  - intros Hc. rewrite (proj2 (Nat.leb_gt 8 _)) by lia. done.
  - intros Hl Hch. assert (8 <= bcap data)%nat as Hc by (unfold buffer_ok in Hd; lia).
    rewrite (proj2 (Nat.leb_le 8 _)) by done. fold b.
    assert (length b = blen data) as Hlb.
    { unfold b, visible. rewrite length_take. fold (bcap (write_at 4 (put32 magicCookie) data)).
      rewrite write_at_bcap by (change (length (put32 magicCookie)) with 4%nat; lia). cbn [blen write_at]. unfold buffer_ok in Hd. lia. }
    destruct (Write_four_bytes b m0 Hb0 ltac:(lia)) as (m1 & _ & Hb1 & Hv1 & [[[? _] _]|[_ [(p & m' & Hw & Hdec & ->)|(m' & e & Hno & ->)]]]).
    + congruence.
    + left. split; [by exists p|].
      assert (visible (Raw m') = b) as Hv by (destruct Hdec as [-> _ _ _ _]; done). rewrite Hv.
      destruct (Write_four_bytes b New) as (m2 & _ & Hb2 & Hv2 & Hcase); [unfold buffer_ok; cbn; lia|lia|].
      destruct Hcase as [[[? _] _]|[_ [(q & m3 & Hq & Hdec3 & ->)|(m3 & e & Hno & _)]]]; [congruence| |by destruct (Hno p)].
      assert (q = p) as -> by (by eapply wire_unique). destruct Hdec as [_ Ha _ _ _]. destruct Hdec3 as [_ Ha3 _ _ _].
      assert (TID m3 = TID m' /\ MType m3 = MType m' /\ length (attrs m3) = length (attrs m')) as (E1 & E2 & E3).
      { rewrite <- Ha in Ha3. injection Ha3 as E1 E2 E3. apply (f_equal length) in E3. by rewrite !length_map in E3. }
      rewrite !bool_decide_eq_true_2 by done. by rewrite E3, Nat.eqb_refl.
    + right. by split.
  - intros Hl Hch. assert (8 <= bcap data)%nat as Hc by (unfold buffer_ok in Hd; lia).
    rewrite (proj2 (Nat.leb_le 8 _)) by done. fold b.
    assert (length b = blen data) as Hlb.
    { unfold b, visible. rewrite length_take. fold (bcap (write_at 4 (put32 magicCookie) data)).
      rewrite write_at_bcap by (change (length (put32 magicCookie)) with 4%nat; lia). cbn [blen write_at]. unfold buffer_ok in Hd. lia. }
    destruct (Write_four_bytes b m0 Hb0 ltac:(lia)) as (m1 & Ht1 & Hb1 & Hv1 & [[[_ ->] Ha1]|[? _]]); [|congruence].
    destruct (u16 _ =? _) eqn:Esize; [|done].
    destruct (Write_four_bytes b New) as (m2 & Ht2 & Hb2 & Hv2 & Hcase); [unfold buffer_ok; cbn; lia|lia|].
    destruct Hcase as [[[_ E] Ha2]|[? _]]; [|congruence]. change (Raw (set_MType _ m1)) with (Raw m1). rewrite Hv1, E, Esize.
    change (TID (set_MType _ m2)) with (TID m2). change (TID (set_MType _ m1)) with (TID m1).
    rewrite Ht2, Ht1, Ht0. change (TID New) with (replicate 12 Byte.x00).
    destruct (decide (TID m = replicate 12 Byte.x00)) as [Et|Et].
    + rewrite Et, !bool_decide_eq_true_2 by done. cbn [negb].
      change (attrs (set_MType _ m2)) with (attrs m2). change (attrs (set_MType _ m1)) with (attrs m1).
      by rewrite Ha2, Ha1, Hat0.
    + rewrite (bool_decide_eq_false_2 (replicate 12 Byte.x00 = TID m)) by congruence.
      by rewrite (bool_decide_eq_false_2 (TID m = replicate 12 Byte.x00)) by done.
Qed.
End Messages.

(** * Attributes *)

Section Attributes.
Context `{GoRuntime}.
Variable io : Z -> bytes.
Variable supportsUnaligned : bool.

(** The packets a fuzz target of attributes goes through. *)
Definition bare : packet := Packet (NewType 0 0) (replicate 12 Byte.x00) [].

Lemma raw_header : exists m, WriteHeader raw_message = (m, Ok tt) /\ well_formed m /\ abs m = bare.
Proof. apply WriteHeader_wf; [unfold buffer_ok, bcap; cbn; lia|done..]. Qed.

Lemma bare_attr_ok t v : 0 <= t < 2 ^ 16 -> zlen v <= 65000 -> packet_ok (with_attr (t, v) bare).
Proof.
  intros Ht Hv. split; [done|]. split; [by apply Forall_singleton|]. cbn [p_attrs with_attr bare app].
  rewrite encode_attrs_singleton, encode_attr_length. cbn [snd]. unfold zlen in Hv.
  destruct (padded_spec (length v)) as [? ?]. lia.
Qed.

(** Two messages with the same single attribute are equal for [Equal]. *)
Lemma one_attr_equal m m' t v :
  well_formed m -> well_formed m' -> abs m = with_attr (t, v) bare -> abs m' = abs m -> Equal m m' = true.
Proof.
  intros Hwf Hwf' Ha Ha'. pose proof (wf_length _ Hwf) as Hl. pose proof (wf_length _ Hwf') as Hl'.
  assert (forall n, well_formed n -> abs n = with_attr (t, v) bare ->
    MType n = NewType 0 0 /\ TID n = replicate 12 Byte.x00 /\
    exists a, Attributes n = Some [a] /\ Type_ a = t /\ value_of n a = v /\ slen (AValue a) = length v /\
      ALength a = u16 (Z.of_nat (length v))) as Hone.
  { intros n [[Hb _ Hs Hal] _ _ _] Hn. injection Hn as H1 H2 H3. split; [done|]. split; [done|].
    unfold attrs in *. destruct (Attributes n) as [[|a [|a' l]]|]; try done. exists a. split; [done|].
    injection H3 as H3 H4. inversion Hs as [|? ? Hsa _]; subst. inversion Hal as [|? ? Hala _]; subst.
    pose proof (contents_length (array n) _ _ Hsa Hb) as Hc. unfold value_of. rewrite Hc. done. }
  destruct (Hone m Hwf Ha) as (T1 & I1 & a & A1 & B1 & C1 & D1 & E1).
  destruct (Hone m' Hwf' ltac:(by rewrite Ha')) as (T2 & I2 & a' & A2 & B2 & C2 & D2 & E2).
  unfold Equal, attrEqual. rewrite T1, T2, I1, I2, Hl, Hl', Ha', A1, A2, !bool_decide_eq_true_2 by done.
  rewrite Z.eqb_refl. cbn [negb attrs_in]. unfold attrs. rewrite A2. cbn [default]. unfold from_option, id, Attributes_Get.
  rewrite B1, B2, Z.eqb_refl. unfold RawAttribute_Equal.
  by rewrite B1, B2, D1, D2, E1, E2, Z.eqb_refl, Z.eqb_refl, Nat.eqb_refl, bool_decide_eq_true_2 by congruence.
Qed.

(** The value found in a well formed message, as a view from another one. *)
Lemma Get_slice_ok m t s : well_formed m -> Get m t = Ok s -> slice_ok (blen (Raw m)) s.
Proof.
  intros [[_ _ Hs _] _ _ _]. unfold Get. induction Hs as [|a l Ha _ IH]; [done|]. cbn.
  destruct (Type_ a =? t); [by intros [= <-]|done].
Qed.

Lemma view_of_contents m a s : contents a (view_of m s) = contents (array m) s.
Proof. unfold view_of, moved, detach, contents, backing_array. by destruct (back s) eqn:E; cbn; rewrite ?E. Qed.

Lemma view_of_ok m n s : well_formed m -> slice_ok (blen (Raw m)) s -> slice_ok n (view_of m s).
Proof.
  intros [[Hb _ _ _] _ _ _]. unfold slice_ok, view_of, moved, detach, buffer_ok, bcap, array in *.
  destruct (back s) eqn:E; cbn; rewrite ?E; [lia|done].
Qed.

Lemma Add_view_implements t m s :
  well_formed m -> slice_ok (blen (Raw m)) s ->
  implements (Add t (view_of m s)) (fun p => Ok (with_attr (t, contents (array m) s) p)).
Proof.
  intros Hm Hs m' Hwf Hok. rewrite <- (view_of_contents m (array m') s) in Hok |- *.
  apply Add_wf; [done|by eapply view_of_ok|done].
Qed.

(** What a fuzz target makes of one attribute: [r] is its result when reading the
    value gives an error other than a missing attribute, or a target whose
    setter adds a value that fits, or fails as [r] says. *)
Definition setter_result (tolerated : error -> bool) (t : Z) (f : packet -> result error packet)
    (r : result Empty_set Z) : Prop :=
  match f bare with
  | Ok p => exists v, p = with_attr (t, v) bare /\ zlen v <= 65000 /\ r = Ok 1
  | Err e => tolerated e = true /\ r = Ok 1
  | Panic p => r = Panic p
  end.
Definition attr_result (tolerated : error -> bool) (a : attr) (m1 : Message) (r : result Empty_set Z) : Prop :=
  match at_get a m1 (at_new a) with
  | (_, Panic p) => False
  | (_, Err e) => e <> ErrAttributeNotFound /\ r = Ok 1
  | (g, Ok _) => exists f, implements (at_add a m1 g) f /\ setter_result tolerated (at_type a) f r
  end.

Lemma fuzz_attr_result tolerated a value r :
  0 <= at_type a < 2 ^ 16 -> zlen value <= 65000 ->
  (forall m1, (WriteHeader;;; Add (at_type a) (fresh value)) raw_message = (m1, Ok tt) ->
     well_formed m1 -> abs m1 = with_attr (at_type a, value) bare -> attr_result tolerated a m1 r) ->
  fuzz_attr io tolerated a value = r.
Proof.
  intros Ht Hv Hr. unfold fuzz_attr. destruct raw_header as (h & Hh & Hwf & Habs).
  assert (forall c : M unit, (WriteHeader;;; c) raw_message = c h) as Hc by (intros; unfold st_bind; by rewrite Hh).
  rewrite Hc.
  destruct (Add_fresh_wf (at_type a) value h Hwf) as (m1 & E1 & Hwf1 & Habs1); [rewrite Habs; by apply bare_attr_ok|].
  rewrite Habs in Habs1. specialize (Hr m1 ltac:(by rewrite Hc) Hwf1 Habs1). rewrite E1. unfold attr_result in Hr.
  destruct (at_get a m1 (at_new a)) as [g [[]|e|p]]; [|destruct Hr as [He ->]; by rewrite bool_decide_eq_false_2|done].
  rewrite Hc. destruct Hr as (f & Hf & Hr). specialize (Hf h Hwf). rewrite Habs in Hf. unfold setter_result in Hr.
  destruct (f bare) as [p|e|p]; [|destruct Hf as (m2 & -> & _), Hr as [-> ->]; done|destruct Hf as [m2 ->]; done].
  destruct Hr as (v & -> & Hlv & ->). destruct (Hf (bare_attr_ok _ _ Ht Hlv)) as (m2 & -> & Hwf2 & Habs2).
  rewrite Hh. destruct (Get_found m2 (at_type a) v) as (s & Hs & Hcs).
  { rewrite Habs2. cbn. by rewrite Z.eqb_refl. }
  rewrite Hs. destruct (Add_view_implements (at_type a) m2 s Hwf2 (Get_slice_ok _ _ _ Hwf2 Hs) h Hwf) as (m3 & -> & Hwf3 & Habs3).
  { rewrite Hcs, Habs. by apply bare_attr_ok. }
  rewrite Hcs, Habs in Habs3. by rewrite (one_attr_equal m2 m3 (at_type a) v) by congruence.
Qed.

(** ** The attributes of the stun package *)

Lemma read_value m1 t v :
  abs m1 = with_attr (t, v) bare -> exists s, Get m1 t = Ok s /\ contents (array m1) s = v.
Proof. intros Ha. apply Get_found. rewrite Ha. cbn. by rewrite Z.eqb_refl. Qed.

Lemma text_result t maxLen m1 v :
  0 < maxLen <= 65000 -> abs m1 = with_attr (t, v) bare ->
  attr_result is_overflow (attr_of_text t (TextAttribute_GetFromAs t) (fun s => TextAttribute_AddToAs s t maxLen)) m1 (Ok 1).
Proof.
  intros Hmax Ha. destruct (read_value m1 t v Ha) as (s & Hs & Hc).
  unfold attr_result. cbn. unfold TextAttribute_GetFromAs. rewrite Hs, Hc.
  eexists. split; [apply TextAttribute_implements|]. unfold setter_result. cbn.
  rewrite (proj2 (Z.ltb_lt 0 maxLen)) by lia. cbn [andb]. destruct (Z.ltb_spec maxLen (zlen v)); [done|].
  exists v. split; [done|]. split; [lia|done].
Qed.

Lemma buffer_eta b : buffer_ok b -> Buffer (visible b ++ drop (blen b) (arr b)) (length (visible b)) = b.
Proof.
  destruct b as [a n]. unfold buffer_ok, visible, bcap. cbn. intros Hb. by rewrite take_drop, length_take_le.
Qed.

Lemma XORMappedAddress_add_result g t tol :
  0 <= t < 2 ^ 16 -> buffer_ok (IP g) -> ip_ok (visible (IP g)) ->
  exists f, implements (XORMappedAddress_AddToAs supportsUnaligned g t) f /\ setter_result tol t f (Ok 1).
Proof.
  intros Ht Hb Hip. destruct g as [b port]. cbn [IP] in *.
  pose proof (XORMappedAddress_implements supportsUnaligned (visible b) port t (drop (blen b) (arr b))) as Hi.
  rewrite buffer_eta in Hi by done. unfold Implements in Hi. eexists. split; [exact Hi|]. clear Hi.
  unfold setter_result. cbn [IP]. rewrite bool_decide_eq_true_2 by done. eexists. split; [done|]. split; [|done].
  unfold zlen, xor_address_value. rewrite !length_app, !put16_length, xor_list_length.
  destruct (normal_ip_length _ Hip) as (_ & ? & _). lia.
Qed.

Lemma MappedAddress_add_result g t tol :
  0 <= t < 2 ^ 16 -> buffer_ok (IP g) -> ip_ok (visible (IP g)) ->
  exists f, implements (MappedAddress_addAs g t) f /\ setter_result tol t f (Ok 1).
Proof.
  intros Ht Hb Hip. destruct g as [b port]. cbn [IP] in *.
  pose proof (MappedAddress_implements (visible b) port t (drop (blen b) (arr b))) as Hi.
  rewrite buffer_eta in Hi by done. unfold Implements in Hi. eexists. split; [exact Hi|]. clear Hi.
  unfold setter_result. cbn [IP]. rewrite bool_decide_eq_true_2 by done. eexists. split; [done|]. split; [|done].
  unfold zlen, address_value. rewrite !length_app, !put16_length.
  destruct (normal_ip_length _ Hip) as (_ & ? & _). lia.
Qed.

(** Writing an address over the zeros keeps its length. *)
Lemma write_ip_ok n b x :
  (n = 4 \/ n = 16)%nat -> buffer_ok b -> (length x <= n)%nat ->
  buffer_ok (write_at 0 x (ensure_ip n b)) /\ ip_ok (visible (write_at 0 x (ensure_ip n b))).
Proof.
  intros Hn Hb Hx. destruct (ensure_ip_spec n b Hb) as (Hb1 & Hl & Hv & Hc).
  split.
  - unfold buffer_ok. rewrite write_at_bcap by lia. exact Hb1.
  - unfold ip_ok. rewrite write_ip_spec by (done || lia). rewrite Hv, length_app, length_drop, length_replicate. lia.
Qed.
Lemma ip_len_cases f : (ip_len f = 4 \/ ip_len f = 16)%nat.
Proof. unfold ip_len. destruct (f =? familyIPv6); auto. Qed.

Lemma XORMappedAddress_result t tol m1 v :
  0 <= t < 2 ^ 16 -> abs m1 = with_attr (t, v) bare ->
  (forall s, Get m1 t = Ok s -> (2 <= length (reachable (array m1) s))%nat) ->
  attr_result tol (mkAttr Address t nilAddress (XORMappedAddress_GetFromAs supportsUnaligned t)
    (fun _ a => XORMappedAddress_AddToAs supportsUnaligned a t)) m1 (Ok 1).
Proof.
  intros Ht Ha Hr. destruct (read_value m1 t v Ha) as (s & Hs & Hc). specialize (Hr s Hs).
  unfold attr_result. cbn. unfold XORMappedAddress_GetFromAs. rewrite Hs. unfold reslice.
  rewrite (proj2 (Nat.leb_le 2 _)) by done. cbn [Nat.leb andb].
  destruct (negb _ && negb _); [done|]. destruct (length _ <=? 4)%nat; [done|].
  destruct (Nat.ltb_spec (blen (ensure_ip (ip_len (get16 (take (2 - 0) (drop 0 (reachable (array m1) s))))) (IP nilAddress)))
    (length (drop 4 (contents (array m1) s)))) as [|Hl]; [done|].
  set (n := ip_len _) in *. assert (buffer_ok (IP nilAddress)) as Hb by (unfold buffer_ok; cbn; lia).
  destruct (ensure_ip_spec n _ Hb) as (_ & Hbl & Hvis & _). rewrite Hbl in Hl. rewrite Hvis.
  rewrite xorBytes_spec by (rewrite (length_replicate n); lia).
  destruct (write_ip_ok n (IP nilAddress) (splice 0 (xor_list (drop 4 (contents (array m1) s))
     (splice 4 (take 12 (TID m1)) (splice 0 (put32 magicCookie) (replicate 16 Byte.x00)))) (replicate n Byte.x00)) (ip_len_cases _) Hb) as [H1 H2].
  { rewrite splice_length; rewrite length_replicate; [lia|]. rewrite xor_list_length. lia. }
  by apply XORMappedAddress_add_result.
Qed.

Lemma MappedAddress_result t tol m1 v :
  0 <= t < 2 ^ 16 -> abs m1 = with_attr (t, v) bare ->
  attr_result tol (mkAttr Address t nilAddress (MappedAddress_GetFromAs t) (fun _ a => MappedAddress_addAs a t)) m1 (Ok 1).
Proof.
  intros Ht Ha. destruct (read_value m1 t v Ha) as (s & Hs & Hc).
  unfold attr_result. cbn. unfold MappedAddress_GetFromAs. rewrite Hs.
  destruct (length _ <=? 4)%nat; [done|]. destruct (negb _ && negb _); [done|].
  assert (buffer_ok (IP nilAddress)) as Hb by (unfold buffer_ok; cbn; lia).
  destruct (ensure_ip_spec (ip_len (get16 (contents (array m1) s))) _ Hb) as (_ & Hbl & _ & _).
  rewrite Hbl.
  destruct (write_ip_ok (ip_len (get16 (contents (array m1) s))) (IP nilAddress)
    (take (ip_len (get16 (contents (array m1) s))) (drop 4 (contents (array m1) s))) (ip_len_cases _) Hb) as [H1 H2].
  { rewrite length_take. lia. }
  by apply MappedAddress_add_result.
Qed.

(** Which values the error code attribute reads but cannot add. *)
Definition long_reason (v : bytes) : bool := (763 <? zlen v) && (zlen v <=? 767).

Lemma ErrorCode_AddTo_contents c m :
  length (contents (array m) (Reason c)) = slen (Reason c) ->
  ErrorCodeAttribute_AddTo c m = ErrorCodeAttribute_AddTo (mkErrorCode (Code c) (fresh (contents (array m) (Reason c)))) m.
Proof.
  intros Hl. unfold ErrorCodeAttribute_AddTo. cbn [Reason Code slen fresh]. by rewrite contents_fresh, Hl.
Qed.

Lemma ErrorCode_result m1 v :
  well_formed m1 -> abs m1 = with_attr (AttrErrorCode, v) bare -> zlen v <= 65000 ->
  attr_result is_overflow (mkAttr ErrorCodeAttribute AttrErrorCode (mkErrorCode 0 (fresh [])) ErrorCodeAttribute_GetFrom
     (fun m c => ErrorCodeAttribute_AddTo (mkErrorCode (Code c) (view_of m (Reason c))))) m1
    (if long_reason v then Panic SliceOutOfRange else Ok 1).
Proof.
  intros Hwf Ha Hv. destruct (read_value m1 _ v Ha) as (s & Hs & Hc).
  pose proof (Get_slice_ok _ _ _ Hwf Hs) as Hok.
  assert (length v = slen s) as Hlen.
  { rewrite <- Hc. apply (contents_length _ (blen (Raw m1))); [done|apply Hwf]. }
  unfold attr_result. cbn [at_get at_new at_add at_type]. unfold ErrorCodeAttribute_GetFrom. rewrite Hs, Hc.
  destruct v as [|b0 [|b1 [|class [|number reason]]]]; [done..|]. cbn [Code Reason].
  set (code := u16 _). clearbody code.
  assert (contents (array m1) (slice_from errorCodeReasonStart s) = reason) as Hcr.
  { by rewrite contents_slice_from, Hc. }
  assert (slen (slice_from errorCodeReasonStart s) = length reason) as Hlr.
  { cbn [slice_from slen]. rewrite <- Hlen. cbn. lia. }
  pose proof (ErrorCodeAttribute_implements code reason) as Hi. unfold Implements in Hi.
  match type of Hi with implements _ ?f => exists f end. split.
  - intros m Hm. rewrite ErrorCode_AddTo_contents.
    + cbn [Code Reason]. rewrite view_of_contents, Hcr. exact (Hi m Hm).
    + cbn [Reason]. rewrite view_of_contents, Hcr, <- Hlr. unfold view_of, moved, detach. by destruct (back _).
  - unfold setter_result, long_reason. replace (zlen (b0 :: b1 :: class :: number :: reason)) with (zlen reason + 4) in *
      by (unfold zlen; cbn [length]; lia).
    destruct (Z.ltb_spec 763 (zlen reason)); [|destruct (Z.ltb_spec 759 (zlen reason))].
    + split; [done|]. by rewrite (proj2 (Z.leb_gt _ 767)), andb_false_r by lia.
    + by rewrite (proj2 (Z.leb_le _ 767)), (proj2 (Z.ltb_lt 763 _)) by lia.
    + rewrite (proj2 (Z.ltb_ge 763 _)) by lia. eexists. split; [done|]. split; [|done].
      unfold error_code_value. unfold zlen in *. rewrite length_app. cbn [length]. lia.
Qed.

Lemma unknown_types_length fuel v : (length (unknown_types fuel v) <= fuel)%nat.
Proof. revert v. induction fuel as [|fuel IH]; intros [|b v]; cbn; [lia..|]. specialize (IH (drop attrTypeSize (b :: v))). cbn in IH. lia. Qed.

Lemma UnknownAttributes_result tol m1 v :
  abs m1 = with_attr (AttrUnknownAttributes, v) bare -> zlen v <= 65000 ->
  attr_result tol (mkAttr (list Z) AttrUnknownAttributes [] UnknownAttributes_GetFrom (fun _ => UnknownAttributes_AddTo)) m1 (Ok 1).
Proof.
  intros Ha Hv. destruct (read_value m1 _ v Ha) as (s & Hs & Hc).
  unfold attr_result. cbn [at_get at_new at_add at_type]. unfold UnknownAttributes_GetFrom. rewrite Hs, Hc.
  destruct (negb _); [done|]. eexists. split; [apply Add_implements|]. unfold setter_result.
  eexists. split; [done|]. split; [|done]. unfold zlen in *. rewrite unknown_value_length.
  pose proof (unknown_types_length (length v / attrTypeSize) v). unfold attrTypeSize in *.
  pose proof (Nat.Div0.mul_div_le (length v) 4). lia.
Qed.

(** A value of fewer than two bytes in the 2048 bytes of a fuzz message. *)
Lemma short_value_reachable t v m1 s :
  (length v < 2)%nat -> (WriteHeader;;; Add t (fresh v)) raw_message = (m1, Ok tt) -> Get m1 t = Ok s ->
  (2 <= length (reachable (array m1) s))%nat.
Proof.
  intros Hv E. assert (m1 = ((WriteHeader;;; Add t (fresh v)) raw_message).1) as -> by (by rewrite E). clear E.
  set (c := _ raw_message).
  assert (Attributes c.1 = Some [mkRawAttribute t (u16 (zlen v)) (Slice Live 24 (length v))] /\ length (array c.1) = 2048%nat)
    as [Hat Hcap].
  { destruct v as [|b [|b' v]]; [split; vm_compute; reflexivity..|cbn in Hv; lia]. }
  clearbody c. unfold Get, attrs. rewrite Hat. cbn. rewrite Z.eqb_refl. intros [= <-].
  change (2 <= length (drop 24 (array c.1)))%nat. rewrite length_drop, Hcap. lia.
Qed.

Lemma value_reachable t v m1 s :
  (WriteHeader;;; Add t (fresh v)) raw_message = (m1, Ok tt) -> abs m1 = with_attr (t, v) bare ->
  Get m1 t = Ok s -> (2 <= length (reachable (array m1) s))%nat.
Proof.
  intros E Ha Hs. destruct (Nat.lt_ge_cases (length v) 2) as [Hv|Hv]; [by eapply short_value_reachable|].
  destruct (read_value m1 t v Ha) as (s' & Hs' & Hc). rewrite Hs in Hs'. injection Hs' as <-.
  rewrite <- Hc in Hv. unfold contents in Hv. rewrite length_take in Hv. unfold reachable. lia.
Qed.

Lemma fuzz_value_length data : zlen (fuzz_value data) <= zlen data.
Proof. unfold fuzz_value, zlen. destruct (_ <? _)%nat; rewrite ?length_drop; lia. Qed.

(** C35: The fuzz target for the attributes of the stun package.  On data of up to
    65000 bytes it always returns 1 (an attribute that can be read can be added,
    or is refused for its length, and comes out of the message equal), except
    for an ERROR-CODE value of 764 to 767 bytes: its reason is within the limit
    that [AddTo] checks but not within the array it is copied to, and the slice
    expression panics. *)
Theorem stun_FuzzSetters_outcomes (data : bytes) :
  zlen data <= 65000 ->
  stun_FuzzSetters io supportsUnaligned data =
  if (bz (first_byte data) mod 8 =? 5) && long_reason (fuzz_value data) then Panic SliceOutOfRange else Ok 1.
Proof.
  intros Hd. pose proof (fuzz_value_length data) as Hl. unfold stun_FuzzSetters, pick.
  pose proof (bz_range (first_byte data)) as Hr. cbn [length stun_attributes].
  set (b := bz (first_byte data)) in *. set (v := fuzz_value data) in *. clearbody v.
  assert (Z.to_nat b mod 8 = Z.to_nat (b mod 8))%nat as -> by (by rewrite Z2Nat.inj_mod by lia).
  pose proof (Z.mod_pos_bound b 8 ltac:(lia)) as Hi. set (i := b mod 8) in *. clearbody i b.
  assert (i = 0 \/ i = 1 \/ i = 2 \/ i = 3 \/ i = 4 \/ i = 5 \/ i = 6 \/ i = 7) as Hcase by lia.
  destruct Hcase as [-> |[-> |[-> |[-> |[-> |[-> |[-> | ->]]]]]]]; cbn [Z.eqb Pos.eqb andb lookup list_lookup Z.to_nat Pos.to_nat];
    cbn; apply fuzz_attr_result; try done; try (cbn; lia); intros m1 E Hwf Ha.
  - by apply (text_result _ _ _ v).
  - apply (XORMappedAddress_result _ _ _ v); [done|exact Ha|]. intros s. by apply (value_reachable _ v).
  - by apply (text_result _ _ _ v).
  - by apply (text_result _ _ _ v).
  - by apply (MappedAddress_result _ _ _ v).
  - apply ErrorCode_result; [done|done|lia].
  - apply (UnknownAttributes_result _ _ v); [done|lia].
  - by apply (text_result _ _ _ v).
Qed.

(** ** The attributes of the turn package *)

Lemma sized_result {A} tol t size new (read : slice -> bytes -> A -> A) (value : A -> bytes) m1 v :
  abs m1 = with_attr (t, v) bare -> (forall x, zlen (value x) <= 65000) ->
  attr_result tol (mkAttr A t new (fun m => get_sized t size m read) (fun _ x => Add t (fresh (value x)))) m1 (Ok 1).
Proof.
  intros Ha Hv. destruct (read_value m1 t v Ha) as (s & Hs & Hc). unfold attr_result. cbn. unfold get_sized. rewrite Hs.
  destruct (negb _); [done|]. eexists. split; [apply Add_implements|]. unfold setter_result. by eexists.
Qed.

Lemma Data_result tol m1 v :
  well_formed m1 -> abs m1 = with_attr (AttrData, v) bare -> zlen v <= 65000 ->
  attr_result tol (mkAttr slice AttrData (fresh []) Data_GetFrom (fun m d => Data_AddTo (view_of m d))) m1 (Ok 1).
Proof.
  intros Hwf Ha Hv. destruct (read_value m1 _ v Ha) as (s & Hs & Hc). unfold attr_result. cbn. unfold Data_GetFrom. rewrite Hs.
  eexists. split; [by apply Add_view_implements, (Get_slice_ok _ _ _ Hwf Hs)|]. unfold setter_result.
  eexists. split; [done|]. by rewrite Hc.
Qed.

Lemma ReservationToken_result tol m1 v :
  well_formed m1 -> abs m1 = with_attr (AttrReservationToken, v) bare -> zlen v <= 65000 ->
  attr_result tol (mkAttr slice AttrReservationToken (fresh []) ReservationToken_GetFrom
    (fun m t => ReservationToken_AddTo (view_of m t))) m1 (Ok 1).
Proof.
  intros Hwf Ha Hv. destruct (read_value m1 _ v Ha) as (s & Hs & Hc). pose proof (Get_slice_ok _ _ _ Hwf Hs) as Hok.
  unfold attr_result. cbn [at_get at_new at_add at_type]. unfold ReservationToken_GetFrom, get_sized. rewrite Hs, Hc.
  destruct (Nat.eqb_spec (length v) reservationTokenSize) as [Hl|]; [|done]. cbn [negb].
  assert (slen (view_of m1 s) = reservationTokenSize) as Hsl.
  { rewrite <- Hl, <- Hc, (contents_length _ (blen (Raw m1))); [|done|apply Hwf].
    unfold view_of, moved, detach. by destruct (back s). }
  unfold ReservationToken_AddTo. rewrite Hsl. cbn [Nat.eqb reservationTokenSize negb].
  eexists. split; [by apply Add_view_implements|]. unfold setter_result.
  eexists. split; [done|]. by rewrite Hc.
Qed.

(** The fuzz target for the attributes of the turn package never fails on data
    of up to 65000 bytes: every attribute that can be read can be added again,
    with its length as required, and comes out of the message equal. *)
Theorem turn_FuzzSetters_never_fails (data : bytes) :
  zlen data <= 65000 -> turn_FuzzSetters io supportsUnaligned data = Ok 1.
Proof.
  intros Hd. pose proof (fuzz_value_length data) as Hl. unfold turn_FuzzSetters, pick. cbn [length turn_attributes].
  pose proof (Nat.mod_upper_bound (Z.to_nat (bz (first_byte data))) 7 ltac:(lia)) as Hi.
  set (i := (_ mod 7)%nat) in *. set (v := fuzz_value data) in *. clearbody v i.
  destruct i as [|[|[|[|[|[|[|i]]]]]]]; [..|lia];
    cbn; (apply fuzz_attr_result; [done|lia|]); intros m1 E Hwf Ha.
  - by apply (sized_result _ _ _ _ _ (fun p => [p; Byte.x00; Byte.x00; Byte.x00]) _ v).
  - apply (XORMappedAddress_result _ _ _ v); [done|exact Ha|]. intros s. by apply (value_reachable _ v).
  - by apply (sized_result _ _ _ _ _ (fun n => put16 (u16 n) ++ [Byte.x00; Byte.x00]) _ v).
  - apply (Data_result _ _ v); [done|done|lia].
  - by apply (sized_result _ _ _ _ _ (fun r : bool => [if r then zb firstBitSet else Byte.x00]) _ v).
  - by apply (sized_result _ _ _ _ _ (fun l => put32 (u32 (trunc (Seconds l)))) _ v).
  - apply (ReservationToken_result _ _ v); [done|done|lia].
Qed.
End Attributes.

(** * Examples *)

Section Witnesses.
#[local] Existing Instance doubling_runtime.

(** A ChannelData frame of four bytes, of any content, and a message that an
    earlier call has left with a transaction id. *)
Definition fuzz_frame : buffer := Buffer (map zb [0x40; 0; 0; 4; 1; 2; 3; 4]) 8.
Definition fuzzed_before : Message := set_TID (replicate 12 Byte.xff) New.

Lemma FuzzMessage_outcomes_witness :
  (FuzzMessage (fun _ => []) fuzz_frame fuzzed_before).2 = Panic (PanicCall (bs "transaction ID mismatch")).
Proof.
  destruct (FuzzMessage_outcomes (fun _ => []) fuzz_frame fuzzed_before) as (_ & _ & Hframe).
  - unfold buffer_ok. cbn. lia.
  - split; [unfold buffer_ok; cbn; lia|reflexivity].
  - rewrite Hframe; [vm_compute; reflexivity|cbn; lia|vm_compute; reflexivity].
Defined.

(** The first byte picks the ERROR-CODE, 765 more are its value. *)
Definition long_error : bytes := zb 5 :: replicate 765 Byte.x00.

Lemma stun_FuzzSetters_outcomes_witness :
  stun_FuzzSetters (fun _ => []) true long_error = Panic SliceOutOfRange.
Proof. rewrite stun_FuzzSetters_outcomes; [vm_compute; reflexivity|vm_compute; intros [=]]. Defined.

Lemma turn_FuzzSetters_never_fails_witness :
  turn_FuzzSetters (fun _ => []) true (map zb [5; 0; 0; 0; 7]) = Ok 1.
Proof. apply turn_FuzzSetters_never_fails. vm_compute. intros [=]. Defined.
End Witnesses.
