(* ===== verification/Util.v ===== *)
(** The helpers of [src/utils/util.go]: random strings, which are the fragments and
    passwords of an ICE session, fixed-width integers, short names, keys and
    secrets, texts and copies of values, strings and bytes without a copy.

    A random source delivers bytes, numbers or an error; it is an argument, as are
    the curve, Keccak, spew, gob and the operating system. *)
From stdpp Require Import base list sets strings.
From Stdlib Require Import ZArith Lia.
From S2P Require Import Prelude GoFmt GoSlice StunTypes.
Open Scope Z_scope.

(** * Base 32 of the standard library, RFC 4648 *)

Definition base32_char (v : Z) : byte := zb (if v <? 26 then 65 + v else 24 + v).
Definition base32_pad : byte := zb 61.

(** Up to five bytes as a number of 40 bits. *)
Fixpoint value40 (k : nat) (l : bytes) : Z :=
  match k with
  | O => 0
  | S k' => match l with
            | [] => 0
            | b :: l' => bz b * 2 ^ (8 * Z.of_nat k') + value40 k' l'
            end
  end.
(** The characters that hold bits of [n] bytes: 2, 4, 5, 7 or 8. *)
Definition significant (n : nat) : nat := ((8 * n + 4) / 5)%nat.
Definition base32_chunk (l : bytes) : bytes :=
  let v := value40 5 l in
  map (fun i => if (i <? significant (length l))%nat
                then base32_char (Z.land (Z.shiftr v (35 - 5 * Z.of_nat i)) 31) else base32_pad) (seq 0 8).
Fixpoint base32_loop (fuel : nat) (l : bytes) : bytes :=
  match fuel, l with
  | _, [] => []
  | O, _ => []
  | S fuel', _ => base32_chunk (take 5 l) ++ base32_loop fuel' (drop 5 l)
  end.
(** [base32.StdEncoding.EncodeToString] *)
Definition base32_encode (l : bytes) : bytes := base32_loop (length l) l.

Example base32_1 : base32_encode (bs "f") = bs "MY======". Proof. reflexivity. Qed.
Example base32_2 : base32_encode (bs "foob") = bs "MZXW6YQ=". Proof. reflexivity. Qed.
Example base32_3 : base32_encode (bs "foobar") = bs "MZXW6YTBOI======". Proof. reflexivity. Qed.

(** * Operations *)

Section Random.
(** What a failed read of the random source says. *)
Variable io : error -> bytes.

(** [readFullOrPanic], [Random] *)
Definition readFullOrPanic (r : bytes + error) : result Empty_set bytes :=
  match r with inl v => Ok v | inr e => Panic (PanicCall (io e)) end.
Definition Random (rnd : nat -> bytes + error) (n : nat) : result Empty_set bytes := readFullOrPanic (rnd n).

(** [RandomString] *)
Definition RandomString (rnd : nat -> bytes + error) (n : nat) : result Empty_set bytes :=
  v ← Random rnd n; reslice (base32_encode v) 0 n.
End Random.

(** [big.Int.Bytes]: the bytes of the absolute value, without leading zeros. *)
Fixpoint nat_bytes (fuel : nat) (n : Z) (acc : bytes) : bytes :=
  match fuel with
  | O => acc
  | S fuel' => if n =? 0 then acc else nat_bytes fuel' (n / 256) (zb (n mod 256) :: acc)
  end.
Definition Int_Bytes (i : Z) : bytes := nat_bytes (S (Z.to_nat (Z.log2 (Z.abs i)))) (Z.abs i) [].

(** [BigIntTo32Bytes]: an index of the second loop is negative when the number
    has more than 32 bytes. *)
Definition BigIntTo32Bytes (i : Z) : result Empty_set bytes :=
  let data := Int_Bytes i in
  if (32 <? length data)%nat then Panic IndexOutOfRange
  else Ok (replicate (32 - length data) Byte.x00 ++ data).

(** [Pex]; [HPex], [APex] and [APex2] of a hash of 32 and an address of 20 bytes.
    A slice of [data] may reach beyond its length. *)
Definition Pex (data : buffer) : result Empty_set bytes := v ← reslice (arr data) 0 4; Ok (hex_bytes v).
Definition HPex (data : bytes) : result Empty_set bytes := v ← reslice data 0 2; Ok (hex_bytes v).
Definition APex (data : bytes) : result Empty_set bytes := v ← reslice data 0 4; Ok (hex_bytes v).
Definition APex2 (data : bytes) : result Empty_set bytes := v ← reslice data 0 2; Ok (hex_bytes v).

(** ** Keys and hashes

    The curve, Keccak and the conversions of go-ethereum are arguments; Keccak
    takes the pieces that it hashes. *)
Section Keys.
Context {Key : Type}.
Variable Sign : bytes -> Key -> bytes * option error.
Variable Keccak256 : list bytes -> bytes.
Variables BytesToAddress BytesToHash : bytes -> bytes.
Variable io : error -> bytes.

(** [Sha3] *)
Definition Sha3 (data : list bytes) : bytes := Keccak256 data.

(** [SignData]: 27 is added to the last byte of the signature. *)
Definition SignData (privKey : Key) (data : bytes) : result Empty_set (bytes * option error) :=
  match Sign (Sha3 [data]) privKey with
  | (sig, Some e) => Ok (sig, Some e)
  | (sig, None) =>
      match last sig with
      | None => Panic IndexOutOfRange
      | Some v => Ok (<[(length sig - 1)%nat := zb (bz v + 27)]> sig, None)
      end
  end.

(** [PubkeyToAddress] *)
Definition PubkeyToAddress (pubkey : bytes) : result Empty_set bytes :=
  rest ← reslice pubkey 1 (length pubkey);
  let hash := Keccak256 [rest] in
  tail ← reslice hash 12 (length hash);
  Ok (BytesToAddress tail).

(** [EmptyHash], [EmptyAddress] *)
Definition EmptyHash : bytes := replicate 32 Byte.x00.
Definition EmptyAddress : bytes := replicate 20 Byte.x00.

(** [NewRandomAddress] *)
Definition NewRandomAddress (rnd : nat -> bytes + error) : result Empty_set bytes :=
  r ← Random io rnd 10;
  let hash := Sha3 [r] in
  tail ← reslice hash 12 (length hash);
  Ok (BytesToAddress tail).

(** [SecretGenerator], [RandomSecretGenerator], [NewSepecifiedSecretGenerator] *)
Definition SecretGenerator : Type := (nat -> bytes + error) -> result Empty_set (bytes * bytes).
Definition RandomSecretGenerator : SecretGenerator := fun rnd =>
  r ← Random io rnd 32;
  let secret := BytesToHash r in
  Ok (secret, Sha3 [secret]).
Definition NewSepecifiedSecretGenerator (hashlock : bytes) : SecretGenerator := fun _ => Ok (EmptyHash, hashlock).

Lemma SignData_recovery key data rs v :
  Sign (Sha3 [data]) key = (rs ++ [v], None) -> SignData key data = Ok (rs ++ [zb (bz v + 27)], None).
Proof.
  intros Hs. unfold SignData. rewrite Hs, last_snoc. do 2 f_equal.
  rewrite length_app. cbn [length]. rewrite Nat.add_sub. by rewrite insert_app_r_alt, Nat.sub_diag by done.
Qed.
Lemma RandomSecretGenerator_hashlock rnd secret hashlock :
  RandomSecretGenerator rnd = Ok (secret, hashlock) -> hashlock = Sha3 [secret].
Proof. unfold RandomSecretGenerator. destruct (Random io rnd 32); cbn; intros [=]; by subst. Qed.
End Keys.

(** ** Texts of values

    The configuration of spew is a variable of its package; a dump reads it. *)
Record spew_config := mkSpew { DisableMethods : bool; MaxDepth : Z }.
Section Texts.
Context {T : Type}.
Variable stringer : T -> option bytes.
Variable Sdump : spew_config -> T -> result Empty_set bytes.

Definition dump_with (disable : bool) (depth : Z) (i : T) : ST spew_config Empty_set bytes :=
  match stringer i with
  | Some s => st_ret s
  | None =>
      let! c := st_get in
      st_modify (fun _ => mkSpew disable depth);;;
      let! now := st_get in
      let! s := st_lift (Sdump now i) in
      st_modify (fun _ => c);;;
      st_ret s
  end.
(** [StringInterface], [StringInterface1] *)
Definition StringInterface (i : T) (depth : Z) : ST spew_config Empty_set bytes := dump_with false depth i.
Definition StringInterface1 (i : T) : ST spew_config Empty_set bytes := dump_with true 1 i.

(** The configuration is left as it was, unless the dump panics. *)
Lemma dump_restores disable depth i c c' s : dump_with disable depth i c = (c', Ok s) -> c' = c.
Proof.
  unfold dump_with. destruct (stringer i); [by intros [=]|]. unfold st_bind, st_get, st_modify, st_lift, st_ret.
  by destruct (Sdump _ i) as [|[]|]; intros [=].
Qed.
End Texts.

(** [DeepCopy]: what gob writes is read into the destination. *)
Definition DeepCopy {Src Dst} (encode : Src -> bytes + error) (decode : bytes -> Dst -> Dst * option error)
    (dst : Dst) (src : Src) : Dst * option error :=
  match encode src with
  | inr e => (dst, Some e)
  | inl b => decode b dst
  end.

(** [GetHomePath] *)
Definition GetHomePath (windows : bool) (Getenv : bytes -> bytes) : bytes :=
  if windows then Getenv (bs "HOMEDRIVE") ++ Getenv (bs "HOMEPATH") else Getenv (bs "HOME").

(** ** Bytes and strings without a copy

    Headers point into the memory, which is an argument. *)
Record StringHeader := mkStringHeader { sh_Data : Z; sh_Len : nat }.
Record SliceHeader := mkSliceHeader { bh_Data : Z; bh_Len : nat; bh_Cap : nat }.
(** [BytesToString], [StringToBytes] *)
Definition BytesToString (b : SliceHeader) : StringHeader := mkStringHeader (bh_Data b) (bh_Len b).
Definition StringToBytes (s : StringHeader) : SliceHeader := mkSliceHeader (sh_Data s) (sh_Len s) 0.

Section Memory.
Variable memory : Z -> byte.
Definition stored (data : Z) (len : nat) : bytes := map (fun i => memory (data + Z.of_nat i)) (seq 0 len).
Definition string_value (s : StringHeader) : bytes := stored (sh_Data s) (sh_Len s).
Definition slice_value (b : SliceHeader) : bytes := stored (bh_Data b) (bh_Len b).
End Memory.
(** [b[lo:hi]] *)
Definition slice_header (b : SliceHeader) (lo hi : nat) : result Empty_set SliceHeader :=
  if (lo <=? hi)%nat && (hi <=? bh_Cap b)%nat
  then Ok (mkSliceHeader (bh_Data b + Z.of_nat lo) (hi - lo) (bh_Cap b - lo)) else Panic SliceOutOfRange.

(** The string is the bytes in any memory: a later write to them changes it. *)
Lemma BytesToString_shares memory b : string_value memory (BytesToString b) = slice_value memory b.
Proof. done. Qed.
(** The bytes read well, but they have no capacity: not even the whole of them
    can be sliced. *)
Lemma StringToBytes_capacity memory s hi :
  (0 < hi)%nat ->
  slice_value memory (StringToBytes s) = string_value memory s /\
  slice_header (StringToBytes s) 0 hi = Panic SliceOutOfRange.
Proof. intros Hhi. split; [done|]. unfold slice_header. cbn. by destruct hi; [lia|]. Qed.

(** ** Random numbers of [math/rand]

    The source delivers the integers of 63 bits in [draws]; [None] when the
    rejections of [Int31n] and [Int63n] have used them all. *)
Definition Int31 (v : Z) : Z := Z.shiftr v 32.
Fixpoint below (max : Z) (draws : list Z) : option (Z * list Z) :=
  match draws with
  | [] => None
  | v :: draws' => if v <=? max then Some (v, draws') else below max draws'
  end.
(** [Int31n] and [Int63n] with [bits] of 31 and 63. *)
Definition Intn_bits (bits n : Z) (draws : list Z) : option (Z * list Z) :=
  if Z.land n (n - 1) =? 0 then
    match draws with v :: draws' => Some (Z.land v (n - 1), draws') | [] => None end
  else
    '(v, draws') ← below (2 ^ bits - 1 - 2 ^ bits mod n) draws; Some (v mod n, draws').
(** [NewRandomInt], [NewRandomInt64] *)
Definition NewRandomInt (n : Z) (draws : list Z) : result Empty_set (option Z) :=
  if n <=? 0 then Panic (PanicCall (bs "invalid argument to Intn"))
  else if n <=? 2 ^ 31 - 1 then Ok (fst <$> Intn_bits 31 n (map Int31 draws))
  else Ok (fst <$> Intn_bits 63 n draws).
Definition NewRandomInt64 (draws : list Z) : option Z := head draws.

Lemma Intn_bits_range bits n draws v draws' :
  0 < n -> Forall (fun d => 0 <= d) draws -> Intn_bits bits n draws = Some (v, draws') -> 0 <= v < n.
Proof.
  intros Hn Hd. unfold Intn_bits. destruct (Z.eqb_spec (Z.land n (n - 1)) 0) as [E|E].
  - destruct draws as [|d draws]; [done|]. intros [= <- _]. apply Forall_cons in Hd as [Hd _].
    split; [apply Z.land_nonneg; lia|].
    rewrite <- (Z2N.id d), <- (Z2N.id (n - 1)), <- N2Z.inj_land by lia. pose proof (N.land_le_r (Z.to_N d) (Z.to_N (n - 1))). lia.
  - destruct (below _ draws) as [[w l]|]; [|done]. cbn. intros [= <- _]. by apply Z.mod_pos_bound.
Qed.
(** The number is below [n]. *)
Lemma NewRandomInt_range n draws v :
  Forall (fun d => 0 <= d) draws -> NewRandomInt n draws = Ok (Some v) -> 0 <= v < n.
Proof.
  intros Hd. unfold NewRandomInt. destruct (Z.leb_spec n 0); [done|]. destruct (n <=? _).
  - destruct (Intn_bits 31 n _) as [[w l]|] eqn:E; [|done]. intros [= <-]. eapply Intn_bits_range in E; [done|done|].
    apply Forall_fmap. eapply Forall_impl; [exact Hd|]. intros d Hd0. by apply Z.shiftr_nonneg.
  - destruct (Intn_bits 63 n _) as [[w l]|] eqn:E; [|done]. intros [= <-]. by eapply Intn_bits_range.
Qed.

(** ** The system *)

(** [MakePrivateKeyAddress]: the error is ignored, but the key is used. *)
Definition MakePrivateKeyAddress {Key Pub} (GenerateKey : option Key * option error) (PublicKey : Key -> Pub)
    (address_of : Pub -> bytes) : result Empty_set (Key * bytes) :=
  match GenerateKey.1 with
  | None => Panic NilDereference
  | Some key => Ok (key, address_of (PublicKey key))
  end.

(** [Exists]: [stat] is the error of the name, if it has one. *)
Definition Exists {E} (stat : bytes -> option E) (IsNotExist : E -> bool) (dir : bytes) : bool :=
  match stat dir with
  | Some err => negb (IsNotExist err)
  | None => true
  end.

(** [SystemExit]: what it does, in order. *)
Inductive system_call := PrintStack | Sleep (ns : Z) | Exit (code : Z).
Definition SystemExit (code : Z) : list system_call :=
  (if code =? 0 then [] else [PrintStack]) ++ [Sleep (2 * 1000000000); Exit code].

(** * Random strings *)

Definition base32_letter (b : byte) : Prop := 65 <= bz b <= 90 \/ 50 <= bz b <= 55.

Lemma base32_char_letter v : 0 <= v < 32 -> base32_letter (base32_char v).
Proof.
  intros Hv. unfold base32_letter, base32_char. destruct (Z.ltb_spec v 26); rewrite bz_zb_small by lia; lia.
Qed.

Lemma base32_chunk_length l : length (base32_chunk l) = 8%nat.
Proof. done. Qed.

Lemma base32_chunk_letters l k : (k <= significant (length l))%nat -> Forall base32_letter (take k (base32_chunk l)).
Proof.
  intros Hk. unfold base32_chunk. rewrite <- fmap_take. apply Forall_fmap, Forall_forall. intros i Hi.
  unfold compose. cbv beta.
  assert (i < k)%nat as Hlt.
  { apply list_elem_of_lookup in Hi as [j Hj]. apply lookup_take_Some in Hj as [Hj Hjk].
    change (seq 0 8 !! j = Some i) in Hj. apply lookup_seq in Hj as [-> _]. lia. }
  rewrite (proj2 (Nat.ltb_lt i _)) by lia. apply base32_char_letter. change 31 with (Z.ones 5). rewrite Z.land_ones by lia.
  apply Z.mod_pos_bound. lia.
Qed.

Lemma significant_step n : (5 <= n)%nat -> significant n = (8 + significant (n - 5))%nat.
Proof. intros Hn. unfold significant. replace (8 * n + 4)%nat with (8 * (n - 5) + 4 + 8 * 5)%nat by lia.
  rewrite Nat.div_add by lia. lia. Qed.
Lemma significant_ge n : (n <= significant n)%nat.
Proof. unfold significant. pose proof (Nat.div_mod_eq (8 * n + 4) 5). pose proof (Nat.mod_upper_bound (8 * n + 4) 5 ltac:(lia)). lia. Qed.
Lemma significant_small n : (n <= 5)%nat -> (significant n <= 8)%nat.
Proof. intros Hn. unfold significant. pose proof (Nat.div_mod_eq (8 * n + 4) 5). lia. Qed.

(** The first [significant] characters are there and are letters or digits. *)
Lemma base32_loop_letters fuel l :
  (length l <= fuel)%nat ->
  (significant (length l) <= length (base32_loop fuel l))%nat /\
  Forall base32_letter (take (significant (length l)) (base32_loop fuel l)).
Proof.
  revert l. induction fuel as [|fuel IH]; intros l Hl.
  { destruct l; [done|cbn in Hl; lia]. }
  destruct l as [|b l]; [done|]. set (l0 := b :: l) in *. change (base32_loop (S fuel) l0)
    with (base32_chunk (take 5 l0) ++ base32_loop fuel (drop 5 l0)).
  destruct (IH (drop 5 l0)) as [H1 H2]; [rewrite length_drop; unfold l0 in *; cbn in *; lia|].
  rewrite length_app, base32_chunk_length. rewrite length_drop in *.
  destruct (Nat.le_gt_cases 5 (length l0)) as [H5|H5].
  - rewrite significant_step by done. split; [lia|]. rewrite take_app.
    rewrite base32_chunk_length. apply Forall_app. split.
    + rewrite take_ge by (rewrite base32_chunk_length; lia). rewrite <- (take_ge (base32_chunk _) 8) by done.
      apply base32_chunk_letters. rewrite length_take. replace (5 `min` length l0)%nat with 5%nat by lia. done.
    + replace (8 + significant (length l0 - 5) - 8)%nat with (significant (length l0 - 5)) by lia. done.
  - pose proof (significant_small (length l0) ltac:(lia)). split; [lia|].
    rewrite take_app_le by (rewrite base32_chunk_length; lia). apply base32_chunk_letters.
    rewrite length_take. by replace (5 `min` length l0)%nat with (length l0) by lia.
Qed.

(** A random string has the length asked for and is made of letters and digits:
    never padding, which would be a separator of attributes. *)
Lemma RandomString_letters io rnd n v :
  rnd n = inl v -> length v = n ->
  exists s, RandomString io rnd n = Ok s /\ length s = n /\ Forall base32_letter s.
Proof.
  intros Hr Hv. unfold RandomString, Random, readFullOrPanic. rewrite Hr. cbn.
  destruct (base32_loop_letters (length v) v (Nat.le_refl _)) as [Hl Hf]. fold (base32_encode v) in *.
  pose proof (significant_ge (length v)) as Hs. rewrite Hv in *. unfold reslice.
  rewrite (proj2 (Nat.leb_le n _)) by lia. cbn [Nat.leb andb]. rewrite drop_0, Nat.sub_0_r.
  eexists. split; [done|]. split; [rewrite length_take; lia|].
  replace (take n (base32_encode v)) with (take n (take (significant n) (base32_encode v))).
  - by apply Forall_take.
  - rewrite take_take. f_equal. lia.
Qed.

(** * Integers of 32 bytes *)

Definition big_endian (l : bytes) : Z := fold_left (fun x b => x * 256 + bz b) l 0.

Lemma nat_bytes_value fuel n acc :
  0 <= n < 256 ^ Z.of_nat fuel ->
  fold_left (fun x b => x * 256 + bz b) (nat_bytes fuel n acc) 0 = fold_left (fun x b => x * 256 + bz b) acc n.
Proof.
  revert n acc. induction fuel as [|fuel IH]; intros n acc Hn; cbn [nat_bytes].
  { change (256 ^ Z.of_nat 0) with 1 in Hn. by replace n with 0 by lia. }
  destruct (Z.eqb_spec n 0) as [->|Hne]; [done|].
  rewrite Nat2Z.inj_succ, Z.pow_succ_r in Hn by lia.
  rewrite IH by (Z.div_mod_to_equations; nia). cbn [fold_left]. f_equal. rewrite bz_zb, Zmod_mod. Z.div_mod_to_equations. lia.
Qed.
Lemma nat_bytes_length fuel n acc k :
  0 <= n < 256 ^ Z.of_nat k -> (length (nat_bytes fuel n acc) <= length acc + k)%nat.
Proof.
  revert n acc k. induction fuel as [|fuel IH]; intros n acc k Hn; cbn [nat_bytes]; [lia|].
  destruct (Z.eqb_spec n 0) as [->|Hne]; [lia|]. destruct k as [|k]; [change (256 ^ Z.of_nat 0) with 1 in Hn; lia|].
  rewrite Nat2Z.inj_succ, Z.pow_succ_r in Hn by lia.
  etrans; [apply (IH _ _ k); Z.div_mod_to_equations; nia|]. cbn [length]. lia.
Qed.

(** The bytes of a number are its big endian value, whatever its size. *)
Lemma Int_Bytes_value i : big_endian (Int_Bytes i) = Z.abs i.
Proof.
  unfold big_endian, Int_Bytes. apply nat_bytes_value. split; [lia|].
  destruct (Z.eq_dec (Z.abs i) 0) as [->|Hne]; [by vm_compute|].
  pose proof (Z.log2_spec (Z.abs i) ltac:(lia)) as [_ Hl]. eapply Z.lt_le_trans; [exact Hl|].
  rewrite Nat2Z.inj_succ, Z2Nat.id by apply Z.log2_nonneg. apply Z.pow_le_mono_l. lia.
Qed.

(** [BigIntTo32Bytes] of a number below 2^256 in absolute value is its 32 bytes. *)
Lemma BigIntTo32Bytes_value i :
  Z.abs i < 2 ^ 256 ->
  exists v, BigIntTo32Bytes i = Ok v /\ length v = 32%nat /\ big_endian v = Z.abs i.
Proof.
  intros Hi. unfold BigIntTo32Bytes.
  assert (length (Int_Bytes i) <= 32)%nat as Hl.
  { apply (nat_bytes_length _ _ [] 32). split; [lia|]. exact Hi. }
  rewrite (proj2 (Nat.ltb_ge _ _) Hl). eexists. split; [done|].
  split; [rewrite length_app, length_replicate; lia|]. rewrite <- (Int_Bytes_value i). unfold big_endian.
  rewrite fold_left_app. f_equal. generalize (32 - length (Int_Bytes i))%nat as n. by induction n.
Qed.
