(* ===== verification/Utf8.v ===== *)
(** Go's [unicode/utf8] and the parts of [bytes] that work on runes: encoding
    and decoding of a rune, [unicode.IsSpace], and [bytes.TrimSpace]. *)
From stdpp Require Import base list sets.
From Stdlib Require Import ZArith Lia.
From S2P Require Import Prelude.
Open Scope Z_scope.

Definition RuneError : Z := 0xFFFD.
Definition RuneSelf : Z := 0x80.
Definition MaxRune : Z := 0x10FFFF.

(** * Encoding *)

Definition cont_byte (z : Z) : byte := zb (0x80 + z mod 64).

(** [utf8.EncodeRune]; a rune is an int32, so negative ones are errors too. *)
Definition EncodeRune (r : Z) : bytes :=
  let three r := [zb (0xE0 + r / 4096); cont_byte (r / 64); cont_byte r] in
  if (0 <=? r) && (r <=? 0x7F) then [zb r]
  else if (0 <=? r) && (r <=? 0x7FF) then [zb (0xC0 + r / 64); cont_byte r]
  else if (r <? 0) || (MaxRune <? r) || ((0xD800 <=? r) && (r <=? 0xDFFF)) then three RuneError
  else if r <=? 0xFFFF then three r
  else [zb (0xF0 + r / 262144); cont_byte (r / 4096); cont_byte (r / 64); cont_byte r].

(** * Decoding *)

(** The size of the sequence a first byte announces and the range of the second
    byte (the tables [first] and [acceptRanges]). *)
Definition seq_info (z : Z) : option (nat * Z * Z) :=
  if (0xC2 <=? z) && (z <=? 0xDF) then Some (2%nat, 0x80, 0xBF)
  else if z =? 0xE0 then Some (3%nat, 0xA0, 0xBF)
  else if z =? 0xED then Some (3%nat, 0x80, 0x9F)
  else if (0xE1 <=? z) && (z <=? 0xEF) then Some (3%nat, 0x80, 0xBF)
  else if z =? 0xF0 then Some (4%nat, 0x90, 0xBF)
  else if z =? 0xF4 then Some (4%nat, 0x80, 0x8F)
  else if (0xF1 <=? z) && (z <=? 0xF3) then Some (4%nat, 0x80, 0xBF)
  else None.

(** The bytes behind the first: the value of the rest and its length, when it is
    all there. *)
Fixpoint continuation (n : nat) (lo hi : Z) (p : bytes) (acc : Z) : option Z :=
  match n with
  | O => Some acc
  | S n' =>
      match p with
      | [] => None
      | b :: p' =>
          if (lo <=? bz b) && (bz b <=? hi)
          then continuation n' 0x80 0xBF p' (acc * 64 + (bz b - 0x80)) else None
      end
  end.

(** The bits of the value in the first byte. *)
Definition lead_bits (size : nat) (z : Z) : Z :=
  match size with 2%nat => z - 0xC0 | 3%nat => z - 0xE0 | _ => z - 0xF0 end.

(** [utf8.DecodeRune]: the rune and its width; an invalid byte is [RuneError] of
    width one. *)
Definition DecodeRune (p : bytes) : Z * nat :=
  match p with
  | [] => (RuneError, 0%nat)
  | b :: p' =>
      let z := bz b in
      if z <? RuneSelf then (z, 1%nat)
      else
        match seq_info z with
        | None => (RuneError, 1%nat)
        | Some (size, lo, hi) =>
            match continuation (size - 1) lo hi p' (lead_bits size z) with
            | Some r => (r, size)
            | None => (RuneError, 1%nat)
            end
        end
  end.

(** [utf8.RuneStart]: not a continuation byte. *)
Definition RuneStart (b : byte) : bool := negb ((0x80 <=? bz b) && (bz b <=? 0xBF)).

(** The loop of [utf8.DecodeLastRune]: back over continuation bytes, at most to
    the fourth byte from the end. *)
Fixpoint back_to_start (p : bytes) (start : nat) (steps : nat) : nat :=
  match steps with
  | O => start
  | S steps' =>
      match start with
      | O => O
      | S start' =>
          match p !! start' with
          | Some b => if RuneStart b then start' else back_to_start p start' steps'
          | None => start'
          end
      end
  end.

(** [utf8.DecodeLastRune] *)
Definition DecodeLastRune (p : bytes) : Z * nat :=
  match last p with
  | None => (RuneError, 0%nat)
  | Some b =>
      if bz b <? RuneSelf then (bz b, 1%nat)
      else
        let start := back_to_start p (length p - 1) 3 in
        let '(r, size) := DecodeRune (drop start p) in
        if (start + size =? length p)%nat then (r, size) else (RuneError, 1%nat)
  end.

(** * White space *)

(** [unicode.IsSpace] *)
Definition IsSpace (r : Z) : bool :=
  ((9 <=? r) && (r <=? 13)) || (r =? 0x20) || (r =? 0x85) || (r =? 0xA0) || (r =? 0x1680)
  || ((0x2000 <=? r) && (r <=? 0x200a)) || (r =? 0x2028) || (r =? 0x2029) || (r =? 0x202f)
  || (r =? 0x205f) || (r =? 0x3000).

(** [bytes.TrimLeftFunc(s, unicode.IsSpace)] *)
Fixpoint trim_left (fuel : nat) (s : bytes) : bytes :=
  match fuel, s with
  | S fuel', _ :: _ =>
      let '(r, n) := DecodeRune s in if IsSpace r then trim_left fuel' (drop n s) else s
  | _, _ => s
  end.
Definition TrimLeft (s : bytes) : bytes := trim_left (length s) s.

(** [bytes.lastIndexFunc(s, unicode.IsSpace, false)] on the first [i] bytes. *)
Fixpoint last_nonspace (fuel : nat) (s : bytes) (i : nat) : option nat :=
  match fuel, i with
  | S fuel', S _ =>
      let '(r, n) := DecodeLastRune (take i s) in
      if IsSpace r then last_nonspace fuel' s (i - n) else Some (i - n)%nat
  | _, _ => None
  end.

(** [bytes.TrimRightFunc(s, unicode.IsSpace)] *)
Definition TrimRight (s : bytes) : bytes :=
  match last_nonspace (length s) s (length s) with
  | None => []
  | Some i => take (i + (DecodeRune (drop i s)).2) s
  end.

(** [bytes.TrimSpace] *)
Definition TrimSpace (s : bytes) : bytes := TrimRight (TrimLeft s).

(** * Facts *)

Definition valid_rune (r : Z) : Prop := 0 <= r < 0xD800 \/ 0xE000 <= r <= MaxRune.

Lemma bz_cont z : bz (cont_byte z) = 0x80 + z mod 64.
Proof.
  unfold cont_byte. pose proof (Z.mod_pos_bound z 64 ltac:(lia)).
  apply bz_zb_small. lia.
Qed.

Lemma continuation_one lo hi z p acc n :
  lo <= 0x80 + z mod 64 <= hi ->
  continuation (S n) lo hi (cont_byte z :: p) acc = continuation n 0x80 0xBF p (acc * 64 + z mod 64).
Proof.
  intros Hz. cbn [continuation]. rewrite bz_cont.
  rewrite (proj2 (Z.leb_le lo _)), (proj2 (Z.leb_le _ hi)) by lia. cbn [andb].
  f_equal. lia.
Qed.

(** Turns the decided comparisons of the goal into booleans. *)
Ltac zdec :=
  repeat match goal with
  | |- context [?a <? ?b] =>
      first [rewrite (proj2 (Z.ltb_lt a b)) by lia | rewrite (proj2 (Z.ltb_ge a b)) by lia]
  | |- context [?a <=? ?b] =>
      first [rewrite (proj2 (Z.leb_le a b)) by lia | rewrite (proj2 (Z.leb_gt a b)) by lia]
  | |- context [?a =? ?b] =>
      first [rewrite (proj2 (Z.eqb_eq a b)) by lia | rewrite (proj2 (Z.eqb_neq a b)) by lia]
  end; cbn [andb orb].

Lemma DecodeRune_EncodeRune r rest :
  valid_rune r -> DecodeRune (EncodeRune r ++ rest) = (r, length (EncodeRune r)).
Proof.
  unfold valid_rune, MaxRune. intros Hr.
  assert (forall a, 0 <= a mod 64 < 64) as Hm by (intros; apply Z.mod_pos_bound; lia).
  destruct (Z_lt_dec r 0x80) as [H1|H1]; [|destruct (Z_lt_dec r 0x800) as [H2|H2];
    [|destruct (Z_lt_dec r 0x10000) as [H3|H3]]].
  - unfold EncodeRune. zdec. unfold DecodeRune, RuneSelf. cbn [app].
    rewrite bz_zb_small by lia. by zdec.
  - unfold EncodeRune. zdec. unfold DecodeRune, RuneSelf. cbn [app].
    assert (0xC2 <= 0xC0 + r / 64 <= 0xDF) as Hb by (Z.div_mod_to_equations; lia).
    rewrite bz_zb_small by lia. unfold seq_info. zdec. cbn [Nat.sub lead_bits].
    rewrite continuation_one by (specialize (Hm r); lia). cbn [continuation length].
    f_equal. Z.div_mod_to_equations; lia.
  - unfold EncodeRune, MaxRune. zdec.
    assert (((0xD800 <=? r) && (r <=? 0xDFFF)) = false) as ->.
    { destruct Hr; zdec; by rewrite ?andb_false_r. }
    unfold DecodeRune, RuneSelf. cbn [app].
    assert (0xE0 <= 0xE0 + r / 4096 <= 0xEF) as Hb by (Z.div_mod_to_equations; lia).
    rewrite bz_zb_small by lia. zdec.
    assert (exists lo hi, seq_info (0xE0 + r / 4096) = Some (3%nat, lo, hi) /\
              lo <= 0x80 + (r / 64) mod 64 <= hi) as (lo & hi & -> & Hlo).
    { unfold seq_info. zdec. destruct (Z.eq_dec (r / 4096) 0) as [E0|E0].
      { rewrite E0. eexists _, _. split; [reflexivity|]. Z.div_mod_to_equations; lia. }
      zdec. destruct (Z.eq_dec (r / 4096) 13) as [E1|E1].
      { rewrite E1. eexists _, _. split; [reflexivity|]. Z.div_mod_to_equations; lia. }
      zdec. eexists _, _. split; [reflexivity|]. specialize (Hm (r / 64)). lia. }
    cbn [Nat.sub lead_bits].
    rewrite continuation_one by done. rewrite continuation_one by (specialize (Hm r); lia).
    cbn [continuation length]. f_equal. Z.div_mod_to_equations; lia.
  - unfold EncodeRune, MaxRune. zdec. rewrite ?andb_false_r. cbn [orb].
    unfold DecodeRune, RuneSelf. cbn [app].
    assert (0xF0 <= 0xF0 + r / 262144 <= 0xF4) as Hb by (Z.div_mod_to_equations; lia).
    rewrite bz_zb_small by lia. zdec.
    assert (exists lo hi, seq_info (0xF0 + r / 262144) = Some (4%nat, lo, hi) /\
              lo <= 0x80 + (r / 4096) mod 64 <= hi) as (lo & hi & -> & Hlo).
    { unfold seq_info. zdec. destruct (Z.eq_dec (r / 262144) 0) as [E0|E0].
      { rewrite E0. eexists _, _. split; [reflexivity|]. Z.div_mod_to_equations; lia. }
      zdec. destruct (Z.eq_dec (r / 262144) 4) as [E1|E1].
      { rewrite E1. eexists _, _. split; [reflexivity|]. Z.div_mod_to_equations; lia. }
      zdec. eexists _, _. split; [reflexivity|]. specialize (Hm (r / 4096)). lia. }
    cbn [Nat.sub lead_bits].
    rewrite continuation_one by done. rewrite continuation_one by (specialize (Hm (r / 64)); lia).
    rewrite continuation_one by (specialize (Hm r); lia).
    cbn [continuation length]. f_equal. Z.div_mod_to_equations; lia.
Qed.

Lemma seq_info_lo z size lo hi : seq_info z = Some (size, lo, hi) -> 0x80 <= lo /\ (2 <= size)%nat.
Proof. unfold seq_info. repeat dcase; intros [= <- <- <-]; lia. Qed.

Lemma continuation_app n lo hi p c q acc :
  0x80 <= lo -> bz c < 0x80 ->
  continuation n lo hi (p ++ c :: q) acc = continuation n lo hi p acc.
Proof.
  intros Hlo Hc. revert lo hi p acc Hlo.
  induction n as [|n IH]; intros lo hi p acc Hlo; [done|]. cbn [continuation].
  destruct p as [|b p]; cbn [app].
  - by rewrite (proj2 (Z.leb_gt lo (bz c))) by lia.
  - dcase; [|done]. apply IH. lia.
Qed.

Lemma continuation_length n lo hi p acc r :
  continuation n lo hi p acc = Some r -> (n <= length p)%nat.
Proof.
  revert lo hi p acc. induction n as [|n IH]; intros lo hi [|b p] acc; cbn; try lia; [done|].
  dcase; [|done]. intros ?%IH. lia.
Qed.

(** What follows an ASCII byte does not matter. *)
Lemma DecodeRune_app p c q :
  p <> [] -> bz c < RuneSelf -> DecodeRune (p ++ c :: q) = DecodeRune p.
Proof.
  unfold RuneSelf. intros Hp Hc. destruct p as [|b p]; [done|]. cbn [app DecodeRune].
  destruct (bz b <? RuneSelf); [done|]. destruct (seq_info (bz b)) as [[[size lo] hi]|] eqn:E; [|done].
  apply seq_info_lo in E as [E _]. by rewrite continuation_app.
Qed.

Lemma DecodeRune_ascii b p : bz b < RuneSelf -> DecodeRune (b :: p) = (bz b, 1%nat).
Proof. intros Hb. cbn. by rewrite (proj2 (Z.ltb_lt _ _) Hb). Qed.

Lemma DecodeRune_width p : p <> [] -> (1 <= (DecodeRune p).2 <= length p)%nat.
Proof.
  destruct p as [|b p]; [done|]. intros _. cbn.
  destruct (bz b <? RuneSelf); [cbn; lia|].
  destruct (seq_info (bz b)) as [[[size lo] hi]|] eqn:E; [|cbn; lia].
  apply seq_info_lo in E as [_ E]. destruct (continuation _ _ _ _ _) eqn:Ec; cbn; [|lia].
  apply continuation_length in Ec. lia.
Qed.

Lemma DecodeLastRune_ascii p b : bz b < RuneSelf -> DecodeLastRune (p ++ [b]) = (bz b, 1%nat).
Proof. intros Hb. unfold DecodeLastRune. rewrite last_snoc. by rewrite (proj2 (Z.ltb_lt _ _) Hb). Qed.

Lemma DecodeLastRune_width p : p <> [] -> (1 <= (DecodeLastRune p).2 <= length p)%nat.
Proof.
  intros Hp. unfold DecodeLastRune. destruct (last p) as [b|] eqn:El.
  2: { by apply last_None in El. }
  assert (0 < length p)%nat by (destruct p; [done|cbn; lia]).
  destruct (bz b <? RuneSelf); [cbn; lia|].
  destruct (DecodeRune _) as [r size] eqn:Ed. dcase; bool_hyps; cbn; [|lia].
  assert (drop (back_to_start p (length p - 1) 3) p <> []) as Hd.
  { intros Hd%(f_equal length). rewrite length_drop in Hd. cbn in Hd.
    assert (forall n k, (back_to_start p k n <= k)%nat) as Hb.
    { induction n as [|n IH]; intros [|k]; cbn; try lia.
      destruct (p !! k); [|lia]. destruct (RuneStart _); [lia|]. specialize (IH k). lia. }
    specialize (Hb 3%nat (length p - 1)%nat). lia. }
  apply DecodeRune_width in Hd. rewrite Ed in Hd. cbn in Hd. lia.
Qed.

(** ** An ASCII white space byte at the end *)

Lemma trim_left_fuel f g s : (length s <= f)%nat -> (length s <= g)%nat -> trim_left f s = trim_left g s.
Proof.
  revert g s. induction f as [|f IH]; intros g s Hf Hg.
  { destruct s; [by destruct g|cbn in *; lia]. }
  destruct s as [|b s]; [by destruct g|]. destruct g as [|g]; [cbn in *; lia|].
  cbn [trim_left]. pose proof (DecodeRune_width (b :: s) ltac:(done)) as Hw.
  destruct (DecodeRune (b :: s)) as [r n]. cbn in Hw. dcase; [|done].
  apply IH; rewrite length_drop; cbn in *; lia.
Qed.

Lemma TrimLeft_unfold s :
  s <> [] -> TrimLeft s = if IsSpace (DecodeRune s).1 then TrimLeft (drop (DecodeRune s).2 s) else s.
Proof.
  intros Hs. unfold TrimLeft. destruct s as [|b s]; [done|]. cbn [length trim_left].
  pose proof (DecodeRune_width (b :: s) ltac:(done)) as Hw.
  destruct (DecodeRune (b :: s)) as [r n]. cbn in Hw |- *. dcase; [|done].
  apply trim_left_fuel; rewrite length_drop; cbn; lia.
Qed.

Definition ascii_space (c : byte) : Prop := bz c < RuneSelf /\ IsSpace (bz c) = true.

Lemma TrimLeft_snoc l c :
  ascii_space c -> TrimLeft (l ++ [c]) = match TrimLeft l with [] => [] | l' => l' ++ [c] end.
Proof.
  intros [Hc Hs]. revert l.
  apply (well_founded_induction (Wf_nat.well_founded_ltof _ (@length byte))). intros l IH. destruct l as [|b l].
  - cbn [app]. rewrite TrimLeft_unfold by done. rewrite DecodeRune_ascii by done. cbn. by rewrite Hs.
  - rewrite TrimLeft_unfold by done. rewrite (TrimLeft_unfold (b :: l)) by done.
    rewrite DecodeRune_app by done.
    pose proof (DecodeRune_width (b :: l) ltac:(done)) as Hw.
    destruct (IsSpace (DecodeRune (b :: l)).1); [|done]. rewrite drop_app_le by lia.
    apply IH. unfold Wf_nat.ltof. rewrite length_drop. cbn in *. lia.
Qed.

Lemma take_nonempty {A} i (s : list A) : (0 < i <= length s)%nat -> take i s <> [].
Proof. destruct i, s; cbn; done || lia. Qed.

Lemma last_nonspace_width f s i :
  (i <= f)%nat -> (i <= length s)%nat -> forall k, last_nonspace f s i = Some k -> (k < i)%nat.
Proof.
  revert i. induction f as [|f IH]; intros [|i] Hf Hi k; cbn [last_nonspace]; try done.
  pose proof (DecodeLastRune_width (take (S i) s)) as Hw.
  destruct (DecodeLastRune _) as [r n]. cbn [snd] in Hw.
  assert (1 <= n)%nat by (by apply Hw, take_nonempty; lia).
  destruct (IsSpace r); [intros ?%IH; lia|]. intros [= <-]. rewrite ?length_take in Hw. lia.
Qed.

Lemma last_nonspace_app f g s t i :
  (i <= length s)%nat -> (i <= f)%nat -> (i <= g)%nat ->
  last_nonspace f (s ++ t) i = last_nonspace g s i.
Proof.
  revert g i. induction f as [|f IH]; intros g i Hi Hf Hg.
  { assert (i = 0)%nat as -> by lia. by destruct g. }
  destruct i as [|i]; [by destruct g|]. destruct g as [|g]; [lia|]. cbn [last_nonspace].
  rewrite take_app_le by lia. pose proof (DecodeLastRune_width (take (S i) s)) as Hw.
  destruct (DecodeLastRune _) as [r n]. cbn [snd] in Hw.
  assert (1 <= n)%nat by (by apply Hw, take_nonempty; lia).
  dcase; [|done]. apply IH; lia.
Qed.

Lemma TrimRight_snoc l c : ascii_space c -> TrimRight (l ++ [c]) = TrimRight l.
Proof.
  intros [Hc Hs]. unfold TrimRight. rewrite length_app. cbn [length]. rewrite Nat.add_1_r.
  cbn [last_nonspace]. rewrite take_ge by (rewrite length_app; cbn; lia).
  rewrite DecodeLastRune_ascii by done. rewrite Hs. cbn [Nat.sub].
  rewrite Nat.sub_0_r, (last_nonspace_app _ (length l)) by lia.
  destruct (last_nonspace _ _ _) as [i|] eqn:E; [|done].
  apply last_nonspace_width in E; [|lia..]. rewrite drop_app_le by lia.
  assert (drop i l <> []) as Hd.
  { intros Hd%(f_equal length). rewrite length_drop in Hd. cbn in Hd. lia. }
  rewrite DecodeRune_app by done. pose proof (DecodeRune_width _ Hd) as Hw.
  rewrite length_drop in Hw. rewrite take_app_le by lia. done.
Qed.

Lemma TrimSpace_snoc l c : ascii_space c -> TrimSpace (l ++ [c]) = TrimSpace l.
Proof.
  intros Hc. unfold TrimSpace. rewrite TrimLeft_snoc by done.
  destruct (TrimLeft l) as [|b t]; [done|]. by apply TrimRight_snoc.
Qed.

(** Nothing to trim: the text begins and ends with ASCII that is not space. *)
Lemma TrimSpace_id b m e w :
  w = b :: m -> last w = Some e -> bz b < RuneSelf -> IsSpace (bz b) = false ->
  bz e < RuneSelf -> IsSpace (bz e) = false -> TrimSpace w = w.
Proof.
  intros -> Hl Hb Hbs He Hes. unfold TrimSpace. rewrite TrimLeft_unfold by done.
  rewrite DecodeRune_ascii by done. cbn [fst snd]. rewrite Hbs.
  apply last_Some in Hl as [l' Hl]. rewrite Hl. unfold TrimRight.
  rewrite length_app. cbn [length]. rewrite Nat.add_1_r. cbn [last_nonspace].
  rewrite take_ge by (rewrite length_app; cbn; lia).
  rewrite DecodeLastRune_ascii by done. rewrite Hes.
  replace (S (length l') - 1)%nat with (length l') by lia. rewrite drop_app_length.
  rewrite DecodeRune_ascii by done. cbn [snd]. apply take_ge. rewrite length_app. cbn. lia.
Qed.
