(* ===== verification/Sdp.v ===== *)
(** SDP text ([src/sdp/sdp.go]): lines, sessions, their text, and the scanner.

    A value is its content.  The slices that [getLine] and [DecodeSession] take
    from behind the end of the session's array are cut to length zero before
    they are filled, so the content of the lines does not depend on them. *)
From stdpp Require Import base list sets strings.
From Stdlib Require Import ZArith Lia.
From S2P Require Import Prelude GoFmt Utf8.
Open Scope Z_scope.

(** * Errors *)

Record DecodeError := newDecodeError { Place : bytes; Reason : bytes }.
#[export] Instance DecodeError_eq_decision : EqDecision DecodeError.
Proof. solve_decision. Defined.

Definition DecodeError_Error (e : DecodeError) : bytes :=
  bs "DecodeError in " ++ Place e ++ bs ": " ++ Reason e.

(** * Types of lines *)

Definition TypeProtocolVersion : Z := 118.     (* v *)
Definition TypeOrigin : Z := 111.              (* o *)
Definition TypeSessionName : Z := 115.         (* s *)
Definition TypeSessionInformation : Z := 105.  (* i *)
Definition TypeURI : Z := 117.                 (* u *)
Definition TypeEmail : Z := 101.               (* e *)
Definition TypePhone : Z := 112.               (* p *)
Definition TypeConnectionData : Z := 99.       (* c *)
Definition TypeBandwidth : Z := 98.            (* b *)
Definition TypeTiming : Z := 116.              (* t *)
Definition TypeRepeatTimes : Z := 114.         (* r *)
Definition TypeTimeZones : Z := 122.           (* z *)
Definition TypeEncryptionKey : Z := 107.       (* k *)
Definition TypeAttribute : Z := 97.            (* a *)
Definition TypeMediaDescription : Z := 109.    (* m *)

Definition appendRune (b : bytes) (r : Z) : bytes := b ++ EncodeRune r.
Definition Type_appendTo (t : Z) (b : bytes) : bytes := appendRune b t.

Definition Type_String (t : Z) : bytes :=
  if t =? TypeAttribute then bs "attribute"
  else if t =? TypePhone then bs "phone"
  else if t =? TypeEmail then bs "email"
  else if t =? TypeConnectionData then bs "connection data"
  else if t =? TypeURI then bs "uri"
  else if t =? TypeSessionName then bs "session name"
  else if t =? TypeOrigin then bs "origin"
  else if t =? TypeProtocolVersion then bs "version"
  else if t =? TypeTiming then bs "timing"
  else if t =? TypeBandwidth then bs "bandwidth"
  else if t =? TypeSessionInformation then bs "session info"
  else if t =? TypeRepeatTimes then bs "repeat times"
  else if t =? TypeTimeZones then bs "time zones"
  else if t =? TypeEncryptionKey then bs "encryption keys"
  else if t =? TypeMediaDescription then bs "media description"
  else EncodeRune t.

(** * Lines *)

Definition lineDelimiter : byte := zb 61.

Record Line := mkLine { LType : Z; LValue : bytes }.
#[export] Instance Line_eq_decision : EqDecision Line.
Proof. solve_decision. Defined.

Definition Line_Equal (l b : Line) : bool :=
  if negb (LType l =? LType b) then false else bool_decide (LValue l = LValue b).

(** [Line.Decode]: the value is appended to the one the line has. *)
Definition Line_Decode (b : bytes) : ST Line DecodeError unit := fun l =>
  match index_of lineDelimiter b with
  | None => (l, Err (newDecodeError (bs "line") (bs "delimiter " ++ [zb 34] ++ bs "=" ++ [zb 34] ++ bs " not found")))
  | Some delimiter =>
      (mkLine (DecodeRune (take delimiter b)).1 (LValue l ++ drop (S delimiter) b), Ok tt)
  end.

Definition Line_String (l : Line) : bytes := Type_String (LType l) ++ bs ": " ++ LValue l.

Definition Line_AppendTo (l : Line) (b : bytes) : bytes :=
  appendRune (Type_appendTo (LType l) b) (bz lineDelimiter) ++ LValue l.

(** * Sessions *)

Definition Session := list Line.

Definition Session_reset (s : Session) : Session := [].

Fixpoint Session_AppendTo (s : Session) (b : bytes) : bytes :=
  match s with
  | [] => b
  | [l] => Line_AppendTo l b
  | l :: s' => Session_AppendTo s' (appendRune (Line_AppendTo l b) (bz newline))
  end.

(** The loop of [Session.Equal]: [None] is an index that is out of range. *)
Fixpoint lines_equal (s b : Session) : option bool :=
  match s with
  | [] => Some true
  | line :: s' =>
      match b with
      | [] => None
      | lineB :: b' => if Line_Equal line lineB then lines_equal s' b' else Some false
      end
  end.
Definition Session_Equal (s b : Session) : option bool :=
  if negb (length s =? length b)%nat then Some false else lines_equal s b.

Definition getLine (s : Session) (t : Z) : Line := mkLine t [].
Definition Session_append (s : Session) (t : Z) (v : bytes) : Session :=
  s ++ [mkLine t (LValue (getLine s t) ++ v)].
Definition appendString : Session -> Z -> bytes -> Session := Session_append.

(** * The scanner *)

Record sliceScanner := mkScanner { sc_pos : nat; sc_end : nat; sc_v : bytes; sc_line : bytes }.
Definition newScanner (v : bytes) : sliceScanner := mkScanner 0 0 v [].

(** One turn of the loop of [Scan]: [inl] goes on. *)
Definition scan_step (s : sliceScanner) : sliceScanner + (sliceScanner * bool) :=
  let pos := sc_end s in
  if (length (sc_v s) <=? pos)%nat then inr (mkScanner pos (sc_end s) [] [], false)
  else
    let stop :=
      match index_of newline (drop pos (sc_v s)) with
      | None => length (sc_v s)
      | Some newLinePos => (pos + newLinePos + 1)%nat
      end in
    let line := TrimSpace (take (stop - pos) (drop pos (sc_v s))) in
    let s' := mkScanner pos stop (sc_v s) line in
    match line with [] => inl s' | _ => inr (s', true) end.

Fixpoint scan_loop (fuel : nat) (s : sliceScanner) : result unit (sliceScanner * bool) :=
  match fuel with
  | O => Panic OutOfFuel
  | S fuel' => match scan_step s with inl s' => scan_loop fuel' s' | inr r => Ok r end
  end.
Definition Scan (s : sliceScanner) : result unit (sliceScanner * bool) :=
  scan_loop (S (length (sc_v s))) s.

(** The loop of [DecodeSession]. *)
Fixpoint decode_lines (fuel : nat) (scanner : sliceScanner) (s : Session) :
    result unit (Session * option DecodeError) :=
  match fuel with
  | O => Panic OutOfFuel
  | S fuel' =>
      match Scan scanner with
      | Ok (scanner', true) =>
          match Line_Decode (sc_line scanner') (mkLine 0 []) with
          | (line, Ok _) => decode_lines fuel' scanner' (s ++ [line])
          | (_, Err e) => Ok (s, Some e)
          | (_, Panic p) => Panic p
          end
      | Ok (_, false) => Ok (s, None)
      | Err e => Err e
      | Panic p => Panic p
      end
  end.
Definition DecodeSession (b : bytes) (s : Session) : result unit (Session * option DecodeError) :=
  decode_lines (S (length b)) (newScanner b) s.
