(* ===== verification/SdpProps.v ===== *)
(** The properties of the SDP text: [DecodeSession] against its reference
    definition on the list of lines, and the round trip of sessions. *)
From stdpp Require Import base list sets strings.
From Stdlib Require Import ZArith Lia.
From S2P Require Import Prelude GoFmt Utf8 Sdp.
Open Scope Z_scope.

(** * The reference: lines first, then each line *)

Definition is_nonblank (w : bytes) : bool := match w with [] => false | _ => true end.

(** The lines of a text without white space around them, blank ones left out. *)
Definition lines_of (b : bytes) : list bytes :=
  List.filter is_nonblank (map TrimSpace (split newline b)).

(** All lines up to the first that does not decode. *)
Fixpoint decode_all (ws : list bytes) (s : Session) : Session * option DecodeError :=
  match ws with
  | [] => (s, None)
  | w :: ws' =>
      match Line_Decode w (mkLine 0 []) with
      | (line, Ok _) => decode_all ws' (s ++ [line])
      | (_, Err e) => (s, Some e)
      | (_, Panic _) => (s, None)
      end
  end.

Lemma lines_of_nil : lines_of [] = [].
Proof. reflexivity. Qed.

Lemma ascii_space_newline : ascii_space newline.
Proof. by split. Qed.

Lemma lines_of_cons w r :
  newline ∉ w ->
  lines_of (w ++ newline :: r) = (if is_nonblank (TrimSpace w) then [TrimSpace w] else []) ++ lines_of r.
Proof. intros Hw. unfold lines_of. rewrite split_app_sep by done. cbn. by dcase. Qed.

Lemma lines_of_last w :
  newline ∉ w -> lines_of w = if is_nonblank (TrimSpace w) then [TrimSpace w] else [].
Proof. intros Hw. unfold lines_of. by rewrite split_no_sep. Qed.

(** ** The scanner reads the lines in order *)

(** What one turn of the loop of [Scan] does with what is left of the text. *)
Lemma scan_step_spec p pre rest l :
  rest <> [] ->
  exists w pre' rest' k,
    pre ++ rest = pre' ++ rest' /\ (length rest' < length rest)%nat /\
    lines_of rest = (if is_nonblank (TrimSpace w) then [TrimSpace w] else []) ++ lines_of rest' /\
    scan_step (mkScanner p (length pre) (pre ++ rest) l) =
      (let s' := mkScanner k (length pre') (pre ++ rest) (TrimSpace w) in
       if is_nonblank (TrimSpace w) then inr (s', true) else inl s').
Proof.
  intros Hrest. assert (0 < length rest)%nat as Hlen by (destruct rest; [done|cbn; lia]).
  unfold scan_step. cbn [sc_end sc_v]. rewrite drop_app_length.
  rewrite (proj2 (Nat.leb_gt _ _)) by (rewrite length_app; lia).
  destruct (index_of newline rest) as [i|] eqn:E.
  - apply index_of_Some in E as (w & r & -> & <- & Hw).
    exists w, (pre ++ w ++ [newline]), r, (length pre).
    split; [by rewrite <- !app_assoc|]. split; [rewrite length_app; cbn; lia|].
    split; [by apply lines_of_cons|].
    replace (length pre + length w + 1 - length pre)%nat with (length (w ++ [newline]))
      by (rewrite length_app; cbn; lia).
    change (w ++ newline :: r) with (w ++ [newline] ++ r). rewrite (app_assoc w [newline] r).
    rewrite take_app_length, TrimSpace_snoc by apply ascii_space_newline.
    rewrite !length_app. cbn [length]. rewrite Nat.add_assoc.
    destruct (TrimSpace w); reflexivity.
  - apply index_of_None in E. exists rest, (pre ++ rest), [], (length pre).
    split; [by rewrite app_nil_r|]. split; [cbn; lia|].
    split; [by rewrite lines_of_last, lines_of_nil, app_nil_r|].
    rewrite take_ge by (rewrite length_app; lia). destruct (TrimSpace rest); reflexivity.
Qed.

Lemma scan_loop_spec f p pre rest l :
  (length rest < f)%nat ->
  match lines_of rest with
  | [] => exists s', scan_loop f (mkScanner p (length pre) (pre ++ rest) l) = Ok (s', false)
  | w :: ws =>
      exists k pre' rest', pre ++ rest = pre' ++ rest' /\ (length rest' < length rest)%nat /\
        lines_of rest' = ws /\
        scan_loop f (mkScanner p (length pre) (pre ++ rest) l)
        = Ok (mkScanner k (length pre') (pre ++ rest) w, true)
  end.
Proof.
  revert p pre rest l. induction f as [|f IH]; intros p pre rest l Hf; [lia|].
  cbn [scan_loop]. destruct (decide (rest = [])) as [->|Hne].
  { rewrite lines_of_nil. unfold scan_step. cbn [sc_end sc_v].
    rewrite (proj2 (Nat.leb_le _ _)) by (rewrite app_nil_r; lia). by eexists. }
  destruct (scan_step_spec p pre rest l Hne) as (w & pre' & rest' & k & Heq & Hlt & -> & ->).
  cbv zeta. destruct (is_nonblank (TrimSpace w)); cbn [app].
  - exists k, pre', rest'. done.
  - rewrite Heq. specialize (IH k pre' rest' (TrimSpace w) ltac:(lia)).
    destruct (lines_of rest') as [|w' ws]; [done|].
    destruct IH as (k' & pre'' & rest'' & E1 & E2 & E3 & E4).
    exists k', pre'', rest''. split_and!; [done|lia|done|done].
Qed.

Lemma decode_lines_spec f p pre rest l s :
  (length rest < f)%nat ->
  decode_lines f (mkScanner p (length pre) (pre ++ rest) l) s = Ok (decode_all (lines_of rest) s).
Proof.
  revert p pre rest l s. induction f as [|f IH]; intros p pre rest l s Hf; [lia|].
  cbn [decode_lines]. unfold Scan. cbn [sc_v].
  pose proof (scan_loop_spec (S (length (pre ++ rest))) p pre rest l
                ltac:(rewrite length_app; lia)) as Hs.
  destruct (lines_of rest) as [|w ws].
  - destruct Hs as [s' ->]. done.
  - destruct Hs as (k & pre' & rest' & Heq & Hlt & <- & ->). cbn [sc_line decode_all].
    destruct (Line_Decode w _) as [line [[]|e|pp]] eqn:E; [|done|].
    + rewrite Heq. apply IH. lia.
    + unfold Line_Decode in E. by destruct (index_of _ _).
Qed.

Lemma DecodeSession_lines b s : DecodeSession b s = Ok (decode_all (lines_of b) s).
Proof. exact (decode_lines_spec (S (length b)) 0 [] b [] s (Nat.lt_succ_diag_r _)). Qed.

(** C33: [DecodeSession], a scanner over positions that reuses its buffers, is the
    reference definition: cut the text at the newlines, trim white space (all
    of Unicode), drop blank lines, and decode line after line up to the first
    that has no delimiter.  It terminates, does not panic, and appends to the
    session it was given. *)
Theorem DecodeSession_reference b s : DecodeSession b s = Ok (decode_all (lines_of b) s).
Proof. apply DecodeSession_lines. Qed.

(** ** Text and lines *)

Definition line_text (l : Line) : bytes := EncodeRune (LType l) ++ lineDelimiter :: LValue l.

(** A line that fits on one line: its type is a character that is neither the
    delimiter nor a newline, and there is no white space around it. *)
Record clean_line (l : Line) : Prop := {
  cl_type : valid_rune (LType l);
  cl_not_delimiter : LType l <> bz lineDelimiter;
  cl_not_newline : LType l <> bz newline;
  cl_value : newline ∉ LValue l;
  cl_trim : TrimSpace (line_text l) = line_text l
}.

Lemma EncodeRune_ascii t b :
  valid_rune t -> b ∈ EncodeRune t -> bz b < RuneSelf -> t = bz b.
Proof.
  unfold valid_rune, RuneSelf, MaxRune. intros Ht Hin Hb.
  assert (forall z, ~ bz (cont_byte z) < 0x80) as Hc.
  { intros z. rewrite bz_cont. pose proof (Z.mod_pos_bound z 64). lia. }
  assert (forall z, 0x80 <= z < 256 -> ~ bz (zb z) < 0x80) as Hl.
  { intros z Hz. rewrite bz_zb_small by lia. lia. }
  unfold EncodeRune, MaxRune in Hin. repeat (case_match; bool_hyps).
  all: rewrite !elem_of_cons, elem_of_nil in Hin; destruct_or! Hin; subst;
    try done; try (by apply Hc in Hb);
    try (exfalso; revert Hb; apply Hl; unfold RuneError; Z.div_mod_to_equations; lia).
  rewrite bz_zb_small; lia.
Qed.

Lemma line_text_nonempty l : line_text l <> [].
Proof. unfold line_text. intros [_ H]%app_eq_nil. done. Qed.

Lemma EncodeRune_not_in t c :
  valid_rune t -> t <> bz c -> bz c < RuneSelf -> c ∉ EncodeRune t.
Proof. intros Ht Hn Hc Hin. by apply Hn, EncodeRune_ascii. Qed.

Lemma Line_Decode_text l l0 :
  valid_rune (LType l) -> LType l <> bz lineDelimiter ->
  Line_Decode (line_text l) l0 = (mkLine (LType l) (LValue l0 ++ LValue l), Ok tt).
Proof.
  intros Ht Hd. unfold Line_Decode, line_text.
  rewrite index_of_app by (by apply EncodeRune_not_in). rewrite take_app_length.
  rewrite <- (app_nil_r (EncodeRune (LType l))) at 1.
  rewrite DecodeRune_EncodeRune by done. cbn [fst]. do 3 f_equal.
  change (lineDelimiter :: LValue l) with ([lineDelimiter] ++ LValue l).
  rewrite app_assoc. apply drop_app_length'. rewrite length_app. cbn. lia.
Qed.

Lemma clean_line_no_newline l : clean_line l -> newline ∉ line_text l.
Proof.
  intros [Ht Hd Hn Hv _] [H|H]%elem_of_app.
  - by apply (EncodeRune_not_in (LType l) newline).
  - apply elem_of_cons in H as [H|H]; [by apply (f_equal bz) in H|done].
Qed.

(** The text of a session, every line closed by a newline, and the lines of it. *)
Definition lines_text (s : Session) : bytes := s ≫= fun l => line_text l ++ [newline].

Lemma lines_of_lines_text s rest :
  Forall clean_line s -> lines_of (lines_text s ++ rest) = map line_text s ++ lines_of rest.
Proof.
  induction 1 as [|l s Hl Hs IH]; [done|]. unfold lines_text in *. cbn [mbind list_bind map app].
  rewrite <- !app_assoc. cbn [app]. rewrite lines_of_cons by (by apply clean_line_no_newline).
  rewrite (cl_trim l Hl), IH. destruct (line_text l) eqn:E; [by apply line_text_nonempty in E|done].
Qed.

Lemma decode_all_text s s0 : Forall clean_line s -> decode_all (map line_text s) s0 = (s0 ++ s, None).
Proof.
  intros Hs. revert s0. induction Hs as [|l s Hl Hs IH]; intros s0; cbn [map decode_all].
  { by rewrite app_nil_r. }
  rewrite Line_Decode_text by (apply Hl). rewrite IH, <- app_assoc. by destruct l.
Qed.

Lemma Session_AppendTo_text s b :
  s <> [] -> Session_AppendTo s b ++ [newline] = b ++ lines_text s.
Proof.
  revert b. induction s as [|l [|l' s] IH]; intros b Hs; [done| |].
  - cbn. unfold Line_AppendTo, Type_appendTo, appendRune, line_text. cbn.
    by rewrite !app_nil_r, <- !app_assoc.
  - change (Session_AppendTo (l :: l' :: s) b)
      with (Session_AppendTo (l' :: s) (appendRune (Line_AppendTo l b) (bz newline))).
    rewrite IH by done. unfold lines_text. cbn [mbind list_bind].
    unfold Line_AppendTo, Type_appendTo, appendRune, line_text. cbn. by rewrite <- !app_assoc.
Qed.

Lemma lines_of_snoc b : lines_of (b ++ [newline]) = lines_of b.
Proof.
  unfold lines_of. rewrite split_snoc, map_app, List.filter_app. cbn. by rewrite app_nil_r.
Qed.

(** What [Session.AppendTo] writes, [DecodeSession] reads back: for every
    session of clean lines, whatever characters their types are and whatever
    their values hold, the same lines in the same order, behind the lines of
    the session that was passed in. *)
Theorem session_text_roundtrip s s0 :
  Forall clean_line s -> DecodeSession (Session_AppendTo s []) s0 = Ok (s0 ++ s, None).
Proof.
  intros Hs. rewrite DecodeSession_lines.
  destruct (decide (s = [])) as [->|Hne]; [cbn; by rewrite app_nil_r|].
  rewrite <- lines_of_snoc, Session_AppendTo_text by done.
  rewrite <- (app_nil_r (lines_text s)). cbn [app].
  by rewrite lines_of_lines_text, lines_of_nil, app_nil_r, decode_all_text.
Qed.

(** * Witnesses *)

(** A line whose type is an ASCII character that is not white space, and whose
    value is empty or ends with one, is clean. *)
Lemma clean_line_ascii t v :
  0 <= t < 0x80 -> IsSpace t = false -> t <> 61 -> newline ∉ v ->
  (forall e, last v = Some e -> bz e < RuneSelf /\ IsSpace (bz e) = false) ->
  clean_line (mkLine t v).
Proof.
  intros Ht Hs Hd Hv He. split; cbn; unfold valid_rune, MaxRune; try lia; [| |done|].
  - vm_compute bz. lia.
  - intros ->. by vm_compute in Hs.
  - unfold line_text, EncodeRune. cbn [LType LValue]. zdec. cbn [app].
    destruct (last v) as [e|] eqn:El.
    + apply (TrimSpace_id (zb t) (lineDelimiter :: v) e); rewrite ?bz_zb_small by lia;
        try done; unfold RuneSelf; try lia; try (apply He; done).
      apply last_Some in El as [v' ->].
      change (zb t :: lineDelimiter :: v' ++ [e]) with ((zb t :: lineDelimiter :: v') ++ [e]).
      apply last_snoc.
    + apply last_None in El as ->.
      apply (TrimSpace_id (zb t) [lineDelimiter] lineDelimiter); rewrite ?bz_zb_small by lia;
        try done; unfold RuneSelf; lia.
Qed.

Lemma text_no_newline w : forallb (fun c => negb (bool_decide (c = newline))) w = true -> newline ∉ w.
Proof.
  intros Hw Hin. rewrite forallb_forall in Hw. apply list_elem_of_In, Hw in Hin.
  by rewrite bool_decide_eq_true_2 in Hin.
Qed.

Definition example_session : Session :=
  [mkLine TypeProtocolVersion (bs "0"); mkLine TypeSessionName (bs "ice = cold"); mkLine TypeAttribute []].

Lemma session_text_roundtrip_witness :
  DecodeSession (Session_AppendTo example_session []) [] = Ok (example_session, None).
Proof.
  apply (session_text_roundtrip example_session []).
  unfold example_session. rewrite !Forall_cons, Forall_nil. split_and!; [..|done].
  all: apply clean_line_ascii; [split; vm_compute; congruence|reflexivity|discriminate|..].
  all: try (by apply text_no_newline); intros e He; vm_compute in He; first [done|injection He as <-; by split].
Defined.
