(* ===== verification/IceProps.v ===== *)
(** The properties of ICE candidates: parsing, printing, priorities. *)
From stdpp Require Import base list sets strings.
From Stdlib Require Import ZArith Lia.
From S2P Require Import Prelude GoFmt IceCandidate.
Open Scope Z_scope.

(** [ParseAttribute] on a candidate line.  For any six words without spaces
    that the six parse functions accept, and any key-value pairs, the result is
    that of the six functions in order and then of [parseAttribute] pair by
    pair, over whatever the candidate held; the last value must have two bytes. *)
Theorem ParseAttribute_line ws l c c1 c2 :
  Forall (fun w => sp ∉ w) ws -> length ws = 6%nat -> run_fields fns ws c = Some c1 ->
  l <> [] -> Forall pair_ok l -> (forall kv, last l = Some kv -> (2 <= length kv.2)%nat) ->
  run_pairs l c1 = Some c2 ->
  ParseAttribute (bs "a=candidate:" ++ fields_text ws ++ pairs_text l) c = (c2, None).
Proof. apply parse_line. Qed.

(** C37: what [Candidate.String] prints, [ParseAttribute] reads back without an
    error, into any candidate: an [Equal] candidate, and for a server reflexive one
    the base address as the related address.  This is for a [printable] candidate:
    - [Foundation], [ComponentID] and [Priority] are from 0 to 2^63 - 1, the
      transport is UDP and the type is one of the four known;
    - its address is host:port, neither part empty or with a space, colon or
      bracket (IPv4 or a name, not IPv6);
    - the base address of a server reflexive one is such an address too, with a
      port of at least two characters: it is the last value of the line, and a last
      value of one byte is lost ([last_value_of_one_byte_ignored]). *)
Theorem candidate_text_roundtrip c c0 :
  printable c ->
  exists c', ParseAttribute (Candidate_String c) c0 = (c', None) /\ Candidate_Equal c c' = true /\
    (Type_ c = CandidateServerReflexive -> relatedAddr c' = baseAddr c).
Proof. apply candidate_roundtrip. Qed.

(** A last pair whose value is one byte long is skipped. *)
Lemma parse_pairs_short last pre k b c :
  let buf := pre ++ k ++ [sp; b] in
  pre <> [] -> k <> [] -> sp ∉ k -> b <> sp ->
  parse_pairs last buf (k ++ [sp; b]) (length pre) 0 0 0 c = (c, None).
Proof.
  intros buf Hpre Hk Hsk Hb.
  assert (length buf = (length pre + length k + 2)%nat) as Hlen.
  { unfold buf. rewrite !length_app. cbn. lia. }
  assert (length pre <> 0%nat) as Hp by (by destruct pre).
  destruct k as [|k0 k']; [done|]. cbn [app parse_pairs length] in *.
  rewrite bool_decide_eq_false_2 by set_solver.
  rewrite (proj2 (Nat.eqb_neq (length pre) _)) by lia. rewrite Nat.eqb_refl. cbn [negb andb].
  rewrite parse_pairs_key; [|set_solver|done|lia]. cbn [parse_pairs].
  rewrite bool_decide_eq_true_2 by done. rewrite Nat.eqb_refl. cbn [negb andb].
  rewrite (proj2 (Nat.eqb_neq (length pre) 0)) by done. rewrite bool_decide_eq_false_2 by done.
  rewrite (proj2 (Nat.eqb_eq (S (S (length pre) + length k')) (length buf - 1))) by lia.
  cbn [negb andb].
  by rewrite (proj2 (Nat.eqb_neq (S (length pre) + length k') 0)) by lia.
Qed.

(** the numbers at the end of a line.  A last value of one byte, such as
    "generation 5", is dropped without an error: the candidate keeps the
    generation it had. *)
Theorem last_value_of_one_byte_ignored ws k b c c1 :
  Forall (fun w => sp ∉ w) ws -> length ws = 6%nat -> run_fields fns ws c = Some c1 ->
  k <> [] -> sp ∉ k -> b <> sp ->
  ParseAttribute (bs "a=candidate:" ++ fields_text ws ++ k ++ [sp; b]) c = (c1, None).
Proof.
  intros Hws H6 Hrun Hk Hsk Hb. rewrite (parse_mandatory ws (k ++ [sp; b]) c c1) by
    (done || (by destruct k)).
  apply (parse_pairs_short _ [sp]); done.
Qed.

(** C38: [calcCandidatePriority], in int32 arithmetic, is the formula of
    RFC 5245 section 4.1.2.1 for every type, 16-bit local preference and
    component id from 1 to 256, and orders candidates lexicographically: type
    preference, then local preference, then the smaller component first. *)
Theorem candidate_priority_order t1 l1 c1 t2 l2 c2 :
  0 <= l1 < 2 ^ 16 -> 1 <= c1 <= 256 -> 0 <= l2 < 2 ^ 16 -> 1 <= c2 <= 256 ->
  calcCandidatePriority t1 l1 c1 = 2 ^ 24 * type_preference t1 + 2 ^ 8 * l1 + (256 - c1) /\
  (calcCandidatePriority t1 l1 c1 < calcCandidatePriority t2 l2 c2 <->
   type_preference t1 < type_preference t2 \/
   type_preference t1 = type_preference t2 /\ (l1 < l2 \/ l1 = l2 /\ c2 < c1)).
Proof.
  intros Hl1 Hc1 Hl2 Hc2. rewrite !calcCandidatePriority_formula by done. split; [done|].
  pose proof (type_preference_range t1). pose proof (type_preference_range t2). lia.
Qed.

(** * Witnesses *)

Definition example_candidate : Candidate :=
  mkCandidate (bs "203.0.113.7:40000") (bs "192.168.1.5:50000") [] TransportUDP [] 1 1 1694498815
    CandidateServerReflexive 0 0 [].

Lemma candidate_text_roundtrip_witness :
  exists c', ParseAttribute (Candidate_String example_candidate) zeroCandidate = (c', None) /\
    Candidate_Equal example_candidate c' = true.
Proof.
  destruct (candidate_text_roundtrip example_candidate zeroCandidate) as (c' & H1 & H2 & _).
  - split; try (cbn; lia); try reflexivity.
    + intros [=].
    + exists (bs "203.0.113.7"), (bs "40000").
      split; [reflexivity|]. split; apply plain_text; (intros [=] || reflexivity).
    + intros _. exists (bs "192.168.1.5"), (bs "50000").
      split; [reflexivity|]. split; [apply plain_text; (intros [=] || reflexivity)|].
      split; [apply plain_text; (intros [=] || reflexivity)|cbn; lia].
  - exists c'. exact (conj H1 H2).
Defined.

Definition example_words : list bytes :=
  [bs "7"; bs "1"; bs "udp"; bs "2122260223"; bs "192.0.2.1"; bs "3478"].

Lemma example_words_ok : Forall (fun w => sp ∉ w) example_words.
Proof. repeat constructor; by apply text_no_sp. Qed.

Lemma ParseAttribute_line_witness :
  exists c, ParseAttribute (bs "a=candidate:7 1 udp 2122260223 192.0.2.1 3478 typ host network-cost 50")
    zeroCandidate = (c, None) /\ NetworkCost c = 50.
Proof.
  eexists. split.
  - refine (ParseAttribute_line example_words [(bs "typ", bs "host"); (bs "network-cost", bs "50")]
              zeroCandidate _ _ example_words_ok eq_refl eq_refl _ _ _ eq_refl).
    + intros [=].
    + repeat constructor; try (intros [=]); by apply text_no_sp.
    + intros kv [= <-]. cbn. lia.
  - reflexivity.
Defined.

Lemma last_value_of_one_byte_ignored_witness :
  Generation (ParseAttribute (bs "a=candidate:7 1 udp 2122260223 192.0.2.1 3478 generation 5")
    zeroCandidate).1 = 0.
Proof.
  pose proof (last_value_of_one_byte_ignored example_words (bs "generation") (zb 53) zeroCandidate
                _ example_words_ok eq_refl eq_refl ltac:(intros [=]) ltac:(by apply text_no_sp)
                ltac:(intros [=])) as H.
  exact (f_equal (fun r => Generation r.1) H).
Defined.

Lemma candidate_priority_order_witness :
  calcCandidatePriority CandidateRelay 65535 1 < calcCandidatePriority CandidateHost 0 256.
Proof.
  destruct (candidate_priority_order CandidateRelay 65535 1 CandidateHost 0 256) as [_ H]; try lia.
  apply H. left. cbn. lia.
Defined.
