(* ===== verification/SdpFields.v ===== *)
(** The fields of SDP and their text ([src/sdp/fields.go]), and the encoder of a
    message ([src/sdp/encoder.go]) with the data it encodes (from
    [src/sdp/decoder.go]).

    A time is its seconds since 1970 and the nanoseconds in the second; a
    duration is in nanoseconds.  The order in which Go ranges over a map is the
    class [MapRange]. *)
From stdpp Require Import base list gmap sets strings.
From Stdlib Require Import ZArith Lia.
From S2P Require Import Prelude GoFmt Utf8 Sdp IceCandidate NetAddr Turn.
Open Scope Z_scope.

(** * Numbers and addresses *)

Definition appendSpace (v : bytes) : bytes := appendRune v 32.

(** The loop of [appendUint]; the array of 20 bytes bounds the digits. *)
Fixpoint append_uint_loop (fuel : nat) (n : Z) (buf : bytes) : bytes :=
  match fuel with
  | O => buf
  | S fuel' =>
      if 10 <=? n then
        let q := Z.quot n 10 in append_uint_loop fuel' q (zb (48 + (n - q * 10)) :: buf)
      else zb (48 + n) :: buf
  end.
Definition appendUint (dst : bytes) (n : Z) : result unit bytes :=
  if n <? 0 then Panic (PanicCall (bs "BUG: n should be positive"))
  else Ok (dst ++ append_uint_loop 20 n []).

(** Calls of [appendUint] on numbers that are not negative. *)
Definition append_uint (dst : bytes) (n : Z) : bytes :=
  match appendUint dst n with Ok v => v | _ => dst end.
Definition appendInt (v : bytes) (i : Z) : bytes :=
  if i =? 0 then appendRune v 48
  else if 0 <? i then append_uint v i
  else v ++ itoa i.
Definition appendByte (v : bytes) (i : byte) : bytes :=
  if bz i =? 0 then appendRune v 48
  else append_uint v (bz i).

Fixpoint appendJoinStrings (b : bytes) (v : list bytes) : bytes :=
  match v with
  | [] => b
  | [vv] => b ++ vv
  | vv :: v' => appendJoinStrings (appendSpace (b ++ vv)) v'
  end.

(** [strings.ToUpper] on ASCII. *)
Definition to_upper (s : bytes) : bytes :=
  map (fun c => if (97 <=? bz c) && (bz c <=? 122) then zb (bz c - 32) else c) s.

Definition appendIPv4 (dst ip : bytes) : bytes :=
  match ip with
  | [] => dst
  | a :: rest =>
      foldl (fun dst c => append_uint (dst ++ [dot]) (bz c)) (append_uint dst (bz a)) (take 3 rest)
  end.
Definition appendIP (b ip : bytes) : bytes :=
  match To4 ip with
  | [] => b ++ to_upper (IP_String ip)
  | ipV4 => appendIPv4 b ipV4
  end.

Definition getDefault (v d : bytes) : bytes := if (length v =? 0)%nat then d else v.

(** * Plain fields *)

Definition AddRaw (s : Session) (k : Z) (v : bytes) : Session := appendString s k v.
Definition AddLine (s : Session) (t : Z) (v : bytes) : Session := appendString s t v.
Definition AddVersion (s : Session) (version : Z) : Session :=
  Session_append s TypeProtocolVersion (appendInt [] version).
Definition AddPhone (s : Session) (phone : bytes) : Session := appendString s TypePhone phone.
Definition AddEmail (s : Session) (email : bytes) : Session := appendString s TypeEmail email.
Definition AddSessionName (s : Session) (name : bytes) : Session := appendString s TypeSessionName name.
Definition AddSessionInfo (s : Session) (info : bytes) : Session :=
  appendString s TypeSessionInformation info.
Definition AddURI (s : Session) (uri : bytes) : Session := appendString s TypeURI uri.

(** * Connection data *)

Record ConnectionData := mkConnection {
  c_NetworkType : bytes;
  c_AddressType : bytes;
  c_IP : bytes;
  TTL : byte;
  Addresses : byte
}.
#[export] Instance ConnectionData_eq_decision : EqDecision ConnectionData.
Proof. solve_decision. Defined.
Definition zeroConnection : ConnectionData := mkConnection [] [] [] Byte.x00 Byte.x00.

Definition ConnectionData_Equal (c b : ConnectionData) : bool :=
  if negb (bool_decide (c_NetworkType c = c_NetworkType b)) then false
  else if negb (bool_decide (c_AddressType c = c_AddressType b)) then false
  else if negb (IP_Equal (c_IP c) (c_IP b)) then false
  else if negb (bool_decide (TTL c = TTL b)) then false
  else if negb (bool_decide (Addresses c = Addresses b)) then false
  else true.
Definition ConnectionData_Blank (c : ConnectionData) : bool := ConnectionData_Equal c zeroConnection.

Definition addrTypeIPv4 : bytes := bs "IP4".
Definition addrTypeIPv6 : bytes := bs "IP6".
Definition networkTypeInternet : bytes := bs "IN".
Definition attributesDelimiter : Z := 58.

Definition getAddressTypeIP (ip addressType : bytes) : bytes :=
  if negb (length addressType =? 0)%nat then addressType
  else match ip with
       | [] => addrTypeIPv4
       | _ => match To4 ip with [] => addrTypeIPv6 | _ => addrTypeIPv4 end
       end.
Fixpoint address_type_of (addr : bytes) : option bytes :=
  match addr with
  | [] => None
  | s :: addr' =>
      if bool_decide (s = colon) then Some addrTypeIPv6
      else if bool_decide (s = dot) then Some addrTypeIPv4
      else address_type_of addr'
  end.
Definition getAddressType (addr addressType : bytes) : bytes :=
  if negb (length addressType =? 0)%nat then addressType
  else match address_type_of addr with
       | Some t => t
       | None => getAddressTypeIP (ParseIP addr) addressType
       end.

Definition c_getNetworkType (c : ConnectionData) : bytes := getDefault (c_NetworkType c) networkTypeInternet.
Definition c_getAddressType (c : ConnectionData) : bytes := getAddressTypeIP (c_IP c) (c_AddressType c).

Definition ConnectionAddress (c : ConnectionData) : bytes :=
  to_upper (IP_String (c_IP c))
  ++ (if 0 <? bz (TTL c) then bs "/" ++ itoa (bz (TTL c)) else [])
  ++ (if 0 <? bz (Addresses c) then bs "/" ++ itoa (bz (Addresses c)) else []).
Definition ConnectionData_String (c : ConnectionData) : bytes :=
  c_NetworkType c ++ bs " " ++ c_AddressType c ++ bs " " ++ ConnectionAddress c.
Definition appendAddress (c : ConnectionData) (v : bytes) : bytes :=
  let v := appendIP v (c_IP c) in
  let v := if 0 <? bz (TTL c) then appendByte (appendRune v 47) (TTL c) else v in
  if 0 <? bz (Addresses c) then appendByte (appendRune v 47) (Addresses c) else v.

Definition AddConnectionData (s : Session) (data : ConnectionData) : Session :=
  let v := appendSpace (c_getNetworkType data) in
  let v := appendSpace (v ++ c_getAddressType data) in
  Session_append s TypeConnectionData (appendAddress data v).
Definition AddConnectionDataIP (s : Session) (ip : bytes) : Session :=
  AddConnectionData s (mkConnection [] [] ip Byte.x00 Byte.x00).

(** * Origin *)

Record Origin := mkOrigin {
  o_Username : bytes;
  SessionID : Z;
  SessionVersion : Z;
  o_NetworkType : bytes;
  o_AddressType : bytes;
  o_Address : bytes
}.
#[export] Instance Origin_eq_decision : EqDecision Origin.
Proof. solve_decision. Defined.
Definition zeroOrigin : Origin := mkOrigin [] 0 0 [] [] [].

Definition o_getNetworkType (o : Origin) : bytes := getDefault (o_NetworkType o) networkTypeInternet.
Definition o_getAddressType (o : Origin) : bytes := getAddressType (o_Address o) (o_AddressType o).
Definition Origin_Equal (o b : Origin) : bool :=
  if negb (bool_decide (o_Username o = o_Username b)) then false
  else if negb (SessionID o =? SessionID b) then false
  else if negb (SessionVersion o =? SessionVersion b) then false
  else if negb (bool_decide (o_NetworkType o = o_NetworkType b)) then false
  else if negb (bool_decide (o_AddressType o = o_AddressType b)) then false
  else if negb (bool_decide (o_Address o = o_Address b)) then false
  else true.

Definition AddOrigin (s : Session) (o : Origin) : Session :=
  let v := appendSpace (o_Username o) in
  let v := appendSpace (appendInt v (SessionID o)) in
  let v := appendSpace (appendInt v (SessionVersion o)) in
  let v := appendSpace (v ++ o_getNetworkType o) in
  let v := appendSpace (v ++ o_getAddressType o) in
  Session_append s TypeOrigin (v ++ o_Address o).

(** * Times *)

Record Time := mkTime { unix : Z; nanos : Z }.
#[export] Instance Time_eq_decision : EqDecision Time.
Proof. solve_decision. Defined.
(** The zero [time.Time], January 1 of the year 1. *)
Definition zeroTime : Time := mkTime (-62135596800) 0.
Definition IsZero (t : Time) : bool := bool_decide (t = zeroTime).

Definition ntpDelta : Z := 2208988800.
Definition TimeToNTP (t : Time) : Z := if IsZero t then 0 else u64 (u64 (unix t) + ntpDelta).
Definition NTPToTime (v : Z) : Time := if v =? 0 then zeroTime else mkTime (i64 (u64 (v - ntpDelta))) 0.

Definition appendUint64 (b : bytes) (v : Z) : bytes := b ++ format_uint 10 v.

Definition AddTiming (s : Session) (start stop : Time) : Session :=
  let v := appendSpace (appendUint64 [] (TimeToNTP start)) in
  Session_append s TypeTiming (appendUint64 v (TimeToNTP stop)).
Definition AddTimingNTP (s : Session) (start stop : Z) : Session :=
  AddTiming s (NTPToTime start) (NTPToTime stop).

(** * Attributes, bandwidth *)

Definition AddFlag (s : Session) (attribute : bytes) : Session := Session_append s TypeAttribute attribute.
Definition AddAttribute (s : Session) (attribute : bytes) (values : list bytes) : Session :=
  match values with
  | [] => AddFlag s attribute
  | _ => Session_append s TypeAttribute
           (appendJoinStrings (appendRune attribute attributesDelimiter) values)
  end.

Definition BandwidthConferenceTotal : bytes := bs "CT".
Definition BandwidthApplicationSpecific : bytes := bs "AS".
Definition AddBandwidth (s : Session) (t : bytes) (bandwidth : Z) : Session :=
  Session_append s TypeBandwidth (appendInt (appendRune t 58) bandwidth).

(** * Intervals *)

Definition Minute : Z := 60 * Second.
Definition Hour : Z := 3600 * Second.
Definition Day : Z := 24 * Hour.

Record durationUnit := mkUnit { u_d : Z; u_r : Z }.
Definition durationUnit_append (u : durationUnit) (v : bytes) (b : Z) : bytes :=
  appendRune (appendInt v (Z.quot b (u_d u))) (u_r u).
Definition durationUnits : list durationUnit := [mkUnit Day 100; mkUnit Hour 104; mkUnit Minute 109].

Fixpoint append_first_unit (units : list durationUnit) (b : bytes) (d : Z) : option bytes :=
  match units with
  | [] => None
  | unit :: units' =>
      if Z.rem d (u_d unit) =? 0 then Some (durationUnit_append unit b d) else append_first_unit units' b d
  end.
(** [int(d.Seconds())] *)
Definition int_seconds (d : Z) : Z := trunc (Seconds d).
Definition appendIntervalCompact (b : bytes) (d : Z) : bytes :=
  if d =? 0 then appendRune b 48
  else match append_first_unit durationUnits b d with
       | Some b' => b'
       | None => appendInt b (int_seconds d)
       end.
Definition appendInterval (b : bytes) (d : Z) (compact : bool) : bytes :=
  if d =? 0 then appendRune b 48
  else if compact then appendIntervalCompact b d
  else appendInt b (int_seconds d).

Fixpoint append_offsets (compact : bool) (v : bytes) (offsets : list Z) : bytes :=
  match offsets with
  | [] => v
  | [offset] => appendInterval v offset compact
  | offset :: offsets' => append_offsets compact (appendSpace (appendInterval v offset compact)) offsets'
  end.
Definition addRepeatTimes (s : Session) (compact : bool) (interval duration : Z) (offsets : list Z) :
    Session :=
  let v := appendSpace (appendInterval [] interval compact) in
  let v := appendSpace (appendInterval v duration compact) in
  Session_append s TypeRepeatTimes (append_offsets compact v offsets).
Definition AddRepeatTimes (s : Session) := addRepeatTimes s false.
Definition AddRepeatTimesCompact (s : Session) := addRepeatTimes s true.

(** * Media, encryption, time zones *)

Record MediaDescription := mkMediaDescription {
  md_Type : bytes;
  md_Port : Z;
  PortsNumber : Z;
  md_Protocol : bytes;
  Format : bytes
}.
#[export] Instance MediaDescription_eq_decision : EqDecision MediaDescription.
Proof. solve_decision. Defined.
Definition AddMediaDescription (s : Session) (m : MediaDescription) : Session :=
  let v := appendSpace (md_Type m) in
  let v := appendInt v (md_Port m) in
  let v := if negb (PortsNumber m =? 0) then appendInt (appendRune v 47) (PortsNumber m) else v in
  let v := appendSpace v in
  let v := appendSpace (v ++ md_Protocol m) in
  Session_append s TypeMediaDescription (v ++ Format m).

Record Encryption := mkEncryption { e_Method : bytes; e_Key : bytes }.
#[export] Instance Encryption_eq_decision : EqDecision Encryption.
Proof. solve_decision. Defined.
Definition Encryption_Equal (e b : Encryption) : bool := bool_decide (e = b).
Definition Encryption_Blank (e : Encryption) : bool := Encryption_Equal e (mkEncryption [] []).

Definition AddEncryptionMethod (s : Session) (method : bytes) : Session :=
  appendString s TypeEncryptionKey method.
Definition AddEncryptionKey (s : Session) (method key : bytes) : Session :=
  if (length key =? 0)%nat then AddEncryptionMethod s method
  else Session_append s TypeEncryptionKey (appendRune method attributesDelimiter ++ key).
Definition AddEncryption (s : Session) (e : Encryption) : Session := AddEncryptionKey s (e_Method e) (e_Key e).

Record TimeZone := mkTimeZone { tz_Start : Time; tz_Offset : Z }.
#[export] Instance TimeZone_eq_decision : EqDecision TimeZone.
Proof. solve_decision. Defined.
Definition TimeZone_append (t : TimeZone) (v : bytes) : bytes :=
  appendIntervalCompact (appendSpace (appendUint64 v (TimeToNTP (tz_Start t)))) (tz_Offset t).
Fixpoint append_zones (v : bytes) (zones : list TimeZone) : bytes :=
  match zones with
  | [] => v
  | [zone] => TimeZone_append zone v
  | zone :: zones' => append_zones (appendSpace (TimeZone_append zone v)) zones'
  end.
Definition AddTimeZones (s : Session) (zones : list TimeZone) : Session :=
  Session_append s TypeTimeZones (append_zones [] zones).

(** * Messages ([decoder.go]) *)

Definition Attributes : Type := gmap bytes (list bytes).
Definition Bandwidths : Type := gmap bytes Z.

Record Timing := mkTiming {
  t_Start : Time;
  t_End : Time;
  Repeat : Z;
  Active : Z;
  Offsets : list Z
}.
#[export] Instance Timing_eq_decision : EqDecision Timing.
Proof. solve_decision. Defined.

Record Media := mkMedia {
  Title : bytes;
  Description : MediaDescription;
  mm_Connection : ConnectionData;
  mm_Attributes : Attributes;
  mm_Encryption : Encryption;
  mm_Bandwidths : Bandwidths
}.
Definition zeroMedia : Media :=
  mkMedia [] (mkMediaDescription [] 0 0 [] []) zeroConnection ∅ (mkEncryption [] []) ∅.

Record SdpMessage := mkMessage {
  m_Version : Z;
  m_Origin : Origin;
  m_Name : bytes;
  m_Info : bytes;
  m_Email : bytes;
  m_Phone : bytes;
  m_URI : bytes;
  m_Connection : ConnectionData;
  m_Attributes : Attributes;
  m_Medias : list Media;
  m_Encryption : Encryption;
  m_Bandwidths : Bandwidths;
  m_BandwidthType : bytes;
  m_Timing : list Timing;
  m_TZAdjustments : list TimeZone
}.
Definition zeroSdpMessage : SdpMessage :=
  mkMessage 0 zeroOrigin [] [] [] [] [] zeroConnection ∅ [] (mkEncryption [] []) ∅ [] [] [].

(** * The encoder *)

Class MapRange := {
  map_range {A} : gmap bytes A -> list (bytes * A);
  map_range_perm {A} (m : gmap bytes A) : map_range m ≡ₚ map_to_list m
}.
Definition list_range : MapRange :=
  {| map_range := fun A m => map_to_list m; map_range_perm := fun A m => Permutation_refl _ |}.

Section Encoder.
Context `{MapRange}.

(** [appendAttributes] *)
Definition append_value (k : bytes) (s : Session) (a : bytes) : Session :=
  if (length a =? 0)%nat then AddFlag s k else AddAttribute s k [a].
Definition appendAttributes (s : Session) (attrs : Attributes) : Session :=
  foldl (fun s kv => foldl (append_value kv.1) s kv.2) s (map_range attrs).
Definition append_bandwidths (s : Session) (b : Bandwidths) : Session :=
  foldl (fun s kv => AddBandwidth s kv.1 kv.2) s (map_range b).

Definition append_timing (s : Session) (t : Timing) : Session :=
  let s := AddTiming s (t_Start t) (t_End t) in
  if (0 <? length (Offsets t))%nat then AddRepeatTimesCompact s (Repeat t) (Active t) (Offsets t) else s.
Definition append_media (s : Session) (mm : Media) : Session :=
  let s := AddMediaDescription s (Description mm) in
  let s := if (0 <? length (Title mm))%nat then AddSessionInfo s (Title mm) else s in
  let s := if negb (ConnectionData_Blank (mm_Connection mm)) then AddConnectionData s (mm_Connection mm) else s in
  let s := append_bandwidths s (mm_Bandwidths mm) in
  let s := if negb (Encryption_Blank (mm_Encryption mm)) then AddEncryption s (mm_Encryption mm) else s in
  appendAttributes s (mm_Attributes mm).

(** [Message.Append] *)
Definition Append (m : SdpMessage) (s : Session) : Session :=
  let s := AddVersion s (m_Version m) in
  let s := AddOrigin s (m_Origin m) in
  let s := AddSessionName s (m_Name m) in
  let s := if (0 <? length (m_Info m))%nat then AddSessionInfo s (m_Info m) else s in
  let s := if (0 <? length (m_URI m))%nat then AddURI s (m_URI m) else s in
  let s := if (0 <? length (m_Email m))%nat then AddEmail s (m_Email m) else s in
  let s := if (0 <? length (m_Phone m))%nat then AddPhone s (m_Phone m) else s in
  let s := if negb (ConnectionData_Blank (m_Connection m)) then AddConnectionData s (m_Connection m) else s in
  let s := append_bandwidths s (m_Bandwidths m) in
  let s := foldl append_timing s (m_Timing m) in
  let s := if (0 <? length (m_TZAdjustments m))%nat then AddTimeZones s (m_TZAdjustments m) else s in
  let s := if negb (Encryption_Blank (m_Encryption m)) then AddEncryption s (m_Encryption m) else s in
  let s := appendAttributes s (m_Attributes m) in
  foldl append_media s (m_Medias m).
End Encoder.
