(* ===== verification/SdpDecoder.v ===== *)
(** The decoder of SDP messages: [src/sdp/decoder.go].

    The decoder walks over the lines of a session with a position, a section and
    a position in the ordering of the section; the message is filled as it goes,
    and keeps what was decoded before an error. *)
From stdpp Require Import base list gmap sets strings.
From Stdlib Require Import ZArith Lia.
From S2P Require Import Prelude GoFmt Utf8 Sdp NetAddr Turn SdpFields.
Open Scope Z_scope.

(** * Access to attributes and times *)

Definition Attributes_Values (a : Attributes) (attribute : bytes) : list bytes := default [] (a !! attribute).
Definition Attributes_Value (a : Attributes) (attribute : bytes) : bytes :=
  default [] (head (Attributes_Values a attribute)).
Definition Attributes_Flag (a : Attributes) (flag : bytes) : bool :=
  negb (length (Attributes_Values a flag) =? 0)%nat.
Definition addAttribute (a : Attributes) (k v : bytes) : Attributes :=
  <[k := Attributes_Values a k ++ [v]]> a.

Definition Message_Start (m : SdpMessage) : Time :=
  match m_Timing m with [] => zeroTime | t :: _ => t_Start t end.
Definition Message_End (m : SdpMessage) : Time :=
  match m_Timing m with [] => zeroTime | t :: _ => t_End t end.
Definition Message_Flag (m : SdpMessage) (flag : bytes) : bool :=
  if bool_decide (m_Attributes m = ∅) then false else Attributes_Flag (m_Attributes m) flag.
Definition Message_Attribute (m : SdpMessage) (attribute : bytes) : bytes :=
  if bool_decide (m_Attributes m = ∅) then [] else Attributes_Value (m_Attributes m) attribute.

(** Setters of the fields of a message and of a media. *)
Definition set_m_Version v m := mkMessage v (m_Origin m) (m_Name m) (m_Info m) (m_Email m) (m_Phone m)
  (m_URI m) (m_Connection m) (m_Attributes m) (m_Medias m) (m_Encryption m) (m_Bandwidths m)
  (m_BandwidthType m) (m_Timing m) (m_TZAdjustments m).
Definition set_m_Origin v m := mkMessage (m_Version m) v (m_Name m) (m_Info m) (m_Email m) (m_Phone m)
  (m_URI m) (m_Connection m) (m_Attributes m) (m_Medias m) (m_Encryption m) (m_Bandwidths m)
  (m_BandwidthType m) (m_Timing m) (m_TZAdjustments m).
Definition set_m_Name v m := mkMessage (m_Version m) (m_Origin m) v (m_Info m) (m_Email m) (m_Phone m)
  (m_URI m) (m_Connection m) (m_Attributes m) (m_Medias m) (m_Encryption m) (m_Bandwidths m)
  (m_BandwidthType m) (m_Timing m) (m_TZAdjustments m).
Definition set_m_Info v m := mkMessage (m_Version m) (m_Origin m) (m_Name m) v (m_Email m) (m_Phone m)
  (m_URI m) (m_Connection m) (m_Attributes m) (m_Medias m) (m_Encryption m) (m_Bandwidths m)
  (m_BandwidthType m) (m_Timing m) (m_TZAdjustments m).
Definition set_m_Email v m := mkMessage (m_Version m) (m_Origin m) (m_Name m) (m_Info m) v (m_Phone m)
  (m_URI m) (m_Connection m) (m_Attributes m) (m_Medias m) (m_Encryption m) (m_Bandwidths m)
  (m_BandwidthType m) (m_Timing m) (m_TZAdjustments m).
Definition set_m_Phone v m := mkMessage (m_Version m) (m_Origin m) (m_Name m) (m_Info m) (m_Email m) v
  (m_URI m) (m_Connection m) (m_Attributes m) (m_Medias m) (m_Encryption m) (m_Bandwidths m)
  (m_BandwidthType m) (m_Timing m) (m_TZAdjustments m).
Definition set_m_URI v m := mkMessage (m_Version m) (m_Origin m) (m_Name m) (m_Info m) (m_Email m)
  (m_Phone m) v (m_Connection m) (m_Attributes m) (m_Medias m) (m_Encryption m) (m_Bandwidths m)
  (m_BandwidthType m) (m_Timing m) (m_TZAdjustments m).
Definition set_m_Connection v m := mkMessage (m_Version m) (m_Origin m) (m_Name m) (m_Info m)
  (m_Email m) (m_Phone m) (m_URI m) v (m_Attributes m) (m_Medias m) (m_Encryption m) (m_Bandwidths m)
  (m_BandwidthType m) (m_Timing m) (m_TZAdjustments m).
Definition set_m_Attributes v m := mkMessage (m_Version m) (m_Origin m) (m_Name m) (m_Info m)
  (m_Email m) (m_Phone m) (m_URI m) (m_Connection m) v (m_Medias m) (m_Encryption m) (m_Bandwidths m)
  (m_BandwidthType m) (m_Timing m) (m_TZAdjustments m).
Definition set_m_Medias v m := mkMessage (m_Version m) (m_Origin m) (m_Name m) (m_Info m) (m_Email m)
  (m_Phone m) (m_URI m) (m_Connection m) (m_Attributes m) v (m_Encryption m) (m_Bandwidths m)
  (m_BandwidthType m) (m_Timing m) (m_TZAdjustments m).
Definition set_m_Encryption v m := mkMessage (m_Version m) (m_Origin m) (m_Name m) (m_Info m)
  (m_Email m) (m_Phone m) (m_URI m) (m_Connection m) (m_Attributes m) (m_Medias m) v (m_Bandwidths m)
  (m_BandwidthType m) (m_Timing m) (m_TZAdjustments m).
Definition set_m_Bandwidths v m := mkMessage (m_Version m) (m_Origin m) (m_Name m) (m_Info m)
  (m_Email m) (m_Phone m) (m_URI m) (m_Connection m) (m_Attributes m) (m_Medias m) (m_Encryption m) v
  (m_BandwidthType m) (m_Timing m) (m_TZAdjustments m).
Definition set_m_Timing v m := mkMessage (m_Version m) (m_Origin m) (m_Name m) (m_Info m) (m_Email m)
  (m_Phone m) (m_URI m) (m_Connection m) (m_Attributes m) (m_Medias m) (m_Encryption m) (m_Bandwidths m)
  (m_BandwidthType m) v (m_TZAdjustments m).
Definition set_m_TZAdjustments v m := mkMessage (m_Version m) (m_Origin m) (m_Name m) (m_Info m)
  (m_Email m) (m_Phone m) (m_URI m) (m_Connection m) (m_Attributes m) (m_Medias m) (m_Encryption m)
  (m_Bandwidths m) (m_BandwidthType m) (m_Timing m) v.

Definition set_Title v m := mkMedia v (Description m) (mm_Connection m) (mm_Attributes m)
  (mm_Encryption m) (mm_Bandwidths m).
Definition set_Description v m := mkMedia (Title m) v (mm_Connection m) (mm_Attributes m)
  (mm_Encryption m) (mm_Bandwidths m).
Definition set_mm_Attributes v m := mkMedia (Title m) (Description m) (mm_Connection m) v
  (mm_Encryption m) (mm_Bandwidths m).
Definition set_mm_Encryption v m := mkMedia (Title m) (Description m) (mm_Connection m)
  (mm_Attributes m) v (mm_Bandwidths m).
Definition set_mm_Bandwidths v m := mkMedia (Title m) (Description m) (mm_Connection m)
  (mm_Attributes m) (mm_Encryption m) v.

(** [Message.AddAttribute], [Media.AddAttribute] and what is built on them. *)
Definition Message_AddAttribute (k v : bytes) (m : SdpMessage) : SdpMessage :=
  set_m_Attributes (addAttribute (m_Attributes m) k v) m.
Definition Message_AddFlag (f : bytes) (m : SdpMessage) : SdpMessage := Message_AddAttribute f [] m.
Definition Media_AddAttribute (k : bytes) (values : list bytes) (m : Media) : Media :=
  set_mm_Attributes (addAttribute (mm_Attributes m) k (join [sp] values)) m.
Definition Media_AddFlag (f : bytes) (m : Media) : Media := Media_AddAttribute f [[]] m.
Definition Media_Flag (m : Media) (f : bytes) : bool := Attributes_Flag (mm_Attributes m) f.
Definition Media_Attribute (m : Media) (k : bytes) : bytes := Attributes_Value (mm_Attributes m) k.

(** * Sections and their orderings *)

Inductive section := sectionSession | sectionTime | sectionMedia.
#[export] Instance section_eq_decision : EqDecision section.
Proof. solve_decision. Defined.
Definition section_String (s : section) : bytes :=
  match s with sectionSession => bs "s" | sectionTime => bs "t" | sectionMedia => bs "m" end.

Definition orderingSession : list Z :=
  [TypeProtocolVersion; TypeOrigin; TypeSessionName; TypeSessionInformation; TypeURI; TypeEmail;
   TypePhone; TypeConnectionData; TypeBandwidth; TypeTimeZones; TypeEncryptionKey; TypeAttribute].
Definition orderingAfterTime : nat := 10.
Definition orderingTime : list Z := [TypeTiming; TypeRepeatTimes].
Definition orderingMedia : list Z :=
  [TypeMediaDescription; TypeSessionInformation; TypeConnectionData; TypeBandwidth;
   TypeEncryptionKey; TypeAttribute].
Definition getOrdering (s : section) : list Z :=
  match s with
  | sectionSession => orderingSession
  | sectionMedia => orderingMedia
  | sectionTime => orderingTime
  end.

Definition isOptional (t : Z) : bool :=
  negb (bool_decide (t ∈ [TypeProtocolVersion; TypeOrigin; TypeSessionName; TypeTiming;
                          TypeMediaDescription])).
Definition isZeroOrMore (t : Z) : bool := bool_decide (t ∈ [TypeBandwidth; TypeAttribute]).

(** [errors.Wrap] keeps the cause. *)
Inductive sdp_error :=
| Cause (e : DecodeError)
| NumError (e : num_error)
| UnexpectedEOF
| Wrap (e : sdp_error) (msg : bytes).

Definition newSectionDecodeError (s : section) (m : bytes) : DecodeError :=
  newDecodeError (bs "section " ++ section_String s) m.

(** The loop of [isExpected] over the ordering; both [continue]s go on where the
    loop would go on anyway. *)
Fixpoint in_ordering (t : Z) (o : list Z) : bool :=
  match o with
  | [] => false
  | expected :: o' =>
      if expected =? t then true
      else if isOptional expected then in_ordering t o'
      else if isZeroOrMore expected then in_ordering t o'
      else in_ordering t o'
  end.

(** [isExpected]; [None] is nil.  It calls itself for the sections it can go on
    to, at most four deep. *)
Fixpoint isExpected_from (fuel : nat) (t : Z) (s : section) (pos : nat) : option sdp_error :=
  match fuel with
  | O => Some UnexpectedEOF
  | S fuel' =>
      let rec s pos := bool_decide (isExpected_from fuel' t s pos = None) in
      if (pos <? length (getOrdering s))%nat && in_ordering t (drop pos (getOrdering s)) then None
      else if
        match s with
        | sectionSession =>
            if (pos <? orderingAfterTime)%nat && rec sectionTime 0%nat then true
            else rec sectionMedia 0%nat
        | sectionTime =>
            if rec sectionSession orderingAfterTime then true else rec sectionMedia 0%nat
        | sectionMedia => negb (pos =? 0)%nat && rec sectionMedia 0%nat
        end
      then None
      else Some (Wrap (Cause (newSectionDecodeError s
                   (bs "no matches in ordering array at " ++ section_String s ++ bs "["
                    ++ itoa (Z.of_nat pos) ++ bs "]")))
                  (bs "field " ++ Type_String t ++ bs " is unexpected"))
  end.
Definition isExpected (t : Z) (s : section) (pos : nat) : option sdp_error := isExpected_from 4 t s pos.

(** * The decoder *)

(** The line last read, [l], is [d_t] and [d_v]. *)
Record Decoder := mkDecoder {
  d_s : Session;
  d_pos : nat;
  d_t : Z;
  d_v : bytes;
  d_section : section;
  d_sPos : nat;
  d_m : Media
}.
Definition NewDecoder (s : Session) : Decoder := mkDecoder s 0 0 [] sectionSession 0 zeroMedia.
Definition set_d_pos v d := mkDecoder (d_s d) v (d_t d) (d_v d) (d_section d) (d_sPos d) (d_m d).
Definition set_d_section v n d := mkDecoder (d_s d) (d_pos d) (d_t d) (d_v d) v n (d_m d).
Definition set_d_m v d := mkDecoder (d_s d) (d_pos d) (d_t d) (d_v d) (d_section d) (d_sPos d) v.

Abbreviation DM := (ST (Decoder * SdpMessage) sdp_error).

Definition on_message (f : SdpMessage -> SdpMessage) : DM unit := st_modify (fun x => (x.1, f x.2)).
Definition on_media (f : Media -> Media) : DM unit :=
  st_modify (fun x => (set_d_m (f (d_m x.1)) x.1, x.2)).
Definition on_decoder (f : Decoder -> Decoder) : DM unit := st_modify (fun x => (f x.1, x.2)).
Definition the_decoder : DM Decoder := fun x => (x, Ok x.1).
Definition the_message : DM SdpMessage := fun x => (x, Ok x.2).
Definition wrap {A} (msg : bytes) (c : DM A) : DM A := fun x =>
  match c x with (x', Err e) => (x', Err (Wrap e msg)) | r => r end.
Definition raise {A} (e : DecodeError) : DM A := st_err (Cause e).
Definition num {A} (r : result num_error A) : DM A :=
  match r with Ok a => st_ret a | Err e => st_err (NumError e) | Panic p => st_panic p end.
Definition section_error {A} (msg : bytes) : DM A :=
  let! d := the_decoder in raise (newSectionDecodeError (d_section d) msg).

(** [Decoder.newFieldError] *)
Definition newFieldError (d : Decoder) (msg : bytes) : DecodeError :=
  newDecodeError (section_String (d_section d) ++ bs "/" ++ Type_String (d_t d) ++ bs " at line "
                  ++ itoa (Z.of_nat (d_pos d))) msg.

(** [Decoder.next] *)
Definition next : DM bool := fun x =>
  let d := x.1 in
  match d_s d !! d_pos d with
  | None => (x, Ok false)
  | Some l =>
      ((mkDecoder (d_s d) (S (d_pos d)) (LType l) (LValue l) (d_section d) (d_sPos d) (d_m d), x.2),
       Ok true)
  end.
(** [d.pos--] *)
Definition step_back : DM unit := on_decoder (fun d => set_d_pos (d_pos d - 1)%nat d).

(** The loop of [decodeKV]: up to the first colon, and what follows it. *)
Fixpoint key_value (v key value : bytes) (isValue : bool) : bytes * bytes :=
  match v with
  | [] => (key, value)
  | c :: v' =>
      if bool_decide (c = colon) && negb isValue then key_value v' key value true
      else if isValue then key_value v' key (value ++ [c]) isValue
      else key_value v' (key ++ [c]) value isValue
  end.
Definition decodeKV (d : Decoder) : bytes * bytes := key_value (d_v d) [] [] false.

Definition decodeVersion : DM unit :=
  let! d := the_decoder in
  let! n := wrap (bs "failed to parse version") (num (atoi (d_v d))) in
  on_message (set_m_Version n).
Definition decodeAttribute : DM unit :=
  let! d := the_decoder in
  let '(k, v) := decodeKV d in
  match d_section d with
  | sectionMedia => on_media (fun m => set_mm_Attributes (addAttribute (mm_Attributes m) k v) m)
  | _ => on_message (fun m => set_m_Attributes (addAttribute (m_Attributes m) k v) m)
  end.
Definition decodeSessionName : DM unit := let! d := the_decoder in on_message (set_m_Name (d_v d)).
Definition decodeSessionInfo : DM unit :=
  let! d := the_decoder in
  if bool_decide (d_section d = sectionMedia) then on_media (set_Title (d_v d))
  else on_message (set_m_Info (d_v d)).
Definition decodeEmail : DM unit := let! d := the_decoder in on_message (set_m_Email (d_v d)).
Definition decodePhone : DM unit := let! d := the_decoder in on_message (set_m_Phone (d_v d)).
Definition decodeURI : DM unit := let! d := the_decoder in on_message (set_m_URI (d_v d)).
Definition decodeEncryption : DM unit :=
  let! d := the_decoder in
  let '(k, v) := decodeKV d in
  let e := mkEncryption k v in
  match d_section d with
  | sectionMedia => on_media (set_mm_Encryption e)
  | _ => on_message (set_m_Encryption e)
  end.

Definition decodeIP (v : bytes) : bytes := ParseIP v.
(** [byte(n)] of a 16-bit number. *)
Definition decodeByte (dst : bytes) : result num_error byte :=
  match parse_int 16 dst with Ok n => Ok (zb n) | Err e => Err e | Panic p => Panic p end.
Definition sdp_isIPv4 (ip : bytes) : bool := negb (length (To4 ip) =? 0)%nat.

(** Three fields between separators; [None] is a byte in a fourth. *)
Fixpoint three_fields (sep : byte) (v : bytes) (subField : nat) (f0 f1 f2 : bytes) :
    option (bytes * bytes * bytes) :=
  match v with
  | [] => Some (f0, f1, f2)
  | c :: v' =>
      if bool_decide (c = sep) then three_fields sep v' (S subField) f0 f1 f2
      else
        match subField with
        | 0%nat => three_fields sep v' subField (f0 ++ [c]) f1 f2
        | 1%nat => three_fields sep v' subField f0 (f1 ++ [c]) f2
        | 2%nat => three_fields sep v' subField f0 f1 (f2 ++ [c])
        | _ => None
        end
  end.

Definition set_connection_types (t n : bytes) (c : ConnectionData) : ConnectionData :=
  mkConnection n t (c_IP c) (TTL c) (Addresses c).
Definition set_c_IP ip c := mkConnection (c_NetworkType c) (c_AddressType c) ip (TTL c) (Addresses c).
Definition set_TTL b c := mkConnection (c_NetworkType c) (c_AddressType c) (c_IP c) b (Addresses c).
Definition set_Addresses b c := mkConnection (c_NetworkType c) (c_AddressType c) (c_IP c) (TTL c) b.
(** Every section writes the connection of the message. *)
Definition on_connection (f : ConnectionData -> ConnectionData) : DM unit :=
  on_message (fun m => set_m_Connection (f (m_Connection m)) m).

(** [m.Connection.X, err = decodeByte(b)]: the field is zero on an error. *)
Definition decode_byte_into (set : byte -> ConnectionData -> ConnectionData) (b : bytes) : DM unit :=
  match decodeByte b with
  | Ok n => on_connection (set n)
  | Err e => on_connection (set Byte.x00);;; st_err (NumError e)
  | Panic p => st_panic p
  end.

Definition decodeConnectionData : DM unit :=
  let! d := the_decoder in
  let fail msg := wrap (bs "failed to decode connection data") (raise (newFieldError d msg)) in
  match three_fields sp (d_v d) 0 [] [] [] with
  | None => fail (bs "unexpected subfield count")
  | Some (netType, addressType, connectionAddress) =>
      if (length netType =? 0)%nat then fail (bs "nettype is empty")
      else if (length addressType =? 0)%nat then fail (bs "addrtype is empty")
      else if (length connectionAddress =? 0)%nat then fail (bs "connection-address is empty")
      else
        on_connection (set_connection_types addressType netType);;;
        match three_fields (zb 47) connectionAddress 0 [] [] [] with
        | None => fail (bs "unexpected fourth element in address")
        | Some (base, first, second) =>
            let ip := decodeIP base in
            on_connection (set_c_IP ip);;;
            let isV4 := sdp_isIPv4 ip in
            if (0 <? length second)%nat then
              if negb isV4 then fail (bs "unexpected TTL for IPv6")
              else
                wrap (bs "failed to decode connection data") (decode_byte_into set_TTL first);;;
                wrap (bs "failed to decode connection data") (decode_byte_into set_Addresses second)
            else if (0 <? length first)%nat then
              wrap (bs "bad connection data <" ++ first ++ bs "> at <" ++ connectionAddress ++ bs ">")
                (if isV4 then decode_byte_into set_TTL first else decode_byte_into set_Addresses second)
            else st_ret tt
        end
  end.

Definition decodeBandwidth : DM unit :=
  let! d := the_decoder in
  let '(k, v) := decodeKV d in
  if (length v =? 0)%nat then wrap (bs "failed to decode bandwidth") (section_error (bs "no value specified"))
  else if negb (bool_decide (k = BandwidthApplicationSpecific) || bool_decide (k = BandwidthConferenceTotal))
  then wrap (bs "failed to decode bandwidth") (section_error (bs "bad bandwidth type " ++ k))
  else
    let! n := wrap (bs "failed to convert decode bandwidth") (num (atoi v)) in
    if bool_decide (d_section d = sectionMedia)
    then on_media (fun m => set_mm_Bandwidths (<[k := n]> (mm_Bandwidths m)) m)
    else on_message (fun m => set_m_Bandwidths (<[k := n]> (m_Bandwidths m)) m).

Definition parseNTP (v : bytes) : result num_error Z := parse_uint 64 v.

(** The loop of [decodeTimingField]; [None] is a second space. *)
Fixpoint two_fields (v startV endV : bytes) (isEndV : bool) : option (bytes * bytes) :=
  match v with
  | [] => Some (startV, endV)
  | c :: v' =>
      if bool_decide (c = sp) then if isEndV then None else two_fields v' startV endV true
      else if isEndV then two_fields v' startV (endV ++ [c]) isEndV
      else two_fields v' (startV ++ [c]) endV isEndV
  end.
Definition decodeTimingField : DM unit :=
  let! d := the_decoder in
  match two_fields (d_v d) [] [] false with
  | None => wrap (bs "failed to decode timing") (section_error (bs "unexpected second space in timing"))
  | Some (startV, endV) =>
      let! ntpStart := wrap (bs "failed to parse start time") (num (parseNTP startV)) in
      let! ntpEnd := wrap (bs "failed to parse end time") (num (parseNTP endV)) in
      on_message (fun m =>
        set_m_Timing (m_Timing m ++ [mkTiming (NTPToTime ntpStart) (NTPToTime ntpEnd) 0 0 []]) m)
  end.

Definition subfields (v : bytes) : list bytes := split sp v.

Definition decodeOrigin : DM unit :=
  let! d := the_decoder in
  match subfields (d_v d) with
  | [username; id; version; network; type; address] =>
      let! id := wrap (bs "failed to decode sess-id") (num (atoi id)) in
      let! version := wrap (bs "failed to decode sess-version") (num (atoi version)) in
      on_message (set_m_Origin (mkOrigin username id version network type address))
  | p => wrap (bs "failed to decode origin")
           (section_error (bs "unexpected subfields count " ++ itoa (Z.of_nat (length p)) ++ bs " != 6"))
  end.

(** [decodeInterval]: an empty text is indexed at -1. *)
Definition unit_of (c : byte) : option Z :=
  if bool_decide (c = zb 100) then Some Day
  else if bool_decide (c = zb 104) then Some Hour
  else if bool_decide (c = zb 109) then Some Minute
  else if bool_decide (c = zb 115) then Some Second
  else None.
Definition decodeInterval (b : bytes) : DM Z :=
  if bool_decide (b = bs "0") then st_ret 0
  else
    match last b with
    | None => st_panic IndexOutOfRange
    | Some c =>
        match unit_of c with
        | None =>
            let! val := wrap (bs "unable to decode value") (num (atoi b)) in st_ret (i64 (val * Second))
        | Some unit =>
            if (length b <? 2)%nat
            then wrap (bs "unit without value is invalid duration") (st_err UnexpectedEOF)
            else
              let! val := wrap (bs "unable to decode value") (num (atoi (removelast b))) in
              st_ret (i64 (val * unit))
        end
    end.

Fixpoint decode_offsets (i : nat) (l : list bytes) (offsets : list Z) : DM (list Z) :=
  match l with
  | [] => st_ret offsets
  | pp :: l' =>
      let! dd := wrap (bs "failed to decode offset " ++ itoa (Z.of_nat i)) (decodeInterval pp) in
      decode_offsets (S i) l' (offsets ++ [dd])
  end.

(** [decodeRepeatTimes]: what it decodes goes into a copy of the last timing. *)
Definition decodeRepeatTimes : DM unit :=
  let! m := the_message in
  match last (m_Timing m) with
  | None => st_panic (PanicCall (bs "value should be positive"))
  | Some t =>
      let! d := the_decoder in
      match subfields (d_v d) with
      | p0 :: p1 :: p2 :: rest =>
          let! repeat := wrap (bs "failed to decode repeat interval") (decodeInterval p0) in
          let! active := wrap (bs "failed to decode active duration") (decodeInterval p1) in
          let! offsets := decode_offsets 0 (p2 :: rest) (Offsets t) in
          let copy := mkTiming (t_Start t) (t_End t) repeat active offsets in
          st_ret tt
      | p => wrap (bs "failed to decode repeat")
               (section_error (bs "unexpected subfields count " ++ itoa (Z.of_nat (length p)) ++ bs " < 3"))
      end
  end.

Fixpoint decode_zones (p : list bytes) : DM unit :=
  match p with
  | start :: offset :: p' =>
      let! t := wrap (bs "failed to decode adjustment start") (num (parseNTP start)) in
      let! o := wrap (bs "failed to decode offset") (decodeInterval offset) in
      on_message (fun m => set_m_TZAdjustments (m_TZAdjustments m ++ [mkTimeZone (NTPToTime t) o]) m);;;
      decode_zones p'
  | _ => st_ret tt
  end.
Definition decodeTimeZoneAdjustments : DM unit :=
  let! d := the_decoder in
  let p := subfields (d_v d) in
  if negb (Nat.even (length p))
  then wrap (bs "failed to decode tz-adjustments")
         (section_error (bs "unexpected subfields count " ++ itoa (Z.of_nat (length p))))
  else decode_zones p.

Definition decodeMediaDescription : DM unit :=
  let! d := the_decoder in
  match subfields (d_v d) with
  | type :: ports :: protocol :: f0 :: rest =>
      let pp := split (zb 47) ports in
      let! port := wrap (bs "failed to decode port") (num (atoi (default [] (head pp)))) in
      let! number := match pp with
                     | _ :: n :: _ => wrap (bs "failed to decode ports number") (num (atoi n))
                     | _ => st_ret 0
                     end in
      on_media (set_Description (mkMediaDescription type port number protocol (join [sp] (f0 :: rest))))
  | p => wrap (bs "failed to decode media description")
           (section_error (bs "unexpected subfields count " ++ itoa (Z.of_nat (length p)) ++ bs " < 4"))
  end.

(** [decodeField] *)
Definition decodeField : DM unit :=
  let! d := the_decoder in
  let t := d_t d in
  if t =? TypeProtocolVersion then decodeVersion
  else if t =? TypeAttribute then decodeAttribute
  else if t =? TypeSessionName then decodeSessionName
  else if t =? TypeSessionInformation then decodeSessionInfo
  else if t =? TypeEmail then decodeEmail
  else if t =? TypePhone then decodePhone
  else if t =? TypeURI then decodeURI
  else if t =? TypeEncryptionKey then decodeEncryption
  else if t =? TypeBandwidth then decodeBandwidth
  else if t =? TypeTiming then decodeTimingField
  else if t =? TypeConnectionData then decodeConnectionData
  else if t =? TypeOrigin then decodeOrigin
  else if t =? TypeRepeatTimes then decodeRepeatTimes
  else if t =? TypeTimeZones then decodeTimeZoneAdjustments
  else if t =? TypeMediaDescription then decodeMediaDescription
  else st_panic (PanicCall (bs "unexpected field")).

(** * The sections *)

(** [if err := isExpected(...); err != nil] and [if !isZeroOrMore(d.t) { d.sPos++ }] *)
Definition expect : DM unit :=
  let! d := the_decoder in
  match isExpected (d_t d) (d_section d) (d_sPos d) with
  | Some e => wrap (bs "decode failed") (st_err e)
  | None => st_ret tt
  end.
Definition advance : DM unit :=
  on_decoder (fun d => if isZeroOrMore (d_t d) then d else set_d_section (d_section d) (S (d_sPos d)) d).

Fixpoint timing_loop (fuel : nat) : DM unit :=
  match fuel with
  | O => st_panic OutOfFuel
  | S fuel' =>
      let! more := next in
      if negb more then st_ret tt
      else
        expect;;;
        advance;;;
        let! d := the_decoder in
        if (d_t d =? TypeTiming) || (d_t d =? TypeRepeatTimes) then
          wrap (bs "decode failed") decodeField;;;
          timing_loop fuel'
        else step_back
  end.
Definition decodeTiming (fuel : nat) : DM unit :=
  on_decoder (set_d_section sectionTime 0);;; timing_loop fuel.

Fixpoint media_loop (fuel : nat) : DM unit :=
  match fuel with
  | O => st_panic OutOfFuel
  | S fuel' =>
      let! more := next in
      if negb more then st_ret tt
      else
        expect;;;
        let! d := the_decoder in
        if (d_t d =? TypeMediaDescription) && negb (d_sPos d =? 0)%nat then step_back
        else
          advance;;;
          wrap (bs "failed to decode field") decodeField;;;
          media_loop fuel'
  end.
Definition decodeMedia (fuel : nat) : DM unit :=
  on_decoder (fun d => set_d_m zeroMedia (set_d_section sectionMedia 0 d));;;
  media_loop fuel;;;
  let! d := the_decoder in
  on_message (fun m => set_m_Medias (m_Medias m ++ [d_m d]) m).

(** [n] is the number of lines. *)
Fixpoint session_loop (n fuel : nat) : DM unit :=
  match fuel with
  | O => st_panic OutOfFuel
  | S fuel' =>
      let! more := next in
      if negb more then st_ret tt
      else
        expect;;;
        advance;;;
        let! d := the_decoder in
        let oldPosition := d_sPos d in
        (if d_t d =? TypeTiming then
           step_back;;;
           wrap (bs "failed to decode timing") (decodeTiming (S n));;;
           on_decoder (set_d_section sectionSession oldPosition)
         else if d_t d =? TypeMediaDescription then
           step_back;;;
           wrap (bs "failed to decode media") (decodeMedia (S n));;;
           on_decoder (set_d_section sectionSession oldPosition)
         else wrap (bs "failed to decode field") decodeField);;;
        session_loop n fuel'
  end.
Definition sdp_decodeSession : DM unit :=
  on_decoder (set_d_section sectionSession 0);;;
  let! d := the_decoder in
  session_loop (length (d_s d)) (S (length (d_s d))).

(** [Decoder.Decode] *)
Definition Decoder_Decode : DM unit := sdp_decodeSession.
(** A new decoder on a new message. *)
Definition decode_message (s : Session) : SdpMessage * result sdp_error unit :=
  let '(x, r) := Decoder_Decode (NewDecoder s, zeroSdpMessage) in (x.2, r).
