(* ===== verification/IceChecklist.v ===== *)
(** Check lists: [src/ice/checklist.go], and the pair priority, the order and
    the pruning of [src/ice/icesession.go].

    Sorting and pruning are stated on any type with a priority and a key, since
    the session sorts pointers. *)
From stdpp Require Import base list gmap sets sorting strings.
From Stdlib Require Import ZArith Lia.
From S2P Require Import Prelude Wire GoFmt IceCandidate.
Open Scope Z_scope.

(** * Data *)

Inductive SessionRole := SessionRoleUnkown | SessionRoleControlling | SessionRoleControlled.
#[export] Instance SessionRole_eq_decision : EqDecision SessionRole.
Proof. solve_decision. Defined.
Definition SessionRole_String (r : SessionRole) : bytes :=
  match r with
  | SessionRoleUnkown => bs "unkown"
  | SessionRoleControlled => bs "controlled"
  | SessionRoleControlling => bs "controlling"
  end.

Inductive SessionCheckState :=
| checkStateFrozen | checkStateWaiting | checkStateInProgress | checkStateSucced
| checkStateFailed.
#[export] Instance SessionCheckState_eq_decision : EqDecision SessionCheckState.
Proof. solve_decision. Defined.
Definition SessionCheckState_String (s : SessionCheckState) : bytes :=
  match s with
  | checkStateFrozen => bs "frozen"
  | checkStateWaiting => bs "waiting"
  | checkStateInProgress => bs "inprogress"
  | checkStateSucced => bs "success"
  | checkStateFailed => bs "failed"
  end.
(** The constants are numbered by [iota]; the code compares them. *)
Definition state_rank (s : SessionCheckState) : nat :=
  match s with
  | checkStateFrozen => 0
  | checkStateWaiting => 1
  | checkStateInProgress => 2
  | checkStateSucced => 3
  | checkStateFailed => 4
  end.

(** Why a check failed. *)
Inductive check_error :=
| Canceled
| ErrTriedTooManyTimes
| UnknownErrorCode
| CredentialsFailed
| RemoteMismatch
| NoMappedAddress.

(** [sessionCheck]; the candidates are pointers. *)
Record check := mkCheck {
  localCandidate : nat;
  remoteCandidate : nat;
  key : bytes;
  priority : Z;
  state : SessionCheckState;
  nominated : bool;
  ck_err : option check_error
}.

(** * [calcPairPriority], in uint32 and uint64 arithmetic *)

Definition calcPairPriority (role : SessionRole) (l r : Candidate) : Z :=
  let '(o, a) :=
    match role with
    | SessionRoleControlling => (u32 (Priority l), u32 (Priority r))
    | _ => (u32 (Priority r), u32 (Priority l))
    end in
  let '(min, max) := if a <? o then (a, o) else (o, a) in
  let p := u64 (Z.shiftl min 32) in
  let max := u32 (Z.shiftl max 1) in
  let p := u64 (p + max) in
  if a <? o then u64 (p + 1) else p.

(** The formula of RFC 5245 section 5.7.2. *)
Definition pair_priority (g d : Z) : Z :=
  2 ^ 32 * Z.min g d + 2 * Z.max g d + (if d <? g then 1 else 0).

Lemma calcPairPriority_formula role l r :
  0 <= Priority l < 2 ^ 31 -> 0 <= Priority r < 2 ^ 31 ->
  calcPairPriority role l r
  = match role with
    | SessionRoleControlling => pair_priority (Priority l) (Priority r)
    | _ => pair_priority (Priority r) (Priority l)
    end.
Proof.
  intros Hl Hr.
  assert (forall g d, 0 <= g < 2 ^ 31 -> 0 <= d < 2 ^ 31 ->
    (let '(min, max) := if u32 d <? u32 g then (u32 d, u32 g) else (u32 g, u32 d) in
     let p := u64 (Z.shiftl min 32) in
     let max := u32 (Z.shiftl max 1) in
     let p := u64 (p + max) in
     if u32 d <? u32 g then u64 (p + 1) else p) = pair_priority g d) as H.
  { intros g d Hg Hd. rewrite !u32_id by lia. unfold pair_priority.
    destruct (Z.ltb_spec d g); cbn zeta; rewrite !Z.shiftl_mul_pow2 by lia;
      (rewrite (u32_id (_ * _)) by lia); (rewrite (u64_id (_ * 2 ^ 32)) by lia);
      rewrite ?u64_id; rewrite ?u64_id; lia. }
  unfold calcPairPriority. destruct role; cbn iota; by apply H.
Qed.

(** * [sort.Stable] with [sessionCheckList.Less]: descending priorities *)

Section Sorting.
Context {A : Type} (prio : A -> Z).

Fixpoint insert_desc (x : A) (l : list A) : list A :=
  match l with
  | [] => [x]
  | y :: l' => if prio x <? prio y then y :: insert_desc x l' else x :: y :: l'
  end.
Fixpoint sort_stable (l : list A) : list A :=
  match l with
  | [] => []
  | x :: l' => insert_desc x (sort_stable l')
  end.

Definition descending : list A -> Prop := StronglySorted (fun x y => prio y <= prio x).

Lemma insert_desc_perm x l : insert_desc x l ≡ₚ x :: l.
Proof.
  induction l as [|y l IH]; [done|]. cbn. destruct (prio x <? prio y); [|done].
  rewrite IH. apply Permutation_swap.
Qed.

Lemma sort_stable_perm l : sort_stable l ≡ₚ l.
Proof. induction l as [|x l IH]; [done|]. cbn. by rewrite insert_desc_perm, IH. Qed.

Lemma insert_desc_sorted x l : descending l -> descending (insert_desc x l).
Proof.
  induction l as [|y l IH]; intros Hs; [by repeat constructor|]. cbn.
  apply StronglySorted_inv in Hs as [Hs Hy].
  destruct (Z.ltb_spec (prio x) (prio y)).
  - constructor; [by apply IH|]. rewrite insert_desc_perm. constructor; [lia|done].
  - constructor; [by constructor|]. constructor; [lia|].
    eapply Forall_impl; [apply Hy|]. cbn. lia.
Qed.

Lemma sort_stable_sorted l : descending (sort_stable l).
Proof. induction l as [|x l IH]; [constructor|]. cbn. by apply insert_desc_sorted. Qed.

(** Stability: those of one priority keep their order. *)
Lemma insert_desc_filter p x l :
  descending l ->
  filter (fun y => prio y = p) (insert_desc x l)
  = filter (fun y => prio y = p) (x :: l).
Proof.
  induction l as [|y l IH]; intros Hs; [done|]. cbn [insert_desc].
  apply StronglySorted_inv in Hs as [Hs Hy].
  destruct (Z.ltb_spec (prio x) (prio y)); [|done].
  rewrite !(filter_cons _ y), IH, !(filter_cons _ x), !(filter_cons _ y) by done.
  by repeat case_decide; try lia.
Qed.

Lemma sort_stable_stable p l :
  filter (fun y => prio y = p) (sort_stable l) = filter (fun y => prio y = p) l.
Proof.
  induction l as [|x l IH]; [done|]. cbn [sort_stable].
  rewrite insert_desc_filter by apply sort_stable_sorted. rewrite !(filter_cons _ x), IH. done.
Qed.
End Sorting.

(** [sort.Sort] sorts too, but in an order of its own where priorities are
    equal. *)
Class SortSort := {
  sort_Sort {A} (prio : A -> Z) : list A -> list A;
  sort_Sort_perm {A} (prio : A -> Z) l : sort_Sort prio l ≡ₚ l;
  sort_Sort_sorted {A} (prio : A -> Z) l : descending prio (sort_Sort prio l)
}.
Definition stable_sort : SortSort :=
  {| sort_Sort := @sort_stable; sort_Sort_perm := @sort_stable_perm;
     sort_Sort_sorted := @sort_stable_sorted |}.

(** * [pruneCheckList] *)

Section Pruning.
Context {A : Type} (key_of : A -> bytes).

Fixpoint prune_from (m : gset bytes) (l : list A) : list A :=
  match l with
  | [] => []
  | x :: l' =>
      if bool_decide (key_of x ∈ m) then prune_from m l'
      else x :: prune_from ({[key_of x]} ∪ m) l'
  end.
Definition prune (l : list A) : list A := prune_from ∅ l.

Lemma prune_from_spec m l :
  NoDup (map key_of (prune_from m l)) /\ prune_from m l `sublist_of` l /\
  (forall x, x ∈ prune_from m l -> key_of x ∉ m) /\
  (forall l1 x l2, l = l1 ++ x :: l2 -> key_of x ∉ m ->
     exists y, y ∈ l1 ++ [x] /\ y ∈ prune_from m l /\ key_of y = key_of x).
Proof.
  revert m. induction l as [|x l IH]; intros m.
  { split; [constructor|]. split; [done|]. split; [intros x Hx; by apply not_elem_of_nil in Hx|].
    intros [|? ?] ? ?; done. }
  cbn [prune_from]. case_bool_decide as Hx.
  - destruct (IH m) as (H1 & H2 & H3 & H4). split; [done|]. split; [by constructor|]. split; [done|].
    intros [|z l1] y l2 [= -> ->] Hy; [done|].
    destruct (H4 l1 y l2 eq_refl Hy) as (w & Hw & Hin & Hk). exists w. split; [|done]. set_solver.
  - destruct (IH ({[key_of x]} ∪ m)) as (H1 & H2 & H3 & H4).
    split. { cbn. constructor; [|done]. intros (y & Hk & Hin)%list_elem_of_fmap.
      apply (H3 y Hin). rewrite <- Hk. set_solver. }
    split; [by constructor|].
    split. { intros y [->|Hin]%elem_of_cons; [done|]. intros Hm. apply (H3 y Hin). set_solver. }
    intros [|z l1] y l2 [= -> ->] Hy; [exists y; set_solver|].
    destruct (decide (key_of y = key_of z)) as [Hk|Hk].
    + exists z. split; [set_solver|]. split; [set_solver|done].
    + destruct (H4 l1 y l2 eq_refl) as (w & Hw & Hin & Hkw); [set_solver|].
      exists w. split; [set_solver|]. split; [set_solver|done].
Qed.
End Pruning.

(** [fmt.Sprintf("%d%s", Foundation, addr)] and [fmt.Sprintf("%s-%s", ...)] *)
Definition prune_key (l r : Candidate) : bytes := itoa (Foundation l) ++ addr r.
Definition pair_key (l r : Candidate) : bytes := addr l ++ bs "-" ++ addr r.
