(* ===== verification/IceGather.v ===== *)
(** Gathering of local candidates: [src/ice/gather.go], and the three transports
    it serves, [hostonlysock.go], [stunsock.go] and [turnsock.go].

    The interfaces of the machine, what a STUN client's [Do] leads to and the
    random port are arguments.  [sort.Sort] is the class [SortSort]. *)
From stdpp Require Import base list gmap sets strings.
From Stdlib Require Import ZArith Lia.
From S2P Require Import Prelude Wire GoFmt GoSlice StunTypes StunMessage StunBuild StunAttrs.
From S2P Require Import StunAddr StunIntegrity Turn NetAddr IceCandidate IceChecklist.
Open Scope Z_scope.

(** * Networks ([net.IPNet]) *)

Record IPNet := mkIPNet { net_IP : bytes; net_Mask : bytes }.

Definition CIDRMask (ones bits : nat) : bytes :=
  map (fun i => zb (if (8 * i + 8 <=? ones)%nat then 255
                    else if (ones <=? 8 * i)%nat then 0
                    else 256 - 2 ^ (8 - Z.of_nat (ones - 8 * i)))) (seq 0 (bits / 8)).

Definition and_bytes (a b : bytes) : bytes := zip_with (fun x y => zb (Z.land (bz x) (bz y))) a b.

(** [IP.Mask] *)
Definition IP_Mask (ip mask : bytes) : bytes :=
  let mask :=
    if (length mask =? 16)%nat && (length ip =? 4)%nat && bool_decide (take 12 mask = replicate 12 (zb 255))
    then drop 12 mask else mask in
  let ip :=
    if (length mask =? 4)%nat && (length ip =? 16)%nat && bool_decide (take 12 ip = v4_prefix)
    then drop 12 ip else ip in
  if negb (length ip =? length mask)%nat then [] else and_bytes ip mask.

(** [net.ParseCIDR]: the address and its network. *)
Definition ParseCIDR (s : bytes) : option (bytes * IPNet) :=
  match split (zb 47) s with
  | [addr; mask] =>
      let '(ip, iplen) :=
        match parseIPv4 addr with
        | Some q => (v4_prefix ++ q, 4%nat)
        | None => (default [] (parseIPv6 addr), 16%nat)
        end in
      match ip, dtoi mask with
      | _ :: _, Some (n, []) =>
          if (0 <=? n) && (n <=? 8 * Z.of_nat iplen) then
            let m := CIDRMask (Z.to_nat n) (8 * iplen) in Some (ip, mkIPNet (IP_Mask ip m) m)
          else None
      | _, _ => None
      end
  | _ => None
  end.

(** [IPNet.Contains], with [networkNumberAndMask]. *)
Definition networkNumberAndMask (n : IPNet) : option (bytes * bytes) :=
  let ip := match To4 (net_IP n) with [] => net_IP n | q => q end in
  if negb ((length ip =? 4)%nat || (length ip =? 16)%nat) then None
  else if (length (net_Mask n) =? 4)%nat then
    if (length ip =? 4)%nat then Some (ip, net_Mask n) else None
  else if (length (net_Mask n) =? 16)%nat then
    Some (ip, if (length ip =? 4)%nat then drop 12 (net_Mask n) else net_Mask n)
  else None.
Definition Contains (n : IPNet) (ip : bytes) : bool :=
  match networkNumberAndMask n with
  | None => (length ip =? 0)%nat
  | Some (nn, m) =>
      let ip := match To4 ip with [] => ip | q => q end in
      if negb (length ip =? length nn)%nat then false
      else bool_decide (and_bytes nn m = and_bytes ip m)
  end.

(** * Precedences *)

Definition precedence_table : list (string * Z) :=
  [("::1/128", 50); ("127.0.0.1/8", 45); ("::/0", 40); ("::ffff:0:0/96", 35); ("fe80::/10", 33);
   ("2002::/16", 30); ("2001::/32", 5); ("fc00::/7", 3); ("::/96", 1); ("fec0::/10", 1);
   ("3ffe::/16", 1)]%string.

(** [init]: a network that does not parse would be a panic. *)
Definition precedences : list (IPNet * Z) :=
  omap (fun p => (fun r => (r.2, p.2)) <$> ParseCIDR (bs p.1)) precedence_table.

(** [defaultGatherer.precedence] *)
Fixpoint precedence_in (l : list (IPNet * Z)) (ip : bytes) : Z :=
  match l with
  | [] => 0
  | p :: l' => if Contains p.1 ip then p.2 else precedence_in l' ip
  end.
Definition precedence (ip : bytes) : Z := precedence_in precedences ip.

(** * Addresses of the machine *)

Record Addr := mkAddr { a_IP : bytes; Zone : bytes; Precedence : Z }.

(** [Addr.String], [Addr.ZeroPortAddr] *)
Definition Addr_String (a : Addr) : bytes :=
  match Zone a with
  | [] => IP_String (a_IP a) ++ bs " [" ++ itoa (Precedence a) ++ bs "]"
  | _ => IP_String (a_IP a) ++ bs " (zone " ++ Zone a ++ bs ") [" ++ itoa (Precedence a) ++ bs "]"
  end.
Definition ZeroPortAddr (a : Addr) : bytes :=
  let host := IP_String (a_IP a) in
  let host := match Zone a with [] => host | z => host ++ bs "%" ++ z end in
  JoinHostPort host [].

(** [Addrs] as a [sort.Interface]. *)
Definition Addrs_Less (x y : Addr) : bool := Precedence y <? Precedence x.

(** [net.Interface]: [None] is an error of [Addrs]. *)
Record iface := mkIface { if_name : bytes; if_up : bool; if_addrs : option (list bytes) }.

Definition IsLoopback (ip : bytes) : bool :=
  match To4 ip with
  | b :: _ => bz b =? 127
  | [] => bool_decide (ip = replicate 15 Byte.x00 ++ [zb 1])
  end.
Definition IsLinkLocalUnicast (ip : bytes) : bool :=
  match To4 ip, ip with
  | b0 :: b1 :: _, _ => (bz b0 =? 169) && (bz b1 =? 254)
  | [], b0 :: b1 :: _ => (length ip =? 16)%nat && (bz b0 =? 0xfe) && (Z.land (bz b1) 0xc0 =? 0x80)
  | _, _ => false
  end.

(** The body of the loop over the addresses of an interface; [None] is an error
    of [ParseCIDR], and the addresses before it are returned. *)
Fixpoint gather_addrs (name : bytes) (l : list bytes) (addrs : list Addr) : list Addr * bool :=
  match l with
  | [] => (addrs, true)
  | a :: l' =>
      match ParseCIDR a with
      | None => (addrs, false)
      | Some (ip, _) =>
          if negb (length (To4 ip) =? 4)%nat then gather_addrs name l' addrs
          else if IsLoopback ip then gather_addrs name l' addrs
          else
            let addr := mkAddr ip (if IsLinkLocalUnicast ip then name else []) (precedence ip) in
            gather_addrs name l' (addrs ++ [addr])
      end
  end.
Fixpoint gather_ifaces (l : list iface) (addrs : list Addr) : list Addr * bool :=
  match l with
  | [] => (addrs, true)
  | i :: l' =>
      if negb (if_up i) then gather_ifaces l' addrs
      else
        match if_addrs i with
        | None => (addrs, false)
        | Some l2 =>
            match gather_addrs (if_name i) l2 addrs with
            | (addrs, false) => (addrs, false)
            | (addrs, true) => gather_ifaces l' addrs
            end
        end
  end.

Section Gather.
Context `{SortSort}.

(** [defaultGatherer.Gather]; the flag tells that there is no error. *)
Definition Gather (interfaces : option (list iface)) : list Addr * bool :=
  match interfaces with
  | None => ([], false)
  | Some l =>
      match gather_ifaces l [] with
      | (addrs, false) => (addrs, false)
      | (addrs, true) => (sort_Sort Precedence addrs, true)
      end
  end.

(** * Local candidates *)

Definition host_candidate_of (port : bytes) (a : Addr) : Candidate :=
  let address := IP_String (a_IP a) ++ bs ":" ++ port in
  set_Foundation (calcFoundation address)
    (set_addr address (set_baseAddr address (set_Type CandidateHost zeroCandidate))).

(** One turn of the loop of [getLocalCandidates]. *)
Definition add_local (primary : bytes) (candidates : list Candidate) (c : Candidate) : list Candidate :=
  if existsb (fun c2 => Candidate_Equal c2 c) candidates then candidates
  else if bool_decide (addr c = primary) then
    match candidates with
    | [] => [c]
    | t :: _ => <[(length candidates - 1)%nat := t]> (<[0%nat := c]> candidates)
    end
  else candidates ++ [c].

Inductive gather_error :=
| SplitError                      (** [net.SplitHostPort] *)
| InterfaceError                  (** [Gather] *)
| EventError                      (** the error of a transaction *)
| AttributeError (e : error)      (** a getter on the answer *)
| UnexpectedCode (code : Z)
| ErrorResponse
| NoRelayAddress
| BlockedForever.

Definition getLocalCandidates (interfaces : option (list iface)) (primaryAddress : bytes) :
    result gather_error (list Candidate) :=
  match SplitHostPort primaryAddress with
  | None => Err SplitError
  | Some (_, port) =>
      match Gather interfaces with
      | (_, false) => Err InterfaceError
      | (addrs, true) =>
          let candidates := foldl (add_local primaryAddress) [] (map (host_candidate_of port) addrs) in
          Ok (if (maxCandidates - 1 <? length candidates)%nat
              then take (maxCandidates - 1)%nat candidates else candidates)
      end
  end.
End Gather.

(** [addCandidates] *)
Definition addCandidates (candidates : list Candidate) (new : Candidate) : list Candidate :=
  if existsb (fun c => Candidate_Equal c new) candidates then candidates else candidates ++ [new].

(** * The transports *)

(** What becomes of a [Client.Do]: the event its callback gets, if it is called,
    and the error it returns. *)
Record do_outcome := mkDo { do_event : option (Message + error); do_error : bool }.

(** [HostOnlySock.GetCandidates]: [r] is the random port.  The test for an empty
    list of addresses compares a length with a negative number. *)
Record HostOnlySock := mkHostOnly { h_localCandidates : list bytes }.
Definition HostOnlySock_GetCandidates `{SortSort} (interfaces : option (list iface)) (r : Z) :
    ST HostOnlySock gather_error (list Candidate) :=
  match Gather interfaces with
  | (_, false) => st_err InterfaceError
  | ([], true) => st_panic IndexOutOfRange
  | (a :: _, true) =>
      let port := Z.rem r 50000 in
      let primaryAddress := IP_String (a_IP a) ++ bs ":" ++ itoa port in
      let! candidates := st_lift (getLocalCandidates interfaces primaryAddress) in
      st_modify (fun h => mkHostOnly (h_localCandidates h ++ map addr candidates));;;
      st_ret candidates
  end.

(** [stunSocket] *)
Record stunSocket := mkStunSocket {
  ss_ServerAddr : bytes;
  MappedAddr : UDPAddr;
  LocalAddr : bytes;
  ss_localAddrs : list bytes
}.
Definition newStunSocket (serverAddr localAddr : bytes) : stunSocket :=
  mkStunSocket serverAddr ([], 0) localAddr [].

Section Transports.
Context `{GoRuntime} `{SortSort}.
Variable supportsUnaligned : bool.
Abbreviation zero_address := (mkAddress (Buffer [] 0) 0).
Abbreviation XOR_GetFrom := (XORMappedAddress_GetFrom supportsUnaligned).

Definition udp_of (a : Address) : UDPAddr := (visible (IP a), Port a).

(** The callback of [mapAddress]: the mapped address, if it finds one. *)
Definition mapAddress_callback (ev : Message + error) : result gather_error (option UDPAddr) :=
  match ev with
  | inr _ => Ok None
  | inl res =>
      match XOR_GetFrom res zero_address with
      | (a, Ok _) => Ok (Some (udp_of a))
      | (_, Panic p) => Panic p
      | (_, Err _) =>
          match MappedAddress_GetFrom res zero_address with
          | (a, Ok _) => Ok (Some (udp_of a))
          | (_, Panic p) => Panic p
          | (_, Err _) => Ok None
          end
      end
  end.

(** [mapAddress]: the errors of the callback go to the variable that then takes
    what [Do] returns.  When the callback is not called the wait group is never
    done. *)
Definition mapAddress (o : do_outcome) : ST stunSocket gather_error unit :=
  match do_event o with
  | None => st_err BlockedForever
  | Some ev =>
      let! mapped := st_lift (mapAddress_callback ev) in
      (match mapped with
       | Some a => st_modify (fun s => mkStunSocket (ss_ServerAddr s) a (LocalAddr s) (ss_localAddrs s))
       | None => st_ret tt
       end);;;
      if do_error o then st_err EventError else st_ret tt
  end.

Definition reflexive_candidate (address base : bytes) : Candidate :=
  set_Foundation (calcFoundation base)
    (set_addr address (set_Type CandidateServerReflexive (set_baseAddr base zeroCandidate))).
Definition relay_candidate (address : bytes) : Candidate :=
  set_Foundation (calcFoundation address)
    (set_addr address (set_baseAddr address (set_Type CandidateRelay zeroCandidate))).

(** [stunSocket.GetCandidates] *)
Definition stunSocket_GetCandidates (interfaces : option (list iface)) (o : do_outcome) :
    ST stunSocket gather_error (list Candidate) :=
  mapAddress o;;;
  let! s := st_get in
  let c := reflexive_candidate (UDPAddr_String (MappedAddr s)) (LocalAddr s) in
  let! candidates := st_lift (getLocalCandidates interfaces (baseAddr c)) in
  st_modify (fun s => mkStunSocket (ss_ServerAddr s) (MappedAddr s) (LocalAddr s)
                        (ss_localAddrs s ++ map addr candidates));;;
  st_ret (if negb (bool_decide (addr c = baseAddr c)) then candidates ++ [c] else candidates).

(** [turnSock] *)
Record turnSock := mkTurnSock {
  t_s : stunSocket;
  t_user : bytes;
  t_password : bytes;
  t_nonce : bytes;
  t_realm : bytes;
  t_credentials : bytes;
  t_lifetime : Z;
  t_localAddrs : list bytes;
  t_mapAddress : bytes;
  t_relayAddress : bytes;
  t_serverAddr : bytes
}.
Definition newTurnSock (serverAddr localAddr user password : bytes) : turnSock :=
  mkTurnSock (newStunSocket serverAddr localAddr) user password [] [] [] 0 [] [] [] serverAddr.
Definition set_login nonce realm credentials t :=
  mkTurnSock (t_s t) (t_user t) (t_password t) nonce realm credentials (t_lifetime t)
    (t_localAddrs t) (t_mapAddress t) (t_relayAddress t) (t_serverAddr t).
Definition set_t_lifetime v t :=
  mkTurnSock (t_s t) (t_user t) (t_password t) (t_nonce t) (t_realm t) (t_credentials t) v
    (t_localAddrs t) (t_mapAddress t) (t_relayAddress t) (t_serverAddr t).
Definition set_addresses mapped relay t :=
  mkTurnSock (t_s t) (t_user t) (t_password t) (t_nonce t) (t_realm t) (t_credentials t)
    (t_lifetime t) (t_localAddrs t) mapped relay (t_serverAddr t).
Definition set_t_localAddrs v t :=
  mkTurnSock (t_s t) (t_user t) (t_password t) (t_nonce t) (t_realm t) (t_credentials t)
    (t_lifetime t) v (t_mapAddress t) (t_relayAddress t) (t_serverAddr t).
Abbreviation TK := (ST turnSock gather_error).

(** A getter of a STUN attribute; its error is that of the callback. *)
Definition getter {A} (r : A * result error unit) : TK A :=
  match r with
  | (a, Ok _) => st_ret a
  | (_, Err e) => st_err (AttributeError e)
  | (_, Panic p) => st_panic p
  end.

Definition must_build (setters : list (M unit)) : TK Message :=
  match MustBuild (fun _ => bs "MustBuild") setters with
  | Ok m => st_ret m
  | Err _ => st_panic (PanicCall (bs "MustBuild"))
  | Panic p => st_panic p
  end.

(** [t.s.Client.Do(...)]: what [Do] returns is dropped. *)
Definition with_event (o : do_outcome) (callback : Message -> TK unit) : TK unit :=
  match do_event o with
  | None => st_ret tt
  | Some (inr _) => st_err EventError
  | Some (inl res) => callback res
  end.

Definition first_callback (res : Message) : TK unit :=
  let! code := getter (ErrorCodeAttribute_GetFrom res (mkErrorCode 0 (fresh []))) in
  if negb (Code code =? CodeUnauthorised) then st_err (UnexpectedCode (Code code))
  else
    let! nonce := getter (Nonce_GetFrom res []) in
    let! realm := getter (Realm_GetFrom res []) in
    st_modify (fun t => set_login nonce realm (NewLongTermIntegrity (t_user t) realm (t_password t)) t).

Definition second_callback (res : Message) : TK unit :=
  if Class (MType res) =? ClassErrorResponse then st_err ErrorResponse
  else
    let! mapped := getter (XOR_GetFrom res zero_address) in
    let! relay := getter (RelayedAddress_GetFrom supportsUnaligned res zero_address) in
    let! t := st_get in
    let! life := getter (Lifetime_GetFrom res (t_lifetime t)) in
    st_modify (set_t_lifetime life);;;
    st_modify (set_addresses (udpAddrToAddr (udp_of mapped)) (udpAddrToAddr (udp_of relay))).

(** [allocateAddress]: [do1] and [do2] tell what becomes of the two requests,
    [rnd1] and [rnd2] are their transaction ids. *)
Definition allocateAddress (do1 do2 : Message -> do_outcome) (rnd1 rnd2 : bytes + error) : TK unit :=
  let! req := must_build [TransactionIDSetter_AddTo rnd1; MessageType_AddTo AllocateRequest;
                         RequestedTransportUDP] in
  with_event (do1 req) first_callback;;;
  let! t := st_get in
  let! req2 := must_build [TransactionIDSetter_AddTo rnd2; MessageType_AddTo AllocateRequest;
                          RequestedTransportUDP; Realm_AddTo (fresh (t_realm t));
                          Username_AddTo (fresh (t_user t)); Nonce_AddTo (fresh (t_nonce t));
                          MessageIntegrity_AddTo (t_credentials t)] in
  with_event (do2 req2) second_callback;;;
  let! t := st_get in
  if (length (t_mapAddress t) =? 0)%nat || (length (t_relayAddress t) =? 0)%nat
  then st_err NoRelayAddress else st_ret tt.

(** [turnSock.GetCandidates] *)
Definition turnSock_GetCandidates (interfaces : option (list iface))
    (do1 do2 : Message -> do_outcome) (rnd1 rnd2 : bytes + error) : TK (list Candidate) :=
  allocateAddress do1 do2 rnd1 rnd2;;;
  let! t := st_get in
  let c := reflexive_candidate (t_mapAddress t) (LocalAddr (t_s t)) in
  let c2 := relay_candidate (t_relayAddress t) in
  let! candidates := st_lift (getLocalCandidates interfaces (baseAddr c)) in
  st_modify (fun t => set_t_localAddrs (t_localAddrs t ++ map addr candidates) t);;;
  let candidates := if negb (bool_decide (baseAddr c = addr c)) then candidates ++ [c] else candidates in
  st_ret (if negb (bool_decide (addr c2 = baseAddr c)) then candidates ++ [c2] else candidates).
End Transports.
