(* ===== verification/IceSession.v ===== *)
(** The ICE session: [src/ice/icesession.go].

    Candidates, checks and channels live in heaps and are known by their index,
    as the code compares and shares pointers.  A handler is a function on the
    session; what it does to the outside (packets, goroutines it starts, the
    notification of the upper layer) is recorded in [events], newest first.
    [stop] is a send on a channel that cannot proceed: [WouldBlock] waits for the
    goroutine of the check, [BlockedForever] is a send on a nil channel.

    What a handler reads is not changed by others while it runs: the loop
    goroutine handles one message at a time.  The goroutine of a check is modelled
    step by step in the last section. *)
From stdpp Require Import base list gmap sets strings.
From Stdlib Require Import ZArith Lia.
From S2P Require Import Prelude Wire GoFmt GoSlice StunTypes StunMessage StunBuild StunAttrs.
From S2P Require Import StunAddr StunIntegrity StunText Turn NetAddr IceCandidate IceChecklist.
Open Scope Z_scope.

(** * Data *)

Inductive sessionCompleteResult :=
| sessionNotComplete | sessionCheckComplete | sessionCompleteSuccess
| sessionAllCompleteSuccess | sessionCompleteFailure.
#[export] Instance sessionCompleteResult_eq_decision : EqDecision sessionCompleteResult.
Proof. solve_decision. Defined.
Definition result_rank (r : sessionCompleteResult) : nat :=
  match r with
  | sessionNotComplete => 0
  | sessionCheckComplete => 1
  | sessionCompleteSuccess => 2
  | sessionAllCompleteSuccess => 3
  | sessionCompleteFailure => 4
  end.

(** [rxCheck] *)
Record rxCheck := mkRxCheck {
  componentID : Z;
  remoteAddress : bytes;
  localAddress : bytes;
  userCandidate : bool;
  rx_priority : Z;
  rx_role : SessionRole
}.

(** A [serverSocker]: the socket to the TURN server, one bound to an address, or
    the nil pointer of type [*turnServerSock]. *)
Inductive sock := TurnSock | StunSock (addr : bytes) | NilTurnSock.
#[export] Instance sock_eq_decision : EqDecision sock.
Proof. solve_decision. Defined.
Inductive serverSockMode := stageNegotiation | stunModeData | turnModeData.

Inductive complete_error := NoValidCheck | NoNominated | ControllingNoNominated.

Inductive event :=
| EvSpawn (c : nat) (ch : option nat) (nominate : bool) (** [go s.onecheck(...)] *)
| EvTimer                                             (** wait for a nomination *)
| EvSend (srv : sock) (from to : bytes) (raw : bytes) (** [sendStunMessageAsync] *)
| EvSendData (srv : sock) (data from to : bytes)
| EvRxData (data from : bytes)
| EvNotify (r : option complete_error)                (** [onIceComplete] *)
| EvChannelBind (addr : bytes)
| EvFinish (srv : sock) (mode : serverSockMode)
| EvClose (srv : sock)
| EvTryFail (c : nat).                                (** [tryFailChan] *)

Inductive chan_message := MsgCanceled | MsgRetry.
(** [make(chan error, 1)] *)
Record chan := mkChan { buf : option chan_message; is_closed : bool }.

Record session := mkSession {
  role : SessionRole;
  aggresive : bool;
  isNominating : bool;
  rxUserFrag : bytes;
  rxPassword : bytes;
  rxUserName : bytes;
  txUserName : bytes;
  txPassword : bytes;
  tieBreaker : Z;
  cands : list Candidate;
  localCandidates : list nat;
  remoteCandidates : list nat;
  allChecks : list check;
  checkList : list nat;
  validCheckList : list nat;
  chans : list chan;
  checkMap : gmap bytes nat;
  msg2Check : gmap bytes nat;
  earlyCheckList : list rxCheck;
  completeResult : sessionCompleteResult;
  validCheck : option nat;
  nominatedCheck : option nat;
  nominatedServerSock : option sock;
  serverSocks : gmap bytes sock;
  hasTurn : bool;
  hasStopped : bool;
  events : list event
}.

Definition set_role v s := mkSession v (aggresive s) (isNominating s) (rxUserFrag s)
  (rxPassword s) (rxUserName s) (txUserName s) (txPassword s) (tieBreaker s) (cands s)
  (localCandidates s) (remoteCandidates s) (allChecks s) (checkList s) (validCheckList s)
  (chans s) (checkMap s) (msg2Check s) (earlyCheckList s) (completeResult s) (validCheck s)
  (nominatedCheck s) (nominatedServerSock s) (serverSocks s) (hasTurn s) (hasStopped s)
  (events s).
Definition set_isNominating v s := mkSession (role s) (aggresive s) v (rxUserFrag s)
  (rxPassword s) (rxUserName s) (txUserName s) (txPassword s) (tieBreaker s) (cands s)
  (localCandidates s) (remoteCandidates s) (allChecks s) (checkList s) (validCheckList s)
  (chans s) (checkMap s) (msg2Check s) (earlyCheckList s) (completeResult s) (validCheck s)
  (nominatedCheck s) (nominatedServerSock s) (serverSocks s) (hasTurn s) (hasStopped s)
  (events s).
Definition set_rxUserName v s := mkSession (role s) (aggresive s) (isNominating s)
  (rxUserFrag s) (rxPassword s) v (txUserName s) (txPassword s) (tieBreaker s) (cands s)
  (localCandidates s) (remoteCandidates s) (allChecks s) (checkList s) (validCheckList s)
  (chans s) (checkMap s) (msg2Check s) (earlyCheckList s) (completeResult s) (validCheck s)
  (nominatedCheck s) (nominatedServerSock s) (serverSocks s) (hasTurn s) (hasStopped s)
  (events s).
Definition set_txUserName v s := mkSession (role s) (aggresive s) (isNominating s)
  (rxUserFrag s) (rxPassword s) (rxUserName s) v (txPassword s) (tieBreaker s) (cands s)
  (localCandidates s) (remoteCandidates s) (allChecks s) (checkList s) (validCheckList s)
  (chans s) (checkMap s) (msg2Check s) (earlyCheckList s) (completeResult s) (validCheck s)
  (nominatedCheck s) (nominatedServerSock s) (serverSocks s) (hasTurn s) (hasStopped s)
  (events s).
Definition set_txPassword v s := mkSession (role s) (aggresive s) (isNominating s)
  (rxUserFrag s) (rxPassword s) (rxUserName s) (txUserName s) v (tieBreaker s) (cands s)
  (localCandidates s) (remoteCandidates s) (allChecks s) (checkList s) (validCheckList s)
  (chans s) (checkMap s) (msg2Check s) (earlyCheckList s) (completeResult s) (validCheck s)
  (nominatedCheck s) (nominatedServerSock s) (serverSocks s) (hasTurn s) (hasStopped s)
  (events s).
Definition set_cands v s := mkSession (role s) (aggresive s) (isNominating s) (rxUserFrag s)
  (rxPassword s) (rxUserName s) (txUserName s) (txPassword s) (tieBreaker s) v
  (localCandidates s) (remoteCandidates s) (allChecks s) (checkList s) (validCheckList s)
  (chans s) (checkMap s) (msg2Check s) (earlyCheckList s) (completeResult s) (validCheck s)
  (nominatedCheck s) (nominatedServerSock s) (serverSocks s) (hasTurn s) (hasStopped s)
  (events s).
Definition set_localCandidates v s := mkSession (role s) (aggresive s) (isNominating s)
  (rxUserFrag s) (rxPassword s) (rxUserName s) (txUserName s) (txPassword s) (tieBreaker s)
  (cands s) v (remoteCandidates s) (allChecks s) (checkList s) (validCheckList s) (chans s)
  (checkMap s) (msg2Check s) (earlyCheckList s) (completeResult s) (validCheck s)
  (nominatedCheck s) (nominatedServerSock s) (serverSocks s) (hasTurn s) (hasStopped s)
  (events s).
Definition set_remoteCandidates v s := mkSession (role s) (aggresive s) (isNominating s)
  (rxUserFrag s) (rxPassword s) (rxUserName s) (txUserName s) (txPassword s) (tieBreaker s)
  (cands s) (localCandidates s) v (allChecks s) (checkList s) (validCheckList s) (chans s)
  (checkMap s) (msg2Check s) (earlyCheckList s) (completeResult s) (validCheck s)
  (nominatedCheck s) (nominatedServerSock s) (serverSocks s) (hasTurn s) (hasStopped s)
  (events s).
Definition set_allChecks v s := mkSession (role s) (aggresive s) (isNominating s)
  (rxUserFrag s) (rxPassword s) (rxUserName s) (txUserName s) (txPassword s) (tieBreaker s)
  (cands s) (localCandidates s) (remoteCandidates s) v (checkList s) (validCheckList s)
  (chans s) (checkMap s) (msg2Check s) (earlyCheckList s) (completeResult s) (validCheck s)
  (nominatedCheck s) (nominatedServerSock s) (serverSocks s) (hasTurn s) (hasStopped s)
  (events s).
Definition set_checkList v s := mkSession (role s) (aggresive s) (isNominating s)
  (rxUserFrag s) (rxPassword s) (rxUserName s) (txUserName s) (txPassword s) (tieBreaker s)
  (cands s) (localCandidates s) (remoteCandidates s) (allChecks s) v (validCheckList s)
  (chans s) (checkMap s) (msg2Check s) (earlyCheckList s) (completeResult s) (validCheck s)
  (nominatedCheck s) (nominatedServerSock s) (serverSocks s) (hasTurn s) (hasStopped s)
  (events s).
Definition set_validCheckList v s := mkSession (role s) (aggresive s) (isNominating s)
  (rxUserFrag s) (rxPassword s) (rxUserName s) (txUserName s) (txPassword s) (tieBreaker s)
  (cands s) (localCandidates s) (remoteCandidates s) (allChecks s) (checkList s) v (chans s)
  (checkMap s) (msg2Check s) (earlyCheckList s) (completeResult s) (validCheck s)
  (nominatedCheck s) (nominatedServerSock s) (serverSocks s) (hasTurn s) (hasStopped s)
  (events s).
Definition set_chans v s := mkSession (role s) (aggresive s) (isNominating s) (rxUserFrag s)
  (rxPassword s) (rxUserName s) (txUserName s) (txPassword s) (tieBreaker s) (cands s)
  (localCandidates s) (remoteCandidates s) (allChecks s) (checkList s) (validCheckList s) v
  (checkMap s) (msg2Check s) (earlyCheckList s) (completeResult s) (validCheck s)
  (nominatedCheck s) (nominatedServerSock s) (serverSocks s) (hasTurn s) (hasStopped s)
  (events s).
Definition set_checkMap v s := mkSession (role s) (aggresive s) (isNominating s) (rxUserFrag
  s) (rxPassword s) (rxUserName s) (txUserName s) (txPassword s) (tieBreaker s) (cands s)
  (localCandidates s) (remoteCandidates s) (allChecks s) (checkList s) (validCheckList s)
  (chans s) v (msg2Check s) (earlyCheckList s) (completeResult s) (validCheck s)
  (nominatedCheck s) (nominatedServerSock s) (serverSocks s) (hasTurn s) (hasStopped s)
  (events s).
Definition set_msg2Check v s := mkSession (role s) (aggresive s) (isNominating s)
  (rxUserFrag s) (rxPassword s) (rxUserName s) (txUserName s) (txPassword s) (tieBreaker s)
  (cands s) (localCandidates s) (remoteCandidates s) (allChecks s) (checkList s)
  (validCheckList s) (chans s) (checkMap s) v (earlyCheckList s) (completeResult s)
  (validCheck s) (nominatedCheck s) (nominatedServerSock s) (serverSocks s) (hasTurn s)
  (hasStopped s) (events s).
Definition set_earlyCheckList v s := mkSession (role s) (aggresive s) (isNominating s)
  (rxUserFrag s) (rxPassword s) (rxUserName s) (txUserName s) (txPassword s) (tieBreaker s)
  (cands s) (localCandidates s) (remoteCandidates s) (allChecks s) (checkList s)
  (validCheckList s) (chans s) (checkMap s) (msg2Check s) v (completeResult s) (validCheck
  s) (nominatedCheck s) (nominatedServerSock s) (serverSocks s) (hasTurn s) (hasStopped s)
  (events s).
Definition set_completeResult v s := mkSession (role s) (aggresive s) (isNominating s)
  (rxUserFrag s) (rxPassword s) (rxUserName s) (txUserName s) (txPassword s) (tieBreaker s)
  (cands s) (localCandidates s) (remoteCandidates s) (allChecks s) (checkList s)
  (validCheckList s) (chans s) (checkMap s) (msg2Check s) (earlyCheckList s) v (validCheck
  s) (nominatedCheck s) (nominatedServerSock s) (serverSocks s) (hasTurn s) (hasStopped s)
  (events s).
Definition set_validCheck v s := mkSession (role s) (aggresive s) (isNominating s)
  (rxUserFrag s) (rxPassword s) (rxUserName s) (txUserName s) (txPassword s) (tieBreaker s)
  (cands s) (localCandidates s) (remoteCandidates s) (allChecks s) (checkList s)
  (validCheckList s) (chans s) (checkMap s) (msg2Check s) (earlyCheckList s) (completeResult
  s) v (nominatedCheck s) (nominatedServerSock s) (serverSocks s) (hasTurn s) (hasStopped s)
  (events s).
Definition set_nominatedCheck v s := mkSession (role s) (aggresive s) (isNominating s)
  (rxUserFrag s) (rxPassword s) (rxUserName s) (txUserName s) (txPassword s) (tieBreaker s)
  (cands s) (localCandidates s) (remoteCandidates s) (allChecks s) (checkList s)
  (validCheckList s) (chans s) (checkMap s) (msg2Check s) (earlyCheckList s) (completeResult
  s) (validCheck s) v (nominatedServerSock s) (serverSocks s) (hasTurn s) (hasStopped s)
  (events s).
Definition set_nominatedServerSock v s := mkSession (role s) (aggresive s) (isNominating s)
  (rxUserFrag s) (rxPassword s) (rxUserName s) (txUserName s) (txPassword s) (tieBreaker s)
  (cands s) (localCandidates s) (remoteCandidates s) (allChecks s) (checkList s)
  (validCheckList s) (chans s) (checkMap s) (msg2Check s) (earlyCheckList s) (completeResult
  s) (validCheck s) (nominatedCheck s) v (serverSocks s) (hasTurn s) (hasStopped s) (events
  s).
Definition set_serverSocks v s := mkSession (role s) (aggresive s) (isNominating s)
  (rxUserFrag s) (rxPassword s) (rxUserName s) (txUserName s) (txPassword s) (tieBreaker s)
  (cands s) (localCandidates s) (remoteCandidates s) (allChecks s) (checkList s)
  (validCheckList s) (chans s) (checkMap s) (msg2Check s) (earlyCheckList s) (completeResult
  s) (validCheck s) (nominatedCheck s) (nominatedServerSock s) v (hasTurn s) (hasStopped s)
  (events s).
Definition set_hasTurn v s := mkSession (role s) (aggresive s) (isNominating s) (rxUserFrag
  s) (rxPassword s) (rxUserName s) (txUserName s) (txPassword s) (tieBreaker s) (cands s)
  (localCandidates s) (remoteCandidates s) (allChecks s) (checkList s) (validCheckList s)
  (chans s) (checkMap s) (msg2Check s) (earlyCheckList s) (completeResult s) (validCheck s)
  (nominatedCheck s) (nominatedServerSock s) (serverSocks s) v (hasStopped s) (events s).
Definition set_hasStopped v s := mkSession (role s) (aggresive s) (isNominating s)
  (rxUserFrag s) (rxPassword s) (rxUserName s) (txUserName s) (txPassword s) (tieBreaker s)
  (cands s) (localCandidates s) (remoteCandidates s) (allChecks s) (checkList s)
  (validCheckList s) (chans s) (checkMap s) (msg2Check s) (earlyCheckList s) (completeResult
  s) (validCheck s) (nominatedCheck s) (nominatedServerSock s) (serverSocks s) (hasTurn s) v
  (events s).
Definition set_events v s := mkSession (role s) (aggresive s) (isNominating s) (rxUserFrag
  s) (rxPassword s) (rxUserName s) (txUserName s) (txPassword s) (tieBreaker s) (cands s)
  (localCandidates s) (remoteCandidates s) (allChecks s) (checkList s) (validCheckList s)
  (chans s) (checkMap s) (msg2Check s) (earlyCheckList s) (completeResult s) (validCheck s)
  (nominatedCheck s) (nominatedServerSock s) (serverSocks s) (hasTurn s) (hasStopped s) v.

Inductive stop := WouldBlock | BlockedForever.
Abbreviation SM := (ST session stop).

(** * Pointers, channels, events *)

Definition nil_deref {A} : SM A := st_panic NilDereference.
Definition check_of (i : nat) : SM check := fun s =>
  match allChecks s !! i with Some c => (s, Ok c) | None => (s, Panic NilDereference) end.
Definition cand_of (i : nat) : SM Candidate := fun s =>
  match cands s !! i with Some c => (s, Ok c) | None => (s, Panic NilDereference) end.
Definition put_check (i : nat) (c : check) : SM unit :=
  st_modify (fun s => set_allChecks (<[i := c]> (allChecks s)) s).
Definition new_check (c : check) : SM nat := fun s =>
  (set_allChecks (allChecks s ++ [c]) s, Ok (length (allChecks s))).
Definition new_cand (c : Candidate) : SM nat := fun s =>
  (set_cands (cands s ++ [c]) s, Ok (length (cands s))).
Definition new_chan : SM nat := fun s =>
  (set_chans (chans s ++ [mkChan None false]) s, Ok (length (chans s))).
Definition emit (e : event) : SM unit := st_modify (fun s => set_events (e :: events s) s).

Definition with_state (st : SessionCheckState) (err : option check_error) (c : check) : check :=
  mkCheck (localCandidate c) (remoteCandidate c) (key c) (priority c) st (nominated c) err.
Definition with_nominated (n : bool) (c : check) : check :=
  mkCheck (localCandidate c) (remoteCandidate c) (key c) (priority c) (state c) n (ck_err c).

(** [check.nominated = f(check.nominated)] *)
Definition update_nominated (i : nat) (f : bool -> bool) : SM unit :=
  let! c := check_of i in put_check i (with_nominated (f (nominated c)) c).

(** [chr <- m]; [None] is the nil channel. *)
Definition send_chan (chr : option nat) (m : chan_message) : SM unit := fun s =>
  match chr with
  | None => (s, Err BlockedForever)
  | Some i =>
      match chans s !! i with
      | None => (s, Err BlockedForever)
      | Some c =>
          if is_closed c then (s, Panic (PanicCall (bs "send on closed channel")))
          else match buf c with
               | Some _ => (s, Err WouldBlock)
               | None => (set_chans (<[i := mkChan (Some m) false]> (chans s)) s, Ok tt)
               end
      end
  end.
(** [close(chr)] *)
Definition close_chan (chr : option nat) : SM unit := fun s =>
  match chr with
  | None => (s, Panic (PanicCall (bs "close of nil channel")))
  | Some i =>
      match chans s !! i with
      | None => (s, Panic (PanicCall (bs "close of nil channel")))
      | Some c =>
          if is_closed c then (s, Panic (PanicCall (bs "close of closed channel")))
          else (set_chans (<[i := mkChan (buf c) true]> (chans s)) s, Ok tt)
      end
  end.

(** [for _, i := range l { body(i) }] *)
Fixpoint for_each {A} (l : list A) (body : A -> SM unit) : SM unit :=
  match l with
  | [] => st_ret tt
  | i :: l' => body i;;; for_each l' body
  end.
(** A loop that looks for the first element with a property. *)
Fixpoint find_first {A} (p : A -> SM bool) (l : list A) : SM (option A) :=
  match l with
  | [] => st_ret None
  | x :: l' => let! b := p x in if b : bool then st_ret (Some x) else find_first p l'
  end.

(** * Check states *)

(** [finishOneCheck] *)
Definition finishOneCheck (i : nat) : SM unit :=
  let! c := check_of i in
  let! s := st_get in
  let chr := checkMap s !! key c in
  st_modify (fun s => set_checkMap (delete (key c) (checkMap s)) s);;;
  close_chan chr.

(** [changeCheckState] *)
Definition changeCheckState (i : nat) (newState : SessionCheckState) (err : option check_error) :
    SM unit :=
  let! c := check_of i in
  if (state_rank newState <=? state_rank (state c))%nat then st_ret tt
  else
    put_check i (with_state newState err c);;;
    if (state_rank checkStateSucced <=? state_rank newState)%nat then finishOneCheck i
    else st_ret tt.

(** [cancelOneCheck] *)
Definition cancelOneCheck (i : nat) : SM unit :=
  let! c := check_of i in
  let! s := st_get in
  send_chan (checkMap s !! key c) MsgCanceled;;;
  changeCheckState i checkStateFailed (Some Canceled).

(** [retryOneCheck] *)
Definition retryOneCheck (i : nat) : SM unit :=
  let! c := check_of i in
  if negb (bool_decide (state c = checkStateInProgress)) then st_ret tt
  else let! s := st_get in send_chan (checkMap s !! key c) MsgRetry.

(** [changeCompleteResult] *)
Definition changeCompleteResult (r : sessionCompleteResult) : SM unit :=
  let! s := st_get in
  if (result_rank r <=? result_rank (completeResult s))%nat
  then st_panic (PanicCall (bs "complete result must increase only"))
  else st_modify (set_completeResult r).

Definition changeRole (newrole : SessionRole) : SM unit := st_modify (set_role newrole).

(** [markValidAndNonimated] *)
Definition better (old : option nat) (i : nat) : SM (option nat) :=
  let! c := check_of i in
  match old with
  | None => st_ret (Some i)
  | Some o => let! oc := check_of o in
              st_ret (if priority oc <? priority c then Some i else old)
  end.
Definition markValidAndNonimated (i : nat) : SM unit :=
  let! s := st_get in
  let! v := better (validCheck s) i in
  st_modify (set_validCheck v);;;
  let! c := check_of i in
  if nominated c then
    let! s := st_get in
    let! n := better (nominatedCheck s) i in
    st_modify (set_nominatedCheck n)
  else st_ret tt.

(** * Message to check *)

Definition addMsgCheck (id : bytes) (i : nat) : SM unit :=
  st_modify (fun s => set_msg2Check (<[id := i]> (msg2Check s)) s).
Definition getMsgCheck (id : bytes) (s : session) : option nat := msg2Check s !! id.
Definition deleteMsgCheck (id : bytes) : SM unit :=
  st_modify (fun s => set_msg2Check (delete id (msg2Check s)) s).

(** * Sockets *)

(** The loop of [getSenderServerSock] over the local candidates. *)
Fixpoint sock_of_candidate (s : session) (l : list nat) (localAddr : bytes) : option (option sock) :=
  match l with
  | [] => None
  | i :: l' =>
      match cands s !! i with
      | None => None
      | Some c =>
          if negb (bool_decide (addr c = localAddr)) then sock_of_candidate s l' localAddr
          else
            match Type_ c with
            | CandidateRelay => Some (Some (if hasTurn s then TurnSock else NilTurnSock))
            | CandidateServerReflexive | CandidatePeerReflexive =>
                Some (serverSocks s !! baseAddr c)
            | _ => sock_of_candidate s l' localAddr
            end
      end
  end.
(** [getSenderServerSock]: [None] is an error, [Some None] the nil interface. *)
Definition getSenderServerSock (localAddr : bytes) (s : session) : option (option sock) :=
  match serverSocks s !! localAddr with
  | Some srv => Some (Some srv)
  | None => sock_of_candidate s (localCandidates s) localAddr
  end.

(** A call on an interface value. *)
Definition on_sock (srv : option sock) (f : sock -> SM unit) : SM unit :=
  match srv with
  | None | Some NilTurnSock => nil_deref
  | Some k => f k
  end.
Definition sendStunMessageAsync (srv : option sock) (from to raw : bytes) : SM unit :=
  on_sock srv (fun k => emit (EvSend k from to raw)).
Definition FinishNegotiation (mode : serverSockMode) (srv : option sock) : SM unit :=
  on_sock srv (fun k => emit (EvFinish k mode)).

(** [closeUselessServerSock] *)
Definition closeUselessServerSock : SM unit :=
  let! s := st_get in
  let useless := filter (fun kv => nominatedServerSock s <> Some kv.2)
                   (map_to_list (serverSocks s)) in
  for_each useless (fun kv =>
    st_modify (fun s => set_serverSocks (delete kv.1 (serverSocks s)) s);;;
    emit (EvClose kv.2));;;
  if bool_decide (nominatedServerSock s = Some (if hasTurn s then TurnSock else NilTurnSock))
  then st_ret tt else st_modify (set_hasTurn false).

(** * Completion *)

Section Session.
Context `{GoRuntime} `{SortSort}.
(** [runtime.GOARCH] of the XOR, and whether the TURN server grants a channel to
    an address. *)
Variable supportsUnaligned : bool.
Variable channelBind_ok : bytes -> bool.

Definition notify_once (old : sessionCompleteResult) (r : option complete_error) : SM unit :=
  if (result_rank old <? result_rank sessionCompleteSuccess)%nat then emit (EvNotify r)
  else st_ret tt.

(** The selected pair: its local candidate and remote address. *)
Definition nominated_pair : SM (Candidate * Candidate) :=
  let! s := st_get in
  match nominatedCheck s with
  | None => nil_deref
  | Some n =>
      let! c := check_of n in
      let! l := cand_of (localCandidate c) in
      let! r := cand_of (remoteCandidate c) in
      st_ret (l, r)
  end.

(** [iceComplete] *)
Definition iceComplete (result : option complete_error) (allcomplete : bool) : SM unit :=
  let! s0 := st_get in
  let old := completeResult s0 in
  match result with
  | Some e => changeCompleteResult sessionCompleteFailure;;; notify_once old (Some e)
  | None =>
      (if allcomplete then
         changeCompleteResult sessionAllCompleteSuccess;;;
         let! s := st_get in
         if bool_decide (checkMap s = ∅) then st_ret tt
         else st_panic (PanicCall (bs "all check should finished"))
       else
         if (result_rank old <? result_rank sessionCompleteSuccess)%nat
         then changeCompleteResult sessionCompleteSuccess
         else st_ret tt);;;
      let! lr := nominated_pair in
      let! s := st_get in
      match getSenderServerSock (addr lr.1) s with
      | None => st_panic (PanicCall (bs "cannot found nominatedcheck corresponding serversock"))
      | Some srv =>
          st_modify (set_nominatedServerSock srv);;;
          if allcomplete then
            closeUselessServerSock;;;
            if bool_decide (Type_ lr.1 = CandidateRelay) then
              let! s := st_get in
              if negb (hasTurn s) then nil_deref
              else
                emit (EvChannelBind (addr lr.2));;;
                if channelBind_ok (addr lr.2)
                then FinishNegotiation turnModeData srv;;; notify_once old None
                else FinishNegotiation turnModeData srv
            else FinishNegotiation stunModeData srv;;; notify_once old None
          else notify_once old None
      end
  end.

(** Is a check not finished yet? *)
Definition unfinished (i : nat) : SM bool :=
  let! c := check_of i in st_ret (state_rank (state c) <? state_rank checkStateSucced)%nat.

(** The loops of [tryCompleteCheck]: unfreeze the pairs of the same foundation;
    cancel what a nominated pair makes useless. *)
Definition unfreeze (f : Z) : SM unit :=
  let! s := st_get in
  for_each (checkList s) (fun j =>
    let! c := check_of j in
    let! l := cand_of (localCandidate c) in
    if (Foundation l =? f) && bool_decide (state c = checkStateFrozen)
    then changeCheckState j checkStateWaiting None else st_ret tt).
Definition cancel_useless (prio : Z) : SM unit :=
  let! s := st_get in
  for_each (checkList s) (fun j =>
    let! c := check_of j in
    if (state_rank (state c) <? state_rank checkStateInProgress)%nat then cancelOneCheck j
    else if bool_decide (state c = checkStateInProgress) && (priority c <=? prio)
    then cancelOneCheck j
    else st_ret tt).

(** [tryCompleteCheck] *)
Definition tryCompleteCheck (i : nat) : SM bool :=
  let! c := check_of i in
  (if bool_decide (ck_err c = None) then
     let! l := cand_of (localCandidate c) in unfreeze (Foundation l)
   else st_ret tt);;;
  let! c := check_of i in
  (if bool_decide (ck_err c = None) && nominated c then cancel_useless (priority c)
   else st_ret tt);;;
  let! s := st_get in
  let! u := find_first unfinished (checkList s) in
  let hasNotFinished := bool_decide (is_Some u) in
  let! s := st_get in
  if bool_decide (is_Some (nominatedCheck s)) then
    iceComplete None (negb hasNotFinished);;; st_ret true
  else if negb hasNotFinished then
    if bool_decide (role s = SessionRoleControlled) then
      if bool_decide (validCheck s = None)
      then iceComplete (Some NoValidCheck) true;;; st_ret true
      else changeCompleteResult sessionCheckComplete;;; emit EvTimer;;; st_ret false
    else if isNominating s then iceComplete (Some ControllingNoNominated) true;;; st_ret true
    else st_panic (PanicCall (bs "not implemented"))
  else st_ret false.

(** The goroutine that waits for a nomination, when its time is over. *)
Definition nomination_timeout : SM unit :=
  let! s := st_get in
  if bool_decide (nominatedCheck s = None) && negb (hasStopped s)
  then iceComplete (Some NoNominated) true else st_ret tt.

(** * Responses *)

Definition fail_check (i : nat) (e : check_error) : SM unit :=
  changeCheckState i checkStateFailed (Some e);;; let! _ := tryCompleteCheck i in st_ret tt.

(** The role that an error response asks for. *)
Definition role_after_conflict (res : Message) : SessionRole :=
  if is_ok (Get res AttrICEControlled) then SessionRoleControlling
  else if is_ok (Get res AttrICEControlling) then SessionRoleControlled
  else SessionRoleUnkown.

Definition handle_error_response (i : nat) (res : Message) : SM unit :=
  match ErrorCodeAttribute_GetFrom res (mkErrorCode 0 (fresh [])) with
  | (code, Ok _) =>
      if negb (Code code =? CodeRoleConflict) then fail_check i UnknownErrorCode
      else
        let! s := st_get in
        (if bool_decide (role_after_conflict res = role s) then st_ret tt
         else changeRole (role_after_conflict res));;;
        retryOneCheck i
  | (_, Err _) => fail_check i UnknownErrorCode
  | (_, Panic p) => st_panic p
  end.

(** The local candidate of a mapped address: a known one with the same base, or
    a new peer reflexive one. *)
Definition peer_reflexive (l : Candidate) (xaddr : bytes) : Candidate :=
  mkCandidate xaddr (baseAddr l) [] (transport l) [] (calcFoundation (baseAddr l)) (ComponentID l)
    (calcCandidatePriority CandidatePeerReflexive defaultPreference (ComponentID l))
    CandidatePeerReflexive 0 0 [].
Definition local_of_mapped (l : Candidate) (xaddr : bytes) : SM nat :=
  let! s := st_get in
  let! found := find_first (fun j =>
      let! c := cand_of j in
      st_ret (bool_decide (addr c = xaddr) && bool_decide (baseAddr c = baseAddr l)))
    (localCandidates s) in
  match found with
  | Some j => st_ret j
  | None =>
      let! j := new_cand (peer_reflexive l xaddr) in
      st_modify (fun s => set_localCandidates (localCandidates s ++ [j]) s);;;
      st_ret j
  end.

Definition priority_in (s : session) (i : nat) : Z :=
  match allChecks s !! i with Some c => priority c | None => 0 end.

(** The valid pair of a response: update it or add it. *)
Definition valid_pair (lcand rcand : nat) (nom : bool) : SM nat :=
  let! s := st_get in
  let! found := find_first (fun j =>
      let! v := check_of j in
      st_ret (bool_decide (localCandidate v = lcand) && bool_decide (remoteCandidate v = rcand)))
    (validCheckList s) in
  match found with
  | Some j => update_nominated j (fun _ => nom);;; st_ret j
  | None =>
      let! l := cand_of lcand in
      let! r := cand_of rcand in
      let! s := st_get in
      let! j := new_check (mkCheck lcand rcand (pair_key l r) (calcPairPriority (role s) l r)
                             checkStateSucced nom None) in
      st_modify (fun s => set_validCheckList
                   (sort_Sort (priority_in s) (validCheckList s ++ [j])) s);;;
      st_ret j
  end.

(** [handleCheckResponse] from the check of the credentials on; the code does
    not return when they are wrong. *)
Definition handle_success_response (i : nat) (from : bytes) (res : Message) : SM unit :=
  let! s := st_get in
  let '(res, cred) := MessageIntegrity_Check (NewShortTermIntegrity (rxPassword s)) res in
  match cred with
  | Panic p => st_panic p
  | _ =>
      (if is_ok cred then st_ret tt
       else if bool_decide (role s = SessionRoleControlling) then fail_check i CredentialsFailed
       else st_ret tt);;;
      let! c := check_of i in
      let! r := cand_of (remoteCandidate c) in
      if negb (bool_decide (addr r = from)) then fail_check i RemoteMismatch
      else
        match XORMappedAddress_GetFrom supportsUnaligned res (mkAddress (Buffer [] 0) 0) with
        | (_, Panic p) => st_panic p
        | (_, Err _) => fail_check i NoMappedAddress
        | (xaddr, Ok _) =>
            let! l := cand_of (localCandidate c) in
            let! lcand := local_of_mapped l (Address_String xaddr) in
            let! j := valid_pair lcand (remoteCandidate c) (nominated c) in
            markValidAndNonimated j;;;
            changeCheckState i checkStateSucced None;;;
            let! _ := tryCompleteCheck i in st_ret tt
        end
  end.

(** [handleCheckResponse]: the text of the message is made for the log before
    anything else, whether it is printed or not. *)
Definition all_complete (s : session) : bool :=
  (result_rank sessionAllCompleteSuccess <=? result_rank (completeResult s))%nat.
Definition handleCheckResponse (i : nat) (from : bytes) (res : Message) : SM unit :=
  match Message_String supportsUnaligned res with
  | Panic p => st_panic p
  | _ =>
      let! s := st_get in
      if all_complete s then st_ret tt
      else if bool_decide (getMsgCheck (TID res) s = None) then st_ret tt
      else if Class (MType res) =? ClassErrorResponse then handle_error_response i res
      else handle_success_response i from res
  end.

(** [processBindingResponse] *)
Definition processBindingResponse (localAddr remoteAddr : bytes) (msg : Message) : SM unit :=
  let! s := st_get in
  match getMsgCheck (TID msg) s with
  | None => st_ret tt
  | Some i =>
      let! c := check_of i in
      let! l := cand_of (localCandidate c) in
      if negb (bool_decide (addr l = localAddr)) then st_ret tt
      else if (state_rank checkStateSucced <=? state_rank (state c))%nat then st_ret tt
      else handleCheckResponse i remoteAddr msg
  end.

(** * Requests *)

Definition software : bytes := bs "nkbai@163.com/ice".

(** Building a message of this package: a failed build is a panic. *)
Definition build_or_panic (setters : list (M unit)) : SM bytes :=
  match Build_new setters with
  | (m, Ok _) => st_ret (visible (Raw m))
  | (_, Err _) => st_panic (PanicCall (bs "build res message error"))
  | (_, Panic p) => st_panic p
  end.

Definition mapped_address (fromUDPAddr : bytes * Z) : Address :=
  mkAddress (Buffer fromUDPAddr.1 (length fromUDPAddr.1)) fromUDPAddr.2.

(** [sendResponse]; code 0 is success.  The error of the build of a 401 is
    ignored and what is built so far is sent. *)
Definition sendResponse (localAddr fromAddr : bytes) (req : Message) (code : Z) : SM unit :=
  let! s := st_get in
  let address := mapped_address (addrToUDPAddr fromAddr) in
  let credentials := NewShortTermIntegrity (txPassword s) in
  match getSenderServerSock localAddr s with
  | None => st_ret tt
  | Some sc =>
      if code =? 0 then
        let! raw := build_or_panic
          [TransactionID_AddTo (TID req); MessageType_AddTo BindingSuccess;
           Software_AddTo (fresh software); XORMappedAddress_AddTo supportsUnaligned address;
           MessageIntegrity_AddTo credentials; Fingerprint_AddTo] in
        sendStunMessageAsync sc localAddr fromAddr raw
      else if code =? CodeRoleConflict then
        let! raw := build_or_panic
          [TransactionID_AddTo (TID req); MessageType_AddTo BindingError;
           Software_AddTo (fresh software); ErrorCode_AddTo CodeRoleConflict;
           XORMappedAddress_AddTo supportsUnaligned address;
           MessageIntegrity_AddTo credentials; Fingerprint_AddTo] in
        sendStunMessageAsync sc localAddr fromAddr raw
      else if code =? CodeUnauthorised then
        let '(m, r) := Build_new
          [TransactionID_AddTo (TID req); MessageType_AddTo BindingError;
           ErrorCode_AddTo CodeUnauthorised; Software_AddTo (fresh software);
           MessageIntegrity_AddTo credentials; Fingerprint_AddTo] in
        match r with
        | Panic p => st_panic p
        | _ => sendStunMessageAsync sc localAddr fromAddr (visible (Raw m))
        end
      else st_ret tt
  end.

(** [go s.onecheck(c, ch, nominate)] *)
Definition spawn (i : nat) (ch : option nat) (nominate : bool) : SM unit := emit (EvSpawn i ch nominate).

(** The remote candidate of a request: a known one, or a new peer reflexive one
    unless there are too many. *)
Definition remote_of_request (rc : rxCheck) : SM (option nat) :=
  let! s := st_get in
  let! found := find_first (fun j =>
      let! c := cand_of j in st_ret (bool_decide (addr c = remoteAddress rc)))
    (remoteCandidates s) in
  match found with
  | Some j => st_ret (Some j)
  | None =>
      if (maxCandidates <? length (remoteCandidates s))%nat then st_ret None
      else
        let! j := new_cand
          (mkCandidate (remoteAddress rc) [] [] TransportZero [] (calcFoundation (remoteAddress rc))
             1 (rx_priority rc) CandidatePeerReflexive 0 0 []) in
        st_modify (fun s => set_remoteCandidates (remoteCandidates s ++ [j]) s);;;
        st_ret (Some j)
  end.

(** The pair of a request that is on the check list already. *)
Definition triggered_known (rc : rxCheck) (i : nat) : SM unit :=
  update_nominated i (fun n => userCandidate rc || n);;;
  let! c := check_of i in
  let! s := st_get in
  if bool_decide (state c = checkStateFrozen) || bool_decide (state c = checkStateWaiting) then
    match checkMap s !! key c with
    | None => st_panic (PanicCall (bs "must ..."))
    | Some chResult =>
        changeCheckState i checkStateInProgress None;;;
        spawn i (Some chResult) (nominated c || isNominating s)
    end
  else if bool_decide (state c = checkStateInProgress) then retryOneCheck i
  else if bool_decide (state c = checkStateSucced) then
    (if userCandidate rc then
       for_each (validCheckList s) (fun j =>
         let! vc := check_of j in
         if bool_decide (remoteCandidate vc = remoteCandidate c)
         then update_nominated j (fun _ => true);;; markValidAndNonimated j
         else st_ret tt)
     else st_ret tt);;;
    let! _ := tryCompleteCheck i in st_ret tt
  else st_ret tt.

(** A pair that is new: it is appended, not inserted by priority. *)
Definition triggered_new (rc : rxCheck) (lcand : option nat) (rcand : nat) : SM unit :=
  match lcand with
  | None => nil_deref
  | Some lcand =>
      let! l := cand_of lcand in
      let! r := cand_of rcand in
      let! s := st_get in
      let! i := new_check (mkCheck lcand rcand (pair_key l r) (calcPairPriority (role s) l r)
                             checkStateInProgress (userCandidate rc) None) in
      st_modify (fun s => set_checkList (checkList s ++ [i]) s);;;
      let! ch := new_chan in
      st_modify (fun s => set_checkMap (<[pair_key l r := ch]> (checkMap s)) s);;;
      let! s := st_get in
      spawn i (Some ch) (userCandidate rc || isNominating s)
  end.

(** [handleIncomingCheck] *)
Definition handleIncomingCheck (rc : rxCheck) : SM unit :=
  let! rcand := remote_of_request rc in
  match rcand with
  | None => st_ret tt
  | Some rcand =>
      let! s := st_get in
      let! lcand := find_first (fun j =>
          let! c := cand_of j in st_ret (bool_decide (addr c = localAddress rc)))
        (localCandidates s) in
      let! found := find_first (fun j =>
          let! c := check_of j in
          st_ret (bool_decide (Some (localCandidate c) = lcand)
                  && bool_decide (remoteCandidate c = rcand)))
        (checkList s) in
      match found with
      | Some i => triggered_known rc i
      | None => triggered_new rc lcand rcand
      end
  end.

(** One of the two role tests of [processBindingRequest]: [true] goes on,
    [false] has answered with a role conflict. *)
Definition resolve_role (wanted : SessionRole) (peerTieBreaker : Z) (localAddr fromAddr : bytes)
    (req : Message) : SM bool :=
  let! s := st_get in
  if bool_decide (role s = wanted) then st_ret true
  else if tieBreaker s <? peerTieBreaker then changeRole wanted;;; st_ret true
  else sendResponse localAddr fromAddr req CodeRoleConflict;;; st_ret false.

(** [processBindingRequest] once the roles agree: answer, then keep the check for
    later or handle it. *)
Definition admit_request (localAddr fromAddr userName : bytes) (prio : Z) (rx_role : SessionRole)
    (req : Message) : SM unit :=
  sendResponse localAddr fromAddr req 0;;;
  let! s := st_get in
  if all_complete s then st_ret tt
  else
    let early := bool_decide (checkMap s = ∅)
                 && bool_decide (completeResult s = sessionNotComplete) in
    (if early : bool then st_modify (set_rxUserName userName) else st_ret tt);;;
    let rc := mkRxCheck 1 fromAddr localAddr (is_ok (Get req AttrUseCandidate)) prio rx_role in
    if early : bool
    then st_modify (fun s => set_earlyCheckList (earlyCheckList s ++ [rc]) s)
    else handleIncomingCheck rc.

(** [processBindingRequest] behind the checks of priority, user name and
    credentials. *)
Definition accept_request (localAddr fromAddr userName : bytes) (prio : Z) (req : Message) : SM unit :=
  let controlling := is_ok (Get req AttrICEControlling) in
  let controlled := is_ok (Get req AttrICEControlled) in
  let rx_role := if controlled then SessionRoleControlled
                 else if controlling then SessionRoleControlling else SessionRoleUnkown in
  let! go1 :=
    if controlling then
      resolve_role SessionRoleControlled (IceControlling_GetFrom req 0).1
        localAddr fromAddr req
    else st_ret true in
  if negb go1 then st_ret tt
  else
    let! go2 :=
      if controlled then
        resolve_role SessionRoleControlling (IceControlled_GetFrom req 0).1
          localAddr fromAddr req
      else st_ret true in
    if negb go2 then st_ret tt
    else if negb (controlling || controlled)
    then sendResponse localAddr fromAddr req CodeUnauthorised
    else admit_request localAddr fromAddr userName prio rx_role req.

(** [processBindingRequest] *)
Definition processBindingRequest (localAddr fromAddr : bytes) (req : Message) : SM unit :=
  match Priority_GetFrom req 0 with
  | (_, Err _) => st_ret tt
  | (_, Panic p) => st_panic p
  | (prio, Ok _) =>
      match Username_GetFrom req [] with
      | (_, Err _) => sendResponse localAddr fromAddr req CodeUnauthorised
      | (_, Panic p) => st_panic p
      | (userName, Ok _) =>
          let! s := st_get in
          if (0 <? length (rxUserName s))%nat && negb (bool_decide (userName = rxUserName s))
          then sendResponse localAddr fromAddr req CodeUnauthorised
          else
            match MessageIntegrity_Check (NewShortTermIntegrity (rxPassword s)) req with
            | (req, Err _) => sendResponse localAddr fromAddr req CodeUnauthorised
            | (_, Panic p) => st_panic p
            | (req, Ok _) => accept_request localAddr fromAddr userName prio req
            end
      end
  end.

(** [processStunMessage] *)
Definition processStunMessage (localAddr remoteAddr : bytes) (msg : Message) : SM unit :=
  if bool_decide (MType msg = BindingRequest) then processBindingRequest localAddr remoteAddr msg
  else if bool_decide (MType msg = BindingError) || bool_decide (MType msg = BindingSuccess)
  then processBindingResponse localAddr remoteAddr msg
  else st_ret tt.

(** * Setting up *)

(** [newIceSession]: the fragments, the password and the tie breaker are random. *)
Definition newIceSession (r : SessionRole) (localCands : list Candidate)
    (frag password : bytes) (tie : Z) : session :=
  mkSession r true false frag password [] [] [] tie localCands (seq 0 (length localCands)) []
    [] [] [] [] ∅ ∅ [] sessionNotComplete None None None ∅ false false [].

(** [StartServer]: [listen] tells which addresses can be bound; the first
    address belongs to the TURN server when the transport is a [turnSock].  On a
    failure the sockets opened so far are closed, and stay in the map. *)
Definition add_sock (listen : bytes -> bool) (k : bytes * sock) : SM bool :=
  if listen k.1 then
    st_modify (fun s => set_serverSocks (<[k.1 := k.2]> (serverSocks s)) s);;; st_ret true
  else st_ret false.
Fixpoint add_socks (listen : bytes -> bool) (l : list (bytes * sock)) : SM bool :=
  match l with
  | [] => st_ret true
  | k :: l' => let! ok := add_sock listen k in if ok : bool then add_socks listen l' else st_ret false
  end.
Definition close_all : SM unit :=
  let! s := st_get in for_each (map_to_list (serverSocks s)) (fun kv => emit (EvClose kv.2)).
Definition StartServer (listen : bytes -> bool) (hasRelay : bool) (candidates : list bytes) : SM bool :=
  let! ok :=
    match hasRelay, candidates with
    | true, [] => st_panic IndexOutOfRange
    | true, a :: rest =>
        let! ok := add_sock listen (a, TurnSock) in
        if ok : bool then st_modify (set_hasTurn true);;; add_socks listen (map (fun a => (a, StunSock a)) rest)
        else st_ret false
    | false, l => add_socks listen (map (fun a => (a, StunSock a)) l)
    end in
  (if ok : bool then st_ret tt else close_all);;; st_ret ok.

(** [Stop]; [quitChan] is closed when an earlier [Stop] came to its end. *)
Definition Stop : SM unit :=
  let! s := st_get in
  let quitClosed := hasStopped s in
  st_modify (set_hasStopped true);;;
  close_all;;;
  for_each (map_to_list (checkMap s)) (fun kv => close_chan (Some kv.2));;;
  if quitClosed : bool then st_panic (PanicCall (bs "close of closed channel")) else st_ret tt.

(** The session description of the other side; [sd_defaut] is the index of
    [defautCandidate] in the list. *)
Record sessionDescription := mkDescription {
  sd_user : bytes;
  sd_password : bytes;
  sd_defaultPort : Z;
  sd_defaultIP : bytes;
  sd_defaut : option nat;
  sd_candidates : list Candidate
}.

Inductive create_error := ErrTooManyCandidates | NoMatchedCandidate.

Definition pair_check (s : session) (lr : nat * nat) : check :=
  let l := default zeroCandidate (cands s !! lr.1) in
  let r := default zeroCandidate (cands s !! lr.2) in
  mkCheck lr.1 lr.2 (pair_key l r) (calcPairPriority (role s) l r) checkStateFrozen false None.
Definition prune_key_of (s : session) (i : nat) : bytes :=
  match allChecks s !! i with
  | Some c => prune_key (default zeroCandidate (cands s !! localCandidate c))
                (default zeroCandidate (cands s !! remoteCandidate c))
  | None => []
  end.

(** [createCheckList] with the bodies of its loops. *)
Definition add_remote (c : Candidate) : SM unit :=
  let! j := new_cand c in
  st_modify (fun s => set_remoteCandidates (remoteCandidates s ++ [j]) s).
Definition add_pair (lr : nat * nat) : SM unit :=
  let! s := st_get in
  let! i := new_check (pair_check s lr) in
  st_modify (fun s => set_checkList (checkList s ++ [i]) s).

Definition createCheckList (sd : sessionDescription) : SM (option create_error) :=
  if (maxCandidates <? length (sd_candidates sd))%nat then st_ret (Some ErrTooManyCandidates)
  else
    st_modify (fun s => set_txUserName (sd_user sd ++ bs ":" ++ rxUserFrag s) s);;;
    st_modify (fun s => set_rxUserName (rxUserFrag s ++ bs ":" ++ sd_user sd) s);;;
    st_modify (set_txPassword (sd_password sd));;;
    for_each (filter (fun c => ComponentID c = 1) (sd_candidates sd)) add_remote;;;
    let! s := st_get in
    let pairs := list_prod (localCandidates s) (remoteCandidates s) in
    for_each pairs add_pair;;;
    let! s := st_get in
    if bool_decide (checkList s = []) then st_ret (Some NoMatchedCandidate)
    else
      st_modify (fun s => set_checkList (sort_stable (priority_in s) (checkList s)) s);;;
      st_modify (fun s => set_checkList (prune (prune_key_of s) (checkList s)) s);;;
      st_ret None.

(** * Starting the checks

    [allcheck] runs in the goroutine of the caller and sleeps between the
    checks; [start_one] is what it does between two sleeps. *)

(** The channels and the first pair of every foundation. *)
Definition make_channels (l : list nat) : SM unit :=
  for_each l (fun i =>
    let! c := check_of i in
    let! lc := cand_of (localCandidate c) in
    let! rc := cand_of (remoteCandidate c) in
    let! ch := new_chan in
    st_modify (fun s => set_checkMap (<[pair_key lc rc := ch]> (checkMap s)) s)).
Fixpoint wait_foundations (seen : list Z) (l : list nat) : SM unit :=
  match l with
  | [] => st_ret tt
  | i :: l' =>
      let! c := check_of i in
      let! lc := cand_of (localCandidate c) in
      if bool_decide (Foundation lc ∈ seen) then wait_foundations seen l'
      else changeCheckState i checkStateWaiting None;;; wait_foundations (Foundation lc :: seen) l'
  end.

Definition start_one (st : SessionCheckState) (i : nat) : SM unit :=
  let! c := check_of i in
  if bool_decide (state c = st) then
    let! s := st_get in
    changeCheckState i checkStateInProgress None;;;
    spawn i (checkMap s !! key c) (isNominating s)
  else st_ret tt.

Definition allcheck (checks : list nat) : SM unit :=
  make_channels checks;;;
  wait_foundations [] checks;;;
  let! s := st_get in
  for_each (earlyCheckList s) handleIncomingCheck;;;
  for_each checks (start_one checkStateWaiting);;;
  for_each checks (start_one checkStateFrozen).

(** [startCheck]: [false] is its error. *)
Definition startCheck : SM bool :=
  let! s := st_get in
  (if aggresive s && bool_decide (role s = SessionRoleControlling)
   then st_modify (set_isNominating true) else st_ret tt);;;
  match checkList s with
  | [] => st_panic IndexOutOfRange
  | i :: _ =>
      let! c := check_of i in
      if negb (bool_decide (state c = checkStateFrozen)) then st_ret false
      else allcheck (checkList s);;; st_ret true
  end.
(** * The goroutine of a check ([onecheck]) *)

Definition Millisecond : Z := 1000000.
Definition maxRetryBindingRequest : nat := 7.
Definition defaultRTOValue : Z := 100 * Millisecond.
Definition stunTimeoutValue : Z := 1600 * Millisecond.

(** [calcRetransmitTimeout] *)
Definition calcRetransmitTimeout (count : nat) (lastsleep : Z) : Z :=
  if (count =? 0)%nat then defaultRTOValue
  else if (count <? maxRetryBindingRequest - 1)%nat then lastsleep * 2
  else stunTimeoutValue.

(** [buildBindingRequest]: [rnd] is the transaction id or the error of the
    random source. *)
Definition request_setters (c : check) (rnd : bytes + error) (s : session) : list (M unit) :=
  let prio := calcCandidatePriority CandidatePeerReflexive defaultPreference 1 in
  let control :=
    if bool_decide (role s = SessionRoleControlling) then IceControlling_AddTo (tieBreaker s)
    else IceControlled_AddTo (tieBreaker s) in
  (if nominated c && bool_decide (role s = SessionRoleControlling) then [UseCandidate_AddTo] else [])
  ++ [MessageType_AddTo BindingRequest; TransactionIDSetter_AddTo rnd; Priority_AddTo (u32 prio);
      control; Software_AddTo (fresh software); Username_AddTo (fresh (txUserName s));
      MessageIntegrity_AddTo (NewShortTermIntegrity (txPassword s)); Fingerprint_AddTo].
Definition buildBindingRequest (i : nat) (rnd : bytes + error) : SM (bytes * bytes) :=
  let! c := check_of i in
  let! s := st_get in
  match Build_new (request_setters c rnd s) with
  | (m, Ok _) => st_ret (TID m, visible (Raw m))
  | (_, Err _) => st_panic (PanicCall (bs "build error..."))
  | (_, Panic p) => st_panic p
  end.

(** Where the goroutine is: in the [select] of a round, or over. *)
Inductive goroutine :=
| Sleeping (srv : option sock) (round : nat) (sleep : Z) (tid raw : bytes)
| Finished.

(** One turn of the loop, up to the [select]. *)
Definition onecheck_round (i : nat) (srv : option sock) (round : nat) (sleep : Z) (tid raw : bytes) :
    SM goroutine :=
  if (round <? maxRetryBindingRequest)%nat then
    addMsgCheck tid i;;;
    let! c := check_of i in
    let! l := cand_of (localCandidate c) in
    let! r := cand_of (remoteCandidate c) in
    sendStunMessageAsync srv (addr l) (addr r) raw;;;
    st_ret (Sleeping srv round (calcRetransmitTimeout round sleep) tid raw)
  else emit (EvTryFail i);;; deleteMsgCheck tid;;; st_ret Finished.

(** From [lblRestart]: a new request, the first round. *)
Definition onecheck_restart (i : nat) (srv : option sock) (sleep : Z) (rnd : bytes + error) :
    SM goroutine :=
  let! req := buildBindingRequest i rnd in onecheck_round i srv 0 sleep req.1 req.2.

Definition onecheck (i : nat) (nominate : bool) (rnd : bytes + error) : SM goroutine :=
  let! c := check_of i in
  let! l := cand_of (localCandidate c) in
  let! s := st_get in
  let srv := getSenderServerSock (addr l) s in
  if bool_decide (srv = None) && negb (all_complete s) then st_ret Finished
  else
    (if nominate && bool_decide (role s = SessionRoleControlling)
     then update_nominated i (fun _ => true) else st_ret tt);;;
    onecheck_restart i (default None srv) defaultRTOValue rnd.

(** The two cases of the [select]: the time is over, or the channel delivers,
    a retry, a cancellation, or that it is closed. *)
Definition onecheck_timeout (i : nat) (g : goroutine) : SM goroutine :=
  match g with
  | Sleeping srv round sleep tid raw => onecheck_round i srv (S round) sleep tid raw
  | Finished => st_ret Finished
  end.
Definition onecheck_receive (i ch : nat) (rnd : bytes + error) (g : goroutine) : SM goroutine :=
  match g with
  | Finished => st_ret Finished
  | Sleeping srv round sleep tid raw =>
      let! s := st_get in
      match chans s !! ch with
      | None => st_err BlockedForever
      | Some (mkChan (Some m) closed) =>
          st_modify (fun s => set_chans (<[ch := mkChan None closed]> (chans s)) s);;;
          match m with
          | MsgRetry => onecheck_restart i srv sleep rnd
          | MsgCanceled => deleteMsgCheck tid;;; st_ret Finished
          end
      | Some (mkChan None true) => deleteMsgCheck tid;;; st_ret Finished
      | Some (mkChan None false) => st_err WouldBlock
      end
  end.

(** * The loop *)

(** [SendData]; [false] is its error. *)
Definition SendData (data : bytes) : SM bool :=
  let! s := st_get in
  match nominatedCheck s with
  | None => nil_deref
  | Some n =>
      let! c := check_of n in
      let! l := cand_of (localCandidate c) in
      let! r := cand_of (remoteCandidate c) in
      match nominatedServerSock s with
      | None => st_ret false
      | Some srv =>
          let fromaddr :=
            match Type_ l with
            | CandidateServerReflexive | CandidatePeerReflexive => baseAddr l
            | _ => addr l
            end in
          on_sock (Some srv) (fun k => emit (EvSendData k data fromaddr (addr r)));;; st_ret true
      end
  end.

(** What wakes a goroutine of the session up. *)
Inductive input :=
| InMessage (localAddr remoteAddr : bytes) (msg : Message)   (** [msgChan] *)
| InData (data remoteAddr : bytes)                           (** [dataChan] *)
| InTryFail (c : nat)                                        (** [tryFailChan] *)
| InTimer                                                    (** the wait for a nomination *)
| InDescription (sd : sessionDescription)                    (** [createCheckList] *)
| InStart                                                    (** [startCheck] *)
| InSendData (data : bytes)
| InCheck (i : nat) (nominate : bool) (rnd : bytes + error)  (** [onecheck] begins *)
| InTimeout (i : nat) (g : goroutine)
| InReceive (i ch : nat) (rnd : bytes + error) (g : goroutine).

(** [loop], the case of [tryFailChan] *)
Definition handle_try_fail (i : nat) : SM unit :=
  let! c := check_of i in
  if (state_rank (state c) <? state_rank checkStateSucced)%nat
  then fail_check i ErrTriedTooManyTimes else st_ret tt.

Definition handle (x : input) : SM unit :=
  match x with
  | InMessage localAddr remoteAddr msg => processStunMessage localAddr remoteAddr msg
  | InData data remoteAddr => emit (EvRxData data remoteAddr)
  | InTryFail i => handle_try_fail i
  | InTimer => nomination_timeout
  | InDescription sd => let! _ := createCheckList sd in st_ret tt
  | InStart => let! _ := startCheck in st_ret tt
  | InSendData data => let! _ := SendData data in st_ret tt
  | InCheck i nominate rnd => let! _ := onecheck i nominate rnd in st_ret tt
  | InTimeout i g => let! _ := onecheck_timeout i g in st_ret tt
  | InReceive i ch rnd g => let! _ := onecheck_receive i ch rnd g in st_ret tt
  end.

(** What the sockets call from their goroutines: the message or the data goes to
    the channel of the loop, unless the session is over. *)
Definition RecieveStunMessage (localAddr remoteAddr : bytes) (msg : Message) (s : session) : list input :=
  if hasStopped s then [] else [InMessage localAddr remoteAddr msg].
Definition ReceiveData (localAddr peerAddr data : bytes) (s : session) : list input :=
  if hasStopped s then [] else [InData data peerAddr].

(** [createTurnPermissionIfNeeded]: [res] is what [createPermission] of the TURN
    socket returned ([None] is its error); [false] is an error. *)
Definition createTurnPermissionIfNeeded (res : option Message) : SM bool :=
  let! s := st_get in
  st_ret (if hasTurn s then
            match res with
            | None => false
            | Some res => bool_decide (MType res = CreatePermissionResponse)
            end
          else true).

(** A run of the session; it stops at a panic and goes on after a send that
    could not proceed was abandoned. *)
Fixpoint run_session (xs : list input) : session -> session := fun s =>
  match xs with
  | [] => s
  | x :: xs' =>
      match handle x s with
      | (s', Panic _) => s'
      | (s', _) => run_session xs' s'
      end
  end.

End Session.
