(* ===== verification/IceGatherProps.v ===== *)
(** Properties of the gathering of local candidates. *)
From stdpp Require Import base list gmap sets strings.
From Stdlib Require Import ZArith Lia.
From S2P Require Import Prelude Wire GoFmt GoSlice StunTypes StunMessage StunBuild StunAttrs.
From S2P Require Import StunAddr Turn NetAddr IceCandidate IceChecklist IceGather.
Open Scope Z_scope.

(** * Addresses *)

Lemma and_zero b : zb (Z.land (bz b) (bz Byte.x00)) = Byte.x00.
Proof. change (bz Byte.x00) with 0. by rewrite Z.land_0_r. Qed.

Lemma precedence_ipv4 ip : length (To4 ip) = 4%nat -> precedence ip = if IsLoopback ip then 45 else 35.
Proof.
  intros Hip. unfold precedence, IsLoopback.
  assert (precedences = [(mkIPNet (replicate 15 Byte.x00 ++ [Byte.x01]) (replicate 16 (zb 255)), 50);
     (mkIPNet [zb 127; Byte.x00; Byte.x00; Byte.x00] [zb 255; Byte.x00; Byte.x00; Byte.x00], 45);
     (mkIPNet (replicate 16 Byte.x00) (replicate 16 Byte.x00), 40);
     (mkIPNet (v4_prefix ++ replicate 4 Byte.x00) (replicate 12 (zb 255) ++ replicate 4 Byte.x00), 35)]
     ++ drop 4 precedences) as -> by (vm_compute; reflexivity).
  cbn [app precedence_in fst snd].
  assert (forall nn m, length nn = 16%nat -> networkNumberAndMask (mkIPNet nn m) = Some (nn, m) ->
            Contains (mkIPNet nn m) ip = false) as H6.
  { intros nn m Hl Hn. unfold Contains. rewrite Hn. destruct (To4 ip) as [|b q]; [done|].
    by rewrite Hip, Hl. }
  rewrite H6 by (vm_compute; reflexivity).
  unfold Contains at 1.
  change (networkNumberAndMask (mkIPNet [zb 127; Byte.x00; Byte.x00; Byte.x00] [zb 255; Byte.x00; Byte.x00; Byte.x00]))
    with (Some ([zb 127; Byte.x00; Byte.x00; Byte.x00], [zb 255; Byte.x00; Byte.x00; Byte.x00])).
  cbn iota. destruct (To4 ip) as [|a [|b [|c [|d [|? ?]]]]] eqn:E4; try done.
  cbn [length negb Nat.eqb]. unfold and_bytes. cbn [zip_with]. rewrite !and_zero.
  change (zb (Z.land (bz (zb 127)) (bz (zb 255)))) with (zb 127).
  change (bz (zb 255)) with (Z.ones 8). rewrite Z.land_ones by lia. rewrite zb_mod.
  destruct (bz a =? 127) eqn:Ea; bool_hyps.
  - assert (a = zb 127) as -> by (apply bz_inj; rewrite bz_zb_small; lia). by rewrite bool_decide_eq_true_2.
  - rewrite bool_decide_eq_false_2.
    2: { intros [= Ha]. rewrite zb_bz in Ha. subst a. by apply Ea. }
    rewrite H6 by (vm_compute; reflexivity). unfold Contains at 1.
    change (networkNumberAndMask (mkIPNet (v4_prefix ++ replicate 4 Byte.x00)
              (replicate 12 (zb 255) ++ replicate 4 Byte.x00)))
      with (Some (replicate 4 Byte.x00, replicate 4 Byte.x00)).
    cbn iota. rewrite E4. cbn [length negb Nat.eqb replicate]. unfold and_bytes. cbn [zip_with].
    rewrite !and_zero. by rewrite bool_decide_eq_true_2.
Qed.

Definition usable (a : Addr) : Prop :=
  length (To4 (a_IP a)) = 4%nat /\ IsLoopback (a_IP a) = false /\ Precedence a = 35.

Lemma gather_addrs_usable name l addrs :
  Forall usable addrs -> Forall usable (gather_addrs name l addrs).1.
Proof.
  revert addrs. induction l as [|x l IH]; intros addrs Ha; [done|]. cbn [gather_addrs].
  destruct (ParseCIDR x) as [[ip n]|]; [|done].
  destruct (length (To4 ip) =? 4)%nat eqn:E4; [|by apply IH]. cbn [negb].
  destruct (IsLoopback ip) eqn:El; [by apply IH|]. apply IH. apply Forall_app. split; [done|].
  constructor; [|done]. bool_hyps. split; [done|]. split; [done|]. cbn [Precedence].
  rewrite precedence_ipv4 by done. by rewrite El.
Qed.

Lemma gather_ifaces_usable l addrs : Forall usable addrs -> Forall usable (gather_ifaces l addrs).1.
Proof.
  revert addrs. induction l as [|i l IH]; intros addrs Ha; [done|]. cbn [gather_ifaces].
  destruct (if_up i); [|by apply IH]. cbn [negb]. destruct (if_addrs i) as [l2|]; [|done].
  pose proof (gather_addrs_usable (if_name i) l2 addrs Ha) as Hg.
  destruct (gather_addrs (if_name i) l2 addrs) as [addrs' []]; [by apply IH|done].
Qed.

Section Gathering.
Context `{SortSort}.

Lemma Gather_usable interfaces : Forall usable (Gather interfaces).1.
Proof.
  unfold Gather. destruct interfaces as [l|]; [|constructor].
  pose proof (gather_ifaces_usable l [] (List.Forall_nil _)) as Hg.
  destruct (gather_ifaces l []) as [addrs []]; [|done]. cbn [fst] in *.
  by rewrite sort_Sort_perm.
Qed.

(** * The list of candidates *)

(** Adding the candidates whose address is not there yet. *)
Definition add_new (acc : list Candidate) (c : Candidate) : list Candidate :=
  if bool_decide (addr c ∈ map addr acc) then acc else acc ++ [c].
Definition merge (acc l : list Candidate) : list Candidate := foldl add_new acc l.

Lemma add_new_addrs acc c x : x ∈ map addr (add_new acc c) <-> x ∈ map addr acc \/ x = addr c.
Proof.
  unfold add_new. case_bool_decide as Hc; [split; [by left|intros [?| ->]; done]|].
  rewrite map_app, elem_of_app. cbn [map]. by rewrite list_elem_of_singleton.
Qed.
Lemma merge_addrs acc l x : x ∈ map addr (merge acc l) <-> x ∈ map addr acc \/ x ∈ map addr l.
Proof.
  revert acc. induction l as [|c l IH]; intros acc; cbn [merge foldl map]; [by rewrite elem_of_nil; intuition|].
  fold (merge (add_new acc c) l). rewrite IH, add_new_addrs, elem_of_cons. tauto.
Qed.
Lemma merge_NoDup acc l : NoDup (map addr acc) -> NoDup (map addr (merge acc l)).
Proof.
  revert acc. induction l as [|c l IH]; intros acc Ha; cbn [merge foldl]; [done|]. apply IH.
  unfold add_new. case_bool_decide as Hc; [done|]. rewrite map_app, NoDup_app. split_and!; [done| |apply NoDup_singleton].
  intros x Hx ->%list_elem_of_singleton. done.
Qed.

(** Host candidates of one port are equal when their addresses are. *)
Definition hosts (port : bytes) : list Candidate -> Prop := Forall (fun c => exists a, c = host_candidate_of port a).
Lemma hosts_nil port : hosts port [].
Proof. apply List.Forall_nil. Qed.
Lemma host_candidates_equal port a b :
  let c := host_candidate_of port in Candidate_Equal (c a) (c b) = bool_decide (addr (c a) = addr (c b)).
Proof.
  intros c. unfold Candidate_Equal. case_bool_decide as Ha; [|done].
  assert (Foundation (c a) = Foundation (c b)) as -> by exact (f_equal calcFoundation Ha).
  by rewrite Z.eqb_refl, !bool_decide_eq_true_2.
Qed.
Lemma hosts_existsb port c l :
  hosts port (c :: l) -> existsb (fun c2 => Candidate_Equal c2 c) l = bool_decide (addr c ∈ map addr l).
Proof.
  intros [[a ->] Hl]%Forall_cons. induction Hl as [|x l [b ->] _ IH]; [by rewrite bool_decide_eq_false_2 by set_solver|].
  cbn [existsb map]. rewrite IH, host_candidates_equal, <- bool_decide_or. apply bool_decide_ext.
  rewrite elem_of_cons. naive_solver.
Qed.
Lemma add_local_new port primary acc c :
  hosts port (c :: acc) -> addr c <> primary \/ addr c ∈ map addr acc -> add_local primary acc c = add_new acc c.
Proof.
  intros Hh Hc. unfold add_local, add_new. rewrite (hosts_existsb port) by done. case_bool_decide; [done|].
  by rewrite bool_decide_eq_false_2 by tauto.
Qed.
Lemma add_locals_merge port primary l acc :
  hosts port acc -> hosts port l -> primary ∉ map addr l \/ primary ∈ map addr acc ->
  foldl (add_local primary) acc l = merge acc l.
Proof.
  revert acc. induction l as [|c l IH]; intros acc Ha Hl Hp; [done|]. cbn [foldl merge].
  apply Forall_cons in Hl as [Hc Hl]. cbn [map] in Hp. rewrite elem_of_cons in Hp.
  rewrite (add_local_new port) by (first [by constructor|destruct (decide (addr c = primary)); naive_solver]).
  apply IH; [|done|rewrite add_new_addrs; tauto].
  unfold add_new. case_bool_decide; [done|]. apply Forall_app. split; [done|by constructor].
Qed.

(** What moving the primary candidate [p] to the front makes of the candidates
    before it. *)
Definition primary_first (l1 : list Candidate) (p : Candidate) : list Candidate :=
  match l1 with
  | [] => [p]
  | [t] => [t]
  | t :: l1' => p :: removelast l1' ++ [t]
  end.

Lemma insert_last {A} (l : list A) y x : l <> [] -> <[length l := x]> (y :: l) = y :: removelast l ++ [x].
Proof.
  intros Hl. destruct l as [|z l _] using rev_ind; [done|]. rewrite removelast_last, length_app. cbn [length].
  rewrite Nat.add_1_r. change (y :: <[length l := x]> (l ++ [z]) = y :: l ++ [x]). f_equal. rewrite insert_app_r_alt by lia. by rewrite Nat.sub_diag.
Qed.
Lemma add_local_primary port primary acc p :
  hosts port (p :: acc) -> addr p = primary -> primary ∉ map addr acc -> add_local primary acc p = primary_first acc p.
Proof.
  intros Hh <- Hn. unfold add_local. rewrite (hosts_existsb port) by done.
  rewrite bool_decide_eq_false_2, bool_decide_eq_true_2 by done.
  destruct acc as [|t [|t2 acc]]; [done|done|]. cbn [length Nat.sub list_insert].
  change (<[0%nat:=p]> (t :: t2 :: acc)) with (p :: t2 :: acc).
  unfold primary_first. change (S (length acc)) with (length (t2 :: acc)). by apply insert_last.
Qed.
Lemma primary_first_hosts port acc p : hosts port (p :: acc) -> hosts port (primary_first acc p).
Proof.
  intros [Hp Ha]%Forall_cons. destruct acc as [|t [|t2 acc]]; [by constructor|done|]. apply Forall_cons in Ha as [Ht Ha].
  constructor; [done|]. apply Forall_app. split; [|by constructor].
  destruct (t2 :: acc) as [|z r _] using rev_ind; [done|]. rewrite removelast_last. by apply Forall_app in Ha as [? _].
Qed.
Lemma merge_hosts port acc l : hosts port acc -> hosts port l -> hosts port (merge acc l).
Proof.
  intros Ha Hl. revert acc Ha. induction Hl as [|c l Hc Hl IH]; intros acc Ha; [done|]. apply IH.
  unfold add_new. case_bool_decide; [done|]. apply Forall_app. by repeat constructor.
Qed.

(** C36: the local candidates.  Every address gathered is an IPv4 address outside
    127/8 with one and the same precedence, so the order is the sorter's own.  An
    address gathered again makes no second candidate ([merge]: each address once,
    where it came first).  Without the primary address the list is as gathered.  A
    primary address that comes first stays first; one that comes second is lost;
    one that comes later displaces the first one, and the last one before it is
    lost, unless it is gathered again behind it ([primary_first]).  That is for a
    primary address which, if it is lost, is not gathered again.  Seven are
    kept. *)
Theorem local_candidates interfaces primary host port addrs :
  SplitHostPort primary = Some (host, port) -> Gather interfaces = (addrs, true) ->
  let candidates := map (host_candidate_of port) addrs in
  Forall usable addrs /\
  (NoDup (map addr (merge [] candidates)) /\
   forall x, x ∈ map addr (merge [] candidates) <-> x ∈ map addr candidates) /\
  (primary ∉ map addr candidates -> getLocalCandidates interfaces primary = Ok (take 7 (merge [] candidates))) /\
  (forall l1 p l2, candidates = l1 ++ p :: l2 -> addr p = primary -> primary ∉ map addr l1 ->
     (length (merge [] l1) = 1%nat -> primary ∉ map addr l2) ->
     getLocalCandidates interfaces primary = Ok (take 7 (merge (primary_first (merge [] l1) p) l2))).
Proof.
  intros Hp Hg candidates. pose proof (Gather_usable interfaces) as Hu. rewrite Hg in Hu. split; [exact Hu|].
  split; [split; [apply merge_NoDup, NoDup_nil_2|intros x; rewrite merge_addrs; cbn [map]; rewrite elem_of_nil; tauto]|].
  assert (forall l : list Candidate,
    (if (maxCandidates - 1 <? length l)%nat then take (maxCandidates - 1) l else l) = take 7 l) as Ht.
  { intros l. change (maxCandidates - 1)%nat with 7%nat. destruct (7 <? length l)%nat eqn:E; [done|].
    bool_hyps. by rewrite take_ge. }
  assert (hosts port candidates) as Hh by (apply Forall_fmap, Forall_true; by eexists).
  unfold getLocalCandidates. rewrite Hp, Hg. fold candidates. split.
  - intros Hn. rewrite (add_locals_merge port) by (first [done|apply hosts_nil|by left]). by rewrite Ht.
  - intros l1 p l2 Hl Hpa H1 H2. rewrite Hl in *. apply Forall_app in Hh as [Hh1 [Hhp Hh2]%Forall_cons].
    rewrite foldl_app. cbn [foldl].
    rewrite (add_locals_merge port primary l1) by (first [done|apply hosts_nil|by left]).
    assert (hosts port (p :: merge [] l1)) as Hm by (constructor; [done|by apply merge_hosts; [apply hosts_nil|]]).
    rewrite (add_local_primary port) by (try done; rewrite merge_addrs; set_solver).
    rewrite (add_locals_merge port); [by rewrite Ht|by apply primary_first_hosts|done|].
    destruct (merge [] l1) as [|t [|t2 acc]]; cbn [primary_first map]; [right|left; by apply H2|right];
      rewrite <- Hpa; apply list_elem_of_here.
Qed.
End Gathering.

(** * The mapped address *)

(** [mapAddress] of a STUN server loses its errors: whether the transaction times
    out or the answer holds no address, the error of the callback is overwritten
    by that of [Do], and the candidate offered is ":0". *)
Theorem mapAddress_loses_error `{GoRuntime} `{SortSort} u interfaces server local e candidates :
  getLocalCandidates interfaces local = Ok candidates -> local <> bs ":0" ->
  (stunSocket_GetCandidates u interfaces (mkDo (Some (inr e)) false) (newStunSocket server local)).2
  = Ok (candidates ++ [reflexive_candidate (bs ":0") local]).
Proof.
  intros Hl Hn. unfold stunSocket_GetCandidates, mapAddress, st_bind, st_lift, st_get, st_modify, st_ret.
  cbn [do_event mapAddress_callback do_error LocalAddr newStunSocket MappedAddr].
  assert (forall a, baseAddr (reflexive_candidate a local) = local) as Hb by done.
  assert (forall a, addr (reflexive_candidate a local) = a) as Ha by done.
  rewrite !Hb, Hl, Ha. change (UDPAddr_String ([], 0)) with (bs ":0").
  by rewrite bool_decide_eq_false_2.
Qed.

(** * Witnesses *)

(** 10.0.0.1 is an address of two interfaces. *)
Definition two_interfaces : list iface :=
  [mkIface (bs "lo") true (Some [bs "127.0.0.1/8"]);
   mkIface (bs "eth0") true (Some [bs "10.0.0.1/24"; bs "fe80::1/64"; bs "10.0.0.2/24"; bs "10.0.0.3/24"]);
   mkIface (bs "eth1") true (Some [bs "10.0.0.1/24"])].

Abbreviation addresses_of r := (match r with Ok l => map addr l | _ => [] end).
Lemma local_candidates_witness :
  let found primary := addresses_of (getLocalCandidates (H := stable_sort) (Some two_interfaces) (bs primary)) in
  found "10.0.0.2:4000"%string = [bs "10.0.0.1:4000"; bs "10.0.0.3:4000"] /\
  found "10.0.0.9:4000"%string = [bs "10.0.0.1:4000"; bs "10.0.0.2:4000"; bs "10.0.0.3:4000"].
Proof.
  pose (a := fun ip => mkAddr (ParseIP (bs ip)) [] 35).
  pose (c := fun ip => host_candidate_of (bs "4000") (a ip)).
  assert (Gather (H := stable_sort) (Some two_interfaces)
          = ([a "10.0.0.1"; a "10.0.0.2"; a "10.0.0.3"; a "10.0.0.1"]%string, true)) as E by (vm_compute; reflexivity).
  destruct (local_candidates (H := stable_sort) (Some two_interfaces) (bs "10.0.0.2:4000")
    (bs "10.0.0.2") (bs "4000") _ eq_refl E) as (_ & _ & _ & H).
  destruct (local_candidates (H := stable_sort) (Some two_interfaces) (bs "10.0.0.9:4000")
    (bs "10.0.0.9") (bs "4000") _ eq_refl E) as (_ & _ & H' & _).
  split.
  - rewrite (H [c "10.0.0.1"%string] (c "10.0.0.2"%string) [c "10.0.0.3"%string; c "10.0.0.1"%string] eq_refl).
    + vm_compute. reflexivity.
    + vm_compute. reflexivity.
    + apply (bool_decide_unpack _). vm_compute. exact I.
    + intros _. apply (bool_decide_unpack _). vm_compute. exact I.
  - rewrite H'; [vm_compute; reflexivity|]. apply (bool_decide_unpack _). vm_compute. exact I.
Defined.
