(* ===== verification/IceTransport.v ===== *)
(** The stream transport: [src/ice/icestreamtransport.go].

    The transport owns a component with its local candidates and, from [InitIce]
    on, a session, and is the session's callback.  A call into the session is a
    step of the session's monad; the notifications it emits ([EvNotify],
    [EvRxData]) are the calls of [onIceComplete] and [onRxData]. *)
From stdpp Require Import base list gmap sets strings.
From Stdlib Require Import ZArith Lia.
From S2P Require Import Prelude Wire GoFmt GoSlice Utf8 Sdp StunTypes StunMessage StunBuild.
From S2P Require Import StunAddr Turn NetAddr IceCandidate IceChecklist IceGather IceSession.
Open Scope Z_scope.

(** * Configuration *)

Record TransportConfig := mkConfig {
  Server : bytes;
  StunSever : bytes;
  TurnSever : bytes;
  TurnUserName : bytes;
  TurnPassword : bytes;
  ComponentNumber : Z
}.
Definition NewTransportConfigHostonly : TransportConfig := mkConfig [] [] [] [] [] 1.
Definition NewTransportConfigWithStun (stunServer : bytes) : TransportConfig :=
  mkConfig [] stunServer [] [] [] 1.
Definition NewTransportConfigWithTurn (turnServer turnUser turnPass : bytes) : TransportConfig :=
  mkConfig [] [] turnServer turnUser turnPass 1.

Inductive transportState :=
| TransportStateReady | TransportStateSessionReady | TransportStateNegotiation
| TransportStateRunning | TransportStateFailed | TransportStateStopped.
#[export] Instance transportState_eq_decision : EqDecision transportState.
Proof. solve_decision. Defined.
Definition transportState_String (s : transportState) : bytes :=
  match s with
  | TransportStateReady => bs "Candidate Gathering Complete"
  | TransportStateSessionReady => bs "Session Initialized"
  | TransportStateNegotiation => bs "Negotiation In Progress"
  | TransportStateRunning => bs "Negotiation Success"
  | TransportStateFailed => bs "Negotiation Failed"
  | TransportStateStopped => bs "stopped"
  end.

(** [stunTranporter] *)
Inductive transporter :=
| HostTransporter (h : HostOnlySock)
| StunTransporter (s : stunSocket)
| TurnTransporter (t : turnSock).
Definition getListenCandidiates (tr : transporter) : list bytes :=
  match tr with
  | HostTransporter h => h_localCandidates h
  | StunTransporter s => ss_localAddrs s
  | TurnTransporter t => t_localAddrs t
  end.
Definition is_turn (tr : transporter) : bool :=
  match tr with TurnTransporter _ => true | _ => false end.

(** [transportComponent]: the default candidate is the last one. *)
Record transportComponent := mkComponent {
  tc_componentID : Z;
  tc_candidates : list Candidate;
  defaultCandidate : option Candidate
}.
Definition newTransportComponent (id : Z) : transportComponent := mkComponent id [] None.

(** The loop of [transportComponent.GetCandidates]. *)
Definition finish_candidate (id : Z) (c : Candidate) : Candidate :=
  set_transport TransportUDP (transportValue c)
    (set_Priority (calcCandidatePriority (Type_ c) defaultPreference id) (set_ComponentID id c)).
Definition component_GetCandidates (got : list Candidate) : ST transportComponent unit unit := fun t =>
  let candidates := map (finish_candidate (tc_componentID t)) got in
  match last candidates with
  | None => (mkComponent (tc_componentID t) candidates (defaultCandidate t), Panic IndexOutOfRange)
  | Some d => (mkComponent (tc_componentID t) candidates (Some d), Ok tt)
  end.

(** What the upper layer is told. *)
Inductive upcall :=
| OnReceiveData (data : bytes) (from : UDPAddr)
| OnIceComplete (result : option complete_error).

Record StreamTransport := mkTransport {
  cfg : TransportConfig;
  t_transporter : transporter;
  component : transportComponent;
  State : transportState;
  t_session : option session;
  cb : bool;
  upcalls : list upcall
}.
Definition set_State v t :=
  mkTransport (cfg t) (t_transporter t) (component t) v (t_session t) (cb t) (upcalls t).
Definition set_session v t :=
  mkTransport (cfg t) (t_transporter t) (component t) (State t) v (cb t) (upcalls t).
Definition set_cb v t :=
  mkTransport (cfg t) (t_transporter t) (component t) (State t) (t_session t) v (upcalls t).
Definition set_upcalls v t :=
  mkTransport (cfg t) (t_transporter t) (component t) (State t) (t_session t) (cb t) v.

(** * The session description *)

(** Literal text of a [Sscanf] format, a space of it, and the verbs [%d] and
    [%s].  The line that is scanned holds no newline. *)
Definition scan_literal (p s : bytes) : option bytes :=
  if bool_decide (take (length p) s = p) then Some (drop (length p) s) else None.
Definition scan_space (s : bytes) : option bytes :=
  match s with
  | [] => Some []
  | _ => if IsSpace (DecodeRune s).1 then Some (TrimLeft s) else None
  end.
Fixpoint take_digits (s : bytes) : bytes :=
  match s with
  | c :: s' => if is_digit c then c :: take_digits s' else []
  | [] => []
  end.
Definition scan_d (s : bytes) : option Z :=
  let s := TrimLeft s in
  let sign := match s with
              | c :: _ => if bool_decide (c = zb 43) || bool_decide (c = zb 45) then [c] else []
              | [] => []
              end in
  match take_digits (drop (length sign) s) with
  | [] => None
  | ds => match parse_int 64 (sign ++ ds) with Ok n => Some n | _ => None end
  end.
Fixpoint take_nonspace (fuel : nat) (s : bytes) : bytes :=
  match fuel, s with
  | S fuel', _ :: _ =>
      let '(r, n) := DecodeRune s in
      if IsSpace r then [] else EncodeRune r ++ take_nonspace fuel' (drop n s)
  | _, _ => []
  end.
Definition scan_s (s : bytes) : option bytes :=
  match TrimLeft s with [] => None | s => Some (take_nonspace (length s) s) end.

(** [fmt.Sscanf(v, "audio %d RTP/", &port)], [fmt.Sscanf(v, "IN IP4 %s", &ip)]:
    the variable keeps its value where the text does not match. *)
Definition scan_port (v : bytes) (port : Z) : Z :=
  default port (s ← scan_literal (bs "audio") v; s ← scan_space s; scan_d s).
Definition scan_ip (v ip : bytes) : bytes :=
  default ip (s ← scan_literal (bs "IN") v; s ← scan_space s;
              s ← scan_literal (bs "IP4") s; s ← scan_space s; scan_s s).

Inductive description_error :=
| SdpError (e : DecodeError)
| AttributeSyntax (v : bytes)
| CandidateError (e : parse_error)
| IncompleteDescription
| NoDefaultCandidate (addr : bytes).

Definition set_sd_user v sd := mkDescription v (sd_password sd) (sd_defaultPort sd)
  (sd_defaultIP sd) (sd_defaut sd) (sd_candidates sd).
Definition set_sd_password v sd := mkDescription (sd_user sd) v (sd_defaultPort sd)
  (sd_defaultIP sd) (sd_defaut sd) (sd_candidates sd).
Definition set_sd_default port ip sd := mkDescription (sd_user sd) (sd_password sd) port ip
  (sd_defaut sd) (sd_candidates sd).
Definition add_sd_candidate c sd := mkDescription (sd_user sd) (sd_password sd) (sd_defaultPort sd)
  (sd_defaultIP sd) (sd_defaut sd) (sd_candidates sd ++ [c]).
Definition set_sd_defaut v sd := mkDescription (sd_user sd) (sd_password sd) (sd_defaultPort sd)
  (sd_defaultIP sd) v (sd_candidates sd).
Abbreviation DK := (ST sessionDescription description_error).

(** The loop of [decodeSession] over the lines. *)
Definition decode_attribute (v : bytes) : DK unit :=
  match split colon v with
  | [k; x] =>
      if bool_decide (k = bs "ice-ufrag") then st_modify (set_sd_user x)
      else if bool_decide (k = bs "ice-pwd") then st_modify (set_sd_password x)
      else if bool_decide (k = bs "candidate") then
        match parse v zeroCandidate with
        | (c, None) => st_modify (add_sd_candidate c)
        | (_, Some e) => st_err (CandidateError e)
        end
      else st_ret tt
  | _ => st_err (AttributeSyntax v)
  end.
Definition decode_line (line : Line) : DK unit :=
  let v := LValue line in
  if LType line =? TypeAttribute then decode_attribute v
  else if LType line =? TypeMediaDescription then
    st_modify (fun sd => set_sd_default (scan_port v (sd_defaultPort sd)) (sd_defaultIP sd) sd)
  else if LType line =? TypeConnectionData then
    st_modify (fun sd => set_sd_default (sd_defaultPort sd) (scan_ip v (sd_defaultIP sd)) sd)
  else st_ret tt.
Fixpoint decode_session_lines (s : Session) : DK unit :=
  match s with
  | [] => st_ret tt
  | line :: s' => decode_line line;;; decode_session_lines s'
  end.

Fixpoint index_from (i : nat) (p : Candidate -> bool) (l : list Candidate) : option nat :=
  match l with
  | [] => None
  | c :: l' => if p c then Some i else index_from (S i) p l'
  end.

(** What follows the loop. *)
Definition check_description : DK unit :=
  let! sd := st_get in
  if (length (sd_user sd) =? 0)%nat || (length (sd_password sd) =? 0)%nat
     || (length (sd_defaultIP sd) =? 0)%nat || (length (sd_candidates sd) =? 0)%nat
  then st_err IncompleteDescription
  else
    let s2 := sd_defaultIP sd ++ bs ":" ++ itoa (sd_defaultPort sd) in
    match index_from 0 (fun c => bool_decide (addr c = s2)) (sd_candidates sd) with
    | None => st_err (NoDefaultCandidate s2)
    | Some i => st_modify (set_sd_defaut (Some i))
    end.

Definition decodeSession (str : bytes) : sessionDescription * result description_error unit :=
  let empty := mkDescription [] [] 0 [] None [] in
  match DecodeSession str [] with
  | Ok (s, None) => (decode_session_lines s;;; check_description) empty
  | Ok (_, Some e) => (empty, Err (SdpError e))
  | Err _ | Panic _ => (empty, Panic OutOfFuel)
  end.

(** The text of [EncodeSession]. *)
Definition session_text (frag password : bytes) (default : UDPAddr) (candidates : list Candidate) : bytes :=
  bs "v=0" ++ [newline] ++ bs "o=- 3414953978 3414953978 IN IP4 localhost" ++ [newline]
  ++ bs "s=ice" ++ [newline] ++ bs "t=0 0" ++ [newline]
  ++ bs "a=ice-ufrag:" ++ frag ++ [newline] ++ bs "a=ice-pwd:" ++ password ++ [newline]
  ++ bs "m=audio " ++ itoa default.2 ++ bs " RTP/AVP 0" ++ [newline]
  ++ bs "c=IN IP4 " ++ IP_String default.1 ++ [newline]
  ++ (candidates ≫= fun c => Candidate_String c ++ [newline]).

(** * The operations *)

Section Transport.
Context `{GoRuntime} `{SortSort}.
Variable supportsUnaligned : bool.
Variable channelBind_ok : bytes -> bool.

Inductive transport_error :=
| GatherFailed (e : gather_error)
| DialFailed
| StartServerFailed
| NoSession
| DescriptionFailed (e : description_error)
| CreateFailed (e : create_error)
| PermissionFailed
| StartCheckFailed
| NotRunning
| SendDataFailed
| SessionStopped (e : stop).
Abbreviation TS := (ST StreamTransport transport_error).

(** [NewIceStreamTransport]: [dial] is the local address of the connection to
    the server or an error; the transporter gathers by [get]. *)
Definition choose_transporter (c : TransportConfig) (dial : bytes -> option bytes) : option transporter :=
  if (0 <? length (StunSever c))%nat then
    StunTransporter ∘ newStunSocket (StunSever c) <$> dial (StunSever c)
  else if (0 <? length (TurnSever c))%nat then
    (fun local => TurnTransporter (newTurnSock (TurnSever c) local (TurnUserName c) (TurnPassword c)))
      <$> dial (TurnSever c)
  else Some (HostTransporter (mkHostOnly [])).
Definition NewIceStreamTransport (c : TransportConfig) (dial : bytes -> option bytes)
    (get : transporter -> transporter * result gather_error (list Candidate)) :
    result transport_error StreamTransport :=
  match choose_transporter c dial with
  | None => Err DialFailed
  | Some tr =>
      match get tr with
      | (_, Panic p) => Panic p
      | (_, Err e) => Err (GatherFailed e)
      | (tr, Ok got) =>
          match component_GetCandidates got (newTransportComponent 1) with
          | (_, Panic p) => Panic p
          | (comp, _) => Ok (mkTransport c tr comp TransportStateReady None false [])
          end
      end
  end.

Definition up (u : upcall) : TS unit :=
  let! t := st_get in
  if cb t then st_modify (set_upcalls (u :: upcalls t)) else st_ret tt.

(** [onIceComplete], [onRxData] *)
Definition onIceComplete (result : option complete_error) : TS unit :=
  let! t := st_get in
  if negb (bool_decide (State t = TransportStateNegotiation))
  then st_panic (PanicCall (bs "only finish once"))
  else
    st_modify (set_State (match result with
                          | Some _ => TransportStateFailed
                          | None => TransportStateRunning
                          end));;;
    up (OnIceComplete result).
Definition onRxData (data from : bytes) : TS unit := up (OnReceiveData data (addrToUDPAddr from)).

(** The notifications of a step of the session, oldest first. *)
Definition deliver_one (e : event) : TS unit :=
  match e with
  | EvNotify r => onIceComplete r
  | EvRxData data from => onRxData data from
  | _ => st_ret tt
  end.
Fixpoint deliver (l : list event) : TS unit :=
  match l with
  | [] => st_ret tt
  | e :: l' => deliver_one e;;; deliver l'
  end.
Definition new_events (s s' : session) : list event :=
  rev (take (length (events s') - length (events s)) (events s')).

(** A call into the session. *)
Definition on_session {A} (c : SM A) : TS A := fun t =>
  match t_session t with
  | None => (t, Panic NilDereference)
  | Some s =>
      let '(s', r) := c s in
      match deliver (new_events s s') (set_session (Some s') t) with
      | (t', Ok _) =>
          (t', match r with Ok a => Ok a | Err e => Err (SessionStopped e) | Panic p => Panic p end)
      | (t', Err e) => (t', Err e)
      | (t', Panic p) => (t', Panic p)
      end
  end.

(** [InitIce]: the fragments, the password and the tie breaker are random;
    [listen] tells which addresses can be bound. *)
Definition InitIce (role : SessionRole) (frag password : bytes) (tie : Z) (listen : bytes -> bool) :
    TS unit :=
  let! t := st_get in
  st_modify (set_session (Some (newIceSession role (tc_candidates (component t)) frag password tie)));;;
  let! ok := on_session (StartServer listen (is_turn (t_transporter t))
                           (getListenCandidiates (t_transporter t))) in
  if negb ok then st_err StartServerFailed else st_modify (set_State TransportStateSessionReady).

Definition SetCallBack : TS unit := st_modify (set_cb true).

(** [StartNegotiation]: [permission] is the answer to the request for permissions. *)
Definition StartNegotiation (remoteSDP : bytes) (permission : option Message) : TS unit :=
  let! t := st_get in
  if bool_decide (t_session t = None) || negb (bool_decide (State t = TransportStateSessionReady))
  then st_err NoSession
  else
    st_modify (set_State TransportStateNegotiation);;;
    match decodeSession remoteSDP with
    | (_, Panic p) => st_panic p
    | (_, Err e) => st_err (DescriptionFailed e)
    | (sd, Ok _) =>
        let! created := on_session (createCheckList sd) in
        match created with
        | Some e => st_err (CreateFailed e)
        | None =>
            let! permitted := on_session (createTurnPermissionIfNeeded permission) in
            if negb permitted then st_err PermissionFailed
            else
              let! started := on_session (startCheck channelBind_ok) in
              if negb started then st_err StartCheckFailed else st_ret tt
        end
    end.

(** [EncodeSession] *)
Definition EncodeSession : TS bytes :=
  let! t := st_get in
  match t_session t with
  | None => st_err NoSession
  | Some s =>
      match defaultCandidate (component t) with
      | None => st_panic NilDereference
      | Some d => st_ret (session_text (rxUserFrag s) (rxPassword s) (addrToUDPAddr (addr d))
                            (tc_candidates (component t)))
      end
  end.

(** [Stop]: the state that the test looks for is never set. *)
Definition Transport_Stop : TS unit :=
  let! t := st_get in
  if bool_decide (State t = TransportStateStopped) then st_ret tt
  else
    st_modify (set_State TransportStateFailed);;;
    match t_session t with None => st_ret tt | Some _ => on_session Stop end.

(** [SendData] *)
Definition Transport_SendData (data : bytes) : TS unit :=
  let! t := st_get in
  if negb (bool_decide (State t = TransportStateRunning)) then st_err NotRunning
  else
    let! ok := on_session (SendData data) in
    if negb ok then st_err SendDataFailed else st_ret tt.

(** A run of the session under its transport; it stops at a panic. *)
Fixpoint run_transport (xs : list input) (t : StreamTransport) : StreamTransport * option panic :=
  match xs with
  | [] => (t, None)
  | x :: xs' =>
      match on_session (handle supportsUnaligned channelBind_ok x) t with
      | (t', Panic p) => (t', Some p)
      | (t', _) => run_transport xs' t'
      end
  end.
End Transport.
