(* ===== verification/IceSessionInv.v ===== *)
(** Invariants of the ICE session: what every handler keeps. *)
From stdpp Require Import base list gmap sets strings.
From Stdlib Require Import ZArith Lia.
From S2P Require Import Prelude Wire GoFmt GoSlice StunTypes StunMessage StunBuild StunAttrs.
From S2P Require Import StunAddr StunIntegrity Turn NetAddr IceCandidate IceChecklist IceSession.
Open Scope Z_scope.

(** * Persistence

    A check keeps its pair, and its state only rises; candidates do not change;
    the result only rises; events are only added. *)
Record check_rises (c c' : check) : Prop := {
  cr_local : localCandidate c' = localCandidate c;
  cr_remote : remoteCandidate c' = remoteCandidate c;
  cr_key : key c' = key c;
  cr_priority : priority c' = priority c;
  cr_state : (state_rank (state c) <= state_rank (state c'))%nat
}.
#[export] Instance check_rises_preorder : PreOrder check_rises.
Proof. split; [by split|]. intros ? ? ? [] []. split; try congruence. lia. Qed.

(** Every element of the one list is related to that of the other in its place,
    which may be longer. *)
Definition extends {A} (R : A -> A -> Prop) (l l' : list A) : Prop :=
  forall i x, l !! i = Some x -> exists x', l' !! i = Some x' /\ R x x'.
#[export] Instance extends_preorder {A} (R : A -> A -> Prop) `{!PreOrder R} : PreOrder (extends R).
Proof.
  split; [intros l i x Hx; by exists x|].
  intros l1 l2 l3 H1 H2 i x Hx. destruct (H1 i x Hx) as (y & Hy & ?).
  destruct (H2 i y Hy) as (z & Hz & ?). exists z. split; [done|]. by etrans.
Qed.
Lemma extends_app {A} (R : A -> A -> Prop) `{!PreOrder R} l k : extends R l (l ++ k).
Proof. intros i x Hx. exists x. split; [by apply lookup_app_l_Some|done]. Qed.
Lemma extends_insert {A} (R : A -> A -> Prop) `{!PreOrder R} l i y :
  (forall x, l !! i = Some x -> R x y) -> extends R l (<[i := y]> l).
Proof.
  intros HR j x Hx. destruct (decide (j = i)) as [->|Hne].
  - exists y. split; [|by apply HR]. apply list_lookup_insert_eq. by eapply lookup_lt_Some.
  - exists x. split; [by rewrite list_lookup_insert_ne|done].
Qed.

Definition is_notify (e : event) : bool := match e with EvNotify _ => true | _ => false end.
Definition notified (s : session) : nat := length (filter is_notify (events s)).

Record quiet (s s' : session) : Prop := {
  qu_checks : extends check_rises (allChecks s) (allChecks s');
  qu_cands : extends eq (cands s) (cands s');
  qu_result : (result_rank (completeResult s) <= result_rank (completeResult s'))%nat;
  qu_events : events s `suffix_of` events s';
  qu_password : rxPassword s' = rxPassword s;
  qu_tie : tieBreaker s' = tieBreaker s;
  qu_role : role s' = role s;
  qu_notified : notified s' = notified s
}.
#[export] Instance quiet_preorder : PreOrder quiet.
Proof.
  split; [by split|]. intros ? ? ? [] []. split; [by etrans|by etrans|lia|by etrans|congruence..].
Qed.

(** The upper layer hears of the end at most once. *)
Record advances (s s' : session) : Prop := {
  ad_checks : extends check_rises (allChecks s) (allChecks s');
  ad_cands : extends eq (cands s) (cands s');
  ad_result : (result_rank (completeResult s) <= result_rank (completeResult s'))%nat;
  ad_events : events s `suffix_of` events s';
  ad_password : rxPassword s' = rxPassword s;
  ad_tie : tieBreaker s' = tieBreaker s;
  ad_role : role s' = role s;
  ad_notified : notified s' = notified s \/
    (notified s' = S (notified s) /\ (result_rank (completeResult s) < 2)%nat /\
     (2 <= result_rank (completeResult s'))%nat)
}.
#[export] Instance advances_preorder : PreOrder advances.
Proof.
  split; [split; try done; by left|].
  intros ? ? ? [] []. split; [by etrans|by etrans|lia|by etrans|congruence|congruence|congruence|].
  naive_solver lia.
Qed.
Lemma quiet_advances s s' : quiet s s' -> advances s s'.
Proof. intros []. split; try done. by left. Qed.

(** The same where the role may change. *)
Definition evolves (s s' : session) : Prop := exists r, advances (set_role r s) s'.
Lemma advances_set_role r s s' : advances s s' -> advances (set_role r s) (set_role r s').
Proof. by intros []. Qed.
Lemma set_role_same s : set_role (role s) s = s.
Proof. by destruct s. Qed.
#[export] Instance evolves_preorder : PreOrder evolves.
Proof.
  split; [intros s; exists (role s); by rewrite set_role_same|].
  intros s1 s2 s3 [r H1] [r' H2]. exists r'. etrans; [|exact H2].
  by apply (advances_set_role r') in H1.
Qed.
Lemma advances_evolves s s' : advances s s' -> evolves s s'.
Proof. intros Ha. exists (role s). by rewrite set_role_same. Qed.

(** * The primitives *)

Lemma keeps_check_of {R} `{!PreOrder R} i : keeps R (check_of i).
Proof. intros s. unfold check_of. by destruct (allChecks s !! i). Qed.
Lemma keeps_cand_of {R} `{!PreOrder R} i : keeps R (cand_of i).
Proof. intros s. unfold cand_of. by destruct (cands s !! i). Qed.
#[export] Hint Resolve keeps_check_of keeps_cand_of : keeps.

Lemma keeps_for_each {R} `{!PreOrder R} {A} (l : list A) body :
  (forall x, x ∈ l -> keeps R (body x)) -> keeps R (for_each l body).
Proof.
  induction l as [|x l IH]; intros Hb; [apply keeps_ret|]. cbn [for_each].
  apply keeps_bind; [apply Hb; set_solver|]. intros _. apply IH. set_solver.
Qed.
Lemma keeps_find_first {R} `{!PreOrder R} {A} (p : A -> SM bool) l :
  (forall x, x ∈ l -> keeps R (p x)) -> keeps R (find_first p l).
Proof.
  induction l as [|x l IH]; intros Hb; [apply keeps_ret|]. cbn [find_first].
  apply keeps_bind; [apply Hb; set_solver|]. intros [].
  - apply keeps_ret.
  - apply IH. set_solver.
Qed.
#[export] Hint Extern 1 (keeps _ (for_each _ _)) =>
  apply keeps_for_each; intros ? _; keeps_walk : keeps.
#[export] Hint Extern 1 (keeps _ (find_first _ _)) =>
  apply keeps_find_first; intros ? _; keeps_walk : keeps.

(** Setters of fields that the relation does not speak of. *)
Lemma quiet_set (f : session -> session) :
  (forall s, allChecks (f s) = allChecks s /\ cands (f s) = cands s /\
     completeResult (f s) = completeResult s /\ events (f s) = events s /\
     rxPassword (f s) = rxPassword s /\ tieBreaker (f s) = tieBreaker s /\ role (f s) = role s) ->
  keeps (E := stop) quiet (st_modify f).
Proof.
  intros Hf. apply keeps_modify. intros s. destruct (Hf s) as (H1 & H2 & H3 & H4 & H5 & H6 & H7).
  split; rewrite ?H1, ?H2, ?H3, ?H4; try done. unfold notified. by rewrite H4.
Qed.
#[export] Hint Extern 1 (keeps quiet (st_modify _)) =>
  apply quiet_set; intros; by split_and! : keeps.

Lemma emit_quiet e : is_notify e = false -> keeps quiet (emit e).
Proof.
  intros He. apply keeps_modify. intros s. split; try done; cbn [events set_events].
  - by apply suffix_cons_r.
  - unfold notified. cbn [events set_events]. by rewrite filter_cons, He.
Qed.
#[export] Hint Extern 1 (keeps quiet (emit _)) => apply emit_quiet; reflexivity : keeps.

Lemma new_check_quiet c : keeps quiet (new_check c).
Proof. intros s. split; try done. apply extends_app, _. Qed.
Lemma new_cand_quiet c : keeps quiet (new_cand c).
Proof. intros s. split; try done. apply extends_app, _. Qed.
Lemma new_chan_quiet : keeps quiet new_chan.
Proof. intros s. by split. Qed.
Lemma send_chan_quiet ch m : keeps quiet (send_chan ch m).
Proof.
  intros s. unfold send_chan. destruct ch as [i|]; [|done]. destruct (chans s !! i) as [c|]; [|done].
  destruct (is_closed c); [done|]. by destruct (buf c).
Qed.
Lemma close_chan_quiet ch : keeps quiet (close_chan ch).
Proof.
  intros s. unfold close_chan. destruct ch as [i|]; [|done]. destruct (chans s !! i) as [c|]; [|done].
  by destruct (is_closed c).
Qed.
#[export] Hint Resolve new_check_quiet new_cand_quiet new_chan_quiet send_chan_quiet
  close_chan_quiet : keeps.

(** Writing a check that was read before. *)
Lemma put_check_quiet i c c' s :
  allChecks s !! i = Some c -> check_rises c c' -> quiet s (set_allChecks (<[i := c']> (allChecks s)) s).
Proof.
  intros Hc Hr. split; try done. apply extends_insert; [apply _|]. intros x Hx.
  by assert (x = c) as -> by congruence.
Qed.
Lemma read_check_keeps {R} `{!PreOrder R} {A} i (k : check -> SM A) :
  (forall s c, allChecks s !! i = Some c -> R s (k c s).1) -> keeps R (let! c := check_of i in k c).
Proof.
  intros Hk s. unfold st_bind, check_of. destruct (allChecks s !! i) as [c|] eqn:Hc; [|done].
  by apply Hk.
Qed.
Lemma put_check_then {A} i c c' (k : SM A) s :
  allChecks s !! i = Some c -> check_rises c c' -> keeps quiet k ->
  quiet s ((put_check i c';;; k) s).1.
Proof. intros Hc Hr Hk. etrans; [exact (put_check_quiet i c c' s Hc Hr)|exact (Hk _)]. Qed.

Lemma update_nominated_quiet i f : keeps quiet (update_nominated i f).
Proof.
  apply read_check_keeps. intros s c Hc. apply (put_check_quiet i c); [done|by split].
Qed.
#[export] Hint Resolve update_nominated_quiet : keeps.

Lemma finishOneCheck_quiet i : keeps quiet (finishOneCheck i).
Proof. unfold finishOneCheck. keeps_walk. Qed.
#[export] Hint Resolve finishOneCheck_quiet : keeps.

Lemma changeCheckState_quiet i st err : keeps quiet (changeCheckState i st err).
Proof.
  apply read_check_keeps. intros s c Hc.
  destruct (Nat.leb_spec (state_rank st) (state_rank (state c))) as [|Hlt]; [done|].
  apply (put_check_then i c); [done| |keeps_walk]. split; try done. cbn. lia.
Qed.
#[export] Hint Resolve changeCheckState_quiet : keeps.

Lemma cancelOneCheck_quiet i : keeps quiet (cancelOneCheck i).
Proof. unfold cancelOneCheck. keeps_walk. Qed.
Lemma retryOneCheck_quiet i : keeps quiet (retryOneCheck i).
Proof. unfold retryOneCheck. keeps_walk. Qed.
Lemma changeCompleteResult_quiet r : keeps quiet (changeCompleteResult r).
Proof.
  unfold changeCompleteResult. apply keeps_get_bind; intros s.
  destruct (Nat.leb_spec (result_rank r) (result_rank (completeResult s))); [done|].
  split; try done. cbn. lia.
Qed.
#[export] Hint Resolve cancelOneCheck_quiet retryOneCheck_quiet changeCompleteResult_quiet : keeps.

Lemma markValidAndNonimated_quiet i : keeps quiet (markValidAndNonimated i).
Proof. unfold markValidAndNonimated, better. keeps_walk. Qed.
Lemma on_sock_quiet srv f : (forall k, keeps quiet (f k)) -> keeps quiet (on_sock srv f).
Proof. intros Hf. unfold on_sock, nil_deref. destruct srv as [[| |]|]; auto; keeps_walk. Qed.
#[export] Hint Resolve markValidAndNonimated_quiet : keeps.
#[export] Hint Extern 1 (keeps _ (on_sock _ _)) => apply on_sock_quiet; intros ?; keeps_walk : keeps.
Lemma sendStunMessageAsync_quiet srv from to raw : keeps quiet (sendStunMessageAsync srv from to raw).
Proof. unfold sendStunMessageAsync. keeps_walk. Qed.
Lemma FinishNegotiation_quiet mode srv : keeps quiet (FinishNegotiation mode srv).
Proof. unfold FinishNegotiation. keeps_walk. Qed.
Lemma closeUselessServerSock_quiet : keeps quiet closeUselessServerSock.
Proof. unfold closeUselessServerSock. keeps_walk. Qed.
#[export] Hint Resolve sendStunMessageAsync_quiet FinishNegotiation_quiet
  closeUselessServerSock_quiet : keeps.

(** * Completion

    [loud s s']: quiet, and a notification of the upper layer last. *)
Definition loud (s s' : session) : Prop :=
  exists m r, quiet s m /\ s' = set_events (EvNotify r :: events m) m.

(** Once the result is final, the call is quiet, or loud where [P] allows it. *)
Definition tail {A} (P : Prop) (c : SM A) : Prop := forall s,
  (2 <= result_rank (completeResult s))%nat -> quiet s (c s).1 \/ (P /\ loud s (c s).1).

Lemma tail_quiet {A} P (c : SM A) : keeps quiet c -> tail P c.
Proof. intros Hc s _. left. apply Hc. Qed.
Lemma tail_bind {A B} P (c : SM A) (k : A -> SM B) :
  keeps quiet c -> (forall a, tail P (k a)) -> tail P (st_bind c k).
Proof.
  intros Hc Hk s Hs. unfold st_bind. specialize (Hc s).
  destruct (c s) as [s1 [a|e|p]]; [|by left..]. cbn in *.
  destruct (Hk a s1) as [|(? & m & r & ? & ?)]; [destruct Hc; lia|left; by etrans|].
  right. split; [done|]. exists m, r. split; [by etrans|done].
Qed.
Lemma tail_notify old r :
  tail (result_rank old < result_rank sessionCompleteSuccess)%nat (notify_once old r).
Proof.
  intros s _. unfold notify_once.
  destruct (Nat.ltb_spec (result_rank old) (result_rank sessionCompleteSuccess)); [|by left].
  right. split; [done|]. by exists s, r.
Qed.

Lemma notified_cons r m : notified (set_events (EvNotify r :: events m) m) = S (notified m).
Proof. done. Qed.
Lemma loud_advances s s' : (result_rank (completeResult s) < 2)%nat ->
  (2 <= result_rank (completeResult s'))%nat -> loud s s' -> advances s s'.
Proof.
  intros H1 H2 (m & r & Hq & ->). destruct Hq. split; try done.
  - etrans; [done|]. by apply suffix_cons_r.
  - right. rewrite notified_cons. split; [congruence|done].
Qed.
(** A quiet call that makes the result final or finds it so, and a tail. *)
Lemma advances_tail {A B} s (c : SM A) (k : A -> SM B) :
  keeps quiet c -> (forall a, tail (result_rank (completeResult s) < 2)%nat (k a)) ->
  (forall s' a, c s = (s', Ok a) -> 2 <= result_rank (completeResult s'))%nat ->
  advances s (st_bind c k s).1.
Proof.
  intros Hc Hk Hr. unfold st_bind. specialize (Hc s).
  destruct (c s) as [s1 [a|e|p]] eqn:E; [|by apply quiet_advances..]. cbn [fst] in *.
  specialize (Hr s1 a eq_refl). destruct (Hk a s1 Hr) as [Hq|(? & Hl)].
  - apply quiet_advances. by etrans.
  - apply loud_advances; [done| |].
    + destruct Hl as (m & r & [] & ->). cbn. lia.
    + destruct Hl as (m & r & Hq & ->). exists m, r. split; [by etrans|done].
Qed.
Lemma changeCompleteResult_rank r s s' a :
  changeCompleteResult r s = (s', Ok a) -> completeResult s' = r.
Proof.
  unfold changeCompleteResult, st_bind, st_get. destruct (_ <=? _)%nat; [done|].
  intros [= <- _]. done.
Qed.

(** A quiet call advances. *)
Lemma lift_quiet {A} (c : SM A) : keeps quiet c -> keeps advances c.
Proof. apply keeps_mono, quiet_advances. Qed.
#[export] Hint Extern 2 (keeps advances _) =>
  apply lift_quiet; solve [eauto 2 with keeps typeclass_instances] : keeps.
Lemma lift_advances {A} (c : SM A) : keeps advances c -> keeps evolves c.
Proof. apply keeps_mono, advances_evolves. Qed.
#[export] Hint Extern 2 (keeps evolves _) =>
  apply lift_advances; solve [eauto 3 with keeps typeclass_instances] : keeps.
Lemma changeRole_evolves r : keeps evolves (changeRole r).
Proof. intros s. by exists r. Qed.
#[export] Hint Resolve changeRole_evolves : keeps.

Section Invariants.
Context `{GoRuntime} `{SortSort}.
Variable supportsUnaligned : bool.
Variable channelBind_ok : bytes -> bool.

Lemma nominated_pair_quiet : keeps quiet nominated_pair.
Proof. unfold nominated_pair, nil_deref. keeps_walk. Qed.
Hint Resolve nominated_pair_quiet : keeps.

Ltac tail_walk :=
  repeat first
    [ apply tail_notify
    | progress (intros; cbv beta zeta)
    | apply tail_quiet; solve [keeps_walk]
    | apply tail_bind; [solve [keeps_walk]|]
    | match goal with |- tail _ (match ?x with _ => _ end) => destruct x end ].

Lemma iceComplete_advances result allcomplete :
  keeps advances (iceComplete channelBind_ok result allcomplete).
Proof.
  unfold iceComplete. apply keeps_get_bind; intros s. destruct result as [e|].
  - apply advances_tail; [keeps_walk|intros; apply tail_notify|].
    intros s' a ->%changeCompleteResult_rank. cbn. lia.
  - apply advances_tail.
    + keeps_walk.
    + intros _. unfold nil_deref. tail_walk.
    + intros s' a. destruct allcomplete.
      * unfold st_bind at 1. destruct (changeCompleteResult _ _) as [s1 [u|e|p]] eqn:E; [|done..].
        apply changeCompleteResult_rank in E. unfold st_bind, st_get.
        case_bool_decide; [|done]. intros [= <- _]. rewrite E. cbn. lia.
      * destruct (Nat.ltb_spec (result_rank (completeResult s)) (result_rank sessionCompleteSuccess)).
        -- intros ->%changeCompleteResult_rank. cbn. lia.
        -- by intros [= <- _].
Qed.
Hint Resolve iceComplete_advances : keeps.

Lemma unfreeze_quiet f : keeps quiet (unfreeze f).
Proof. unfold unfreeze. keeps_walk. Qed.
Lemma cancel_useless_quiet p : keeps quiet (cancel_useless p).
Proof. unfold cancel_useless. keeps_walk. Qed.
Lemma unfinished_quiet i : keeps quiet (unfinished i).
Proof. unfold unfinished. keeps_walk. Qed.
Hint Resolve unfreeze_quiet cancel_useless_quiet unfinished_quiet : keeps.

Lemma tryCompleteCheck_advances i : keeps advances (tryCompleteCheck channelBind_ok i).
Proof. unfold tryCompleteCheck. keeps_walk. Qed.
Hint Resolve tryCompleteCheck_advances : keeps.
Lemma nomination_timeout_advances : keeps advances (nomination_timeout channelBind_ok).
Proof. unfold nomination_timeout. keeps_walk. Qed.
Lemma fail_check_advances i e : keeps advances (fail_check channelBind_ok i e).
Proof. unfold fail_check. keeps_walk. Qed.
Hint Resolve nomination_timeout_advances fail_check_advances : keeps.

Lemma handle_error_response_evolves i res :
  keeps evolves (handle_error_response channelBind_ok i res).
Proof. unfold handle_error_response. keeps_walk. Qed.
Hint Resolve handle_error_response_evolves : keeps.

Lemma local_of_mapped_quiet l xaddr : keeps quiet (local_of_mapped l xaddr).
Proof. unfold local_of_mapped. keeps_walk. Qed.
Lemma valid_pair_quiet l r nom : keeps quiet (valid_pair l r nom).
Proof. unfold valid_pair. keeps_walk. Qed.
Hint Resolve local_of_mapped_quiet valid_pair_quiet : keeps.
Lemma handle_success_response_advances i from res :
  keeps advances (handle_success_response supportsUnaligned channelBind_ok i from res).
Proof. unfold handle_success_response. keeps_walk. Qed.
Hint Resolve handle_success_response_advances : keeps.
Lemma processBindingResponse_evolves localAddr remoteAddr msg :
  keeps evolves (processBindingResponse supportsUnaligned channelBind_ok localAddr remoteAddr msg).
Proof. unfold processBindingResponse, handleCheckResponse. keeps_walk. Qed.

Lemma sendResponse_quiet localAddr fromAddr req code :
  keeps quiet (sendResponse supportsUnaligned localAddr fromAddr req code).
Proof. unfold sendResponse, build_or_panic. keeps_walk. Qed.
Lemma remote_of_request_quiet rc : keeps quiet (remote_of_request rc).
Proof. unfold remote_of_request. keeps_walk. Qed.
Hint Resolve processBindingResponse_evolves sendResponse_quiet remote_of_request_quiet : keeps.

Lemma triggered_known_advances rc i : keeps advances (triggered_known channelBind_ok rc i).
Proof.
  unfold triggered_known, spawn. keeps_walk.
Qed.
Lemma triggered_new_quiet rc l r : keeps quiet (triggered_new rc l r).
Proof. unfold triggered_new, nil_deref, spawn. keeps_walk. Qed.
Hint Resolve triggered_known_advances triggered_new_quiet : keeps.
Lemma handleIncomingCheck_advances rc : keeps advances (handleIncomingCheck channelBind_ok rc).
Proof. unfold handleIncomingCheck. keeps_walk. Qed.
Lemma resolve_role_evolves wanted peer localAddr fromAddr req :
  keeps evolves (resolve_role supportsUnaligned wanted peer localAddr fromAddr req).
Proof. unfold resolve_role. keeps_walk. Qed.
Hint Resolve handleIncomingCheck_advances resolve_role_evolves : keeps.

Lemma admit_request_advances localAddr fromAddr userName prio rx_role req :
  keeps advances
    (admit_request supportsUnaligned channelBind_ok localAddr fromAddr userName prio rx_role req).
Proof. unfold admit_request. keeps_walk. Qed.
Hint Resolve admit_request_advances : keeps.

Lemma accept_request_evolves localAddr fromAddr userName prio req :
  keeps evolves (accept_request supportsUnaligned channelBind_ok localAddr fromAddr userName prio req).
Proof. unfold accept_request. keeps_walk. Qed.
Hint Resolve accept_request_evolves : keeps.
Lemma processStunMessage_evolves localAddr remoteAddr msg :
  keeps evolves (processStunMessage supportsUnaligned channelBind_ok localAddr remoteAddr msg).
Proof. unfold processStunMessage, processBindingRequest. keeps_walk. Qed.

Lemma createCheckList_quiet sd : keeps quiet (createCheckList sd).
Proof. unfold createCheckList, add_remote, add_pair. keeps_walk. Qed.
Lemma allcheck_advances l : keeps advances (allcheck channelBind_ok l).
Proof.
  unfold allcheck, make_channels, start_one, spawn. keeps_walk.
  generalize (@nil Z). induction l as [|i l IH]; intros seen; cbn [wait_foundations]; keeps_walk.
Qed.
Hint Resolve processStunMessage_evolves createCheckList_quiet allcheck_advances : keeps.
Lemma startCheck_advances : keeps advances (startCheck channelBind_ok).
Proof. unfold startCheck. keeps_walk. Qed.

Lemma onecheck_round_quiet i srv round sleep tid raw :
  keeps quiet (onecheck_round i srv round sleep tid raw).
Proof. unfold onecheck_round, addMsgCheck, deleteMsgCheck. keeps_walk. Qed.
Hint Resolve startCheck_advances onecheck_round_quiet : keeps.
Lemma buildBindingRequest_quiet i rnd : keeps quiet (buildBindingRequest i rnd).
Proof. unfold buildBindingRequest. keeps_walk. Qed.
Hint Resolve buildBindingRequest_quiet : keeps.
Lemma onecheck_restart_quiet i srv sleep rnd : keeps quiet (onecheck_restart i srv sleep rnd).
Proof. unfold onecheck_restart. keeps_walk. Qed.
Hint Resolve onecheck_restart_quiet : keeps.
Lemma onecheck_quiet i nom rnd : keeps quiet (onecheck i nom rnd).
Proof. unfold onecheck. keeps_walk. Qed.
Lemma onecheck_receive_quiet i ch rnd g : keeps quiet (onecheck_receive i ch rnd g).
Proof. unfold onecheck_receive, deleteMsgCheck. keeps_walk. Qed.
Lemma SendData_quiet data : keeps quiet (SendData data).
Proof. unfold SendData, nil_deref. keeps_walk. Qed.
Hint Resolve onecheck_quiet onecheck_receive_quiet SendData_quiet : keeps.

Lemma handle_evolves x : keeps evolves (handle supportsUnaligned channelBind_ok x).
Proof. destruct x; cbn [handle]; unfold handle_try_fail, onecheck_timeout; keeps_walk. Qed.

Lemma run_session_evolves xs s : evolves s (run_session supportsUnaligned channelBind_ok xs s).
Proof.
  revert s. induction xs as [|x xs IH]; intros s; [done|]. cbn [run_session].
  pose proof (handle_evolves x s) as Hx. destruct (handle _ _ x s) as [s' [[]|e|p]]; cbn in Hx;
    [etrans; [exact Hx|apply IH]..|exact Hx].
Qed.
End Invariants.
