(* ===== verification/IceTransportProps.v ===== *)
(** Properties of the stream transport: offer and answer, the report of the
    result, and what [Stop] leaves. *)
From stdpp Require Import base list gmap sets strings.
From Stdlib Require Import ZArith Lia.
From S2P Require Import Prelude Wire GoFmt GoSlice Utf8 Sdp SdpProps StunTypes StunMessage StunBuild.
From S2P Require Import StunAddr Turn NetAddr IceCandidate IceChecklist IceGather IceSession.
From S2P Require Import Util IceTransport IceSessionInv.
Open Scope Z_scope.

(** * The text of an offer *)

(** Printable ASCII without space. *)
Definition graphic (b : byte) : Prop := 33 <= bz b <= 126.
(** A fragment or password: it can stand behind a colon on a line. *)
Definition word (w : bytes) : Prop := w <> [] /\ Forall graphic w /\ colon ∉ w.

(** A candidate whose addresses are printable text. *)
Record offerable (c : Candidate) : Prop := {
  of_printable : printable c;
  of_addr : Forall graphic (addr c);
  of_base : Type_ c = CandidateServerReflexive -> Forall graphic (baseAddr c)
}.

(** Text that a line can carry after its first colon. *)
Definition texty (b : byte) : Prop := 32 <= bz b <= 126 /\ b <> colon.
Definition ends_graphic (w : bytes) : Prop := exists w' e, w = w' ++ [e] /\ graphic e.

Lemma graphic_texty w : Forall graphic w -> colon ∉ w -> Forall texty w.
Proof.
  intros Hw Hc. rewrite Forall_forall in *. intros b Hb. specialize (Hw b Hb). unfold graphic in Hw.
  split; [lia|]. intros ->. done.
Qed.
Lemma digits_graphic w : Forall (fun c => is_Some (digit_val c)) w -> Forall graphic w.
Proof.
  intros Hw. eapply Forall_impl; [exact Hw|]. cbn. intros c [d Hd]. unfold digit_val in Hd. unfold graphic.
  destruct ((48 <=? bz c) && (bz c <=? 57)) eqn:E; [|done]. bool_hyps. lia.
Qed.
Lemma digits_no_colon w : Forall (fun c => is_Some (digit_val c)) w -> colon ∉ w.
Proof. intros Hw Hin. rewrite Forall_forall in Hw. by destruct (Hw _ Hin). Qed.
Lemma itoa_texty n : 0 <= n -> Forall texty (itoa n).
Proof.
  intros Hn. pose proof (itoa_digits n Hn).
  apply graphic_texty; [by apply digits_graphic|by apply digits_no_colon].
Qed.
Lemma text_texty w :
  forallb (fun b => (32 <=? bz b) && (bz b <=? 126) && negb (bool_decide (b = colon))) w = true ->
  Forall texty w.
Proof.
  intros Hw. rewrite Forall_forall. intros b Hb%list_elem_of_In. rewrite forallb_forall in Hw.
  specialize (Hw b Hb). bool_hyps. split; [lia|done].
Qed.
Lemma graphic_text w :
  forallb (fun b => (33 <=? bz b) && (bz b <=? 126)) w = true -> Forall graphic w.
Proof.
  intros Hw. rewrite Forall_forall. intros b Hb%list_elem_of_In. rewrite forallb_forall in Hw.
  specialize (Hw b Hb). unfold graphic. bool_hyps. lia.
Qed.
Lemma ends_graphic_app u w : ends_graphic w -> ends_graphic (u ++ w).
Proof. intros (w' & e & -> & He). exists (u ++ w'), e. by rewrite app_assoc. Qed.
Lemma graphic_ends w : w <> [] -> Forall graphic w -> ends_graphic w.
Proof.
  intros Hne Hw. destruct w as [|e w' _] using rev_ind; [done|]. apply Forall_app in Hw as [_ Hw].
  exists w', e. split; [done|]. by apply Forall_cons in Hw as [? _].
Qed.
Lemma texty_no_newline w : Forall texty w -> newline ∉ w.
Proof. intros Hw Hin. rewrite Forall_forall in Hw. destruct (Hw _ Hin) as [[H _] _]. by vm_compute in H. Qed.
Lemma texty_no_colon w : Forall texty w -> colon ∉ w.
Proof. intros Hw Hin. rewrite Forall_forall in Hw. by destruct (Hw _ Hin). Qed.
Lemma graphic_not_space e : graphic e -> bz e < RuneSelf /\ IsSpace (bz e) = false.
Proof.
  unfold graphic, RuneSelf. intros He. split; [lia|]. unfold IsSpace. zdec. done.
Qed.

(** The lines of the description are clean. *)
Lemma clean_texty t v :
  97 <= t <= 122 -> newline ∉ v -> ends_graphic v -> clean_line (mkLine t v).
Proof.
  intros Ht Hv (w' & e & -> & He). apply clean_line_ascii; try done; try lia.
  - unfold IsSpace. zdec. done.
  - intros e' [= <-]%(eq_trans (eq_sym (last_snoc _ _))). by apply graphic_not_space.
Qed.

(** ** Candidates *)

Definition candidate_value (c : Candidate) : bytes := drop 2 (Candidate_String c).
Definition candidate_body (c : Candidate) : bytes := drop 12 (Candidate_String c).

Lemma Candidate_String_value c : Candidate_String c = bs "a=" ++ candidate_value c.
Proof.
  unfold candidate_value, Candidate_String. destruct (default _ _) as [host port].
  case_bool_decide; [|reflexivity]. by destruct (default _ _).
Qed.
Lemma candidate_value_body c : candidate_value c = bs "candidate" ++ colon :: candidate_body c.
Proof.
  unfold candidate_value, candidate_body, Candidate_String. destruct (default _ _) as [host port].
  case_bool_decide; [|reflexivity]. by destruct (default _ _).
Qed.

Lemma candidate_body_text c :
  offerable c -> Forall texty (candidate_body c) /\ ends_graphic (candidate_body c).
Proof.
  intros [[Hf Hc Hp Ht Hty (host & port & Ha & Hh & Hpo) Hbase] Hga Hgb].
  unfold candidate_body, Candidate_String. rewrite Ha, SplitHostPort_plain by done.
  rewrite Ha in Hga. apply Forall_app in Hga as [Hg1 [_ Hg2]%Forall_cons].
  destruct Hh as (_ & _ & Hh & _), Hpo as (_ & _ & Hpo & _).
  cbn [default from_option id]. rewrite Ht.
  assert (forall rest, Forall texty rest -> Forall texty
    (itoa (Foundation c) ++ bs " " ++ itoa (ComponentID c) ++ bs " " ++ TransportType_String TransportUDP
     ++ bs " " ++ itoa (Priority c) ++ bs " " ++ host ++ bs " " ++ port ++ bs " typ " ++ rest)) as Hall.
  { intros rest Hr. rewrite !Forall_app. split_and!; try (by apply text_texty); try done;
      try (apply itoa_texty; lia); by apply graphic_texty. }
  assert (forall t, t <> CandidateUnknown ->
    Forall texty (CandidateType_String t) /\ ends_graphic (CandidateType_String t)) as Htype.
  { intros [] Hn; try done; (split; [by apply text_texty|]);
      (apply graphic_ends; [done|by apply graphic_text]). }
  destruct (Htype _ Hty) as [Ht1 Ht2].
  case_bool_decide as Hsr.
  - destruct (Hbase Hsr) as (rh & rp & Hb & Hrh & Hrp & _). specialize (Hgb Hsr).
    rewrite Hb, SplitHostPort_plain by done. cbn [default from_option id].
    rewrite Hb in Hgb. apply Forall_app in Hgb as [Hg3 [_ Hg4]%Forall_cons].
    destruct Hrh as (_ & _ & Hrh & _), Hrp as (Hne & _ & Hrp & _).
    rewrite <- !app_assoc. split.
    + apply Hall. rewrite !Forall_app.
      split_and!; try (by apply text_texty); try done; by apply graphic_texty.
    + do 16 apply ends_graphic_app. by apply graphic_ends.
  - split; [by apply Hall|]. by do 12 apply ends_graphic_app.
Qed.

(** Without the "a=" in front. *)
Lemma parse_candidate_value c c0 : parse (candidate_value c) c0 = ParseAttribute (Candidate_String c) c0.
Proof.
  rewrite Candidate_String_value, candidate_value_body. unfold ParseAttribute, parse.
  rewrite !(proj2 (Nat.ltb_ge _ minBufLen)) by (cbn; unfold minBufLen; lia). reflexivity.
Qed.

Lemma Candidate_Equal_addr c c' : Candidate_Equal c c' = true -> addr c' = addr c.
Proof. unfold Candidate_Equal. case_bool_decide; cbn; [done|discriminate]. Qed.

(** ** Scanning *)

Lemma graphic_self b : graphic b -> bz b < RuneSelf /\ IsSpace (bz b) = false.
Proof. apply graphic_not_space. Qed.

Lemma TrimLeft_graphic b w : graphic b -> TrimLeft (b :: w) = b :: w.
Proof.
  intros [Hb Hs]%graphic_not_space. rewrite TrimLeft_unfold by done.
  rewrite DecodeRune_ascii by done. cbn [fst]. by rewrite Hs.
Qed.
Lemma scan_space_sp b w : graphic b -> scan_space (sp :: b :: w) = Some (b :: w).
Proof.
  intros Hb. unfold scan_space. rewrite DecodeRune_ascii by done.
  change (IsSpace (bz sp, 1%nat).1) with true. cbn iota.
  rewrite TrimLeft_unfold by done. rewrite DecodeRune_ascii by done.
  change (IsSpace (bz sp, 1%nat).1) with true. cbn iota. change (drop (bz sp, 1%nat).2 (sp :: b :: w)) with (b :: w).
  by rewrite TrimLeft_graphic.
Qed.

Lemma take_digits_app ds rest :
  Forall (fun c => is_Some (digit_val c)) ds -> take_digits rest = [] ->
  take_digits (ds ++ rest) = ds.
Proof.
  intros Hd Hr. induction Hd as [|c ds [d Hc] _ IH]; [done|]. cbn. unfold digit_val in Hc.
  unfold is_digit. destruct ((48 <=? bz c) && (bz c <=? 57)); [|done]. by rewrite IH.
Qed.

Lemma scan_d_itoa n rest :
  0 <= n < 2 ^ 63 -> take_digits rest = [] -> scan_d (itoa n ++ rest) = Some n.
Proof.
  intros Hn Hr. pose proof (itoa_digits n ltac:(lia)) as Hd. unfold scan_d.
  destruct (itoa n) as [|c ds] eqn:E.
  { unfold itoa in E. rewrite (proj2 (Z.ltb_ge _ _)) in E by lia. by apply format_uint_nonempty in E. }
  pose proof (digits_graphic _ Hd) as Hg. apply Forall_cons in Hg as [Hg _].
  cbn [app]. rewrite TrimLeft_graphic by done.
  assert (forall z, digit_val (zb z) = None -> bool_decide (c = zb z) = false) as Hs.
  { intros z Hz. apply bool_decide_eq_false_2. intros ->. apply Forall_cons in Hd as [[? Hd] _]. congruence. }
  rewrite (Hs 43), (Hs 45) by done. cbn [orb length drop app].
  change (c :: ds ++ rest) with ((c :: ds) ++ rest). rewrite take_digits_app by done. rewrite <- E.
  pose proof (atoi_itoa n ltac:(lia)) as Ha. unfold atoi in Ha. by rewrite Ha.
Qed.

Lemma take_nonspace_graphic w f : Forall graphic w -> (length w <= f)%nat -> take_nonspace f w = w.
Proof.
  revert f. induction w as [|b w IH]; intros [|f] Hw Hf; cbn [length] in Hf; try done; [lia|].
  apply Forall_cons in Hw as [Hb Hw]. pose proof (graphic_not_space b Hb) as [Hb1 Hb2].
  cbn [take_nonspace]. rewrite DecodeRune_ascii by done. rewrite Hb2. cbn [drop].
  rewrite IH by (done || lia). unfold graphic in Hb. unfold EncodeRune. zdec. by rewrite zb_bz.
Qed.

Lemma scan_port_text n port : 0 <= n < 2 ^ 63 -> scan_port (bs "audio " ++ itoa n ++ bs " RTP/AVP 0") port = n.
Proof.
  intros Hn. unfold scan_port.
  change (scan_literal (bs "audio") (bs "audio " ++ itoa n ++ bs " RTP/AVP 0"))
    with (Some (sp :: itoa n ++ bs " RTP/AVP 0")). cbn [mbind option_bind].
  pose proof (scan_d_itoa n (bs " RTP/AVP 0") Hn eq_refl) as Hs.
  pose proof (digits_graphic _ (itoa_digits n ltac:(lia))) as Hg.
  destruct (itoa n) as [|c ds] eqn:E.
  { unfold itoa in E. rewrite (proj2 (Z.ltb_ge _ _)) in E by lia. by apply format_uint_nonempty in E. }
  apply Forall_cons in Hg as [Hg _]. cbn [app] in *. rewrite scan_space_sp by done.
  cbn [mbind option_bind]. by rewrite Hs.
Qed.

Lemma scan_ip_text w ip : w <> [] -> Forall graphic w -> scan_ip (bs "IN IP4 " ++ w) ip = w.
Proof.
  intros Hne Hw. unfold scan_ip.
  change (scan_literal (bs "IN") (bs "IN IP4 " ++ w)) with (Some (sp :: zb 73 :: bs "P4 " ++ w)).
  cbn [mbind option_bind]. rewrite scan_space_sp by (split; vm_compute; congruence).
  cbn [mbind option_bind].
  change (scan_literal (bs "IP4") (zb 73 :: bs "P4 " ++ w)) with (Some (sp :: w)).
  cbn [mbind option_bind]. destruct w as [|b w]; [done|]. pose proof Hw as [Hb _]%Forall_cons.
  rewrite scan_space_sp by done. cbn [mbind option_bind]. unfold scan_s.
  rewrite TrimLeft_graphic by done. cbn [default from_option id].
  by apply take_nonspace_graphic.
Qed.

(** ** The whole description *)

Definition session_lines (frag password : bytes) (default : UDPAddr) (candidates : list Candidate) : Session :=
  [mkLine TypeProtocolVersion (bs "0");
   mkLine TypeOrigin (bs "- 3414953978 3414953978 IN IP4 localhost");
   mkLine TypeSessionName (bs "ice");
   mkLine TypeTiming (bs "0 0");
   mkLine TypeAttribute (bs "ice-ufrag" ++ colon :: frag);
   mkLine TypeAttribute (bs "ice-pwd" ++ colon :: password);
   mkLine TypeMediaDescription (bs "audio " ++ itoa default.2 ++ bs " RTP/AVP 0");
   mkLine TypeConnectionData (bs "IN IP4 " ++ IP_String default.1)]
  ++ map (fun c => mkLine TypeAttribute (candidate_value c)) candidates.

Lemma session_text_lines frag password d cs :
  session_text frag password d cs = lines_text (session_lines frag password d cs).
Proof.
  unfold session_text, lines_text, session_lines. rewrite bind_app, !bind_cons.
  assert ((cs ≫= fun c => Candidate_String c ++ [newline])
          = (map (fun c => mkLine TypeAttribute (candidate_value c)) cs
               ≫= fun l => line_text l ++ [newline])) as ->.
  { induction cs as [|c cs IH]; [done|]. cbn [map]. rewrite !bind_cons, IH.
    by rewrite (Candidate_String_value c). }
  unfold line_text at 1 2 3 4 5 6 7 8. cbn [LType LValue].
  do 4 (rewrite <- ?app_assoc; cbn [app]). reflexivity.
Qed.

(** What can be offered: the fragments are words, the port is a port, and the
    address has text without a colon. *)
Record offer_ok (frag password : bytes) (d : UDPAddr) (cs : list Candidate) : Prop := {
  oo_frag : word frag;
  oo_password : word password;
  oo_port : 0 <= d.2 < 2 ^ 63;
  oo_ip : IP_String d.1 <> [] /\ Forall graphic (IP_String d.1);
  oo_candidates : Forall offerable cs
}.

Lemma session_lines_clean frag password d cs :
  offer_ok frag password d cs -> Forall clean_line (session_lines frag password d cs).
Proof.
  intros [(Hf1 & Hf2 & Hf3) (Hp1 & Hp2 & Hp3) Hport [Hip1 Hip2] Hcs]. unfold session_lines.
  assert (forall p w, newline ∉ p -> newline ∉ w -> newline ∉ p ++ w) as Happ by set_solver.
  assert (forall w, Forall graphic w -> newline ∉ w) as Hg.
  { intros w Hw Hin. rewrite Forall_forall in Hw. destruct (Hw _ Hin) as [H _]. by vm_compute in H. }
  apply Forall_app. split.
  - rewrite !Forall_cons, Forall_nil. split_and!; [..|done];
      (apply clean_texty; [split; vm_compute; congruence|..]).
    all: try (by apply text_no_newline).
    all: try (apply graphic_ends; [done|by apply graphic_text]).
    all: try (apply Happ; [by apply text_no_newline|];
              first [by apply Hg | apply (Happ [colon]); [by apply text_no_newline|by apply Hg]]).
    all: try (apply ends_graphic_app; first [by apply graphic_ends
              | apply (ends_graphic_app [colon]); by apply graphic_ends]).
    + apply (ends_graphic_app (bs "- 3414953978 3414953978 IN IP4 ") (bs "localhost")).
      apply graphic_ends; [done|by apply graphic_text].
    + apply (ends_graphic_app (bs "0 ") (bs "0")). apply graphic_ends; [done|by apply graphic_text].
    + apply Happ; [by apply text_no_newline|]. apply Happ; [|by apply text_no_newline].
      apply texty_no_newline, itoa_texty. lia.
    + do 2 apply ends_graphic_app. apply (ends_graphic_app (bs " RTP/AVP ") (bs "0")).
      apply graphic_ends; [done|by apply graphic_text].
  - apply Forall_forall. intros l (c & -> & Hc)%list_elem_of_fmap. rewrite Forall_forall in Hcs.
    destruct (candidate_body_text c (Hcs c Hc)) as [Hb1 Hb2].
    apply clean_texty; [split; vm_compute; congruence|..]; rewrite candidate_value_body.
    + apply Happ; [by apply text_no_newline|]. apply (Happ [colon]); [by apply text_no_newline|].
      by apply texty_no_newline.
    + apply ends_graphic_app, (ends_graphic_app [colon]). done.
Qed.

Lemma decode_attribute_split k x sd :
  colon ∉ k -> colon ∉ x ->
  decode_attribute (k ++ colon :: x) sd =
  (if bool_decide (k = bs "ice-ufrag") then st_modify (set_sd_user x)
   else if bool_decide (k = bs "ice-pwd") then st_modify (set_sd_password x)
   else if bool_decide (k = bs "candidate") then
     match parse (k ++ colon :: x) zeroCandidate with
     | (c, None) => st_modify (add_sd_candidate c)
     | (_, Some e) => st_err (CandidateError e)
     end
   else st_ret tt) sd.
Proof.
  intros Hk Hx. unfold decode_attribute. rewrite split_app_sep by done. by rewrite split_no_sep.
Qed.

(** The candidates of an offer arrive in order. *)
Lemma decode_candidates cs sd :
  Forall offerable cs ->
  exists cs', Forall2 (fun c c' => Candidate_Equal c c' = true) cs cs' /\
    decode_session_lines (map (fun c => mkLine TypeAttribute (candidate_value c)) cs) sd
    = (mkDescription (sd_user sd) (sd_password sd) (sd_defaultPort sd) (sd_defaultIP sd)
         (sd_defaut sd) (sd_candidates sd ++ cs'), Ok tt).
Proof.
  intros Hcs. revert sd. induction Hcs as [|c cs Hc Hcs IH]; intros sd.
  { exists []. split; [done|]. cbn. rewrite app_nil_r. by destruct sd. }
  destruct (candidate_roundtrip c zeroCandidate (of_printable c Hc)) as (c' & Hp & He & _).
  destruct (IH (add_sd_candidate c' sd)) as (cs' & Hcs' & Heq).
  exists (c' :: cs'). split; [by constructor|]. cbn [map decode_session_lines].
  unfold st_bind at 1. unfold decode_line. cbn [LType LValue]. rewrite Z.eqb_refl.
  rewrite (candidate_value_body c), decode_attribute_split.
  - change (bool_decide (bs "candidate" = bs "ice-ufrag")) with false.
    change (bool_decide (bs "candidate" = bs "ice-pwd")) with false.
    change (bool_decide (bs "candidate" = bs "candidate")) with true. cbn iota.
    rewrite <- (candidate_value_body c), parse_candidate_value, Hp. unfold st_modify at 1. cbn iota.
    rewrite Heq. cbn. by rewrite <- app_assoc.
  - by apply texty_no_colon, text_texty.
  - by apply texty_no_colon, candidate_body_text.
Qed.

(** What each kind of line does. *)
Lemma decode_line_other t v sd :
  t <> TypeAttribute -> t <> TypeMediaDescription -> t <> TypeConnectionData ->
  decode_line (mkLine t v) sd = (sd, Ok tt).
Proof.
  intros H1 H2 H3. unfold decode_line. cbn [LType LValue].
  by rewrite (proj2 (Z.eqb_neq _ _) H1), (proj2 (Z.eqb_neq _ _) H2), (proj2 (Z.eqb_neq _ _) H3).
Qed.
Lemma decode_line_attribute v sd : decode_line (mkLine TypeAttribute v) sd = decode_attribute v sd.
Proof. reflexivity. Qed.
Lemma decode_line_media v sd :
  decode_line (mkLine TypeMediaDescription v) sd
  = (set_sd_default (scan_port v (sd_defaultPort sd)) (sd_defaultIP sd) sd, Ok tt).
Proof. reflexivity. Qed.
Lemma decode_line_connection v sd :
  decode_line (mkLine TypeConnectionData v) sd
  = (set_sd_default (sd_defaultPort sd) (scan_ip v (sd_defaultIP sd)) sd, Ok tt).
Proof. reflexivity. Qed.

Lemma decode_session_lines_app l1 l2 sd sd' :
  decode_session_lines l1 sd = (sd', Ok tt) ->
  decode_session_lines (l1 ++ l2) sd = decode_session_lines l2 sd'.
Proof.
  revert sd. induction l1 as [|l l1 IH]; intros sd; [by intros [= <-]|]. cbn [app decode_session_lines].
  unfold st_bind. destruct (decode_line l sd) as [sd1 [[]|e|p]]; [apply IH|done..].
Qed.

(** Looking for the default candidate. *)
Lemma index_from_first i p l c :
  c ∈ l -> p c = true -> exists j c', index_from i p l = Some j /\ (i <= j)%nat /\
    l !! (j - i)%nat = Some c' /\ p c' = true.
Proof.
  revert i. induction l as [|x l IH]; intros i Hc Hp; [by apply elem_of_nil in Hc|]. cbn.
  destruct (p x) eqn:Ex.
  - exists i, x. rewrite Nat.sub_diag. split_and!; done || lia.
  - apply elem_of_cons in Hc as [->|Hc]; [congruence|].
    destruct (IH (S i) Hc Hp) as (j & c' & Hj & Hle & Hl & Hpc). exists j, c'. split; [done|].
    split; [lia|]. split; [|done]. replace (j - i)%nat with (S (j - S i)) by lia. done.
Qed.

Lemma decode_offer frag password d cs c0 :
  offer_ok frag password d cs -> c0 ∈ cs -> addr c0 = udpAddrToAddr d ->
  exists cs' j c', decodeSession (session_text frag password d cs)
    = (mkDescription frag password d.2 (IP_String d.1) (Some j) cs', Ok tt) /\
    Forall2 (fun c c' => Candidate_Equal c c' = true) cs cs' /\
    cs' !! j = Some c' /\ addr c' = udpAddrToAddr d.
Proof.
  intros Hok Hc0 Ha. pose proof Hok as [(Hf1 & Hf2 & Hf3) (Hp1 & Hp2 & Hp3) Hport [Hip1 Hip2] Hcs].
  destruct (decode_candidates cs (mkDescription frag password d.2 (IP_String d.1) None []) Hcs)
    as (cs' & Heq & Hdec). cbn in Hdec.
  apply list_elem_of_lookup_1 in Hc0 as [k Hk]. destruct (Forall2_lookup_l _ _ _ _ _ Heq Hk) as (c1 & Hk1 & He1).
  apply Candidate_Equal_addr in He1. rewrite Ha in He1.
  destruct (index_from_first 0 (fun c => bool_decide (addr c = udpAddrToAddr d)) cs' c1) as (j & c' & Hj & _ & Hl & Hc');
    [by eapply list_elem_of_lookup_2|by apply bool_decide_eq_true|].
  rewrite Nat.sub_0_r in Hl. exists cs', j, c'. split; [|by split_and!; [..|apply bool_decide_eq_true in Hc']].
  unfold decodeSession. rewrite DecodeSession_lines, session_text_lines.
  rewrite <- (app_nil_r (lines_text _)), lines_of_lines_text by (by apply session_lines_clean).
  rewrite lines_of_nil, app_nil_r, decode_all_text by (by apply session_lines_clean). cbn [app].
  unfold st_bind at 1. unfold session_lines.
  rewrite (decode_session_lines_app _ _ _ (mkDescription frag password d.2 (IP_String d.1) None [])).
  - rewrite Hdec. unfold check_description. unfold st_bind, st_get. cbn [sd_user sd_password sd_defaultIP sd_candidates sd_defaultPort].
    assert (forall w : bytes, w <> [] -> (length w =? 0)%nat = false) as Hlen by (by intros []).
    rewrite !Hlen by done. destruct cs' as [|x cs']; [done|]. cbn [length Nat.eqb orb].
    unfold udpAddrToAddr in Hj. rewrite Hj. reflexivity.
  - cbn [decode_session_lines]. unfold st_bind.
    rewrite (decode_line_other TypeProtocolVersion), (decode_line_other TypeOrigin),
      (decode_line_other TypeSessionName), (decode_line_other TypeTiming) by done.
    rewrite decode_line_attribute, decode_attribute_split by (done || by apply texty_no_colon, text_texty).
    change (bool_decide (bs "ice-ufrag" = bs "ice-ufrag")) with true. cbn iota.
    unfold st_modify at 1. cbn iota.
    rewrite decode_line_attribute, decode_attribute_split by (done || by apply texty_no_colon, text_texty).
    change (bool_decide (bs "ice-pwd" = bs "ice-ufrag")) with false.
    change (bool_decide (bs "ice-pwd" = bs "ice-pwd")) with true. cbn iota.
    unfold st_modify at 1. cbn iota.
    rewrite decode_line_media, decode_line_connection, scan_port_text, scan_ip_text by done.
    reflexivity.
Qed.

(** C14: Offer and answer.  The text an agent makes of its session is what a peer
    reads from it: the fragment and the password, every candidate equal to the
    one offered and in the same order, and as the default one the candidate
    with the address of the agent's default candidate.  The credentials are
    words, the addresses are printable, and that of the default candidate is
    in the form the net package prints. *)
Theorem offer_answered t s d :
  let cs := tc_candidates (component t) in
  t_session t = Some s -> defaultCandidate (component t) = Some d -> d ∈ cs ->
  word (rxUserFrag s) -> word (rxPassword s) -> Forall offerable cs ->
  udpAddrToAddr (addrToUDPAddr (addr d)) = addr d -> 0 <= (addrToUDPAddr (addr d)).2 < 2 ^ 16 ->
  exists text sd, EncodeSession t = (t, Ok text) /\ decodeSession text = (sd, Ok tt) /\
    sd_user sd = rxUserFrag s /\ sd_password sd = rxPassword s /\
    Forall2 (fun c c' => Candidate_Equal c c' = true) cs (sd_candidates sd) /\
    (exists j c', sd_defaut sd = Some j /\ sd_candidates sd !! j = Some c' /\ addr c' = addr d).
Proof.
  intros cs Hs Hd Hin Hf Hp Hcs Hcan Hport.
  assert (offer_ok (rxUserFrag s) (rxPassword s) (addrToUDPAddr (addr d)) cs) as Hok.
  { split; try done; [lia|]. pose proof Hcs as Hall. rewrite Forall_forall in Hall.
    destruct (Hall d Hin) as [[_ _ _ _ _ (host & port & Ha & (Hh & _ & Hhc & _) & _) _] Hg _].
    unfold udpAddrToAddr in Hcan. split.
    - intros E. rewrite E, Ha in Hcan. destruct host as [|b host]; [done|].
      injection Hcan as Hb _. subst b. set_solver.
    - rewrite <- Hcan in Hg. by apply Forall_app in Hg as [? _]. }
  destruct (decode_offer _ _ _ _ d Hok Hin (eq_sym Hcan)) as (cs' & j & c' & Hdec & Heq & Hj & Ha).
  eexists _, _. split; [unfold EncodeSession, st_bind, st_get; rewrite Hs, Hd; reflexivity|].
  refine (conj Hdec (conj eq_refl (conj eq_refl (conj Heq _)))).
  exact (ex_intro _ j (ex_intro _ c' (conj eq_refl (conj Hj (eq_trans Ha Hcan))))).
Qed.

(** The credentials that [newIceSession] draws can be offered. *)
Lemma random_credentials_word io rnd n v :
  (0 < n)%nat -> rnd n = inl v -> length v = n ->
  exists w, RandomString io rnd n = Ok w /\ length w = n /\ word w.
Proof.
  intros Hn Hr Hv. destruct (RandomString_letters io rnd n v Hr Hv) as (w & Hw & Hl & Hf).
  exists w. split; [done|]. split; [done|]. split; [by intros ->; cbn in Hl; lia|].
  unfold base32_letter in Hf. split; [eapply Forall_impl; [exact Hf|]; unfold graphic; lia|].
  intros Hc. rewrite Forall_forall in Hf. specialize (Hf _ Hc). vm_compute in Hf. naive_solver.
Qed.

(** * The report of the result *)

Definition is_complete (u : upcall) : bool :=
  match u with OnIceComplete _ => true | _ => false end.
Definition completions (t : StreamTransport) : list upcall := filter is_complete (upcalls t).

(** The state of the transport and its reports follow the notifications of the
    session. *)
Inductive reported (t : StreamTransport) (s : session) : Prop :=
| ReportPending :
    State t = TransportStateNegotiation -> completions t = [] -> notified s = 0%nat -> reported t s
| ReportMade r :
    State t = (match r with None => TransportStateRunning | Some _ => TransportStateFailed end) ->
    completions t = (if cb t then [OnIceComplete r] else []) ->
    notified s = 1%nat -> (2 <= result_rank (completeResult s))%nat -> reported t s.

Section Reports.
Context `{GoRuntime} `{SortSort}.
Variable supportsUnaligned : bool.
Variable channelBind_ok : bytes -> bool.

Definition notices (l : list event) : list event := filter is_notify l.

Lemma deliver_no_notice l t :
  notices l = [] ->
  exists t', deliver l t = (t', Ok tt) /\ State t' = State t /\ completions t' = completions t /\
    t_session t' = t_session t /\ cb t' = cb t.
Proof.
  revert t. induction l as [|e l IH]; intros t Hl; [by exists t|].
  unfold notices in Hl. rewrite filter_cons in Hl. case_decide as He; [done|].
  cbn [deliver]. unfold st_bind.
  assert (exists t1, deliver_one e t = (t1, Ok tt) /\ State t1 = State t /\
            completions t1 = completions t /\ t_session t1 = t_session t /\ cb t1 = cb t)
    as (t1 & -> & H1 & H2 & H3 & H4).
  { destruct e; try (by exists t). cbn. unfold onRxData, up, st_bind, st_get.
    destruct (cb t) eqn:Ecb; [|by exists t]. eexists. split; [reflexivity|]. by split_and!. }
  destruct (IH t1 Hl) as (t' & -> & ? & ? & ? & ?). exists t'. split_and!; congruence.
Qed.

Lemma deliver_app l1 l2 t t' : deliver l1 t = (t', Ok tt) -> deliver (l1 ++ l2) t = deliver l2 t'.
Proof.
  revert t. induction l1 as [|e l1 IH]; intros t; [by intros [= ->]|]. cbn [deliver app].
  unfold st_bind. destruct (deliver_one e t) as [t1 [[]|?|?]]; [apply IH|done..].
Qed.

Lemma onIceComplete_pending r t :
  State t = TransportStateNegotiation -> completions t = [] ->
  exists t', onIceComplete r t = (t', Ok tt) /\
    State t' = (match r with None => TransportStateRunning | Some _ => TransportStateFailed end) /\
    completions t' = (if cb t then [OnIceComplete r] else []) /\
    t_session t' = t_session t /\ cb t' = cb t.
Proof.
  intros Ht Hc. unfold onIceComplete, st_bind, st_get, st_modify, up. rewrite Ht.
  change (negb (bool_decide (TransportStateNegotiation = TransportStateNegotiation))) with false.
  unfold st_bind, st_get. cbn [cb set_State]. destruct (cb t) eqn:Ecb; eexists; (split; [reflexivity|]).
  - cbn [State set_upcalls set_State]. split; [by destruct r|]. split; [|done].
    unfold completions. cbn [upcalls set_upcalls set_State]. rewrite filter_cons, decide_True by done.
    fold (completions t). by rewrite Hc.
  - cbn. split; [by destruct r|]. by split_and!.
Qed.

(** One notice among the events: it is delivered where it stands. *)
Lemma deliver_one_notice l r t :
  notices l = [EvNotify r] -> State t = TransportStateNegotiation -> completions t = [] ->
  exists t', deliver l t = (t', Ok tt) /\
    State t' = (match r with None => TransportStateRunning | Some _ => TransportStateFailed end) /\
    completions t' = (if cb t then [OnIceComplete r] else []) /\
    t_session t' = t_session t /\ cb t' = cb t.
Proof.
  intros Hl Ht Hc.
  assert (exists l1 l2, l = l1 ++ EvNotify r :: l2 /\ notices l1 = [] /\ notices l2 = [])
    as (l1 & l2 & -> & H1 & H2).
  { clear Ht Hc. induction l as [|e l IH]; [done|]. unfold notices in *. rewrite filter_cons in Hl.
    case_decide as He.
    - injection Hl as -> Hl. by exists [], l.
    - destruct (IH Hl) as (l1 & l2 & -> & H1 & H2). exists (e :: l1), l2. split; [done|].
      split; [|done]. rewrite filter_cons. by rewrite decide_False. }
  destruct (deliver_no_notice l1 t H1) as (t1 & E1 & S1 & C1 & T1 & B1).
  rewrite (deliver_app _ _ _ _ E1). cbn [deliver]. unfold st_bind. cbn [deliver_one].
  destruct (onIceComplete_pending r t1) as (t2 & -> & S2 & C2 & T2 & B2); [congruence..|].
  destruct (deliver_no_notice l2 t2 H2) as (t3 & -> & S3 & C3 & T3 & B3).
  exists t3. rewrite S3, S2, C3, C2, T3, T2, B3, B2, B1. by split_and!.
Qed.

Lemma new_events_app s s' l : events s' = l ++ events s -> new_events s s' = rev l.
Proof.
  intros E. unfold new_events. rewrite E, length_app.
  replace (length l + length (events s) - length (events s))%nat with (length l) by lia.
  by rewrite take_app_length.
Qed.

Lemma evolves_events s s' :
  evolves s s' ->
  exists l, events s' = l ++ events s /\
    (notices (rev l) = [] /\ notified s' = notified s \/
     (exists r, notices (rev l) = [EvNotify r]) /\ notified s' = S (notified s) /\
     (result_rank (completeResult s) < 2)%nat /\ (2 <= result_rank (completeResult s'))%nat) /\
    (result_rank (completeResult s) <= result_rank (completeResult s'))%nat.
Proof.
  intros (r0 & [_ _ Hr [l Hl] _ _ _ Hn]). cbn in Hr, Hl, Hn. exists l. split; [done|].
  unfold notified in Hn |- *. cbn in Hn. rewrite Hl, filter_app, length_app in Hn.
  assert (length (notices (rev l)) = length (filter is_notify l)) as Hrev.
  { unfold notices. by rewrite (filter_Permutation _ _ _ (Permutation_rev l)). }
  split; [|done]. rewrite Hl, filter_app, length_app. destruct Hn as [Hn|(Hn & H1 & H2)].
  - left. split; [|lia]. apply length_zero_iff_nil. lia.
  - right. split; [|lia]. destruct (notices (rev l)) as [|e [|? ?]] eqn:E; cbn in Hrev; try lia.
    assert (e ∈ notices (rev l)) as He by (rewrite E; set_solver).
    unfold notices in He. apply list_elem_of_filter in He as [He _]. destruct e; try done. by eexists.
Qed.

Lemma on_session_reported {A} (c : SM A) t s :
  keeps evolves c -> t_session t = Some s -> reported t s ->
  exists t' s' r, c s = (s', r) /\ t_session t' = Some s' /\ reported t' s' /\ cb t' = cb t /\
    on_session c t = (t', match r with Ok a => Ok a | Err e => Err (SessionStopped e) | Panic p => Panic p end).
Proof.
  intros Hc Hs Hrep. specialize (Hc s). unfold on_session. rewrite Hs.
  destruct (c s) as [s' r] eqn:Ec. cbn in Hc.
  destruct (evolves_events s s' Hc) as (l & Hl & Hcases & Hrank).
  rewrite (new_events_app _ _ _ Hl).
  destruct Hcases as [[Hno Hn]|((r0 & Hone) & Hn & Hlt & Hge)].
  - destruct (deliver_no_notice (rev l) (set_session (Some s') t) Hno) as (t' & -> & S1 & C1 & T1 & B1).
    exists t', s', r. split; [done|]. split; [exact T1|]. split; [|split; [exact B1|done]].
    destruct Hrep as [H1 H2 H3|r1 H1 H2 H3 H4].
    + apply ReportPending; [by rewrite S1|by rewrite C1|congruence].
    + apply (ReportMade _ _ r1); [by rewrite S1|rewrite C1, B1; exact H2|congruence|lia].
  - destruct Hrep as [H1 H2 H3|r1 H1 H2 H3 H4]; [|lia].
    destruct (deliver_one_notice (rev l) r0 (set_session (Some s') t) Hone) as (t' & -> & S1 & C1 & T1 & B1);
      [done..|].
    exists t', s', r. split; [done|]. split; [exact T1|]. split; [|split; [exact B1|done]].
    apply (ReportMade _ _ r0); [done|rewrite C1, B1; done|lia|done].
Qed.

Lemma run_transport_reported xs t s :
  t_session t = Some s -> reported t s ->
  exists t' s', t_session t' = Some s' /\ reported t' s' /\ cb t' = cb t /\
    s' = run_session supportsUnaligned channelBind_ok xs s /\
    ((exists p x s0, run_transport supportsUnaligned channelBind_ok xs t = (t', Some p) /\
        (handle supportsUnaligned channelBind_ok x s0).2 = Panic p) \/
     run_transport supportsUnaligned channelBind_ok xs t = (t', None)).
Proof.
  revert t s. induction xs as [|x xs IH]; intros t s Hs Hr.
  { exists t, s. split_and!; try done. by right. }
  destruct (on_session_reported (handle supportsUnaligned channelBind_ok x) t s
              (handle_evolves supportsUnaligned channelBind_ok x) Hs Hr)
    as (t1 & s1 & r & Hh & Hs1 & Hr1 & Hb1 & Ho).
  cbn [run_transport run_session]. rewrite Ho, Hh.
  destruct r as [a|e|p]; [| |exists t1, s1; split_and!; try done; left; exists p, x, s; by rewrite Hh].
  all: destruct (IH t1 s1 Hs1 Hr1) as (t' & s' & ? & ? & ? & ? & ?);
    exists t', s'; split_and!; try done; congruence.
Qed.
(** The transport has a session and its reports follow it. *)
Definition follows (b : bool) (t : StreamTransport) : Prop :=
  exists s, t_session t = Some s /\ reported t s /\ cb t = b.

Lemma quiet_evolves s s' : quiet s s' -> evolves s s'.
Proof. intros Hq. by apply advances_evolves, quiet_advances. Qed.

Lemma on_session_keeps_report {A} (c : SM A) t s :
  keeps evolves c -> t_session t = Some s -> reported t s ->
  follows (cb t) (on_session c t).1.
Proof.
  intros Hc Hs Hr. destruct (on_session_reported c t s Hc Hs Hr) as (t' & s' & r & _ & H1 & H2 & H3 & H4).
  rewrite H4. by exists s'.
Qed.

Lemma StartNegotiation_reported sdp permission t s :
  t_session t = Some s -> State t = TransportStateSessionReady -> completions t = [] ->
  notified s = 0%nat ->
  follows (cb t) (StartNegotiation channelBind_ok sdp permission t).1.
Proof.
  intros Hs Ht Hc Hn. unfold StartNegotiation. unfold st_bind at 1, st_get at 1.
  rewrite Hs, Ht. rewrite bool_decide_eq_false_2 by done. cbn [orb negb].
  change (bool_decide (TransportStateSessionReady = TransportStateSessionReady)) with true. cbn [negb].
  unfold st_bind at 1, st_modify at 1. set (t1 := set_State _ t).
  assert (reported t1 s) as Hr by (by apply ReportPending).
  assert (t_session t1 = Some s) as Hs1 by done. assert (cb t1 = cb t) as Hb1 by done.
  clearbody t1. destruct (decodeSession sdp) as [sd [[]|e|p]];
    [|exists s; split_and!; assumption..].
  unfold st_bind at 1.
  destruct (on_session_keeps_report (createCheckList sd) t1 s) as (s2 & Hs2 & Hr2 & Hb2); [|done..|].
  { eapply keeps_mono; [exact quiet_evolves|apply createCheckList_quiet]. }
  destruct (on_session (createCheckList sd) t1) as [t2 [[e|]|e|p]]; cbn [fst] in *;
    try (exists s2; split_and!; [exact Hs2|exact Hr2|cbn; congruence]).
  unfold st_bind at 1.
  destruct (on_session_keeps_report (createTurnPermissionIfNeeded permission) t2 s2)
    as (s3 & Hs3 & Hr3 & Hb3); [by intros s'; exists (role s'); rewrite set_role_same|done..|].
  destruct (on_session (createTurnPermissionIfNeeded permission) t2) as [t3 [[]|e|p]]; cbn [fst negb] in *;
    try (exists s3; split_and!; [exact Hs3|exact Hr3|cbn; congruence]).
  unfold st_bind at 1.
  destruct (on_session_keeps_report (startCheck channelBind_ok) t3 s3) as (s4 & Hs4 & Hr4 & Hb4);
    [eapply keeps_mono; [exact advances_evolves|apply startCheck_advances]|done..|].
  destruct (on_session (startCheck channelBind_ok) t3) as [t4 [[]|e|p]]; cbn [fst negb] in *;
    exists s4; (split_and!; [exact Hs4|exact Hr4|cbn; congruence]).
Qed.

(** C18: From [StartNegotiation] on, whatever the description says and whatever
    then reaches the session in whatever order: the upper layer gets at most one
    [OnIceComplete], the transport is running exactly when success was
    reported and failed when an error was, it never panics unless a handler of
    the session does, its session is the one that ran, and a second
    [StartNegotiation] is refused. *)
Theorem result_reported_once sdp permission xs t s :
  t_session t = Some s -> State t = TransportStateSessionReady -> cb t = true ->
  completions t = [] -> notified s = 0%nat ->
  let t1 := (StartNegotiation channelBind_ok sdp permission t).1 in
  let '(t2, p) := run_transport supportsUnaligned channelBind_ok xs t1 in
  match State t2 with
  | TransportStateNegotiation => completions t2 = []
  | TransportStateRunning => completions t2 = [OnIceComplete None]
  | TransportStateFailed => exists e, completions t2 = [OnIceComplete (Some e)]
  | _ => False
  end /\
  (forall q, p = Some q -> exists x s0, (handle supportsUnaligned channelBind_ok x s0).2 = Panic q) /\
  t_session t2 = run_session supportsUnaligned channelBind_ok xs <$> t_session t1 /\
  (forall sdp' permission', (StartNegotiation channelBind_ok sdp' permission' t2).2 = Err NoSession).
Proof.
  intros Hs Ht Hb Hc Hn t1.
  destruct (StartNegotiation_reported sdp permission t s Hs Ht Hc Hn) as (s1 & Hs1 & Hr1 & Hb1).
  fold t1 in Hs1, Hr1, Hb1.
  destruct (run_transport_reported xs t1 s1 Hs1 Hr1) as (t2 & s2 & Hs2 & Hr2 & Hb2 & -> & Hrun).
  assert (exists p, run_transport supportsUnaligned channelBind_ok xs t1 = (t2, p) /\
    (forall q, p = Some q -> exists x s0, (handle supportsUnaligned channelBind_ok x s0).2 = Panic q))
    as (p & -> & Hp).
  { destruct Hrun as [(p & x & s0 & -> & Hh)| ->]; eexists; (split; [reflexivity|]); [|done].
    intros q [= <-]. by exists x, s0. }
  assert (State t2 <> TransportStateSessionReady) as Hnr.
  { destruct Hr2 as [-> _ _|r -> _ _ _]; [done|by destruct r]. }
  split; [|split; [exact Hp|split]].
  - destruct Hr2 as [-> -> _|r -> -> _ _]; [done|]. rewrite Hb2, Hb1, Hb. destruct r; [by eexists|done].
  - by rewrite Hs2, Hs1.
  - intros sdp' permission'. unfold StartNegotiation, st_bind at 1, st_get at 1. rewrite Hs2.
    rewrite (bool_decide_eq_false_2 (State t2 = _)) by done. by rewrite orb_true_r.
Qed.
End Reports.

(** * [Stop] *)

Lemma on_session_quiet {A} (c : SM A) t s :
  keeps quiet c -> t_session t = Some s ->
  exists t', State t' = State t /\ t_session t' = Some (c s).1 /\
    on_session c t = (t', match (c s).2 with
                          | Ok a => Ok a | Err e => Err (SessionStopped e) | Panic p => Panic p end).
Proof.
  intros Hc Hs. specialize (Hc s). unfold on_session. rewrite Hs.
  destruct (c s) as [s' r]. cbn [fst snd] in *. pose proof (qu_notified _ _ Hc) as Hn.
  destruct (evolves_events s s' (quiet_evolves _ _ Hc)) as (l & Hl & [[Hno _]|(_ & ? & _)] & _); [|lia].
  rewrite (new_events_app _ _ _ Hl).
  destruct (deliver_no_notice (rev l) (set_session (Some s') t) Hno) as (t' & -> & ? & _ & ? & _).
  by exists t'.
Qed.

Definition closed_panic : panic := PanicCall (bs "close of closed channel").
Definition closed_at (s : session) (i : nat) : Prop := exists b, chans s !! i = Some (mkChan b true).

Lemma close_all_chans s :
  exists ev, close_all s = (set_events ev s, Ok tt) /\ suffix (events s) ev.
Proof.
  unfold close_all. unfold st_bind at 1, st_get at 1. generalize (map_to_list (serverSocks s)). intros l.
  revert s. induction l as [|kv l IH]; intros s; cbn [for_each].
  { exists (events s). split; [by destruct s|done]. }
  destruct (IH (set_events (EvClose kv.2 :: events s) s)) as (ev & E & Hev).
  exists ev. split; [exact E|]. cbn in Hev. etrans; [|exact Hev]. by apply suffix_cons_r.
Qed.

(** Closing a list of channels: if it succeeds all of them are closed, and one
    that was closed stops it. *)
Lemma close_chans_ok (l : list (bytes * nat)) s s' :
  for_each l (fun kv => close_chan (Some kv.2)) s = (s', Ok tt) ->
  checkMap s' = checkMap s /\ hasStopped s' = hasStopped s /\ (forall i, closed_at s i -> closed_at s' i) /\
  Forall (fun kv => closed_at s' kv.2) l.
Proof.
  revert s. induction l as [|[k i] l IH]; intros s; cbn [for_each].
  { intros [= <-]. by split_and!. }
  unfold st_bind at 1. unfold close_chan at 1. cbn [snd].
  destruct (chans s !! i) as [c|] eqn:Ec; [|done]. destruct (is_closed c) eqn:Ecl; [done|].
  intros H1. destruct (IH _ H1) as (H2 & H3 & H4 & H5).
  assert (forall j, closed_at s j \/ j = i ->
    closed_at (set_chans (<[i := mkChan (buf c) true]> (chans s)) s) j) as Hk.
  { intros j Hj. unfold closed_at. cbn [chans set_chans]. destruct (decide (j = i)) as [->|Hne].
    - exists (buf c). apply list_lookup_insert_eq. by eapply lookup_lt_Some.
    - destruct Hj as [[b Hj]|Hj]; [|done]. exists b. by rewrite list_lookup_insert_ne. }
  split_and!; [done|done| |].
  - intros j Hj. apply H4, Hk. by left.
  - constructor; [|done]. apply H4, Hk. by right.
Qed.
Lemma close_chans_closed (l : list (bytes * nat)) s :
  Forall (fun kv => closed_at s kv.2) l ->
  for_each l (fun kv => close_chan (Some kv.2)) s
  = (s, match l with [] => Ok tt | _ => Panic closed_panic end).
Proof.
  destruct l as [|[k i] l]; [done|]. intros [[b Hb] _]%Forall_cons. cbn in Hb.
  cbn [for_each]. unfold st_bind at 1, close_chan at 1. cbn [snd]. by rewrite Hb.
Qed.

(** A [Stop] that comes to its end leaves a session whose next one panics. *)
Lemma Stop_twice s s' : Stop s = (s', Ok tt) -> (Stop s').2 = Panic closed_panic.
Proof.
  intros H1. assert (hasStopped s' = true /\ Forall (fun kv => closed_at s' kv.2) (map_to_list (checkMap s')))
    as [Hst Hcl].
  { unfold Stop in H1. unfold st_bind at 1, st_get at 1, st_bind at 1, st_modify at 1 in H1.
    destruct (close_all_chans (set_hasStopped true s)) as (ev & E & _).
    unfold st_bind at 1 in H1. rewrite E in H1. unfold st_bind at 1 in H1.
    cbn [checkMap set_hasStopped] in H1.
    destruct (for_each _ _ _) as [s2 [[]|e|p]] eqn:Ef; [|done..].
    destruct (close_chans_ok _ _ _ Ef) as (E1 & E2 & _ & E4). cbn in E1, E2.
    destruct (hasStopped s); [done|]. injection H1 as <-. split; [done|]. by rewrite E1. }
  unfold Stop. unfold st_bind at 1, st_get at 1, st_bind at 1, st_modify at 1.
  destruct (close_all_chans (set_hasStopped true s')) as (ev & E & _).
  unfold st_bind at 1. rewrite E. unfold st_bind at 1. cbn [checkMap set_hasStopped].
  rewrite close_chans_closed by done. destruct (map_to_list (checkMap s')); [by rewrite Hst|done].
Qed.

Lemma Stop_quiet : keeps quiet Stop.
Proof.
  unfold Stop, close_all. pose proof close_chan_quiet. keeps_walk.
Qed.

(** [Stop] is not final.  A first [Stop] that comes to its end leaves the
    transport failed and not stopped, so the test at the head of [Stop] never
    holds: the next [Stop] closes channels that are closed, which panics; and
    if the end of the negotiation is reported after a [Stop] the report panics. *)
Theorem second_Stop_panics t t' s :
  t_session t = Some s -> State t <> TransportStateStopped -> Transport_Stop t = (t', Ok tt) ->
  State t' = TransportStateFailed /\ (Transport_Stop t').2 = Panic closed_panic /\
  (forall r, (onIceComplete r t').2 = Panic (PanicCall (bs "only finish once"))).
Proof.
  intros Hs Hst. unfold Transport_Stop at 1. unfold st_bind at 1, st_get at 1.
  rewrite bool_decide_eq_false_2 by done. unfold st_bind at 1, st_modify at 1.
  cbn [t_session set_State]. rewrite Hs.
  destruct (on_session_quiet Stop (set_State TransportStateFailed t) s Stop_quiet Hs)
    as (t1 & Hst1 & Hs1 & ->).
  destruct (Stop s) as [s' r] eqn:E. cbn [fst snd] in *. destruct r as [[]|e|p]; [|done..].
  intros [= <-]. split; [exact Hst1|]. apply Stop_twice in E. split.
  - unfold Transport_Stop. unfold st_bind at 1, st_get at 1. rewrite Hst1.
    rewrite bool_decide_eq_false_2 by done. unfold st_bind at 1, st_modify at 1.
    cbn [t_session set_State]. rewrite Hs1.
    destruct (on_session_quiet Stop (set_State TransportStateFailed t1) s' Stop_quiet Hs1)
      as (t2 & _ & _ & ->). cbn [snd]. by rewrite E.
  - intros r. unfold onIceComplete. unfold st_bind at 1, st_get at 1. by rewrite Hst1.
Qed.

(** * Witnesses *)

Definition offered : list Candidate :=
  [mkCandidate (bs "10.0.0.1:4000") (bs "10.0.0.1:4000") [] TransportUDP [] 11 1 2130706431
     CandidateHost 0 0 [];
   mkCandidate (bs "203.0.113.7:40000") (bs "10.0.0.1:4000") [] TransportUDP [] 11 1 1694498815
     CandidateServerReflexive 0 0 []].
Definition offering : StreamTransport :=
  mkTransport NewTransportConfigHostonly (HostTransporter (mkHostOnly [bs "10.0.0.1:4000"]))
    (mkComponent 1 offered (last offered)) TransportStateSessionReady
    (Some (newIceSession SessionRoleControlling offered (bs "abcdefgh") (bs "ijklmnop") 42))
    true [].

Lemma offered_ok : Forall offerable offered.
Proof.
  assert (plain (bs "10.0.0.1") /\ plain (bs "4000") /\ plain (bs "203.0.113.7") /\ plain (bs "40000"))
    as (H1 & H2 & H3 & H4) by (split_and!; apply plain_text; done).
  unfold offered. rewrite !Forall_cons, Forall_nil. split_and!; [..|done].
  all: split; [|by apply graphic_text|intros _; by apply graphic_text].
  - split; cbn [Foundation ComponentID Priority transport Type_ addr baseAddr]; try lia; try done.
    by exists (bs "10.0.0.1"), (bs "4000").
  - split; cbn [Foundation ComponentID Priority transport Type_ addr baseAddr]; try lia; try done.
    + by exists (bs "203.0.113.7"), (bs "40000").
    + intros _. exists (bs "10.0.0.1"), (bs "4000"). split_and!; try done. cbn. lia.
Qed.

Lemma offer_answered_witness :
  exists text sd, EncodeSession offering = (offering, Ok text) /\ decodeSession text = (sd, Ok tt) /\
    sd_user sd = bs "abcdefgh" /\ length (sd_candidates sd) = 2%nat.
Proof.
  assert (forall w, w <> [] ->
    forallb (fun b => (33 <=? bz b) && (bz b <=? 126)) w = true -> index_of colon w = None -> word w) as Hw.
  { intros w Hne Hg Hc. split; [done|]. split; [by apply graphic_text|by apply index_of_None]. }
  destruct (offer_answered offering
    (newIceSession SessionRoleControlling offered (bs "abcdefgh") (bs "ijklmnop") 42)
    (nth 1 offered zeroCandidate) eq_refl eq_refl ltac:(apply elem_of_cons; right; by constructor)
    ltac:(by apply Hw) ltac:(by apply Hw) offered_ok ltac:(vm_compute; reflexivity)
    ltac:(vm_compute; split; [discriminate|reflexivity])) as (text & sd & H1 & H2 & H3 & _ & H5 & _).
  exists text, sd. split; [exact H1|]. split; [exact H2|]. split; [exact H3|].
  symmetry. exact (Forall2_length _ _ _ H5).
Defined.

(** The answer of a peer with one host candidate. *)
Definition answer : bytes :=
  session_text (bs "qrstuvwx") (bs "yzyzyzyz") (ParseIP (bs "10.0.0.8"), 5000)
    [mkCandidate (bs "10.0.0.8:5000") (bs "10.0.0.8:5000") [] TransportUDP [] 12 1 2130706431
       CandidateHost 0 0 []].
Abbreviation negotiating := (StartNegotiation (fun _ => true) answer None offering).
Abbreviation negotiated :=
  (run_transport (H := doubling_runtime) (H0 := stable_sort) false (fun _ => true)
     [InTryFail 0; InTryFail 1; InTimer] negotiating.1).

Lemma result_reported_once_witness :
  negotiating.2 = Ok tt /\ State negotiated.1 = TransportStateFailed /\
  exists e, completions negotiated.1 = [OnIceComplete (Some e)].
Proof.
  assert (negotiating.2 = Ok tt) as E1 by (vm_compute; reflexivity).
  assert (State negotiated.1 = TransportStateFailed) as E2 by (vm_compute; reflexivity).
  refine (conj E1 (conj E2 _)).
  pose proof (result_reported_once (H := doubling_runtime) (H0 := stable_sort) false (fun _ => true)
    answer None [InTryFail 0; InTryFail 1; InTimer] offering
    (newIceSession SessionRoleControlling offered (bs "abcdefgh") (bs "ijklmnop") 42)
    eq_refl eq_refl eq_refl eq_refl eq_refl) as H. cbv zeta in H.
  destruct negotiated as [t2 p]. cbn [fst] in *. rewrite E2 in H. exact (proj1 H).
Defined.

Lemma second_Stop_panics_witness :
  (Transport_Stop (Transport_Stop offering).1).2 = Panic closed_panic.
Proof.
  destruct (second_Stop_panics offering (Transport_Stop offering).1
    (newIceSession SessionRoleControlling offered (bs "abcdefgh") (bs "ijklmnop") 42)
    eq_refl ltac:(discriminate) ltac:(reflexivity)) as (_ & H & _).
  exact H.
Defined.
