(* ===== verification/SdpDecoderProps.v ===== *)
(** Properties of the SDP decoder: which lines it accepts, that it ends, what
    makes it panic, and that it reads what the encoder writes. *)
From stdpp Require Import base list gmap sets strings.
From Stdlib Require Import ZArith Lia.
From S2P Require Import Prelude GoFmt Utf8 Sdp SdpProps NetAddr Turn SdpFields SdpDecoder.
Open Scope Z_scope.

(** * Which lines are accepted *)

(** What [isExpected] accepts, without its recursion. *)
Definition accepts (t : Z) (s : section) (pos : nat) : Prop :=
  match s with
  | sectionSession =>
      t ∈ drop pos orderingSession \/ (pos < orderingAfterTime)%nat /\ t ∈ orderingTime
      \/ t ∈ orderingMedia
  | sectionTime => t ∈ drop pos orderingTime \/ t ∈ orderingMedia
  | sectionMedia => t ∈ drop pos orderingMedia \/ pos <> 0%nat /\ t ∈ orderingMedia
  end.

Lemma in_ordering_spec t o : in_ordering t o = bool_decide (t ∈ o).
Proof.
  induction o as [|x o IH]; cbn; [by rewrite bool_decide_eq_false_2 by set_solver|].
  destruct (Z.eqb_spec x t) as [->|Hne]; [by rewrite bool_decide_eq_true_2 by set_solver|].
  assert (bool_decide (t ∈ x :: o) = bool_decide (t ∈ o)) as ->
    by (apply bool_decide_ext; set_solver).
  rewrite IH. by repeat case_match.
Qed.

Lemma ordering_test t s pos :
  (pos <? length (getOrdering s))%nat && in_ordering t (drop pos (getOrdering s))
  = bool_decide (t ∈ drop pos (getOrdering s)).
Proof.
  rewrite in_ordering_spec. destruct (Nat.ltb_spec pos (length (getOrdering s))); [done|].
  cbn. rewrite bool_decide_eq_false_2; [done|]. rewrite drop_ge by done. set_solver.
Qed.

Lemma isExpected_step fuel t s pos :
  isExpected_from (S fuel) t s pos = None <->
  t ∈ drop pos (getOrdering s) \/
  match s with
  | sectionSession =>
      (pos < orderingAfterTime)%nat /\ isExpected_from fuel t sectionTime 0 = None
      \/ isExpected_from fuel t sectionMedia 0 = None
  | sectionTime =>
      isExpected_from fuel t sectionSession orderingAfterTime = None
      \/ isExpected_from fuel t sectionMedia 0 = None
  | sectionMedia => pos <> 0%nat /\ isExpected_from fuel t sectionMedia 0 = None
  end.
Proof.
  cbn [isExpected_from]. rewrite ordering_test. case_bool_decide as Hin; [tauto|].
  destruct s.
  - destruct (Nat.ltb_spec pos orderingAfterTime); cbn [andb]; repeat case_bool_decide; intuition (try done; try lia).
  - repeat case_bool_decide; intuition done.
  - destruct (Nat.eqb_spec pos 0); cbn [negb andb]; repeat case_bool_decide; intuition done.
Qed.

Lemma isExpected_media fuel t : isExpected_from (S fuel) t sectionMedia 0 = None <-> t ∈ orderingMedia.
Proof. rewrite isExpected_step. cbn [getOrdering drop]. intuition done. Qed.

Lemma isExpected_accepts fuel t s pos :
  (4 <= fuel)%nat -> isExpected_from fuel t s pos = None <-> accepts t s pos.
Proof.
  intros Hf. destruct fuel as [|[|[|[|fuel]]]]; try lia. unfold accepts.
  assert (forall t : Z, t ∈ drop orderingAfterTime orderingSession -> t ∈ orderingMedia) as Hsub by set_solver.
  assert (forall f, isExpected_from (S (S f)) t sectionSession orderingAfterTime = None <-> t ∈ orderingMedia) as Hses.
  { intros f. rewrite isExpected_step, isExpected_media. cbn [getOrdering]. specialize (Hsub t).
    split; [intros [H|[[H _]|H]]; [by apply Hsub|lia|done]|by right; right]. }
  assert (forall f p, isExpected_from (S (S (S f))) t sectionTime p = None <->
            t ∈ drop p orderingTime \/ t ∈ orderingMedia) as Htime.
  { intros f p. rewrite isExpected_step, Hses, isExpected_media. cbn [getOrdering]. tauto. }
  rewrite isExpected_step. destruct s; cbn [getOrdering].
  - rewrite Htime, isExpected_media. cbn [drop]. tauto.
  - rewrite Hses, isExpected_media. tauto.
  - by rewrite isExpected_media.
Qed.

Lemma isExpected_spec t s pos : isExpected t s pos = None <-> accepts t s pos.
Proof. by apply isExpected_accepts. Qed.

(** What is left of an ordering from a position, by evaluation up to its end. *)
Lemma in_drop_session t k pos :
  orderingSession !! k = Some t -> NoDup orderingSession -> t ∈ drop pos orderingSession <-> (pos <= k)%nat.
Proof.
  intros Hk Hd. rewrite list_elem_of_lookup. split.
  - intros [i Hi]. rewrite lookup_drop in Hi. pose proof (NoDup_lookup _ _ _ _ Hd Hi Hk). lia.
  - intros Hle. exists (k - pos)%nat. rewrite lookup_drop. by replace (pos + (k - pos))%nat with k by lia.
Qed.
Lemma in_drop_time t pos :
  t ∈ drop pos orderingTime <-> t = TypeTiming /\ pos = 0%nat \/ t = TypeRepeatTimes /\ (pos <= 1)%nat.
Proof.
  unfold orderingTime. destruct pos as [|[|pos]]; cbn [drop]; rewrite ?drop_nil, ?elem_of_cons, ?elem_of_nil; intuition lia.
Qed.
Lemma not_in_media t : t ∈ [TypeTiming; TypeRepeatTimes; TypeTimeZones] -> t ∉ orderingMedia.
Proof. rewrite !elem_of_cons, elem_of_nil. intros Ht. destruct_or! Ht; subst; compute_done. Qed.
Lemma not_accepted_in_media t pos : t ∉ orderingMedia -> ~ accepts t sectionMedia pos.
Proof. intros Ht [Hin|[_ Hin]]; [|done]. by apply Ht, (subseteq_drop pos). Qed.

(** Before position 10 of the session section. *)
Definition early (s : section) (pos : nat) : Prop := s = sectionSession /\ (pos < orderingAfterTime)%nat.

(** C34: which lines the decoder accepts.  [isExpected] searches the ordering of
    the section from a position and calls itself for the sections that may
    follow; what it accepts is membership in lists ([accepts]), and four levels
    of calls are enough.  In the session section that is the rest of the
    ordering, a timing or repeat line before position 10, and any line of a media
    section; nothing is required, for each known type of line is accepted first.
    A timing line is accepted before position 10 of the session section and first
    in the timing section; a repeat line there and second in the timing section;
    a time zone line only before position 10 of the session section, so never in
    the timing section, where RFC 4566 and the encoder put it.  In a media
    section none of the three is accepted. *)
Theorem isExpected_closed_form t s pos fuel :
  (4 <= fuel)%nat ->
  (isExpected t s pos = None <-> accepts t s pos) /\
  (isExpected_from fuel t s pos = None <-> isExpected t s pos = None) /\
  (t ∈ orderingSession ++ orderingTime ++ orderingMedia -> isExpected t sectionSession 0 = None) /\
  (isExpected TypeTiming s pos = None <-> early s pos \/ s = sectionTime /\ pos = 0%nat) /\
  (isExpected TypeRepeatTimes s pos = None <-> early s pos \/ s = sectionTime /\ (pos <= 1)%nat) /\
  (isExpected TypeTimeZones s pos = None <-> early s pos).
Proof.
  intros Hf. split; [apply isExpected_spec|]. split; [by rewrite isExpected_accepts, <- isExpected_spec|]. split.
  { rewrite !elem_of_app. intros Ht. apply isExpected_spec. unfold accepts, orderingAfterTime. cbn [drop].
    destruct_or! Ht; [by left|right; left; split; [lia|done]|by right; right]. }
  assert (TypeTiming ∉ drop pos orderingSession) by (intros Hin%(subseteq_drop pos); revert Hin; compute_done).
  assert (TypeRepeatTimes ∉ drop pos orderingSession) by (intros Hin%(subseteq_drop pos); revert Hin; compute_done).
  pose proof (in_drop_session TypeTimeZones 9 pos eq_refl ltac:(compute_done)) as Hz.
  pose proof (not_in_media TypeTiming ltac:(set_solver)). pose proof (not_in_media TypeRepeatTimes ltac:(set_solver)).
  pose proof (not_in_media TypeTimeZones ltac:(set_solver)).
  assert (TypeTiming ∈ orderingTime /\ TypeRepeatTimes ∈ orderingTime /\ TypeTimeZones ∉ orderingTime) as (? & ? & ?)
    by (split_and!; compute_done).
  rewrite !isExpected_spec. unfold early, orderingAfterTime in *. destruct s.
  - unfold accepts, orderingAfterTime. rewrite Hz. intuition (try done; try lia).
  - unfold accepts. rewrite !in_drop_time. intuition (try done; try lia).
  - split_and!; (split; [intros Ha; by apply not_accepted_in_media in Ha|intuition done]).
Qed.

(** * Panics and termination *)

(** The decoding of a field moves neither the position nor the section. *)
Record same_place (x x' : Decoder * SdpMessage) : Prop := {
  sp_s : d_s x'.1 = d_s x.1;
  sp_pos : d_pos x'.1 = d_pos x.1;
  sp_t : d_t x'.1 = d_t x.1;
  sp_v : d_v x'.1 = d_v x.1;
  sp_section : d_section x'.1 = d_section x.1;
  sp_sPos : d_sPos x'.1 = d_sPos x.1
}.
#[export] Instance same_place_preorder : PreOrder same_place.
Proof. split; [by split|]. intros ??? [] []. split; congruence. Qed.

Lemma wrap_keeps {R} `{!PreOrder R} {A} msg (c : DM A) : keeps R c -> keeps R (wrap msg c).
Proof. intros Hc x. specialize (Hc x). unfold wrap. by destruct (c x) as [x' []]. Qed.
Lemma num_keeps {R} `{!PreOrder R} {A} (r : result num_error A) : keeps R (num r).
Proof. intros x. by destruct r. Qed.
Lemma section_error_keeps {R} `{!PreOrder R} {A} msg : keeps R (section_error (A := A) msg).
Proof. by intros x. Qed.
Lemma on_message_keeps f : keeps same_place (on_message f).
Proof. intros x. by split. Qed.
Lemma on_media_keeps f : keeps same_place (on_media f).
Proof. intros x. by split. Qed.
Lemma the_decoder_keeps {R} `{!PreOrder R} : keeps R the_decoder.
Proof. by intros x. Qed.
Lemma the_message_keeps {R} `{!PreOrder R} : keeps R the_message.
Proof. by intros x. Qed.
#[local] Hint Resolve num_keeps section_error_keeps on_message_keeps on_media_keeps the_decoder_keeps
  the_message_keeps : keeps.
#[local] Hint Extern 2 (keeps _ (wrap _ _)) => apply wrap_keeps : keeps.

Ltac field_walk :=
  repeat first [ progress (intros; cbv beta zeta) | solve [eauto 2 with keeps typeclass_instances]
    | apply wrap_keeps | apply keeps_bind
    | match goal with
      | |- keeps _ (match ?x with _ => _ end) => destruct x
      | |- keeps _ (let '(_, _) := ?x in _) => destruct x
      end ].

Lemma decodeInterval_keeps {R} `{!PreOrder R} b : keeps R (decodeInterval b).
Proof. unfold decodeInterval. field_walk. Qed.
#[local] Hint Resolve decodeInterval_keeps : keeps.
Lemma decode_offsets_keeps {R} `{!PreOrder R} i l o : keeps R (decode_offsets i l o).
Proof. revert i o. induction l as [|b l IH]; intros i o; cbn [decode_offsets]; field_walk. Qed.
Lemma decode_zones_keeps p : keeps same_place (decode_zones p).
Proof.
  assert (forall n p, (length p <= n)%nat -> keeps same_place (decode_zones p)) as H;
    [|by apply (H (length p))].
  induction n as [|n IH]; intros [|a [|b q]] Hn; cbn [length] in Hn; cbn [decode_zones];
    try lia; try apply keeps_ret; try apply _. field_walk. apply IH. lia.
Qed.
#[local] Hint Resolve decode_offsets_keeps decode_zones_keeps : keeps.

Lemma decodeField_keeps : keeps same_place decodeField.
Proof.
  unfold decodeField, decodeVersion, decodeAttribute, decodeSessionName, decodeSessionInfo, decodeEmail,
    decodePhone, decodeURI, decodeEncryption, decodeBandwidth, decodeTimingField, decodeConnectionData,
    decodeOrigin, decodeRepeatTimes, decodeTimeZoneAdjustments, decodeMediaDescription, decode_byte_into,
    on_connection, raise. field_walk.
Qed.

(** [only q c]: a panic of [c] satisfies [q]. *)
Definition only {A} (q : panic -> Prop) (c : DM A) : Prop := forall x p, (c x).2 = Panic p -> q p.

Lemma only_bind {A B} q (c : DM A) (k : A -> DM B) :
  only q c -> (forall a, only q (k a)) -> only q (st_bind c k).
Proof.
  intros Hc Hk x p. unfold st_bind. specialize (Hc x). destruct (c x) as [x' [a|e|p']]; cbn in *.
  - apply Hk.
  - done.
  - intros [= <-]. by apply Hc.
Qed.
Lemma only_ret {A} q (a : A) : only q (st_ret a).
Proof. by intros x p. Qed.
Lemma only_err {A} q e : only q (st_err (A := A) e).
Proof. by intros x p. Qed.
Lemma only_wrap {A} q msg (c : DM A) : only q c -> only q (wrap msg c).
Proof. intros Hc x p. specialize (Hc x p). unfold wrap. by destruct (c x) as [x' []]. Qed.
Lemma only_section_error {A} q msg : only q (section_error (A := A) msg).
Proof. by intros x p. Qed.
Lemma only_on_message q f : only q (on_message f).
Proof. by intros x p. Qed.
Lemma only_on_media q f : only q (on_media f).
Proof. by intros x p. Qed.
Lemma only_the_decoder q : only q the_decoder.
Proof. by intros x p. Qed.
Lemma only_num {A} q (r : result num_error A) : is_panic r = false -> only q (num r).
Proof. intros Hr x p. by destruct r. Qed.
Lemma only_mono {A} (q q' : panic -> Prop) (c : DM A) :
  (forall p, q p -> q' p) -> only q c -> only q' c.
Proof. intros Hq Hc x p H. by apply Hq, (Hc x). Qed.

Lemma parse_uint_no_panic bits s : is_panic (parse_uint bits s) = false.
Proof.
  unfold parse_uint. destruct s as [|c s]; [done|]. generalize (c :: s), 0. clear c s. intros w.
  induction w as [|c s IH]; intros n; [done|]. cbn. destruct (digit_val c); [|done].
  destruct (_ <? _); [done|apply IH].
Qed.
Lemma parse_int_no_panic bits s : is_panic (parse_int bits s) = false.
Proof.
  unfold parse_int. destruct s as [|c s]; [done|].
  assert (forall neg r, is_panic (match parse_uint bits r with
    | Ok un => if neg : bool
        then if 2 ^ (bits - 1) <? un then Err ErrRange else Ok (- un)
        else if 2 ^ (bits - 1) <=? un then Err ErrRange else Ok un
    | e => e
    end) = false) as H.
  { intros neg r. pose proof (parse_uint_no_panic bits r) as Hp.
    destruct (parse_uint bits r); [|done..]. by repeat case_match. }
  repeat case_bool_decide; [exact (H false s)|exact (H true s)|exact (H false (c :: s))].
Qed.
Lemma decode_byte_into_only q set b : only q (decode_byte_into set b).
Proof.
  intros x p. unfold decode_byte_into, decodeByte. pose proof (parse_int_no_panic 16 b) as Hp.
  by destruct (parse_int 16 b).
Qed.

Create HintDb only discriminated.
#[local] Hint Resolve only_ret only_err only_section_error only_on_message only_on_media
  only_the_decoder parse_uint_no_panic parse_int_no_panic decode_byte_into_only : only.
Ltac only_walk :=
  repeat first [ progress (intros; cbv beta zeta) | solve [eauto 2 with only]
    | apply only_wrap | apply only_bind
    | apply only_num; first [apply parse_uint_no_panic|apply parse_int_no_panic]
    | match goal with
      | |- only _ (match ?x with _ => _ end) => destruct x
      | |- only _ (let '(_, _) := ?x in _) => destruct x
      end ].

Definition empty_interval (l : list bytes) (p : panic) : Prop := p = IndexOutOfRange /\ [] ∈ l.

Lemma decodeInterval_only b : only (empty_interval [b]) (decodeInterval b).
Proof.
  unfold decodeInterval. case_bool_decide; [apply only_ret|]. destruct (last b) as [c|] eqn:E.
  - unfold atoi. only_walk.
  - intros x p [= <-]. apply last_None in E as ->. split; [done|]. set_solver.
Qed.
Lemma decode_offsets_only i l o : only (empty_interval l) (decode_offsets i l o).
Proof.
  revert i o. induction l as [|b l IH]; intros i o; cbn [decode_offsets]; [apply only_ret|].
  apply only_bind.
  - apply only_wrap. eapply only_mono; [|apply decodeInterval_only]. unfold empty_interval. set_solver.
  - intros dd. eapply only_mono; [|apply IH]. unfold empty_interval. set_solver.
Qed.
Lemma decode_zones_only p : only (empty_interval p) (decode_zones p).
Proof.
  assert (forall n p, (length p <= n)%nat -> only (empty_interval p) (decode_zones p)) as H;
    [|by apply (H (length p))].
  induction n as [|n IH]; intros [|a [|b q]] Hn; cbn [length] in Hn; cbn [decode_zones];
    try lia; try apply only_ret.
  apply only_bind; [unfold parseNTP; only_walk|]. intros t.
  apply only_bind; [|intros o; apply only_bind; [apply only_on_message|]; intros _].
  - apply only_wrap. eapply only_mono; [|apply decodeInterval_only]. unfold empty_interval. set_solver.
  - eapply only_mono; [|apply IH; lia]. unfold empty_interval. set_solver.
Qed.

(** The panics a line can cause. *)
Definition line_panics (l : Line) (p : panic) : Prop :=
  (LType l = TypeRepeatTimes /\ p = PanicCall (bs "value should be positive")) \/
  ((LType l = TypeRepeatTimes \/ LType l = TypeTimeZones) /\ empty_interval (subfields (LValue l)) p).
Definition all_types : list Z := orderingSession ++ orderingTime ++ orderingMedia.

Lemma decodeField_panics x p :
  d_t x.1 ∈ all_types -> (decodeField x).2 = Panic p -> line_panics (mkLine (d_t x.1) (d_v x.1)) p.
Proof.
  intros Ht. unfold decodeField. unfold st_bind at 1, the_decoder at 1.
  assert (forall c : DM unit, only (fun _ => False) c -> (c x).2 = Panic p ->
            line_panics (mkLine (d_t x.1) (d_v x.1)) p) as Hcalm by (intros c Hc Hp; by apply Hc in Hp).
  destruct (d_t x.1 =? TypeProtocolVersion) eqn:E1; [apply Hcalm; unfold decodeVersion, atoi; only_walk|].
  destruct (d_t x.1 =? TypeAttribute) eqn:E2; [apply Hcalm; unfold decodeAttribute; only_walk|].
  destruct (d_t x.1 =? TypeSessionName) eqn:E3; [apply Hcalm; unfold decodeSessionName; only_walk|].
  destruct (d_t x.1 =? TypeSessionInformation) eqn:E4; [apply Hcalm; unfold decodeSessionInfo; only_walk|].
  destruct (d_t x.1 =? TypeEmail) eqn:E5; [apply Hcalm; unfold decodeEmail; only_walk|].
  destruct (d_t x.1 =? TypePhone) eqn:E6; [apply Hcalm; unfold decodePhone; only_walk|].
  destruct (d_t x.1 =? TypeURI) eqn:E7; [apply Hcalm; unfold decodeURI; only_walk|].
  destruct (d_t x.1 =? TypeEncryptionKey) eqn:E8; [apply Hcalm; unfold decodeEncryption; only_walk|].
  destruct (d_t x.1 =? TypeBandwidth) eqn:E9; [apply Hcalm; unfold decodeBandwidth, atoi; only_walk|].
  destruct (d_t x.1 =? TypeTiming) eqn:E10; [apply Hcalm; unfold decodeTimingField, parseNTP; only_walk|].
  destruct (d_t x.1 =? TypeConnectionData) eqn:E11;
    [apply Hcalm; unfold decodeConnectionData, raise, on_connection; only_walk|].
  destruct (d_t x.1 =? TypeOrigin) eqn:E12; [apply Hcalm; unfold decodeOrigin, atoi; only_walk|].
  destruct (d_t x.1 =? TypeRepeatTimes) eqn:E13.
  - bool_hyps. intros Hp. unfold decodeRepeatTimes in Hp. unfold st_bind at 1, the_message in Hp.
    destruct (last (m_Timing x.2)) as [tm|]; [|injection Hp as <-; by left].
    right. split; [by left|]. cbn [LValue]. unfold st_bind at 1, the_decoder in Hp.
    destruct (subfields (d_v x.1)) as [|p0 [|p1 [|p2 rest]]]; [by discriminate Hp..|].
    clear Hcalm. revert Hp. generalize x at 1. intros y. revert y p.
    change (only (empty_interval (p0 :: p1 :: p2 :: rest))
      (let! repeat := wrap (bs "failed to decode repeat interval") (decodeInterval p0) in
       let! active := wrap (bs "failed to decode active duration") (decodeInterval p1) in
       let! offsets := decode_offsets 0 (p2 :: rest) (Offsets tm) in
       let copy := mkTiming (t_Start tm) (t_End tm) repeat active offsets in st_ret tt)).
    apply only_bind; [apply only_wrap; eapply only_mono; [|apply decodeInterval_only]; unfold empty_interval; set_solver|].
    intros r. apply only_bind;
      [apply only_wrap; eapply only_mono; [|apply decodeInterval_only]; unfold empty_interval; set_solver|].
    intros a. apply only_bind; [eapply only_mono; [|apply decode_offsets_only]; unfold empty_interval; set_solver|].
    intros o. apply only_ret.
  - destruct (d_t x.1 =? TypeTimeZones) eqn:E14.
    + bool_hyps. intros Hp. right. split; [by right|]. cbn [LValue].
      unfold decodeTimeZoneAdjustments in Hp. unfold st_bind at 1, the_decoder in Hp.
      destruct (negb _); [by discriminate Hp|]. by apply decode_zones_only in Hp.
    + destruct (d_t x.1 =? TypeMediaDescription) eqn:E15;
        [apply Hcalm; unfold decodeMediaDescription, atoi; only_walk|].
      bool_hyps. exfalso. unfold all_types, orderingSession, orderingTime, orderingMedia in Ht. cbn [app] in Ht.
      rewrite !elem_of_cons, elem_of_nil in Ht. by destruct_or! Ht.
Qed.

Definition session_panics (s : Session) (p : panic) : Prop := exists l, l ∈ s /\ line_panics l p.

Lemma next_cases x :
  (next x = (x, Ok false) /\ (length (d_s x.1) <= d_pos x.1)%nat) \/
  exists l, d_s x.1 !! d_pos x.1 = Some l /\
    next x = ((mkDecoder (d_s x.1) (S (d_pos x.1)) (LType l) (LValue l) (d_section x.1) (d_sPos x.1) (d_m x.1),
               x.2), Ok true).
Proof.
  unfold next. destruct (d_s x.1 !! d_pos x.1) as [l|] eqn:E; [right; by exists l|].
  left. split; [done|]. by apply lookup_ge_None in E.
Qed.
Lemma expect_cases x :
  expect x = (x, Ok tt) /\ accepts (d_t x.1) (d_section x.1) (d_sPos x.1) \/
  exists e, expect x = (x, Err e).
Proof.
  unfold expect, st_bind, the_decoder. destruct (isExpected _ _ _) as [e|] eqn:E.
  - right. by eexists.
  - left. split; [done|]. by apply isExpected_spec.
Qed.
Lemma accepts_type t s pos : accepts t s pos -> t ∈ all_types.
Proof.
  unfold accepts, all_types. rewrite !elem_of_app.
  assert (forall (l : list Z), t ∈ drop pos l -> t ∈ l) as Hd.
  { intros l Hl. rewrite <- (take_drop pos l). set_solver. }
  destruct s; intros H; destruct_and?; destruct_or! H; destruct_and?; eauto.
Qed.

(** [advance] writes only the position in the ordering. *)
Lemma advance_eq x :
  exists n, (d_sPos x.1 <= n)%nat /\ (isZeroOrMore (d_t x.1) = false -> n = S (d_sPos x.1)) /\
    advance x = ((set_d_section (d_section x.1) n x.1, x.2), Ok tt).
Proof.
  unfold advance, on_decoder, st_modify. destruct (isZeroOrMore (d_t x.1)).
  - exists (d_sPos x.1). split; [lia|]. split; [done|]. by destruct x as [[] ?].
  - exists (S (d_sPos x.1)). split; [lia|]. done.
Qed.

(** One field inside of a loop. *)
Lemma field_cases msg x :
  d_t x.1 ∈ all_types ->
  exists x' r, wrap msg decodeField x = (x', r) /\ same_place x x' /\
    (forall p, r = Panic p -> line_panics (mkLine (d_t x.1) (d_v x.1)) p).
Proof.
  intros Ht. unfold wrap. pose proof (decodeField_keeps x) as Hk. pose proof (decodeField_panics x) as Hp.
  destruct (decodeField x) as [x' [a|e|p]]; cbn [fst snd] in *; eexists _, _; (split; [reflexivity|]);
    (split; [done|]); intros q [= <-]. by apply Hp.
Qed.

Ltac line_in_session :=
  match goal with
  | Hl : d_s ?x !! _ = Some ?l |- session_panics _ _ =>
      exists l; split; [by eapply list_elem_of_lookup_2|]; destruct l; eauto
  end.

Lemma timing_loop_ends f x :
  (d_pos x.1 <= length (d_s x.1))%nat -> (length (d_s x.1) < f + d_pos x.1)%nat ->
  let '(x', r) := timing_loop f x in
  d_s x'.1 = d_s x.1 /\ (d_pos x'.1 <= length (d_s x.1))%nat /\
  (forall p, r = Panic p -> session_panics (d_s x.1) p) /\
  (r = Ok tt -> (d_pos x.1 <= d_pos x'.1)%nat /\
     (forall l, d_s x.1 !! d_pos x.1 = Some l -> LType l = TypeTiming -> (d_pos x.1 < d_pos x'.1)%nat)).
Proof.
  revert x. induction f as [|f IH]; intros x Hpos Hf; [lia|]. cbn [timing_loop].
  unfold st_bind at 1. destruct (next_cases x) as [[-> Hend]|(l & Hl & ->)]; cbn [negb].
  { split_and!; try done. intros _. split; [lia|]. intros l Hl. apply lookup_lt_Some in Hl. lia. }
  pose proof (lookup_lt_Some _ _ _ Hl) as Hlt.
  set (x1 := (mkDecoder _ _ _ _ _ _ _, _)). unfold st_bind at 1.
  destruct (expect_cases x1) as [[-> Hacc]|[e ->]]; [|by split_and!]. apply accepts_type in Hacc.
  unfold st_bind at 1. destruct (advance_eq x1) as (n & _ & _ & ->).
  unfold st_bind at 1, the_decoder at 1. change (d_t _) with (LType l).
  destruct ((LType l =? TypeTiming) || (LType l =? TypeRepeatTimes)) eqn:Ett.
  - unfold st_bind at 1.
    cbv beta. match goal with |- context [wrap ?m decodeField ?y] =>
      destruct (field_cases m y Hacc) as (x2 & r & -> & [Hs Hps _ _ _ _] & Hp) end. cbn in Hs, Hps, Hp.
    destruct r as [a|e|p]; [|by rewrite Hs, Hps; split_and!|].
    + pose proof (IH x2 ltac:(rewrite Hs, Hps; lia) ltac:(rewrite Hs, Hps; lia)) as Hrec.
      destruct (timing_loop f x2) as [x' r']. rewrite Hs, Hps in Hrec.
      destruct Hrec as (H1 & H2 & H3 & H4). split_and!; try done. intros Hr.
      destruct (H4 Hr) as [H5 _]. split; [lia|]. intros. lia.
    + rewrite Hs, Hps. split_and!; try done; try lia. intros q Hq. specialize (Hp q Hq).
      exists l. split; [by eapply list_elem_of_lookup_2|]. by destruct l.
  - unfold step_back, on_decoder, st_modify. cbn. split_and!; try done; try lia. intros _. split; [lia|].
    intros l' Hl' Ht. rewrite Hl in Hl'. injection Hl' as <-. rewrite Ht in Ett. done.
Qed.

Lemma media_loop_ends f x :
  (d_pos x.1 <= length (d_s x.1))%nat -> (length (d_s x.1) < f + d_pos x.1)%nat ->
  let '(x', r) := media_loop f x in
  d_s x'.1 = d_s x.1 /\ (d_pos x'.1 <= length (d_s x.1))%nat /\
  (forall p, r = Panic p -> session_panics (d_s x.1) p) /\
  (r = Ok tt -> (d_pos x.1 <= d_pos x'.1)%nat /\
     ((d_pos x.1 < length (d_s x.1))%nat -> d_sPos x.1 = 0%nat -> (d_pos x.1 < d_pos x'.1)%nat)).
Proof.
  revert x. induction f as [|f IH]; intros x Hpos Hf; [lia|]. cbn [media_loop].
  unfold st_bind at 1. destruct (next_cases x) as [[-> Hend]|(l & Hl & ->)]; cbn [negb].
  { split_and!; try done. intros _. split; lia. }
  pose proof (lookup_lt_Some _ _ _ Hl) as Hlt.
  set (x1 := (mkDecoder _ _ _ _ _ _ _, _)). unfold st_bind at 1.
  destruct (expect_cases x1) as [[-> Hacc]|[e ->]]; [|by split_and!]. apply accepts_type in Hacc.
  unfold st_bind at 1, the_decoder at 1. change (d_t _) with (LType l). change (d_sPos x1.1) with (d_sPos x.1).
  destruct ((LType l =? TypeMediaDescription) && negb (d_sPos x.1 =? 0)%nat) eqn:Ett.
  - unfold step_back, on_decoder, st_modify. cbn. split_and!; try done; try lia. intros _. split; [lia|].
    intros _ H0. rewrite H0 in Ett. cbn in Ett. by rewrite andb_false_r in Ett.
  - unfold st_bind at 1. destruct (advance_eq x1) as (n & _ & _ & ->). unfold st_bind at 1.
    cbv beta. match goal with |- context [wrap ?m decodeField ?y] =>
      destruct (field_cases m y Hacc) as (x2 & r & -> & [Hs Hps _ _ _ _] & Hp) end. cbn in Hs, Hps, Hp.
    destruct r as [a|e|p]; [|by rewrite Hs, Hps; split_and!|].
    + pose proof (IH x2 ltac:(rewrite Hs, Hps; lia) ltac:(rewrite Hs, Hps; lia)) as Hrec.
      destruct (media_loop f x2) as [x' r']. rewrite Hs, Hps in Hrec.
      destruct Hrec as (H1 & H2 & H3 & H4). split_and!; try done. intros Hr.
      destruct (H4 Hr) as [H5 _]. split; intros; lia.
    + rewrite Hs, Hps. split_and!; try done; try lia. intros q Hq. specialize (Hp q Hq).
      exists l. split; [by eapply list_elem_of_lookup_2|]. by destruct l.
Qed.

(** A section, entered at a line of its own type, ends behind that line. *)
Definition section_ends (c : DM unit) (x : Decoder * SdpMessage) : Prop :=
  let '(x', r) := c x in
  d_s x'.1 = d_s x.1 /\ (d_pos x'.1 <= length (d_s x.1))%nat /\
  (forall p, r = Panic p -> session_panics (d_s x.1) p) /\
  (r = Ok tt -> (d_pos x.1 < d_pos x'.1)%nat).

Lemma decodeTiming_ends n x l :
  d_s x.1 !! d_pos x.1 = Some l -> LType l = TypeTiming -> (length (d_s x.1) <= n)%nat ->
  section_ends (decodeTiming (S n)) x.
Proof.
  intros Hl Ht Hn. unfold section_ends, decodeTiming. unfold st_bind at 1, on_decoder, st_modify.
  pose proof (lookup_lt_Some _ _ _ Hl) as Hlt.
  pose proof (timing_loop_ends (S n) (set_d_section sectionTime 0 x.1, x.2)) as H. cbn [fst d_s d_pos set_d_section] in H.
  specialize (H ltac:(lia) ltac:(lia)). destruct (timing_loop _ _) as [x' r].
  destruct H as (H1 & H2 & H3 & H4). split_and!; try done. intros Hr. by apply (proj2 (H4 Hr) l).
Qed.

Lemma decodeMedia_ends n x :
  (d_pos x.1 < length (d_s x.1))%nat -> (length (d_s x.1) <= n)%nat -> section_ends (decodeMedia (S n)) x.
Proof.
  intros Hlt Hn. unfold section_ends, decodeMedia. unfold st_bind at 1, on_decoder, st_modify. unfold st_bind at 1.
  pose proof (media_loop_ends (S n) (set_d_m zeroMedia (set_d_section sectionMedia 0 x.1), x.2)) as H.
  cbn [fst d_s d_pos d_sPos set_d_section set_d_m] in H.
  specialize (H ltac:(lia) ltac:(lia)). destruct (media_loop _ _) as [x' r].
  destruct H as (H1 & H2 & H3 & H4). destruct r as [[]|e|p].
  - unfold st_bind, the_decoder, on_message, st_modify. cbn. split_and!; try done. intros _. by apply H4.
  - by split_and!.
  - by split_and!.
Qed.

Lemma wrap_ends msg c x : section_ends c x -> section_ends (wrap msg c) x.
Proof.
  unfold section_ends, wrap. destruct (c x) as [x' [[]|e|p]]; intros (H1 & H2 & H3 & H4); by split_and!.
Qed.

(** A field of the session, or the section it opens, ends behind the line read. *)
Lemma session_item_ends n x1 l c :
  (0 < d_pos x1.1)%nat -> d_s x1.1 !! (d_pos x1.1 - 1)%nat = Some l -> d_t x1.1 = LType l ->
  d_v x1.1 = LValue l -> d_t x1.1 ∈ all_types -> (length (d_s x1.1) <= n)%nat ->
  c = (let oldPosition := d_sPos x1.1 in
       if d_t x1.1 =? TypeTiming then
         step_back;;; wrap (bs "failed to decode timing") (decodeTiming (S n));;;
         on_decoder (set_d_section sectionSession oldPosition)
       else if d_t x1.1 =? TypeMediaDescription then
         step_back;;; wrap (bs "failed to decode media") (decodeMedia (S n));;;
         on_decoder (set_d_section sectionSession oldPosition)
       else wrap (bs "failed to decode field") decodeField) ->
  let '(x', r) := c x1 in
  d_s x'.1 = d_s x1.1 /\ (d_pos x'.1 <= length (d_s x1.1))%nat /\
  (forall p, r = Panic p -> session_panics (d_s x1.1) p) /\ (r = Ok tt -> (d_pos x1.1 <= d_pos x'.1)%nat).
Proof.
  intros Hpos Hl Ht Hv Hacc Hn ->. cbn zeta. pose proof (lookup_lt_Some _ _ _ Hl) as Hlt.
  assert (forall sec, section_ends sec (set_d_pos (d_pos x1.1 - 1)%nat x1.1, x1.2) ->
    let '(x', r) := (step_back;;; sec;;; on_decoder (set_d_section sectionSession (d_sPos x1.1))) x1 in
    d_s x'.1 = d_s x1.1 /\ (d_pos x'.1 <= length (d_s x1.1))%nat /\
    (forall p, r = Panic p -> session_panics (d_s x1.1) p) /\ (r = Ok tt -> (d_pos x1.1 <= d_pos x'.1)%nat)) as Hsec.
  { intros sec. unfold section_ends, step_back, on_decoder, st_modify. unfold st_bind at 1. unfold st_bind at 1.
    destruct (sec _) as [x' [[]|e|p]]; cbn [fst snd d_s d_pos set_d_pos set_d_section]; intros (H1 & H2 & H3 & H4);
      split_and!; try done. intros _. specialize (H4 eq_refl). lia. }
  destruct (Z.eqb_spec (d_t x1.1) TypeTiming) as [Et|_].
  - apply Hsec, wrap_ends, (decodeTiming_ends n _ l); [done|congruence|done].
  - destruct (Z.eqb_spec (d_t x1.1) TypeMediaDescription) as [Em|_].
    + apply Hsec, wrap_ends, decodeMedia_ends; [done|done].
    + destruct (field_cases (bs "failed to decode field") x1 Hacc) as (x2 & r & -> & [Hs Hps _ _ _ _] & Hp).
      rewrite Hs, Hps. split_and!; try done; [lia|]. intros p Hr. specialize (Hp p Hr).
      exists l. split; [by eapply list_elem_of_lookup_2|]. rewrite Ht, Hv in Hp. by destruct l.
Qed.

Lemma session_loop_ends n f x :
  (d_pos x.1 <= length (d_s x.1))%nat -> (length (d_s x.1) < f + d_pos x.1)%nat -> (length (d_s x.1) <= n)%nat ->
  forall p, (session_loop n f x).2 = Panic p -> session_panics (d_s x.1) p.
Proof.
  revert x. induction f as [|f IH]; intros x Hpos Hf Hn p; [lia|]. cbn [session_loop].
  unfold st_bind at 1. destruct (next_cases x) as [[-> Hend]|(l & Hl & ->)]; cbn [negb]; [done|].
  pose proof (lookup_lt_Some _ _ _ Hl) as Hlt.
  set (x1 := (mkDecoder _ _ _ _ _ _ _, _)). unfold st_bind at 1.
  destruct (expect_cases x1) as [[-> Hacc]|[e ->]]; [|done]. apply accepts_type in Hacc.
  unfold st_bind at 1. destruct (advance_eq x1) as (k & _ & _ & ->).
  unfold st_bind at 1, the_decoder at 1. cbv zeta. unfold st_bind at 1.
  match goal with |- context [let (_, _) := ?c ?y in _] =>
    pose proof (session_item_ends n y l c ltac:(cbn; lia) ltac:(cbn; by rewrite Nat.sub_0_r) eq_refl eq_refl Hacc Hn eq_refl) as H;
    destruct (c y) as [x2 r] end.
  cbn [fst d_s d_pos set_d_section x1] in H. destruct H as (H1 & H2 & H3 & H4).
  destruct r as [[]|e|q].
  - rewrite <- H1. specialize (H4 eq_refl). apply IH; rewrite H1; lia.
  - done.
  - intros [= <-]. by apply H3.
Qed.

(** C17: The decoder ends on every list of lines: none of its loops runs out of
    its fuel (a session of n lines takes n + 1 rounds of each loop, and a section
    that was entered is left behind a later line), and the [default] of
    [decodeField], a panic, is never reached, since [isExpected] refuses other
    types first.  It can only panic at a repeat line, for want of a timing or at
    an empty sub-field, or at a time zone line with an empty sub-field: a session
    without these lines always gives a message or an error. *)
Theorem Decode_total (s : Session) :
  (forall p, (decode_message s).2 = Panic p -> session_panics s p) /\
  (decode_message s).2 <> Panic OutOfFuel /\
  (decode_message s).2 <> Panic (PanicCall (bs "unexpected field")) /\
  (Forall (fun l => LType l <> TypeRepeatTimes /\ LType l <> TypeTimeZones) s ->
   is_panic (decode_message s).2 = false).
Proof.
  assert (forall p, (decode_message s).2 = Panic p -> session_panics s p) as H.
  { intros p. unfold decode_message, Decoder_Decode, sdp_decodeSession. unfold st_bind at 1, on_decoder, st_modify.
    unfold st_bind at 1, the_decoder.
    pose proof (session_loop_ends (length s) (S (length s)) (set_d_section sectionSession 0 (NewDecoder s), zeroSdpMessage)
      ltac:(cbn; lia) ltac:(cbn; lia) ltac:(done) p) as H. cbn [fst snd d_s NewDecoder set_d_section] in *.
    by destruct (session_loop _ _ _). }
  split; [done|].
  assert (forall p, p <> PanicCall (bs "value should be positive") -> p <> IndexOutOfRange ->
            (decode_message s).2 <> Panic p) as Hno.
  { intros p H1 H2 Hp. by destruct (H p Hp) as (l & _ & [[_ ?]|[_ [? _]]]). }
  split; [by apply Hno|]. split; [by apply Hno|]. rewrite Forall_forall. intros Hf.
  destruct (decode_message s).2 as [a|e|p]; [done|done|].
  destruct (H p eq_refl) as (l & Hl & Hp). specialize (Hf l Hl) as [Hr Hz]. unfold line_panics in Hp. tauto.
Qed.

Definition early_repeat : Session := [mkLine TypeRepeatTimes (bs "7d 1h 0")].
Definition empty_interval_session : Session := [mkLine TypeTiming (bs "0 0"); mkLine TypeRepeatTimes (bs "7d  1h")].
Definition empty_offset_session : Session := [mkLine TypeTimeZones (bs "1 1h 2 ")].
Definition plain_session : Session := [mkLine TypeProtocolVersion (bs "0"); mkLine TypeTiming (bs "0 0")].

Theorem isExpected_closed_form_witness :
  accepts TypeAttribute sectionTime 2 /\ isExpected_from 4 TypeAttribute sectionTime 2 = None /\
  isExpected TypeTimeZones sectionTime 1 <> None /\ isExpected TypeTiming sectionTime 1 <> None /\
  isExpected TypeTimeZones sectionSession 1 = None /\ isExpected TypeTiming sectionSession 1 = None.
Proof.
  destruct (isExpected_closed_form TypeAttribute sectionTime 2 4 (le_n 4)) as (H1 & H2 & _).
  destruct (isExpected_closed_form TypeTimeZones sectionTime 1 4 (le_n 4)) as (_ & _ & _ & H3 & _ & H4).
  destruct (isExpected_closed_form TypeTimeZones sectionSession 1 4 (le_n 4)) as (_ & _ & _ & H5 & _ & H6).
  assert (early sectionSession 1) as He by (split; [reflexivity|apply Nat.ltb_lt; reflexivity]).
  split; [apply H1; reflexivity|]. split; [apply H2; reflexivity|]. split; [|split; [|split]].
  - intros E. apply H4 in E as [E _]. discriminate.
  - intros E. apply H3 in E as [[E _]|[_ E]]; discriminate.
  - by apply H6.
  - apply H5. by left.
Defined.

Theorem Decode_total_witness :
  (decode_message early_repeat).2 = Panic (PanicCall (bs "value should be positive")) /\
  (decode_message empty_interval_session).2 = Panic IndexOutOfRange /\
  session_panics empty_offset_session IndexOutOfRange /\
  is_panic (decode_message plain_session).2 = false.
Proof.
  split; [reflexivity|]. split; [reflexivity|]. split.
  - apply (proj1 (Decode_total empty_offset_session)). reflexivity.
  - apply (Decode_total plain_session). repeat constructor; discriminate.
Defined.
