(* ===== verification/SdpRoundtrip.v ===== *)
(** The decoder reads back what the encoder writes: [Message.Append] of
    [src/sdp/encoder.go] against [Decoder.Decode] of [src/sdp/decoder.go].

    [message_lines] is the session a message is encoded as, line by line;
    [reads] says what the decoder makes of the lines that are left, so that the
    proof follows the lines of the encoding. *)
From stdpp Require Import base list gmap sets strings.
From Stdlib Require Import ZArith Lia.
From S2P Require Import Prelude GoFmt Utf8 Sdp SdpProps NetAddr Turn SdpFields SdpDecoder SdpDecoderProps.
Open Scope Z_scope.

(** * The text of the fields *)

Lemma append_uint_digits f n buf :
  0 <= n -> Z.log2 n < Z.of_nat f -> forall g, n < 10 ^ Z.of_nat g -> (0 < g)%nat ->
  append_uint_loop g n buf = digits_aux f 10 n buf.
Proof.
  revert n buf. induction f as [|f IH]; intros n buf Hn Hlog g Hg Hpos.
  { pose proof (Z.log2_nonneg n). lia. }
  destruct g as [|g]; [lia|]. cbn [append_uint_loop digits_aux]. pose proof (Z.mod_pos_bound n 10 ltac:(lia)).
  rewrite Z.quot_div_nonneg by lia. unfold digit_char.
  assert ((n mod 10 <? 10) = true) as -> by (apply Z.ltb_lt; lia).
  destruct (Z.leb_spec 10 n) as [Hge|Hlt].
  - assert ((n / 10 =? 0) = false) as -> by (apply Z.eqb_neq; Z.div_mod_to_equations; lia).
    replace (n - n / 10 * 10) with (n mod 10) by (Z.div_mod_to_equations; lia).
    rewrite Nat2Z.inj_succ, Z.pow_succ_r in Hg by lia. apply IH.
    + Z.div_mod_to_equations; lia.
    + pose proof (log2_div_lt n 10 ltac:(lia) ltac:(lia)). lia.
    + apply Z.div_lt_upper_bound; lia.
    + destruct g; [cbn in Hg; lia|lia].
  - assert ((n / 10 =? 0) = true) as -> by (apply Z.eqb_eq; Z.div_mod_to_equations; lia).
    by rewrite Z.mod_small by lia.
Qed.

Lemma append_uint_itoa dst n : 0 <= n < 2 ^ 63 -> append_uint dst n = dst ++ itoa n.
Proof.
  intros Hn. unfold append_uint, appendUint, itoa, format_uint.
  assert ((n <? 0) = false) as -> by (apply Z.ltb_ge; lia). f_equal.
  pose proof (Z.log2_nonneg n). apply append_uint_digits; [lia|lia|cbn; lia|lia].
Qed.

(** [appendInt] writes what [strconv.Itoa] does, and its array of 20 bytes is
    long enough. *)
Lemma appendInt_itoa v i : - 2 ^ 63 <= i < 2 ^ 63 -> appendInt v i = v ++ itoa i.
Proof.
  intros Hi. unfold appendInt. destruct (Z.eqb_spec i 0) as [->|]; [done|].
  destruct (Z.ltb_spec 0 i); [apply append_uint_itoa; lia|done].
Qed.
Lemma appendByte_itoa v b : appendByte v b = v ++ itoa (bz b).
Proof.
  unfold appendByte. pose proof (bz_range b). destruct (Z.eqb_spec (bz b) 0) as [->|]; [done|].
  apply append_uint_itoa. lia.
Qed.

Lemma itoa_no c z : digit_val c = None -> c <> zb 45 -> c ∉ itoa z.
Proof.
  intros Hd Hm. unfold itoa. intros Hin. destruct (Z.ltb_spec z 0).
  - apply elem_of_cons in Hin as [?|Hin]; [done|].
    pose proof (format_uint_digits (- z) ltac:(lia)) as Hf. rewrite Forall_forall in Hf.
    apply Hf in Hin. rewrite Hd in Hin. by destruct Hin.
  - pose proof (format_uint_digits z ltac:(lia)) as Hf. rewrite Forall_forall in Hf.
    apply Hf in Hin. rewrite Hd in Hin. by destruct Hin.
Qed.

Lemma appendIPv4_app dst ip : appendIPv4 dst ip = dst ++ appendIPv4 [] ip.
Proof.
  unfold appendIPv4. destruct ip as [|a rest]; [by rewrite app_nil_r|].
  assert (forall l d, foldl (fun dst c => append_uint (dst ++ [dot]) (bz c)) d l
    = d ++ foldl (fun dst c => append_uint (dst ++ [dot]) (bz c)) [] l) as H.
  { induction l as [|c l IH]; intros d; cbn [foldl]; [by rewrite app_nil_r|].
    pose proof (bz_range c). rewrite !append_uint_itoa by lia. rewrite IH, (IH (_ ++ _)).
    cbn [app]. by rewrite <- !app_assoc. }
  pose proof (bz_range a). rewrite !append_uint_itoa by lia. rewrite H, (H _ (_ ++ _)). cbn [app].
  by rewrite <- !app_assoc.
Qed.
Lemma appendIP_app b ip : appendIP b ip = b ++ appendIP [] ip.
Proof. unfold appendIP. destruct (To4 ip); [done|apply appendIPv4_app]. Qed.

Lemma appendIPv4_text a b c d : appendIPv4 [] [a; b; c; d] = dotted [a; b; c; d].
Proof.
  unfold appendIPv4. pose proof (bz_range a). pose proof (bz_range b). pose proof (bz_range c). pose proof (bz_range d).
  cbn [foldl take]. rewrite !append_uint_itoa by lia. unfold dotted. cbn [map join app].
  by rewrite <- !app_assoc.
Qed.

(** ** Reading the fields of a text *)

Lemma key_value_value w key val : key_value w key val true = (key, val ++ w).
Proof.
  revert val. induction w as [|c w IH]; intros val; cbn [key_value]; [by rewrite app_nil_r|].
  rewrite andb_false_r. rewrite IH. by rewrite <- app_assoc.
Qed.
Lemma key_value_key k rest key val :
  colon ∉ k -> key_value (k ++ rest) key val false = key_value rest (key ++ k) val false.
Proof.
  revert key. induction k as [|c k IH]; intros key Hk; [by rewrite app_nil_r|]. cbn [key_value app].
  rewrite bool_decide_eq_false_2 by set_solver. cbn [andb]. rewrite IH by set_solver. by rewrite <- app_assoc.
Qed.
Lemma key_value_pair k v : colon ∉ k -> key_value (k ++ colon :: v) [] [] false = (k, v).
Proof. intros Hk. rewrite key_value_key by done. cbn. apply key_value_value. Qed.
Lemma key_value_only k : colon ∉ k -> key_value k [] [] false = (k, []).
Proof. intros Hk. rewrite <- (app_nil_r k) at 1. by rewrite key_value_key. Qed.

Lemma two_fields_pair a b : sp ∉ a -> sp ∉ b -> two_fields (a ++ sp :: b) [] [] false = Some (a, b).
Proof.
  intros Ha Hb.
  assert (forall w x y, sp ∉ w -> two_fields w x y true = Some (x, y ++ w)) as Hend.
  { induction w as [|c w IH]; intros x y Hw; cbn; [by rewrite app_nil_r|].
    rewrite bool_decide_eq_false_2 by set_solver. rewrite IH by set_solver. by rewrite <- app_assoc. }
  assert (forall w x y, sp ∉ w -> two_fields (w ++ sp :: b) x y false = Some (x ++ w, y ++ b)) as Hstart.
  { induction w as [|c w IH]; intros x y Hw; cbn.
    - rewrite app_nil_r. by apply Hend.
    - rewrite bool_decide_eq_false_2 by set_solver. rewrite IH by set_solver. by rewrite <- app_assoc. }
  by apply Hstart.
Qed.

(** The three fields of a text are what [split] gives. *)
Definition add_field (n : nat) (w : bytes) (fs : bytes * bytes * bytes) : bytes * bytes * bytes :=
  let '(f0, f1, f2) := fs in
  match n with
  | 0%nat => (f0 ++ w, f1, f2)
  | 1%nat => (f0, f1 ++ w, f2)
  | _ => (f0, f1, f2 ++ w)
  end.
Lemma three_fields_run sep w rest n f0 f1 f2 :
  sep ∉ w -> (n < 3)%nat ->
  three_fields sep (w ++ rest) n f0 f1 f2 =
  let '(g0, g1, g2) := add_field n w (f0, f1, f2) in three_fields sep rest n g0 g1 g2.
Proof.
  revert f0 f1 f2. induction w as [|c w IH]; intros f0 f1 f2 Hw Hn.
  - destruct n as [|[|n]]; cbn; by rewrite app_nil_r.
  - cbn [three_fields app]. rewrite bool_decide_eq_false_2 by set_solver.
    destruct n as [|[|[|n]]]; [..|lia]; rewrite IH by (set_solver || lia); cbn; by rewrite <- app_assoc.
Qed.
Lemma three_fields_sep sep rest n f0 f1 f2 :
  three_fields sep (sep :: rest) n f0 f1 f2 = three_fields sep rest (S n) f0 f1 f2.
Proof. cbn [three_fields]. by rewrite bool_decide_eq_true_2. Qed.
Lemma three_fields_end sep n f0 f1 f2 : three_fields sep [] n f0 f1 f2 = Some (f0, f1, f2).
Proof. done. Qed.

Ltac three_step :=
  first [ rewrite three_fields_sep | rewrite three_fields_run by (done || lia); cbn [add_field]
        | rewrite three_fields_end ].
Lemma three_fields_three sep a b c :
  sep ∉ a -> sep ∉ b -> sep ∉ c -> three_fields sep (a ++ sep :: b ++ sep :: c) 0 [] [] [] = Some (a, b, c).
Proof. intros Ha Hb Hc. do 4 three_step. rewrite <- (app_nil_r c) at 1. by do 2 three_step. Qed.
Lemma three_fields_two sep a b :
  sep ∉ a -> sep ∉ b -> three_fields sep (a ++ sep :: b) 0 [] [] [] = Some (a, b, []).
Proof. intros Ha Hb. do 2 three_step. rewrite <- (app_nil_r b) at 1. by do 2 three_step. Qed.
Lemma three_fields_one sep a : sep ∉ a -> three_fields sep a 0 [] [] [] = Some (a, [], []).
Proof. intros Ha. rewrite <- (app_nil_r a) at 1. by do 2 three_step. Qed.

Lemma join_split sep w : join [sep] (split sep w) = w.
Proof.
  induction w as [|c w IH]; [done|]. cbn [split]. case_bool_decide as Hc.
  - subst. destruct (split sep w) as [|x xs] eqn:E; [by apply split_nonempty in E|].
    change (join [sep] ([] :: x :: xs)) with (sep :: join [sep] (x :: xs)). by rewrite IH.
  - destruct (split sep w) as [|x xs] eqn:E; [by apply split_nonempty in E|].
    rewrite <- IH. by destruct xs.
Qed.

(** * The lines of a message *)

Definition int64 (z : Z) : Prop := - 2 ^ 63 <= z < 2 ^ 63.
Definition slash : byte := zb 47.

Definition opt_line (b : bool) (t : Z) (v : bytes) : Session := if b then [mkLine t v] else [].
Definition nonempty (v : bytes) : bool := (0 <? length v)%nat.

Definition origin_text (o : Origin) : bytes :=
  join [sp] [o_Username o; itoa (SessionID o); itoa (SessionVersion o); o_NetworkType o; o_AddressType o;
             o_Address o].
Definition address_text (c : ConnectionData) : bytes :=
  appendIP [] (c_IP c) ++ (if 0 <? bz (TTL c) then slash :: itoa (bz (TTL c)) else [])
  ++ (if 0 <? bz (Addresses c) then slash :: itoa (bz (Addresses c)) else []).
Definition connection_text (c : ConnectionData) : bytes :=
  c_NetworkType c ++ sp :: c_AddressType c ++ sp :: address_text c.
Definition timing_text (t : Timing) : bytes :=
  format_uint 10 (TimeToNTP (t_Start t)) ++ sp :: format_uint 10 (TimeToNTP (t_End t)).
Definition encryption_text (e : Encryption) : bytes :=
  if nonempty (e_Key e) then e_Method e ++ colon :: e_Key e else e_Method e.
Definition attribute_text (k v : bytes) : bytes := if nonempty v then k ++ colon :: v else k.
Definition bandwidth_text (k : bytes) (n : Z) : bytes := k ++ colon :: itoa n.
Definition ports_text (d : MediaDescription) : bytes :=
  itoa (md_Port d) ++ (if PortsNumber d =? 0 then [] else slash :: itoa (PortsNumber d)).
Definition media_text (d : MediaDescription) : bytes :=
  join [sp] [md_Type d; ports_text d; md_Protocol d; Format d].

(** What the encoder has to be given for its text to be read back. *)
Record plain_origin (o : Origin) : Prop := {
  po_id : int64 (SessionID o);
  po_version : int64 (SessionVersion o);
  po_words : Forall (fun w => (sp ∉ w)) [o_Username o; o_NetworkType o; o_AddressType o; o_Address o];
  po_network : o_NetworkType o <> [];
  po_address : o_AddressType o <> []
}.
(** The address of a connection that is not blank: a number of addresses needs a
    TTL and a TTL an IPv4 address, or the decoder takes one for the other. *)
Record plain_connection (c : ConnectionData) : Prop := {
  pc_words : Forall (fun w => (sp ∉ w) /\ w <> []) [c_NetworkType c; c_AddressType c];
  pc_ip : ParseIP (appendIP [] (c_IP c)) = c_IP c;
  pc_text : appendIP [] (c_IP c) <> [] /\ (sp ∉ appendIP [] (c_IP c)) /\ (slash ∉ appendIP [] (c_IP c));
  pc_ttl : TTL c <> Byte.x00 -> To4 (c_IP c) <> [];
  pc_addresses : Addresses c <> Byte.x00 -> TTL c <> Byte.x00
}.
(** A timing has no repeat times (the decoder drops them), and times an NTP
    timestamp can hold. *)
Record plain_timing (t : Timing) : Prop := {
  pt_repeat : Repeat t = 0 /\ Active t = 0 /\ Offsets t = [];
  pt_start : NTPToTime (TimeToNTP (t_Start t)) = t_Start t;
  pt_end : NTPToTime (TimeToNTP (t_End t)) = t_End t
}.
Definition plain_bandwidths : Bandwidths -> Prop :=
  map_Forall (fun k n => (k = BandwidthApplicationSpecific \/ k = BandwidthConferenceTotal) /\ int64 n).
Definition plain_attributes : Attributes -> Prop := map_Forall (fun k vs => (colon ∉ k) /\ vs <> []).
Record plain_media (mm : Media) : Prop := {
  pm_words : (sp ∉ md_Type (Description mm)) /\ (sp ∉ md_Protocol (Description mm));
  pm_port : int64 (md_Port (Description mm));
  pm_ports : int64 (PortsNumber (Description mm));
  pm_connection : mm_Connection mm = zeroConnection;
  pm_bandwidths : plain_bandwidths (mm_Bandwidths mm);
  pm_encryption : colon ∉ e_Method (mm_Encryption mm);
  pm_attributes : plain_attributes (mm_Attributes mm)
}.
Record plain_message (m : SdpMessage) : Prop := {
  pl_version : int64 (m_Version m);
  pl_origin : plain_origin (m_Origin m);
  pl_connection : ConnectionData_Blank (m_Connection m) = false -> plain_connection (m_Connection m);
  pl_bandwidths : plain_bandwidths (m_Bandwidths m);
  pl_bandwidth_type : m_BandwidthType m = [];
  pl_timings : (length (m_Timing m) <= 1)%nat;
  pl_timing : Forall plain_timing (m_Timing m);
  pl_zones : m_TZAdjustments m = [];
  pl_encryption : colon ∉ e_Method (m_Encryption m);
  pl_attributes : plain_attributes (m_Attributes m);
  pl_medias : Forall plain_media (m_Medias m)
}.

Lemma Blank_zero c : ConnectionData_Blank c = true -> c = zeroConnection.
Proof.
  unfold ConnectionData_Blank, ConnectionData_Equal. destruct c as [n t ip ttl a]. cbn.
  repeat case_bool_decide; cbn; try done; destruct (IP_Equal ip []) eqn:E; cbn; try done. intros _. subst.
  unfold IP_Equal in E. destruct ip as [|b [|]]; [done|..]; cbn in E; [done|].
  by rewrite !andb_false_r in E.
Qed.
Lemma Encryption_Blank_zero e : Encryption_Blank e = true -> e = mkEncryption [] [].
Proof. unfold Encryption_Blank, Encryption_Equal. by case_bool_decide. Qed.

Section Lines.
Context `{MapRange}.

Definition bandwidth_lines (b : Bandwidths) : Session :=
  map (fun kv => mkLine TypeBandwidth (bandwidth_text kv.1 kv.2)) (map_range b).
Definition attribute_lines (a : Attributes) : Session :=
  map_range a ≫= fun kv => map (fun v => mkLine TypeAttribute (attribute_text kv.1 v)) kv.2.
Definition encryption_lines (e : Encryption) : Session :=
  opt_line (negb (Encryption_Blank e)) TypeEncryptionKey (encryption_text e).
(** What follows the line of a media. *)
Definition media_fields (mm : Media) : Session :=
  opt_line (nonempty (Title mm)) TypeSessionInformation (Title mm)
  ++ bandwidth_lines (mm_Bandwidths mm) ++ encryption_lines (mm_Encryption mm)
  ++ attribute_lines (mm_Attributes mm).
Definition media_lines (mm : Media) : Session :=
  mkLine TypeMediaDescription (media_text (Description mm)) :: media_fields mm.
Definition message_lines (m : SdpMessage) : Session :=
  [mkLine TypeProtocolVersion (itoa (m_Version m)); mkLine TypeOrigin (origin_text (m_Origin m));
   mkLine TypeSessionName (m_Name m)]
  ++ opt_line (nonempty (m_Info m)) TypeSessionInformation (m_Info m)
  ++ opt_line (nonempty (m_URI m)) TypeURI (m_URI m)
  ++ opt_line (nonempty (m_Email m)) TypeEmail (m_Email m)
  ++ opt_line (nonempty (m_Phone m)) TypePhone (m_Phone m)
  ++ opt_line (negb (ConnectionData_Blank (m_Connection m))) TypeConnectionData (connection_text (m_Connection m))
  ++ bandwidth_lines (m_Bandwidths m)
  ++ map (fun t => mkLine TypeTiming (timing_text t)) (m_Timing m)
  ++ encryption_lines (m_Encryption m) ++ attribute_lines (m_Attributes m)
  ++ (m_Medias m ≫= media_lines).

Lemma map_range_Forall {A} (P : bytes -> A -> Prop) (m : gmap bytes A) :
  map_Forall P m -> Forall (fun kv => P kv.1 kv.2) (map_range m).
Proof.
  intros Hm. rewrite map_range_perm. apply Forall_forall. intros [k v] Hin.
  by apply Hm, elem_of_map_to_list.
Qed.

Lemma append_bandwidths_lines s b :
  plain_bandwidths b -> append_bandwidths s b = s ++ bandwidth_lines b.
Proof.
  intros Hb%map_range_Forall. unfold append_bandwidths, bandwidth_lines.
  revert s. induction (map_range b) as [|[k n] l IH]; intros s; cbn [foldl map]; [by rewrite app_nil_r|].
  apply Forall_cons in Hb as [[_ Hn] Hb]. cbn [fst snd] in *. rewrite IH by done. unfold AddBandwidth.
  rewrite appendInt_itoa by done. unfold Session_append, bandwidth_text, appendRune. by rewrite <- !app_assoc.
Qed.

Lemma append_value_line k s v :
  append_value k s v = s ++ [mkLine TypeAttribute (attribute_text k v)].
Proof.
  destruct v as [|c v]; [done|]. unfold append_value, AddAttribute, Session_append, attribute_text, appendRune.
  cbn [length Nat.eqb appendJoinStrings]. by rewrite <- app_assoc.
Qed.

Lemma append_attributes_lines s a : appendAttributes s a = s ++ attribute_lines a.
Proof.
  unfold appendAttributes, attribute_lines.
  assert (forall k l s, foldl (append_value k) s l
    = s ++ map (fun v => mkLine TypeAttribute (attribute_text k v)) l) as Hv.
  { intros k l. induction l as [|v l IH]; intros s'; cbn [foldl map]; [by rewrite app_nil_r|].
    rewrite IH, append_value_line. by rewrite <- app_assoc. }
  revert s. induction (map_range a) as [|[k l] r IH]; intros s; cbn; [by rewrite app_nil_r|].
  rewrite IH, Hv. by rewrite <- app_assoc.
Qed.

Lemma append_encryption_lines s e :
  (if negb (Encryption_Blank e) then AddEncryption s e else s) = s ++ encryption_lines e.
Proof.
  unfold encryption_lines. destruct (Encryption_Blank e); cbn; [by rewrite app_nil_r|].
  unfold AddEncryption, AddEncryptionKey, encryption_text, nonempty. destruct (e_Key e); [done|].
  unfold Session_append, appendRune. cbn [length Nat.eqb Nat.ltb Nat.leb]. by rewrite <- app_assoc.
Qed.

Lemma opt_append_lines (b : bool) s t v :
  (if b then Session_append s t v else s) = s ++ opt_line b t v.
Proof. destruct b; cbn; [done|by rewrite app_nil_r]. Qed.

Lemma append_media_lines s mm : plain_media mm -> append_media s mm = s ++ media_lines mm.
Proof.
  intros []. unfold append_media. rewrite pm_connection0. cbn [negb ConnectionData_Blank].
  change (ConnectionData_Blank zeroConnection) with true. cbn [negb].
  rewrite append_attributes_lines, append_encryption_lines, append_bandwidths_lines by done.
  unfold AddSessionInfo, appendString, nonempty in *. rewrite opt_append_lines. unfold AddMediaDescription, media_lines, media_fields.
  assert (forall v, (if negb (PortsNumber (Description mm) =? 0)
     then appendInt (appendRune (appendInt v (md_Port (Description mm))) 47) (PortsNumber (Description mm))
     else appendInt v (md_Port (Description mm))) = v ++ ports_text (Description mm)) as Hp.
  { intros v. unfold ports_text. rewrite !appendInt_itoa by done. destruct (_ =? 0); cbn; [by rewrite app_nil_r|].
    unfold appendRune. by rewrite <- !app_assoc. }
  rewrite Hp. unfold Session_append, media_text, appendSpace, appendRune. cbn [join]. by rewrite <- !app_assoc.
Qed.
Lemma AddOrigin_line s o : plain_origin o -> AddOrigin s o = s ++ [mkLine TypeOrigin (origin_text o)].
Proof.
  intros []. unfold AddOrigin, o_getNetworkType, getDefault, o_getAddressType, getAddressType.
  destruct (o_NetworkType o) as [|n ns] eqn:E1; [done|]. destruct (o_AddressType o) as [|a l] eqn:E2; [done|].
  cbn [length Nat.eqb negb].
  rewrite !appendInt_itoa by done. unfold appendSpace, appendRune, Session_append, origin_text. cbn [join].
  rewrite E1, E2. by rewrite <- !app_assoc.
Qed.

Lemma address_appended c v : appendAddress c v = v ++ address_text c.
Proof.
  unfold appendAddress, address_text. rewrite appendIP_app. unfold appendRune.
  destruct (0 <? bz (TTL c)); destruct (0 <? bz (Addresses c)); rewrite ?appendByte_itoa, <- ?app_assoc; by rewrite ?app_nil_r.
Qed.
Lemma AddConnectionData_line s c :
  plain_connection c -> AddConnectionData s c = s ++ [mkLine TypeConnectionData (connection_text c)].
Proof.
  intros []. unfold AddConnectionData, c_getNetworkType, getDefault, c_getAddressType, getAddressTypeIP.
  apply Forall_cons in pc_words0 as [[_ Hn] [[_ Ha] _]%Forall_cons].
  destruct (c_NetworkType c) as [|n ns] eqn:E1; [done|]. destruct (c_AddressType c) as [|a l] eqn:E2; [done|].
  cbn [length Nat.eqb negb]. rewrite address_appended. unfold appendSpace, appendRune, Session_append, connection_text.
  rewrite E1, E2. by rewrite <- !app_assoc.
Qed.

Lemma append_timing_line s t : plain_timing t -> append_timing s t = s ++ [mkLine TypeTiming (timing_text t)].
Proof.
  intros [(_ & _ & Ho) _ _]. unfold append_timing. rewrite Ho. cbn [length Nat.ltb Nat.leb].
  unfold AddTiming, Session_append, timing_text, appendUint64, appendSpace, appendRune. by rewrite <- !app_assoc.
Qed.

Lemma append_timings_lines s l :
  Forall plain_timing l ->
  foldl append_timing s l = s ++ map (fun t => mkLine TypeTiming (timing_text t)) l.
Proof.
  intros Hl. revert s. induction Hl as [|t l Ht _ IH]; intros s; cbn [foldl map]; [by rewrite app_nil_r|].
  rewrite IH, append_timing_line by done. by rewrite <- app_assoc.
Qed.
Lemma append_medias_lines s l :
  Forall plain_media l -> foldl append_media s l = s ++ (l ≫= media_lines).
Proof.
  intros Hl. revert s. induction Hl as [|mm l Hm _ IH]; intros s; [by rewrite app_nil_r|].
  cbn [foldl]. rewrite IH, append_media_lines by done. by rewrite bind_cons, app_assoc.
Qed.

(** The encoding of a message is its lines. *)
Lemma Append_lines m s : plain_message m -> Append m s = s ++ message_lines m.
Proof.
  intros []. unfold Append. rewrite pl_zones0. cbn [length Nat.ltb Nat.leb].
  assert (forall s, (if negb (ConnectionData_Blank (m_Connection m)) then AddConnectionData s (m_Connection m) else s)
    = s ++ opt_line (negb (ConnectionData_Blank (m_Connection m))) TypeConnectionData (connection_text (m_Connection m))) as Hc.
  { intros s'. destruct (ConnectionData_Blank _) eqn:E; [by rewrite app_nil_r|].
    by apply AddConnectionData_line, pl_connection0. }
  rewrite append_medias_lines, append_attributes_lines, append_encryption_lines, append_timings_lines,
    append_bandwidths_lines, Hc by done.
  unfold AddPhone, AddEmail, AddURI, AddSessionInfo, AddSessionName, AddVersion, appendString.
  rewrite !opt_append_lines, AddOrigin_line, appendInt_itoa by done.
  unfold message_lines, Session_append, nonempty. cbn [getLine LValue app]. by rewrite <- !app_assoc.
Qed.
End Lines.

(** * What the decoder makes of lines *)

(** The decoding of one line, as an effect on the message or on the media. *)
Definition session_effect (sec : section) (l : Line) (m m' : SdpMessage) : Prop :=
  forall s pos j dm,
    decodeField (mkDecoder s pos (LType l) (LValue l) sec j dm, m)
    = ((mkDecoder s pos (LType l) (LValue l) sec j dm, m'), Ok tt).
Definition media_effect (l : Line) (dm dm' : Media) : Prop :=
  forall s pos j m,
    decodeField (mkDecoder s pos (LType l) (LValue l) sectionMedia j dm, m)
    = ((mkDecoder s pos (LType l) (LValue l) sectionMedia j dm', m), Ok tt).

(** [reads k rest m m']: in the session section, at most at position [k] of its
    ordering, the lines [rest] turn the message [m] into [m']. *)
Definition reads (k : nat) (rest : Session) (m m' : SdpMessage) : Prop :=
  forall pre f n t v j dm,
    (j <= k)%nat -> (length (pre ++ rest) <= n)%nat -> (length rest < f)%nat ->
    exists d', session_loop n f (mkDecoder (pre ++ rest) (length pre) t v sectionSession j dm, m) = ((d', m'), Ok tt).

Lemma bind_ok {A B} (c : DM A) (k : A -> DM B) x x' a : c x = (x', Ok a) -> st_bind c k x = k a x'.
Proof. intros Hc. unfold st_bind. by rewrite Hc. Qed.
Lemma wrap_ok {A} msg (c : DM A) x x' a : c x = (x', Ok a) -> wrap msg c x = (x', Ok a).
Proof. intros Hc. unfold wrap. by rewrite Hc. Qed.

Lemma next_at pre l rest t v sec j dm m :
  next (mkDecoder (pre ++ l :: rest) (length pre) t v sec j dm, m)
  = ((mkDecoder (pre ++ l :: rest) (S (length pre)) (LType l) (LValue l) sec j dm, m), Ok true).
Proof. unfold next, Session. cbn [fst snd d_s d_pos]. by rewrite list_lookup_middle. Qed.
Lemma next_end s t v sec j dm m :
  next (mkDecoder s (length s) t v sec j dm, m) = ((mkDecoder s (length s) t v sec j dm, m), Ok false).
Proof. unfold next, Session. cbn [fst snd d_s d_pos]. by rewrite lookup_ge_None_2 by done. Qed.
Lemma expect_ok x : accepts (d_t x.1) (d_section x.1) (d_sPos x.1) -> expect x = (x, Ok tt).
Proof.
  intros Ha%isExpected_spec. unfold expect. unfold st_bind, the_decoder. by rewrite Ha.
Qed.
Lemma advance_at s pos t v sec j dm m :
  advance (mkDecoder s pos t v sec j dm, m)
  = ((mkDecoder s pos t v sec (if isZeroOrMore t then j else S j) dm, m), Ok tt).
Proof. unfold advance, on_decoder, st_modify. cbn. by destruct (isZeroOrMore t). Qed.

Lemma drop_elem_of_le {A} (x : A) l i j : (i <= j)%nat -> x ∈ drop j l -> x ∈ drop i l.
Proof.
  intros Hle Hin. replace j with (i + (j - i))%nat in Hin by lia. rewrite <- drop_drop in Hin.
  rewrite <- (take_drop (j - i) (drop i l)). set_solver.
Qed.

Lemma reads_nil k m : reads k [] m m.
Proof.
  intros pre f n t v j dm _ _ Hf. destruct f as [|f]; [cbn in Hf; lia|]. rewrite app_nil_r.
  eexists. cbn [session_loop]. by rewrite (bind_ok _ _ _ _ _ (next_end _ _ _ _ _ _ _)).
Qed.

(** Behind the line [l]. *)
Lemma behind {A} (pre : list A) l rest : pre ++ l :: rest = (pre ++ [l]) ++ rest /\ S (length pre) = length (pre ++ [l]).
Proof. rewrite length_app, <- app_assoc. cbn. split; [done|lia]. Qed.

Lemma reads_line k l rest m m1 m' :
  LType l ∈ drop k orderingSession \/ LType l ∈ orderingMedia ->
  LType l <> TypeTiming -> LType l <> TypeMediaDescription ->
  session_effect sectionSession l m m1 -> reads (if isZeroOrMore (LType l) then k else S k) rest m1 m' -> reads k (l :: rest) m m'.
Proof.
  intros Hty Ht Hm He Hr pre f n t v j dm Hj Hn Hf. destruct f as [|f]; [lia|]. cbn [session_loop].
  rewrite (bind_ok _ _ _ _ _ (next_at _ _ _ _ _ _ _ _ _)). cbn [negb].
  rewrite (bind_ok _ _ _ _ tt) by (apply expect_ok; cbn; destruct Hty; [left|tauto];
    by apply (drop_elem_of_le _ _ _ k)).
  rewrite (bind_ok _ _ _ _ _ (advance_at _ _ _ _ _ _ _ _)).
  rewrite (bind_ok the_decoder _ _ _ _ eq_refl). cbn [fst d_t d_sPos].
  assert ((LType l =? TypeTiming) = false) as -> by (by apply Z.eqb_neq).
  assert ((LType l =? TypeMediaDescription) = false) as -> by (by apply Z.eqb_neq).
  rewrite (bind_ok _ _ _ _ _ (wrap_ok _ _ _ _ _ (He _ _ _ _))).
  destruct (behind pre l rest) as [E1 E2]. rewrite E1, E2. rewrite E1 in Hn.
  apply Hr; [destruct (isZeroOrMore _); lia|done|cbn in Hf; lia].
Qed.

Lemma reads_le k k' rest m m' : (k <= k')%nat -> reads k' rest m m' -> reads k rest m m'.
Proof. intros Hle Hr pre f n t v j dm Hj. apply Hr. lia. Qed.

(** A line that is left out when its field is empty. *)
Lemma reads_opt k b t v rest m m1 m' :
  t ∈ drop k orderingSession \/ t ∈ orderingMedia -> t <> TypeTiming -> t <> TypeMediaDescription ->
  (b = true -> session_effect sectionSession (mkLine t v) m m1) -> (b = false -> m1 = m) ->
  reads (S k) rest m1 m' -> reads k (opt_line b t v ++ rest) m m'.
Proof.
  intros Hty Ht Hm He Hno Hr. destruct b; cbn [opt_line app].
  - apply (reads_line k _ rest m m1 m'); [done..|by apply He|]. destruct (isZeroOrMore _); [|done].
    apply (reads_le _ (S k)); [lia|done].
  - rewrite <- (Hno eq_refl). apply (reads_le _ (S k)); [lia|done].
Qed.

Definition next_section (rest : Session) (ts : list Z) : Prop :=
  match rest with [] => True | l :: _ => LType l ∈ ts end.

Lemma media_not_timing t : t ∈ orderingMedia -> (t =? TypeTiming) || (t =? TypeRepeatTimes) = false.
Proof.
  unfold orderingMedia. rewrite !elem_of_cons, elem_of_nil. intros H. by destruct_or! H; subst.
Qed.

(** A timing line and what may follow it. *)
Lemma decodeTiming_line pre l rest n t v sec j dm m m1 :
  LType l = TypeTiming -> session_effect sectionTime l m m1 -> next_section rest orderingMedia ->
  exists t' v' j', decodeTiming (S (S n)) (mkDecoder (pre ++ l :: rest) (length pre) t v sec j dm, m)
    = ((mkDecoder (pre ++ l :: rest) (S (length pre)) t' v' sectionTime j' dm, m1), Ok tt).
Proof.
  intros Ht He Hrest. unfold decodeTiming. rewrite (bind_ok (on_decoder _) _ _ _ _ eq_refl).
  unfold set_d_section. cbn [fst snd d_s d_pos d_t d_v d_m]. cbn [timing_loop].
  rewrite (bind_ok _ _ _ _ _ (next_at _ _ _ _ _ _ _ _ _)). cbn [negb].
  rewrite (bind_ok expect _ _ _ tt) by (apply expect_ok; cbn; rewrite Ht; left; set_solver).
  rewrite (bind_ok advance _ _ _ _ (advance_at _ _ _ _ _ _ _ _)).
  rewrite (bind_ok the_decoder _ _ _ _ eq_refl). cbn [fst d_t]. rewrite (proj2 (Z.eqb_eq _ _) Ht). cbn [orb].
  rewrite (bind_ok _ _ _ _ _ (wrap_ok _ _ _ _ _ (He _ _ _ _))).
  destruct (behind pre l rest) as [E1 E2]. rewrite E1, E2. destruct rest as [|l' rest].
  - rewrite app_nil_r. rewrite (bind_ok _ _ _ _ _ (next_end _ _ _ _ _ _ _)). by eexists _, _, _.
  - cbn [next_section] in Hrest. rewrite (bind_ok _ _ _ _ _ (next_at _ _ _ _ _ _ _ _ _)). cbn [negb].
    rewrite (bind_ok expect _ _ _ tt) by (apply expect_ok; cbn; by right).
    rewrite (bind_ok advance _ _ _ _ (advance_at _ _ _ _ _ _ _ _)).
    rewrite (bind_ok the_decoder _ _ _ _ eq_refl). cbn [fst d_t]. rewrite media_not_timing by done.
    eexists _, _, _. unfold step_back, on_decoder, st_modify. unfold set_d_pos. cbn [fst snd d_s d_pos d_t d_v d_section d_sPos d_m].
    by rewrite Nat.sub_1_r.
Qed.

Lemma reads_timing k l rest m m1 m' :
  (k < orderingAfterTime)%nat -> LType l = TypeTiming -> session_effect sectionTime l m m1 ->
  next_section rest orderingMedia -> reads (S k) rest m1 m' -> reads k (l :: rest) m m'.
Proof.
  intros Hk Ht He Hrest Hr pre f n t v j dm Hj Hn Hf. destruct f as [|f]; [lia|]. cbn [session_loop].
  destruct n as [|n]; [rewrite length_app in Hn; cbn in Hn; lia|].
  rewrite (bind_ok _ _ _ _ _ (next_at _ _ _ _ _ _ _ _ _)). cbn [negb].
  rewrite (bind_ok expect _ _ _ tt) by (apply expect_ok; cbn; rewrite Ht; right; left; split; [lia|set_solver]).
  rewrite (bind_ok advance _ _ _ _ (advance_at _ _ _ _ _ _ _ _)).
  rewrite (bind_ok the_decoder _ _ _ _ eq_refl). cbn [fst d_t d_sPos]. rewrite (proj2 (Z.eqb_eq _ _) Ht).
  destruct (decodeTiming_line pre l rest n (LType l) (LValue l) sectionSession (if isZeroOrMore (LType l) then j else S j)
    dm m m1 Ht He Hrest) as (t' & v' & j' & E).
  erewrite (bind_ok _ (fun _ => session_loop (S n) f)).
  2:{ unfold step_back. rewrite (bind_ok (on_decoder _) _ _ _ _ eq_refl).
      unfold set_d_pos. cbn [fst snd d_s d_pos d_t d_v d_section d_sPos d_m]. rewrite Nat.sub_1_r, Nat.pred_succ.
      rewrite (bind_ok _ _ _ _ _ (wrap_ok _ _ _ _ _ E)). reflexivity. }
  unfold set_d_section. cbn [fst snd d_s d_pos d_t d_v d_section d_sPos d_m].
  destruct (behind pre l rest) as [E1 E2]. rewrite E1, E2. rewrite E1 in Hn.
  apply Hr; [destruct (isZeroOrMore _); lia|done|cbn in Hf; lia].
Qed.

(** The lines of a media behind its first, in turn. *)
Inductive media_run : Session -> Media -> Media -> Prop :=
| media_run_nil dm : media_run [] dm dm
| media_run_cons l fields dm dm1 dm' :
    LType l ∈ orderingMedia -> LType l <> TypeMediaDescription -> media_effect l dm dm1 ->
    media_run fields dm1 dm' -> media_run (l :: fields) dm dm'.

Lemma media_run_app f1 f2 dm dm1 dm' :
  media_run f1 dm dm1 -> media_run f2 dm1 dm' -> media_run (f1 ++ f2) dm dm'.
Proof. induction 1; [done|]. intros. cbn. econstructor; eauto. Qed.

Lemma media_loop_run fields dm dm' rest pre f t v j m :
  media_run fields dm dm' -> next_section rest [TypeMediaDescription] ->
  (0 < j)%nat -> (length fields + length rest < f)%nat ->
  exists t' v' j',
    media_loop f (mkDecoder (pre ++ fields ++ rest) (length pre) t v sectionMedia j dm, m)
    = ((mkDecoder (pre ++ fields ++ rest) (length pre + length fields) t' v' sectionMedia j' dm', m), Ok tt).
Proof.
  intros Hrun Hrest. revert pre f t v j. induction Hrun as [dm|l fields dm dm1 dm' Hty Hm He _ IH]; intros pre f t v j Hj Hf.
  - destruct f as [|f]; [lia|]. cbn [app length media_loop]. rewrite Nat.add_0_r. destruct rest as [|l rest].
    + rewrite app_nil_r, (bind_ok _ _ _ _ _ (next_end _ _ _ _ _ _ _)). by eexists _, _, _.
    + cbn [next_section] in Hrest. apply list_elem_of_singleton in Hrest.
      rewrite (bind_ok _ _ _ _ _ (next_at _ _ _ _ _ _ _ _ _)). cbn [negb].
      rewrite (bind_ok expect _ _ _ tt) by (apply expect_ok; cbn; rewrite Hrest; right; split; [lia|set_solver]).
      rewrite (bind_ok the_decoder _ _ _ _ eq_refl). cbn [fst d_t d_sPos].
      rewrite (proj2 (Z.eqb_eq _ _) Hrest), (proj2 (Nat.eqb_neq j 0)) by lia. cbn [andb negb].
      unfold step_back, on_decoder, st_modify, set_d_pos. cbn [fst snd d_s d_pos d_t d_v d_section d_sPos d_m].
      rewrite Nat.sub_1_r. by eexists _, _, _.
  - destruct f as [|f]; [lia|]. cbn [app length media_loop].
    rewrite (bind_ok _ _ _ _ _ (next_at _ _ _ _ _ _ _ _ _)). cbn [negb].
    rewrite (bind_ok expect _ _ _ tt) by (apply expect_ok; cbn; right; split; [lia|done]).
    rewrite (bind_ok the_decoder _ _ _ _ eq_refl). cbn [fst d_t d_sPos].
    rewrite (proj2 (Z.eqb_neq _ _) Hm). cbn [andb].
    rewrite (bind_ok advance _ _ _ _ (advance_at _ _ _ _ _ _ _ _)).
    rewrite (bind_ok _ _ _ _ _ (wrap_ok _ _ _ _ _ (He _ _ _ _))).
    destruct (behind pre l (fields ++ rest)) as [E1 E2]. rewrite Nat.add_succ_r, <- Nat.add_succ_l, E1, E2.
    apply IH; [destruct (isZeroOrMore _); lia|cbn in Hf; lia].
Qed.

Lemma media_loop_lines pre l fields rest n t v dm dm' m :
  LType l = TypeMediaDescription -> media_effect l zeroMedia dm -> media_run fields dm dm' ->
  next_section rest [TypeMediaDescription] -> (S (length fields + length rest) <= n)%nat ->
  exists t' v' j',
    media_loop (S n) (mkDecoder (pre ++ l :: fields ++ rest) (length pre) t v sectionMedia 0 zeroMedia, m)
    = ((mkDecoder (pre ++ l :: fields ++ rest) (S (length pre) + length fields) t' v' sectionMedia j' dm', m), Ok tt).
Proof.
  intros Ht He Hrun Hrest Hn. cbn [media_loop].
  rewrite (bind_ok _ _ _ _ _ (next_at _ _ _ _ _ _ _ _ _)). cbn [negb].
  rewrite (bind_ok expect _ _ _ tt) by (apply expect_ok; cbn; rewrite Ht; left; set_solver).
  rewrite (bind_ok the_decoder _ _ _ _ eq_refl). cbn [fst d_t d_sPos Nat.eqb negb]. rewrite andb_false_r.
  rewrite (bind_ok advance _ _ _ _ (advance_at _ _ _ _ _ _ _ _)).
  rewrite (bind_ok _ _ _ _ _ (wrap_ok _ _ _ _ _ (He _ _ _ _))).
  destruct (behind pre l (fields ++ rest)) as [E1 E2]. rewrite E1, E2.
  apply (media_loop_run fields dm dm'); [done|done|by rewrite Ht; cbv; lia|lia].
Qed.

Lemma reads_media k l fields rest dm dm' m m' :
  LType l = TypeMediaDescription -> media_effect l zeroMedia dm -> media_run fields dm dm' ->
  next_section rest [TypeMediaDescription] ->
  reads (S k) rest (set_m_Medias (m_Medias m ++ [dm']) m) m' -> reads k (l :: fields ++ rest) m m'.
Proof.
  intros Ht He Hrun Hrest Hr pre f n t v j dm0 Hj Hn Hf. destruct f as [|f]; [lia|]. cbn [session_loop].
  rewrite (bind_ok _ _ _ _ _ (next_at _ _ _ _ _ _ _ _ _)). cbn [negb].
  rewrite (bind_ok expect _ _ _ tt) by (apply expect_ok; cbn; rewrite Ht; right; right; set_solver).
  rewrite (bind_ok advance _ _ _ _ (advance_at _ _ _ _ _ _ _ _)).
  rewrite (bind_ok the_decoder _ _ _ _ eq_refl). cbn [fst d_t d_sPos].
  rewrite (proj2 (Z.eqb_neq _ TypeTiming)) by (by rewrite Ht). rewrite (proj2 (Z.eqb_eq _ _) Ht).
  destruct (media_loop_lines pre l fields rest n (LType l) (LValue l) dm dm' m Ht He Hrun Hrest) as (t' & v' & j' & E).
  { rewrite !length_app in Hn. cbn in Hn. rewrite length_app in Hn. lia. }
  erewrite (bind_ok _ (fun _ => session_loop n f)).
  2:{ unfold step_back. rewrite (bind_ok (on_decoder _) _ _ _ _ eq_refl).
      unfold set_d_pos. cbn [fst snd d_s d_pos d_t d_v d_section d_sPos d_m]. rewrite Nat.sub_1_r, Nat.pred_succ.
      erewrite (bind_ok (wrap _ _)); [reflexivity|]. apply wrap_ok. unfold decodeMedia.
      rewrite (bind_ok (on_decoder _) _ _ _ _ eq_refl).
      unfold set_d_m, set_d_section. cbn [fst snd d_s d_pos d_t d_v d_section d_sPos d_m].
      rewrite (bind_ok _ _ _ _ _ E). reflexivity. }
  unfold set_d_section. cbn [fst snd d_s d_pos d_t d_v d_section d_sPos d_m].
  assert (pre ++ l :: fields ++ rest = (pre ++ l :: fields) ++ rest) as E1 by (by rewrite <- app_assoc).
  assert (S (length pre) + length fields = length (pre ++ l :: fields))%nat as -> by (rewrite length_app; cbn; lia).
  rewrite E1. rewrite E1 in Hn.
  apply Hr; [destruct (isZeroOrMore _); lia|done|cbn in Hf; rewrite length_app in Hf; lia].
Qed.

(** ** The effects of the lines of the encoding *)

Lemma key_value_attribute k v : colon ∉ k -> key_value (attribute_text k v) [] [] false = (k, v).
Proof.
  intros Hk. unfold attribute_text. destruct v as [|c v]; [by apply key_value_only|by apply key_value_pair].
Qed.
Lemma key_value_encryption e : colon ∉ e_Method e -> key_value (encryption_text e) [] [] false = (e_Method e, e_Key e).
Proof.
  intros Hk. unfold encryption_text. destruct (e_Key e) as [|c v]; [by apply key_value_only|by apply key_value_pair].
Qed.

Lemma version_effect n m :
  int64 n -> session_effect sectionSession (mkLine TypeProtocolVersion (itoa n)) m (set_m_Version n m).
Proof.
  intros Hn s pos j dm. change (decodeField ?x) with (decodeVersion x). unfold decodeVersion, st_bind, the_decoder.
  cbn [fst d_v LValue]. by rewrite atoi_itoa.
Qed.

Lemma origin_effect o m :
  plain_origin o -> session_effect sectionSession (mkLine TypeOrigin (origin_text o)) m (set_m_Origin o m).
Proof.
  intros [Hid Hver Hw _ _] s pos j dm. change (decodeField ?x) with (decodeOrigin x).
  unfold decodeOrigin, st_bind, the_decoder. cbn [fst d_v LValue]. unfold subfields, origin_text.
  assert (forall z, sp ∉ itoa z) as Hi by (intros z; by apply itoa_no).
  rewrite !Forall_cons in Hw. destruct Hw as (W1 & W2 & W3 & W4 & _).
  rewrite split_join by (done || by repeat apply Forall_cons_2). rewrite !atoi_itoa by done. by destruct o.
Qed.

Lemma text_effects v m :
  session_effect sectionSession (mkLine TypeSessionName v) m (set_m_Name v m) /\
  session_effect sectionSession (mkLine TypeSessionInformation v) m (set_m_Info v m) /\
  session_effect sectionSession (mkLine TypeURI v) m (set_m_URI v m) /\
  session_effect sectionSession (mkLine TypeEmail v) m (set_m_Email v m) /\
  session_effect sectionSession (mkLine TypePhone v) m (set_m_Phone v m).
Proof. by split_and!. Qed.

Lemma decodeByte_itoa b : decodeByte (itoa (bz b)) = Ok b.
Proof.
  unfold decodeByte. pose proof (bz_range b). rewrite parse_int_itoa by (cbn; lia). by rewrite zb_bz.
Qed.
Lemma itoa_length z : (length (itoa z) =? 0)%nat = false /\ (0 <? length (itoa z))%nat = true.
Proof.
  destruct (itoa z) eqn:E; [|done]. unfold itoa in E. destruct (_ <? _); [done|]. by apply format_uint_nonempty in E.
Qed.

Lemma address_text_cases c :
  plain_connection c ->
  let ip := appendIP [] (c_IP c) in
  (sp ∉ address_text c) /\ address_text c <> [] /\
  ((TTL c = Byte.x00 /\ Addresses c = Byte.x00 /\ address_text c = ip) \/
   (TTL c <> Byte.x00 /\ Addresses c = Byte.x00 /\ address_text c = ip ++ slash :: itoa (bz (TTL c))) \/
   (TTL c <> Byte.x00 /\ Addresses c <> Byte.x00 /\
    address_text c = ip ++ slash :: itoa (bz (TTL c)) ++ slash :: itoa (bz (Addresses c)))).
Proof.
  intros [_ _ (Hne & Hsp & _) _ Had] ip.
  assert (forall z, sp ∉ slash :: itoa z) as Hi.
  { intros z [?|H]%elem_of_cons; [done|]. by apply itoa_no in H. }
  assert (forall b, (0 <? bz b) = negb (bool_decide (b = Byte.x00))) as Hb.
  { intros b. pose proof (bz_range b). case_bool_decide as E; [by subst|]. apply Z.ltb_lt.
    destruct (decide (bz b = 0)); [|lia]. destruct E. by apply bz_inj. }
  unfold address_text. rewrite !Hb. fold ip.
  split_and!.
  - rewrite !elem_of_app. intros [?|[?|?]]; [done|..]; case_bool_decide; cbn in *;
      try (by eapply elem_of_nil); by eapply Hi.
  - intros [? _]%app_eq_nil. done.
  - specialize (Had). repeat case_bool_decide; cbn; rewrite ?app_nil_r; [tauto| |tauto|tauto]. by destruct Had.
Qed.

Lemma connection_effect c m :
  plain_connection c -> m_Connection m = zeroConnection ->
  session_effect sectionSession (mkLine TypeConnectionData (connection_text c)) m (set_m_Connection c m).
Proof.
  intros Hc Hm s pos j dm. change (decodeField ?x) with (decodeConnectionData x).
  destruct (address_text_cases c Hc) as (Hsp & Hne & Hcases).
  destruct Hc as [Hw Hip (Hipne & Hipsp & Hips) Httl Had].
  rewrite !Forall_cons in Hw. destruct Hw as ([W1 W1'] & [W2 W2'] & _).
  assert (forall w : bytes, w <> [] -> (length w =? 0)%nat = false) as Hlen by (by intros []).
  assert (forall z, slash ∉ itoa z) as Hi by (intros z; by apply itoa_no).
  unfold decodeConnectionData, st_bind at 1, the_decoder. cbn [fst d_v LValue LType].
  unfold connection_text at 1. rewrite three_fields_three by done. rewrite !Hlen by done.
  rewrite (bind_ok (on_connection _) _ _ _ _ eq_refl). change (zb 47) with slash. cbn [fst snd].
  destruct Hcases as [(Ht & Ha & ->)|[(Ht & Ha & ->)|(Ht & Ha & ->)]].
  - rewrite three_fields_one by done. rewrite (bind_ok (on_connection _) _ _ _ _ eq_refl). cbn [fst snd length Nat.ltb Nat.leb].
    unfold decodeIP. rewrite Hip. destruct m; cbn in *. subst. destruct c; cbn in *. by subst.
  - rewrite three_fields_two by done. rewrite (bind_ok (on_connection _) _ _ _ _ eq_refl). cbn [fst snd].
    unfold decodeIP. rewrite Hip. cbn [length]. rewrite (proj2 (itoa_length _)). cbn [Nat.ltb Nat.leb].
    assert (sdp_isIPv4 (c_IP c) = true) as -> by (unfold sdp_isIPv4; rewrite Hlen by auto; done).
    unfold wrap, decode_byte_into. rewrite decodeByte_itoa. destruct m; cbn in *. subst. destruct c; cbn in *. by subst.
  - rewrite three_fields_three by done. rewrite (bind_ok (on_connection _) _ _ _ _ eq_refl). cbn [fst snd].
    unfold decodeIP. rewrite Hip. rewrite (proj2 (itoa_length _)).
    assert (sdp_isIPv4 (c_IP c) = true) as -> by (unfold sdp_isIPv4; rewrite Hlen by auto; done). cbn [negb].
    unfold decode_byte_into. rewrite !decodeByte_itoa. destruct m; cbn in *. subst. by destruct c; cbn in *.
Qed.

Lemma timing_effect t m :
  plain_timing t ->
  session_effect sectionTime (mkLine TypeTiming (timing_text t)) m (set_m_Timing (m_Timing m ++ [t]) m).
Proof.
  intros [(Hr & Ha & Ho) H1 H2] s pos j dm. change (decodeField ?x) with (decodeTimingField x).
  unfold decodeTimingField, st_bind, the_decoder. cbn [fst d_v LValue]. unfold timing_text.
  assert (forall x, 0 <= TimeToNTP x < 2 ^ 64) as Hntp.
  { intros x. unfold TimeToNTP. destruct (IsZero x); [lia|]. unfold u64. apply Z.mod_pos_bound. lia. }
  assert (forall z, 0 <= z -> sp ∉ format_uint 10 z) as Hno.
  { intros z Hz Hin. pose proof (format_uint_digits z Hz) as Hf. rewrite Forall_forall in Hf. apply Hf in Hin. by destruct Hin. }
  rewrite two_fields_pair by (apply Hno, Hntp). unfold parseNTP. rewrite !parse_uint_format by apply Hntp.
  cbn [num wrap]. unfold on_message, st_modify, wrap, num, st_ret. cbn [fst snd]. rewrite H1, H2. destruct t. cbn in *. by subst.
Qed.

Lemma bandwidth_effects k n :
  k = BandwidthApplicationSpecific \/ k = BandwidthConferenceTotal -> int64 n ->
  (forall m, session_effect sectionSession (mkLine TypeBandwidth (bandwidth_text k n)) m
      (set_m_Bandwidths (<[k := n]> (m_Bandwidths m)) m)) /\
  (forall dm, media_effect (mkLine TypeBandwidth (bandwidth_text k n)) dm
      (set_mm_Bandwidths (<[k := n]> (mm_Bandwidths dm)) dm)).
Proof.
  intros Hk Hn. assert (colon ∉ k) as Hc by (destruct Hk; subst; set_solver).
  assert (forall sec s pos j dm m,
    decodeBandwidth (mkDecoder s pos TypeBandwidth (bandwidth_text k n) sec j dm, m)
    = (if bool_decide (sec = sectionMedia) then on_media (fun m => set_mm_Bandwidths (<[k := n]> (mm_Bandwidths m)) m)
       else on_message (fun m => set_m_Bandwidths (<[k := n]> (m_Bandwidths m)) m))
      (mkDecoder s pos TypeBandwidth (bandwidth_text k n) sec j dm, m)) as H.
  { intros sec s pos j dm m. unfold decodeBandwidth, st_bind at 1, the_decoder, decodeKV. cbn [fst d_v].
    unfold bandwidth_text. rewrite key_value_pair by done.
    rewrite (proj1 (itoa_length n)).
    assert (negb (bool_decide (k = BandwidthApplicationSpecific) || bool_decide (k = BandwidthConferenceTotal)) = false) as ->.
    { destruct Hk; subst; by rewrite ?bool_decide_eq_true_2, ?orb_true_r by done. }
    unfold st_bind. rewrite atoi_itoa by done. done. }
  split.
  - intros m s pos j dm. change (decodeField ?x) with (decodeBandwidth x). cbn [LType LValue]. by rewrite H.
  - intros dm s pos j m. change (decodeField ?x) with (decodeBandwidth x). cbn [LType LValue]. by rewrite H.
Qed.

Lemma encryption_effects e :
  colon ∉ e_Method e ->
  (forall m, session_effect sectionSession (mkLine TypeEncryptionKey (encryption_text e)) m (set_m_Encryption e m)) /\
  (forall dm, media_effect (mkLine TypeEncryptionKey (encryption_text e)) dm (set_mm_Encryption e dm)).
Proof.
  intros He.
  split; intros x s pos j y; change (decodeField ?x) with (decodeEncryption x);
    unfold decodeEncryption, st_bind, the_decoder, decodeKV; cbn [fst d_v LValue];
    rewrite key_value_encryption by done; by destruct e.
Qed.

Lemma attribute_effects k v :
  colon ∉ k ->
  (forall m, session_effect sectionSession (mkLine TypeAttribute (attribute_text k v)) m
      (set_m_Attributes (addAttribute (m_Attributes m) k v) m)) /\
  (forall dm, media_effect (mkLine TypeAttribute (attribute_text k v)) dm
      (set_mm_Attributes (addAttribute (mm_Attributes dm) k v) dm)).
Proof.
  intros Hk.
  split; intros x s pos j y; change (decodeField ?x) with (decodeAttribute x);
    unfold decodeAttribute, st_bind, the_decoder, decodeKV; cbn [fst d_v LValue];
    by rewrite key_value_attribute.
Qed.

Lemma title_effect v dm : media_effect (mkLine TypeSessionInformation v) dm (set_Title v dm).
Proof. done. Qed.

Lemma description_effect d dm :
  (sp ∉ md_Type d) -> (sp ∉ md_Protocol d) -> int64 (md_Port d) -> int64 (PortsNumber d) ->
  media_effect (mkLine TypeMediaDescription (media_text d)) dm (set_Description d dm).
Proof.
  intros H1 H2 Hp Hn s pos j m. change (decodeField ?x) with (decodeMediaDescription x).
  unfold decodeMediaDescription, st_bind at 1, the_decoder. cbn [fst d_v LValue].
  assert (sp ∉ ports_text d) as Hports.
  { unfold ports_text. assert (forall z, sp ∉ itoa z) as Hi by (intros z; by apply itoa_no).
    destruct (_ =? 0); rewrite elem_of_app; [intros [?|H]; [by eapply Hi|by apply elem_of_nil in H]|].
    rewrite elem_of_cons. intros [?|[?|?]]; [by eapply Hi|done|by eapply Hi]. }
  assert (subfields (media_text d) = md_Type d :: ports_text d :: md_Protocol d :: split sp (Format d)) as ->.
  { unfold subfields, media_text. cbn [join app]. by rewrite !split_app_sep. }
  destruct (split sp (Format d)) as [|f0 rest] eqn:Ef; [by apply split_nonempty in Ef|].
  assert (join [sp] (f0 :: rest) = Format d) as -> by (rewrite <- Ef; apply join_split).
  assert (slash ∉ itoa (md_Port d)) as Hs1 by (by apply itoa_no).
  assert (slash ∉ itoa (PortsNumber d)) as Hs2 by (by apply itoa_no).
  unfold ports_text. change (zb 47) with slash. destruct (Z.eqb_spec (PortsNumber d) 0) as [Hz|Hz].
  - rewrite app_nil_r, split_no_sep by done. cbn [head default].
    unfold st_bind. cbn. rewrite atoi_itoa by done. destruct d. cbn in *. by subst.
  - rewrite split_app_sep, split_no_sep by done. cbn [head default].
    unfold st_bind. cbn. rewrite !atoi_itoa by done. by destruct d.
Qed.

(** ** Maps, line by line *)

Definition insert_pair {A} (m : gmap bytes A) (kv : bytes * A) : gmap bytes A := <[kv.1 := kv.2]> m.

Section Maps.
Context `{MapRange}.

Lemma foldl_insert_range {A} (m : gmap bytes A) : foldl insert_pair ∅ (map_range m) = m.
Proof.
  assert (forall (l : list (bytes * A)) acc, NoDup l.*1 -> (forall k, k ∈ l.*1 -> acc !! k = None) ->
    foldl insert_pair acc l = list_to_map l ∪ acc) as Hf.
  { induction l as [|[k v] l IH]; intros acc Hnd Hacc; cbn [foldl list_to_map foldr]; [by rewrite (left_id_L ∅ (∪))|].
    cbn in Hnd. apply NoDup_cons in Hnd as [Hk Hnd]. unfold insert_pair at 2. cbn [fst snd]. rewrite IH; [|done|].
    - cbn. rewrite <- insert_union_l, <- insert_union_r; [done|]. by apply not_elem_of_list_to_map.
    - intros k' Hk'. rewrite lookup_insert_ne by set_solver. apply Hacc. cbn. set_solver. }
  rewrite Hf; [|rewrite map_range_perm; apply NoDup_fst_map_to_list|by intros; apply lookup_empty].
  rewrite (right_id_L ∅ (∪)). rewrite <- (list_to_map_to_list m) at 2.
  apply list_to_map_proper; [rewrite map_range_perm; apply NoDup_fst_map_to_list|apply map_range_perm].
Qed.

Definition add_all_values (a : Attributes) (kv : bytes * list bytes) : Attributes :=
  foldl (fun a v => addAttribute a kv.1 v) a kv.2.
Lemma add_all_values_insert a k vs :
  vs <> [] -> add_all_values a (k, vs) = <[k := Attributes_Values a k ++ vs]> a.
Proof.
  unfold add_all_values. cbn [fst snd]. revert a. induction vs as [|v vs IH]; intros a Hne; [done|]. cbn [foldl].
  destruct vs as [|v' vs]; [done|]. rewrite IH by done.
  assert (Attributes_Values (addAttribute a k v) k = Attributes_Values a k ++ [v]) as ->.
  { unfold addAttribute, Attributes_Values, Attributes. by rewrite lookup_insert_eq. }
  unfold addAttribute, Attributes. by rewrite insert_insert_eq, <- app_assoc.
Qed.
Lemma foldl_attributes (a : Attributes) :
  plain_attributes a -> foldl add_all_values ∅ (map_range a) = a.
Proof.
  intros Ha%map_range_Forall. rewrite <- (foldl_insert_range a) at 2.
  assert (forall (l : list (bytes * list bytes)) acc, NoDup l.*1 -> (forall k, k ∈ l.*1 -> acc !! k = None) ->
    Forall (fun kv => (colon ∉ kv.1) /\ kv.2 <> []) l -> foldl add_all_values acc l = foldl insert_pair acc l) as Hf.
  { induction l as [|[k v] l IH]; intros acc Hnd Hacc Hl; cbn [foldl]; [done|]. cbn in Hnd.
    apply NoDup_cons in Hnd as [Hk Hnd]. apply Forall_cons in Hl as [[_ Hv] Hl]. cbn [snd] in Hv.
    rewrite add_all_values_insert by done. unfold Attributes_Values.
    assert (acc !! k = None) as -> by (apply Hacc; cbn; set_solver). cbn [default app]. apply IH; [done| |done].
    intros k' Hk'. unfold insert_pair. cbn [fst snd]. unfold Attributes. rewrite lookup_insert_ne by set_solver. apply Hacc. cbn. set_solver. }
  apply Hf; [rewrite map_range_perm; apply NoDup_fst_map_to_list|by intros; apply lookup_empty|done].
Qed.
End Maps.

(** * The round trip *)

Section RoundTrip.
Context `{MapRange}.

Lemma media_run_one l dm dm' :
  LType l ∈ orderingMedia -> LType l <> TypeMediaDescription -> media_effect l dm dm' -> media_run [l] dm dm'.
Proof. intros. econstructor; eauto. constructor. Qed.

Lemma media_run_bandwidths (l : list (bytes * Z)) dm :
  Forall (fun kv => (kv.1 = BandwidthApplicationSpecific \/ kv.1 = BandwidthConferenceTotal) /\ int64 kv.2) l ->
  media_run (map (fun kv => mkLine TypeBandwidth (bandwidth_text kv.1 kv.2)) l) dm
    (set_mm_Bandwidths (foldl insert_pair (mm_Bandwidths dm) l) dm).
Proof.
  intros Hl. revert dm. induction Hl as [|[k n] l [Hk Hn] _ IH]; intros dm; cbn [foldl map].
  - destruct dm. constructor.
  - econstructor; [cbn; set_solver|done|by apply bandwidth_effects|]. apply (IH (set_mm_Bandwidths _ dm)).
Qed.

Lemma media_run_attribute k vs dm :
  (colon ∉ k) ->
  media_run (map (fun v => mkLine TypeAttribute (attribute_text k v)) vs) dm
    (set_mm_Attributes (add_all_values (mm_Attributes dm) (k, vs)) dm).
Proof.
  intros Hk. unfold add_all_values. cbn [fst snd]. revert dm. induction vs as [|v vs IH]; intros dm; cbn [foldl map].
  - destruct dm. constructor.
  - econstructor; [cbn; set_solver|done|by apply attribute_effects|]. apply (IH (set_mm_Attributes _ dm)).
Qed.
Lemma media_run_attributes (l : list (bytes * list bytes)) dm :
  Forall (fun kv => (colon ∉ kv.1) /\ kv.2 <> []) l ->
  media_run (l ≫= fun kv => map (fun v => mkLine TypeAttribute (attribute_text kv.1 v)) kv.2) dm
    (set_mm_Attributes (foldl add_all_values (mm_Attributes dm) l) dm).
Proof.
  intros Hl. revert dm. induction Hl as [|[k vs] l [Hk _] _ IH]; intros dm.
  - destruct dm. constructor.
  - rewrite bind_cons. cbn [foldl fst snd]. eapply media_run_app; [by apply media_run_attribute|].
    apply (IH (set_mm_Attributes _ dm)).
Qed.

Lemma media_run_fields mm :
  plain_media mm -> media_run (media_fields mm) (set_Description (Description mm) zeroMedia) mm.
Proof.
  intros [_ _ _ Hc Hb He Ha]. unfold media_fields.
  eapply media_run_app with (dm1 := set_Title (Title mm) (set_Description (Description mm) zeroMedia)).
  { destruct (Title mm) as [|c t] eqn:E; [constructor|]. apply media_run_one; [cbn; set_solver|done|apply title_effect]. }
  eapply media_run_app; [apply media_run_bandwidths, (map_range_Forall _ _ Hb)|].
  set (d1 := set_Title _ _). set (d2 := set_mm_Bandwidths _ d1).
  assert (d2 = set_mm_Bandwidths (mm_Bandwidths mm) d1) as ->
    by (unfold d2; f_equal; exact (foldl_insert_range (mm_Bandwidths mm))).
  eapply media_run_app with (dm1 := set_mm_Encryption (mm_Encryption mm) (set_mm_Bandwidths (mm_Bandwidths mm) d1)).
  { unfold encryption_lines. destruct (Encryption_Blank (mm_Encryption mm)) eqn:E; cbn [negb opt_line].
    - apply Encryption_Blank_zero in E. rewrite E. constructor.
    - apply media_run_one; [cbn; set_solver|done|by apply encryption_effects]. }
  pose proof (media_run_attributes (map_range (mm_Attributes mm))
    (set_mm_Encryption (mm_Encryption mm) (set_mm_Bandwidths (mm_Bandwidths mm) d1)) (map_range_Forall _ _ Ha)) as Hrun.
  set (a := foldl _ _ _) in Hrun. assert (a = mm_Attributes mm) as Ea by exact (foldl_attributes _ Ha).
  rewrite Ea in Hrun. clearbody a. destruct mm. cbn in *. by subst.
Qed.

(** In the session section. *)
Lemma reads_bandwidths k (l : list (bytes * Z)) rest m m' :
  Forall (fun kv => (kv.1 = BandwidthApplicationSpecific \/ kv.1 = BandwidthConferenceTotal) /\ int64 kv.2) l ->
  reads k rest (set_m_Bandwidths (foldl insert_pair (m_Bandwidths m) l) m) m' ->
  reads k (map (fun kv => mkLine TypeBandwidth (bandwidth_text kv.1 kv.2)) l ++ rest) m m'.
Proof.
  intros Hl. revert m. induction Hl as [|[k' n] l [Hk Hn] _ IH]; intros m Hr; cbn [foldl map app].
  - by destruct m.
  - eapply reads_line; [right; cbn; set_solver|done|done|by apply bandwidth_effects|].
    apply (IH (set_m_Bandwidths _ m)), Hr.
Qed.

Lemma reads_attribute k key vs rest m m' :
  (colon ∉ key) ->
  reads k rest (set_m_Attributes (add_all_values (m_Attributes m) (key, vs)) m) m' ->
  reads k (map (fun v => mkLine TypeAttribute (attribute_text key v)) vs ++ rest) m m'.
Proof.
  intros Hk. unfold add_all_values. cbn [fst snd]. revert m. induction vs as [|v vs IH]; intros m Hr; cbn [foldl map app].
  - by destruct m.
  - eapply reads_line; [right; cbn; set_solver|done|done|by apply attribute_effects|].
    apply (IH (set_m_Attributes _ m)), Hr.
Qed.
Lemma reads_attributes k (l : list (bytes * list bytes)) rest m m' :
  Forall (fun kv => (colon ∉ kv.1) /\ kv.2 <> []) l ->
  reads k rest (set_m_Attributes (foldl add_all_values (m_Attributes m) l) m) m' ->
  reads k ((l ≫= fun kv => map (fun v => mkLine TypeAttribute (attribute_text kv.1 v)) kv.2) ++ rest) m m'.
Proof.
  intros Hl. revert m. induction Hl as [|[key vs] l [Hk _] _ IH]; intros m Hr.
  - by destruct m.
  - rewrite bind_cons, <- app_assoc. cbn [foldl fst snd] in *. apply reads_attribute; [done|].
    apply (IH (set_m_Attributes _ m)), Hr.
Qed.

Lemma next_section_medias l : next_section (l ≫= media_lines) [TypeMediaDescription].
Proof. destruct l; [done|]. cbn. set_solver. Qed.

Lemma reads_medias k l m :
  Forall plain_media l -> reads k (l ≫= media_lines) m (set_m_Medias (m_Medias m ++ l) m).
Proof.
  intros Hl. revert k m. induction Hl as [|mm l Hmm _ IH]; intros k m.
  - rewrite app_nil_r. destruct m. apply reads_nil.
  - rewrite bind_cons. unfold media_lines at 1. cbn [app].
    eapply reads_media; [done| |by apply media_run_fields|apply next_section_medias|].
    + destruct Hmm as [[? ?] ? ? _ _ _ _]. by apply description_effect.
    + replace (m_Medias m ++ mm :: l) with (m_Medias (set_m_Medias (m_Medias m ++ [mm]) m) ++ l)
        by (cbn; by rewrite <- app_assoc).
      apply (IH (S k) (set_m_Medias (m_Medias m ++ [mm]) m)).
Qed.

Lemma reads_decodes s m : reads 0 s zeroSdpMessage m -> decode_message s = (m, Ok tt).
Proof.
  intros Hr. unfold decode_message, Decoder_Decode, sdp_decodeSession.
  rewrite (bind_ok (on_decoder _) _ _ _ _ eq_refl), (bind_ok the_decoder _ _ _ _ eq_refl).
  destruct (Hr [] (S (length s)) (length s) 0 [] 0%nat zeroMedia) as (d' & E); [lia|done|lia|].
  change (session_loop (length s) (S (length s)) (mkDecoder s 0 0 [] sectionSession 0 zeroMedia, zeroSdpMessage)
    = ((d', m), Ok tt)) in E.
  unfold set_d_section, NewDecoder. cbn [fst snd d_s d_pos d_t d_v d_section d_sPos d_m]. by rewrite E.
Qed.

(** Behind the timing: the key, the attributes and the media. *)
Lemma reads_tail k M m :
  plain_message M -> m_Encryption m = mkEncryption [] [] -> m_Attributes m = ∅ -> m_Medias m = [] ->
  reads k (encryption_lines (m_Encryption M) ++ attribute_lines (m_Attributes M) ++ (m_Medias M ≫= media_lines)) m
    (set_m_Medias (m_Medias M) (set_m_Attributes (m_Attributes M) (set_m_Encryption (m_Encryption M) m))).
Proof.
  intros [] He Ha Hm. unfold encryption_lines.
  apply (reads_opt k _ _ _ _ _ (set_m_Encryption (m_Encryption M) m)); [right; cbn; set_solver|done|done|..].
  - intros _. by apply encryption_effects.
  - intros E%negb_false_iff%Encryption_Blank_zero. rewrite E. destruct m. cbn in *. by subst.
  - unfold attribute_lines. apply reads_attributes; [exact (map_range_Forall _ _ pl_attributes0)|].
    set (a := foldl _ _ _). assert (a = m_Attributes M) as ->.
    { unfold a. change (m_Attributes (set_m_Encryption (m_Encryption M) m)) with (m_Attributes m).
      rewrite Ha. by apply foldl_attributes. }
    set (m1 := set_m_Attributes _ _). pose proof (reads_medias (S k) (m_Medias M) m1 pl_medias0) as Hr.
    change (m_Medias m1) with (m_Medias m) in Hr. by rewrite Hm in Hr.
Qed.
Lemma tail_next M :
  next_section (encryption_lines (m_Encryption M) ++ attribute_lines (m_Attributes M) ++ (m_Medias M ≫= media_lines))
    orderingMedia.
Proof.
  unfold encryption_lines. destruct (negb _); cbn [opt_line app next_section]; [cbn; set_solver|].
  unfold attribute_lines. induction (map_range (m_Attributes M)) as [|[k vs] l IH]; cbn.
  - destruct (m_Medias M); cbn; [done|set_solver].
  - destruct vs as [|v vs]; cbn; [done|set_solver].
Qed.

Lemma reads_timings k M m m' rest :
  plain_message M -> m_Timing m = [] -> (k < orderingAfterTime)%nat -> next_section rest orderingMedia ->
  reads (S k) rest (set_m_Timing (m_Timing M) m) m' ->
  reads k (map (fun t => mkLine TypeTiming (timing_text t)) (m_Timing M) ++ rest) m m'.
Proof.
  intros [] Ht Hk Hrest Hr. destruct (m_Timing M) as [|t [|? ?]]; [..|cbn in pl_timings0; lia].
  - apply (reads_le _ (S k)); [lia|]. cbn [map app]. by destruct m; cbn in *; subst.
  - apply Forall_cons in pl_timing0 as [Htm _].
    eapply reads_timing; [done|done|by apply timing_effect|done|]. by rewrite Ht.
Qed.

Lemma message_reads M : plain_message M -> reads 0 (message_lines M) zeroSdpMessage M.
Proof.
  intros HM. pose proof HM as []. unfold message_lines. cbn [app].
  assert (forall v : bytes, nonempty v = false -> v = []) as Hempty by (by intros []).
  assert (forall k t, (k < 12)%nat -> orderingSession !! k = Some t -> t ∈ drop k orderingSession \/ t ∈ orderingMedia) as Hat.
  { intros k t Hk Ht. left. apply list_elem_of_lookup. exists 0%nat. by rewrite lookup_drop, Nat.add_0_r. }
  eapply reads_line; [apply (Hat 0%nat); [lia|done]|done|done|by apply version_effect|].
  eapply reads_line; [apply (Hat 1%nat); [lia|done]|done|done|by apply origin_effect|].
  eapply reads_line; [apply (Hat 2%nat); [lia|done]|done|done|by apply text_effects|].
  eapply reads_opt; [apply (Hat 3%nat); [lia|done]|done|done|intros _; by apply text_effects| |].
  { intros E%Hempty. by rewrite E. }
  eapply reads_opt; [apply (Hat 4%nat); [lia|done]|done|done|intros _; by apply text_effects| |].
  { intros E%Hempty. by rewrite E. }
  eapply reads_opt; [apply (Hat 5%nat); [lia|done]|done|done|intros _; by apply text_effects| |].
  { intros E%Hempty. by rewrite E. }
  eapply reads_opt; [apply (Hat 6%nat); [lia|done]|done|done|intros _; by apply text_effects| |].
  { intros E%Hempty. by rewrite E. }
  eapply reads_opt; [apply (Hat 7%nat); [lia|done]|done|done| | |].
  { intros E%negb_true_iff. by apply connection_effect; [apply pl_connection0|]. }
  { intros E%negb_false_iff%Blank_zero. by rewrite E. }
  unfold bandwidth_lines. apply reads_bandwidths; [exact (map_range_Forall _ _ pl_bandwidths0)|].
  set (b := foldl _ _ _). assert (b = m_Bandwidths M) as -> by exact (foldl_insert_range (m_Bandwidths M)).
  apply reads_timings; [done|done|lazy; lia|apply tail_next|].
  set (m1 := set_m_Timing _ _). match goal with |- reads ?k _ _ _ => pose proof (reads_tail k M m1 HM eq_refl eq_refl eq_refl) as Hr end.
  assert (set_m_Medias (m_Medias M) (set_m_Attributes (m_Attributes M) (set_m_Encryption (m_Encryption M) m1)) = M) as E.
  { subst m1. destruct M. cbn in *. by subst. }
  rewrite E in Hr. exact Hr.
Qed.

(** C15: what the encoder writes the decoder reads back, in whatever order the
    maps of attributes and bandwidths are ranged over, for a message that is
    [plain_message]:
    - its integers fit an int64; the four words of the origin hold no space and
      its network and address types are not empty;
    - its connection is blank, or has network and address types that are not
      empty and hold no space, an IP whose text has no slash or space and parses
      back to it, a TTL only with an IPv4 address, and a number of addresses only
      with a TTL (so not several IPv6 addresses, as in FF15::101/3, whose text
      does not decode);
    - its bandwidths are of the types AS and CT and [BandwidthType] is empty;
    - it has at most one timing, without repeat times and with times that a whole
      NTP timestamp stands for, and no time zones;
    - encryption methods and attribute names hold no colon, and each attribute
      has at least one value, which may be empty;
    - a media has no connection data and no space in its type and protocol.
    Such a message is encoded as a session that decodes to the same message.  If
    moreover each line is a [clean_line] (its value holds no newline and the line
    is what remains when white space is trimmed at both ends, so no value ends in
    a blank), the text of the session decodes to those lines, and the message
    survives its text too. *)
Theorem message_roundtrip (m : SdpMessage) :
  plain_message m ->
  decode_message (Append m []) = (m, Ok tt) /\
  (Forall clean_line (Append m []) ->
   exists s, DecodeSession (Session_AppendTo (Append m []) []) [] = Ok (s, None) /\ decode_message s = (m, Ok tt)).
Proof.
  intros Hm. assert (decode_message (Append m []) = (m, Ok tt)) as E.
  { rewrite Append_lines by done. by apply reads_decodes, message_reads. }
  split; [done|]. intros Hc. exists (Append m []). split; [|done]. by rewrite session_text_roundtrip.
Qed.
End RoundTrip.

Definition example_media : Media :=
  mkMedia (bs "voice") (mkMediaDescription (bs "audio") 49170 2 (bs "RTP/AVP") (bs "0 8")) zeroConnection
    {[ bs "rtpmap" := [bs "0 PCMU/8000"; bs "8 PCMA/8000"]; bs "recvonly" := [[]] ]}
    (mkEncryption [] []) {[ bs "AS" := 64 ]}.
Definition example_video : Media :=
  mkMedia [] (mkMediaDescription (bs "video") 51372 0 (bs "RTP/AVP") (bs "31")) zeroConnection ∅
    (mkEncryption (bs "prompt") []) ∅.
Definition example_message : SdpMessage :=
  mkMessage 0 (mkOrigin (bs "jdoe") 2890844526 2890842807 (bs "IN") (bs "IP4") (bs "10.47.16.5"))
    (bs "SDP Seminar") (bs "A Seminar") [] (bs "j.doe@example.com") []
    (mkConnection (bs "IN") (bs "IP4") (v4_prefix ++ [zb 224; zb 2; zb 17; zb 12]) (zb 127) (zb 3))
    {[ bs "candidate" := [bs "1 1 UDP 1 10.0.0.1 80"]; bs "ice-lite" := [[]] ]}
    [example_media; example_video] (mkEncryption (bs "clear") (bs "a:b")) {[ bs "CT" := 128; bs "AS" := 1 ]} []
    [mkTiming (mkTime 664854608 0) zeroTime 0 0 []] [].

Lemma no_byte (c : byte) w : forallb (fun x => negb (bool_decide (x = c))) w = true -> c ∉ w.
Proof.
  induction w as [|x w IH]; cbn; [set_solver|]. intros [Hx Hw]%andb_prop. apply negb_true_iff, bool_decide_eq_false in Hx.
  rewrite elem_of_cons. intros [->|H]; [done|by apply IH].
Qed.
Ltac bytes_differ := apply no_byte; vm_compute; reflexivity.

Lemma plain_attributes_list (a : Attributes) :
  forallb (fun kv => forallb (fun x => negb (bool_decide (x = colon))) kv.1 && (0 <? length kv.2)%nat) (map_to_list a) = true ->
  plain_attributes a.
Proof.
  intros Ha. apply map_Forall_to_list, Forall_forall. intros [k vs] Hin. rewrite forallb_forall in Ha.
  specialize (Ha (k, vs)). cbn in Ha. apply list_elem_of_In in Hin. apply Ha in Hin.
  apply andb_prop in Hin as [H1 H2]. split; [by apply no_byte|]. by destruct vs.
Qed.
Lemma plain_bandwidths_list (b : Bandwidths) :
  forallb (fun kv => (bool_decide (kv.1 = BandwidthApplicationSpecific) || bool_decide (kv.1 = BandwidthConferenceTotal))
                     && (- 2 ^ 63 <=? kv.2) && (kv.2 <? 2 ^ 63)) (map_to_list b) = true ->
  plain_bandwidths b.
Proof.
  intros Hb. apply map_Forall_to_list, Forall_forall. intros [k n] Hin. rewrite forallb_forall in Hb.
  apply list_elem_of_In in Hin. apply Hb in Hin. cbn [fst snd] in Hin.
  apply andb_prop in Hin as [[H1 H2]%andb_prop H3]. apply orb_prop in H1. unfold int64.
  split; [|lia]. destruct H1 as [H1|H1]; apply bool_decide_eq_true in H1; [by left|by right].
Qed.

Lemma example_media_plain : Forall plain_media [example_media; example_video].
Proof.
  repeat apply Forall_cons_2; [..|apply Forall_nil_2]; split;
    first [ split; bytes_differ | done | unfold int64; cbn; lia | bytes_differ
          | apply plain_bandwidths_list; vm_compute; reflexivity
          | apply plain_attributes_list; vm_compute; reflexivity ].
Qed.
Lemma example_message_plain : plain_message example_message.
Proof.
  split; try done.
  - split; [done|done| |done|done]. repeat apply Forall_cons_2; try apply Forall_nil_2; bytes_differ.
  - intros _. split; [|reflexivity| |done|done].
    + repeat apply Forall_cons_2; try apply Forall_nil_2; (split; [bytes_differ|done]).
    + split; [done|]. split; bytes_differ.
  - apply plain_bandwidths_list; vm_compute; reflexivity.
  - repeat apply Forall_cons_2; [|apply Forall_nil_2]. by split.
  - bytes_differ.
  - apply plain_attributes_list; vm_compute; reflexivity.
  - apply example_media_plain.
Qed.

(** ASCII lines that survive as text. *)
Definition clean_ascii (l : Line) : bool :=
  (0 <=? LType l) && (LType l <? 128) && negb (IsSpace (LType l)) && negb (LType l =? 61)
  && forallb (fun x => negb (bool_decide (x = newline))) (LValue l)
  && match last (LValue l) with Some e => (bz e <? RuneSelf) && negb (IsSpace (bz e)) | None => true end.
Lemma clean_ascii_lines s : forallb clean_ascii s = true -> Forall clean_line s.
Proof.
  induction s as [|[t v] s IH]; cbn [forallb]; [constructor|]. intros [Hl Hs]%andb_prop.
  constructor; [|by apply IH]. unfold clean_ascii in Hl. cbn [LType LValue] in Hl.
  apply andb_prop in Hl as [Hl Hlast]. apply andb_prop in Hl as [Hl Hno]. bool_hyps.
  apply clean_line_ascii; [lia|done|done|by apply no_byte|]. intros e He. rewrite He in Hlast.
  apply andb_prop in Hlast as [Hel Hsp]. split; [unfold RuneSelf in *; lia|by apply negb_true_iff].
Qed.

Lemma message_roundtrip_witness :
  let _ := list_range in
  decode_message (Append example_message []) = (example_message, Ok tt) /\
  exists s, DecodeSession (Session_AppendTo (Append example_message []) []) [] = Ok (s, None) /\
    decode_message s = (example_message, Ok tt).
Proof.
  cbv zeta. destruct (@message_roundtrip list_range example_message example_message_plain) as [H1 H2].
  split; [exact H1|]. apply H2. apply clean_ascii_lines. vm_compute. reflexivity.
Defined.
