(* ===== verification/SdpTyped.v ===== *)
(** The types of decoded messages: whatever the lines, what the decoder of
    [src/sdp/decoder.go] leaves in the message fits the fields it is stored in,
    and encodes to a session that decodes to the same message. *)
From stdpp Require Import base list gmap sets strings.
From Stdlib Require Import ZArith Lia.
From S2P Require Import Prelude GoFmt Utf8 Sdp SdpProps NetAddr Turn SdpFields SdpDecoder SdpDecoderProps SdpRoundtrip.
Open Scope Z_scope.

(** * The values the fields are read from *)

Lemma parse_digits_range maxv s n z : n <= maxv -> parse_digits maxv s n = Ok z -> 0 <= n -> 0 <= z <= maxv.
Proof.
  revert n. induction s as [|c s IH]; intros n Hle; cbn; [intros [= <-]; lia|].
  unfold digit_val. destruct ((48 <=? bz c) && (bz c <=? 57)) eqn:E; [|done].
  apply andb_prop in E as [E1 E2]. bool_hyps. destruct (Z.ltb_spec maxv (n * 10 + (bz c - 48))); [done|]. intros Hp Hn. apply IH in Hp; lia.
Qed.
Lemma parse_uint_range bits s z : 0 < bits -> parse_uint bits s = Ok z -> 0 <= z < 2 ^ bits.
Proof.
  intros Hb. unfold parse_uint. destruct s as [|c s]; [done|]. intros Hp.
  assert (0 < 2 ^ bits) by (apply Z.pow_pos_nonneg; lia).
  apply parse_digits_range in Hp; lia.
Qed.
Lemma parse_int_range bits s z : 0 < bits -> parse_int bits s = Ok z -> - 2 ^ (bits - 1) <= z < 2 ^ (bits - 1).
Proof.
  intros Hb. unfold parse_int. destruct s as [|c s]; [done|].
  assert (forall (neg : bool) r, match parse_uint bits r with
    | Ok un => if neg
        then if 2 ^ (bits - 1) <? un then Err ErrRange else Ok (- un)
        else if 2 ^ (bits - 1) <=? un then Err ErrRange else Ok un
    | e => e
    end = Ok z -> - 2 ^ (bits - 1) <= z < 2 ^ (bits - 1)) as H.
  { intros neg r. destruct (parse_uint bits r) as [un| |] eqn:E; [|done..]. apply parse_uint_range in E; [|done].
    destruct neg; case_match; bool_hyps; [done| |done|]; intros [= <-]; lia. }
  repeat case_bool_decide; [exact (H false s)|exact (H true s)|exact (H false (c :: s))].
Qed.
Lemma atoi_range s z : atoi s = Ok z -> int64 z.
Proof. intros H. by apply parse_int_range in H. Qed.
Lemma i64_range z : int64 (i64 z).
Proof. unfold int64, i64. pose proof (Z.mod_pos_bound (z + 2 ^ 63) (2 ^ 64) ltac:(lia)). lia. Qed.

Lemma key_value_no_colon v key value isValue :
  (colon ∉ key) -> colon ∉ (key_value v key value isValue).1.
Proof.
  revert key value isValue. induction v as [|c v IH]; intros key value isValue Hk; cbn; [done|].
  case_bool_decide; destruct isValue; cbn [andb negb]; apply IH; rewrite ?elem_of_app; set_solver.
Qed.
Lemma split_no_sep_words sep v : Forall (fun w => (sep ∉ w)) (split sep v).
Proof.
  induction v as [|c v IH]; cbn; [repeat constructor; set_solver|]. case_bool_decide.
  - constructor; [set_solver|done].
  - destruct (split sep v) as [|w ws]; [repeat constructor; set_solver|].
    apply Forall_cons in IH as [Hw Hws]. constructor; [set_solver|done].
Qed.
Lemma three_fields_no_sep sep v n f0 f1 f2 r :
  three_fields sep v n f0 f1 f2 = Some r -> (sep ∉ f0) -> (sep ∉ f1) -> (sep ∉ f2) ->
  (sep ∉ r.1.1) /\ (sep ∉ r.1.2) /\ (sep ∉ r.2).
Proof.
  revert n f0 f1 f2. induction v as [|c v IH]; intros n f0 f1 f2; cbn; [by intros [= <-]|].
  case_bool_decide; [apply IH|]. destruct n as [|[|[|n]]]; [..|done]; intros H0 ???; apply (IH _ _ _ _ H0);
    try done; rewrite elem_of_app; set_solver.
Qed.

(** Times read from an NTP timestamp are written as that timestamp, or mean the
    same time. *)
Lemma NTP_stable v : 0 <= v < 2 ^ 64 -> NTPToTime (TimeToNTP (NTPToTime v)) = NTPToTime v.
Proof.
  intros Hv. unfold NTPToTime at 2 3. destruct (Z.eqb_spec v 0) as [->|Hne]; [done|].
  unfold TimeToNTP, IsZero. case_bool_decide as Hz; [by rewrite Hz|]. cbn [unix].
  assert (u64 (u64 (i64 (u64 (v - ntpDelta))) + ntpDelta) = v) as ->.
  { unfold u64, i64, ntpDelta. Z.div_mod_to_equations. lia. }
  unfold NTPToTime. by destruct (Z.eqb_spec v 0).
Qed.

(** * The invariant *)

Definition no_sp (w : bytes) : Prop := sp ∉ w.
Record typed_origin (o : Origin) : Prop := {
  to_id : int64 (SessionID o);
  to_version : int64 (SessionVersion o);
  to_words : Forall no_sp [o_Username o; o_NetworkType o; o_AddressType o; o_Address o]
}.
Record typed_message (m : SdpMessage) : Prop := {
  ty_version : int64 (m_Version m);
  ty_origin : typed_origin (m_Origin m);
  ty_connection : Forall no_sp [c_NetworkType (m_Connection m); c_AddressType (m_Connection m)];
  ty_bandwidths : plain_bandwidths (m_Bandwidths m);
  ty_bandwidth_type : m_BandwidthType m = [];
  ty_timing : Forall plain_timing (m_Timing m);
  ty_zones : Forall (fun z => NTPToTime (TimeToNTP (tz_Start z)) = tz_Start z /\ int64 (tz_Offset z)) (m_TZAdjustments m);
  ty_encryption : colon ∉ e_Method (m_Encryption m);
  ty_attributes : plain_attributes (m_Attributes m);
  ty_medias : Forall plain_media (m_Medias m)
}.
Definition typed (x : Decoder * SdpMessage) : Prop := typed_message x.2 /\ plain_media (d_m x.1).

Lemma typed_zero_message : typed_message zeroSdpMessage.
Proof.
  split; try done; try apply map_Forall_empty; try (cbn; set_solver).
  - split; [done|done|]. repeat constructor; unfold no_sp; cbn; set_solver.
  - repeat constructor; unfold no_sp; cbn; set_solver.
Qed.
Lemma plain_zero_media : plain_media zeroMedia.
Proof. split; try done; try apply map_Forall_empty; cbn; set_solver. Qed.

(** [yields c Q]: from a typed state [c] ends in one, error or not, and what it
    returns satisfies [Q]. *)
Definition yields {A} (c : DM A) (Q : A -> Prop) : Prop :=
  forall x, typed x -> typed (c x).1 /\ forall a, (c x).2 = Ok a -> Q a.

Lemma yields_bind {A B} (c : DM A) (k : A -> DM B) Q R :
  yields c Q -> (forall a, Q a -> yields (k a) R) -> yields (st_bind c k) R.
Proof.
  intros Hc Hk x Hx. destruct (Hc x Hx) as [Ht Ha]. unfold st_bind. destruct (c x) as [x' [a|e|p]]; cbn in *.
  - by apply Hk; [apply Ha|].
  - by split.
  - by split.
Qed.
Lemma yields_ret {A} (a : A) (Q : A -> Prop) : Q a -> yields (st_ret a) Q.
Proof. intros Ha x Hx. split; [done|]. by intros ? [= <-]. Qed.
Lemma yields_err {A} e (Q : A -> Prop) : yields (st_err e) Q.
Proof. intros x Hx. split; [done|by intros ? [=]]. Qed.
Lemma yields_panic {A} p (Q : A -> Prop) : yields (st_panic p) Q.
Proof. intros x Hx. split; [done|by intros ? [=]]. Qed.
Lemma yields_wrap {A} msg (c : DM A) Q : yields c Q -> yields (wrap msg c) Q.
Proof. intros Hc x Hx. destruct (Hc x Hx) as [H1 H2]. unfold wrap.
  destruct (c x) as [x' []]; (split; [done|]); [done|by intros ? [=]..]. Qed.
Lemma yields_num {A} (r : result num_error A) (Q : A -> Prop) : (forall a, r = Ok a -> Q a) -> yields (num r) Q.
Proof. intros Hr x Hx. destruct r; (split; [done|]); intros b [=]; subst; by apply Hr. Qed.
Lemma yields_mono {A} (c : DM A) (Q R : A -> Prop) : (forall a, Q a -> R a) -> yields c Q -> yields c R.
Proof. intros HQ Hc x Hx. destruct (Hc x Hx). split; [done|]. auto. Qed.
Lemma yields_section_error {A} msg (Q : A -> Prop) : yields (section_error msg) Q.
Proof. intros x Hx. split; [done|by intros ? [=]]. Qed.
Lemma yields_the_decoder : yields the_decoder (fun d => plain_media (d_m d)).
Proof. intros x [Hx Hd]. split; [done|]. by intros ? [= <-]. Qed.
Lemma yields_the_message : yields the_message typed_message.
Proof. intros x [Hx Hd]. split; [done|]. by intros ? [= <-]. Qed.
Lemma yields_on_message f : (forall m, typed_message m -> typed_message (f m)) -> yields (on_message f) (fun _ => True).
Proof. intros Hf x [Hx Hd]. split; [|done]. split; [by apply Hf|done]. Qed.
Lemma yields_on_media f : (forall m, plain_media m -> plain_media (f m)) -> yields (on_media f) (fun _ => True).
Proof. intros Hf x [Hx Hd]. split; [|done]. split; [done|by apply Hf]. Qed.
Lemma yields_on_decoder f :
  (forall d, plain_media (d_m d) -> plain_media (d_m (f d))) -> yields (on_decoder f) (fun _ => True).
Proof. intros Hf x [Hx Hd]. split; [|done]. split; [done|by apply Hf]. Qed.
Lemma yields_next : yields next (fun _ => True).
Proof. intros x [Hx Hd]. unfold next. destruct (d_s x.1 !! d_pos x.1); by split. Qed.
Lemma yields_expect : yields expect (fun _ => True).
Proof. intros x Hx. split; [|done]. by destruct (expect_cases x) as [[-> _]|[e ->]]. Qed.
Lemma yields_advance : yields advance (fun _ => True).
Proof. apply yields_on_decoder. intros d Hd. by destruct (isZeroOrMore _). Qed.
Lemma yields_step_back : yields step_back (fun _ => True).
Proof. by apply yields_on_decoder. Qed.

Create HintDb yields discriminated.
#[local] Hint Resolve yields_err yields_panic yields_section_error yields_the_decoder yields_the_message yields_next
  yields_expect yields_advance yields_step_back yields_ret I : yields.
#[local] Hint Extern 5 (yields (st_ret _) _) => apply yields_ret : yields.
Ltac yields_walk :=
  repeat first [ progress (intros; cbv beta zeta) | solve [eauto 2 with yields]
    | apply yields_wrap | (eapply yields_bind; [solve [eauto 2 with yields]|])
    | match goal with
      | |- yields (match ?x with _ => _ end) _ => destruct x eqn:?
      | |- yields (let '(_, _) := ?x in _) _ => destruct x eqn:?
      end ].

(** ** The fields *)

Lemma yields_atoi msg s : yields (wrap msg (num (atoi s))) int64.
Proof. apply yields_wrap, yields_num. intros z. apply atoi_range. Qed.
Lemma yields_parseNTP msg s : yields (wrap msg (num (parseNTP s))) (fun v => 0 <= v < 2 ^ 64).
Proof. apply yields_wrap, yields_num. intros z. by apply parse_uint_range. Qed.
#[local] Hint Resolve yields_atoi yields_parseNTP : yields.

Lemma yields_decodeInterval b : yields (decodeInterval b) int64.
Proof.
  unfold decodeInterval. case_bool_decide; [by apply yields_ret|]. destruct (last b); [|auto with yields].
  yields_walk; apply yields_ret, i64_range.
Qed.

Lemma addAttribute_plain a k v : (colon ∉ k) -> plain_attributes a -> plain_attributes (addAttribute a k v).
Proof.
  intros Hk Ha. unfold addAttribute. apply map_Forall_insert_2; [|done]. split; [done|].
  by destruct (Attributes_Values a k).
Qed.

(** A write of one field of the message or of the media. *)
Ltac field_write :=
  first [apply yields_on_message | apply yields_on_media];
  let m := fresh "m" in let H := fresh in intros m H; destruct H; split; cbn; try done.

Lemma yields_connection f Q :
  (forall c, Forall no_sp [c_NetworkType c; c_AddressType c] -> Forall no_sp [c_NetworkType (f c); c_AddressType (f c)]) ->
  (Q : unit -> Prop) tt -> yields (on_connection f) Q.
Proof.
  intros Hf HQ. apply (yields_mono _ (fun _ => True)); [by intros []|]. unfold on_connection. field_write. by apply Hf.
Qed.

Lemma yields_decode_byte set b :
  (forall n c, c_NetworkType (set n c) = c_NetworkType c /\ c_AddressType (set n c) = c_AddressType c) ->
  yields (decode_byte_into set b) (fun _ => True).
Proof.
  intros Hset. unfold decode_byte_into.
  assert (forall n, yields (on_connection (set n)) (fun _ => True)) as Hw.
  { intros n. apply yields_connection; [|done]. intros c. by destruct (Hset n c) as [-> ->]. }
  destruct (decodeByte b); [done| |auto with yields]. eapply yields_bind; [apply Hw|]. auto with yields.
Qed.

Lemma yields_decodeConnectionData : yields decodeConnectionData (fun _ => True).
Proof.
  unfold decodeConnectionData. eapply yields_bind; [apply yields_the_decoder|]. intros d _.
  unfold raise. destruct (three_fields sp (d_v d) 0 [] [] []) as [[[n t] a]|] eqn:E; [|cbv zeta; auto using yields_wrap with yields].
  apply three_fields_no_sep in E as (Hn & Ht & _); [|set_solver..]. cbn [fst snd] in Hn, Ht.
  repeat (case_match; [cbv zeta; by auto using yields_wrap with yields|]).
  eapply yields_bind with (Q := fun _ => True); [apply yields_connection; [|done]|].
  { intros c _. repeat constructor; done. }
  intros _ _. destruct (three_fields _ _ _ _ _ _) as [[[base first] second]|]; [|by auto using yields_wrap with yields].
  eapply yields_bind with (Q := fun _ => True); [by apply yields_connection|]. intros _ _.
  repeat case_match; try (by auto using yields_wrap with yields); try (by apply yields_wrap, yields_decode_byte).
  eapply yields_bind; [by apply yields_wrap, yields_decode_byte|]. intros _ _. by apply yields_wrap, yields_decode_byte.
Qed.

Lemma yields_decodeBandwidth : yields decodeBandwidth (fun _ => True).
Proof.
  unfold decodeBandwidth. eapply yields_bind; [apply yields_the_decoder|]. intros d _.
  destruct (decodeKV d) as [k v]. case_match; [by auto using yields_wrap with yields|].
  destruct (negb _) eqn:Ek; [by auto using yields_wrap with yields|].
  assert (k = BandwidthApplicationSpecific \/ k = BandwidthConferenceTotal) as Hk.
  { apply negb_false_iff, orb_true_iff in Ek as [E|E]; apply bool_decide_eq_true in E; auto. }
  clear Ek.
  eapply yields_bind; [apply yields_atoi|]. intros n Hn.
  case_bool_decide; field_write; (apply map_Forall_insert_2; [by split|done]).
Qed.

Lemma yields_decodeTimingField : yields decodeTimingField (fun _ => True).
Proof.
  unfold decodeTimingField. eapply yields_bind; [apply yields_the_decoder|]. intros d _.
  destruct (two_fields _ _ _ _) as [[a b]|]; [|by auto using yields_wrap with yields].
  eapply yields_bind; [apply yields_parseNTP|]. intros t1 H1. eapply yields_bind; [apply yields_parseNTP|]. intros t2 H2.
  field_write. apply Forall_app_2; [done|]. repeat constructor; cbn; by apply NTP_stable.
Qed.

Lemma yields_decodeOrigin : yields decodeOrigin (fun _ => True).
Proof.
  unfold decodeOrigin. eapply yields_bind; [apply yields_the_decoder|]. intros d _.
  pose proof (split_no_sep_words sp (d_v d)) as Hw. unfold subfields in *.
  destruct (split sp (d_v d)) as [|p0 [|p1 [|p2 [|p3 [|p4 [|p5 [|? ?]]]]]]]; try (by auto using yields_wrap with yields).
  rewrite !Forall_cons in Hw. destruct_and! Hw.
  eapply yields_bind; [apply yields_atoi|]. intros i Hi. eapply yields_bind; [apply yields_atoi|]. intros v Hv.
  field_write. split; [done|done|]. by repeat apply Forall_cons_2.
Qed.

Lemma yields_decode_offsets i l o : yields (decode_offsets i l o) (fun _ => True).
Proof.
  revert i o. induction l as [|b l IH]; intros i o; cbn [decode_offsets]; [by apply yields_ret|].
  eapply yields_bind; [apply yields_wrap, yields_decodeInterval|]. auto.
Qed.
Lemma yields_decodeRepeatTimes : yields decodeRepeatTimes (fun _ => True).
Proof.
  unfold decodeRepeatTimes. eapply yields_bind; [apply yields_the_message|]. intros m _.
  destruct (last (m_Timing m)); [|auto with yields]. eapply yields_bind; [apply yields_the_decoder|]. intros d _.
  destruct (subfields _) as [|p0 [|p1 [|p2 rest]]]; try (by auto using yields_wrap with yields).
  eapply yields_bind; [apply yields_wrap, yields_decodeInterval|]. intros r _.
  eapply yields_bind; [apply yields_wrap, yields_decodeInterval|]. intros a _.
  eapply yields_bind; [apply yields_decode_offsets|]. intros o _. by apply yields_ret.
Qed.
Lemma yields_decode_zones p : yields (decode_zones p) (fun _ => True).
Proof.
  assert (forall n p, (length p <= n)%nat -> yields (decode_zones p) (fun _ => True)) as H; [|by apply (H (length p))].
  induction n as [|n IH]; intros [|a [|b q]] Hn; cbn [length] in Hn; cbn [decode_zones]; try lia; try by apply yields_ret.
  eapply yields_bind; [apply yields_parseNTP|]. intros t Ht.
  eapply yields_bind; [apply yields_wrap, yields_decodeInterval|]. intros o Ho.
  eapply yields_bind with (Q := fun _ => True); [field_write|intros _ _; apply IH; lia].
  apply Forall_app_2; [done|]. repeat constructor; [by apply NTP_stable|apply Ho..].
Qed.

Lemma yields_decodeMediaDescription : yields decodeMediaDescription (fun _ => True).
Proof.
  unfold decodeMediaDescription. eapply yields_bind; [apply yields_the_decoder|]. intros d _.
  pose proof (split_no_sep_words sp (d_v d)) as Hw. unfold subfields in *.
  destruct (split sp (d_v d)) as [|p0 [|p1 [|p2 [|p3 rest]]]]; try (by auto using yields_wrap with yields).
  rewrite !Forall_cons in Hw. destruct_and! Hw.
  eapply yields_bind; [apply yields_atoi|]. intros port Hport.
  eapply yields_bind with (Q := int64); [|intros n Hn; by field_write].
  destruct (split (zb 47) p1) as [|? [|n ?]]; [by apply yields_ret..|apply yields_atoi].
Qed.

Lemma decodeKV_no_colon d k v : decodeKV d = (k, v) -> colon ∉ k.
Proof.
  intros E. pose proof (key_value_no_colon (d_v d) [] [] false) as Hk. unfold decodeKV in E. rewrite E in Hk.
  apply Hk. set_solver.
Qed.

Lemma yields_decodeField : yields decodeField (fun _ => True).
Proof.
  unfold decodeField. eapply yields_bind; [apply yields_the_decoder|]. intros d _. cbv zeta.
  repeat case_match; try apply yields_panic; try apply yields_decodeBandwidth; try apply yields_decodeTimingField;
    try apply yields_decodeConnectionData; try apply yields_decodeOrigin; try apply yields_decodeRepeatTimes;
    try apply yields_decodeMediaDescription.
  all: eapply yields_bind; [apply yields_the_decoder|]; intros d' _; cbn beta.
  all: try (cbv zeta; case_match; [by apply yields_wrap, yields_section_error|by apply yields_decode_zones]).
  all: try (eapply yields_bind; [apply yields_atoi|]; intros n Hn; by field_write).
  all: try (destruct (decodeKV d') as [k v] eqn:Ek; apply decodeKV_no_colon in Ek; cbv zeta;
            case_match; field_write; by apply addAttribute_plain).
  all: try case_bool_decide; field_write.
Qed.

(** ** The sections *)

Lemma yields_then {B} (c : DM unit) (k : DM B) R :
  yields c (fun _ => True) -> yields k R -> yields (c;;; k) R.
Proof. intros Hc Hk. by eapply yields_bind. Qed.
Lemma yields_the_decoder_then {B} (k : Decoder -> DM B) R :
  (forall d, plain_media (d_m d) -> yields (k d) R) -> yields (let! d := the_decoder in k d) R.
Proof. apply yields_bind, yields_the_decoder. Qed.
Lemma yields_next_then {B} (k : bool -> DM B) R : (forall b, yields (k b) R) -> yields (let! b := next in k b) R.
Proof. intros Hk. eapply yields_bind; [apply yields_next|]. auto. Qed.

Lemma yields_timing_loop f : yields (timing_loop f) (fun _ => True).
Proof.
  induction f as [|f IH]; cbn [timing_loop]; [apply yields_panic|]. apply yields_next_then. intros [|]; [|by apply yields_ret].
  cbn [negb]. apply yields_then, yields_then, yields_the_decoder_then; [apply yields_expect|apply yields_advance|].
  intros d _. case_match; [|apply yields_step_back]. apply yields_then; [apply yields_wrap, yields_decodeField|done].
Qed.
Lemma yields_media_loop f : yields (media_loop f) (fun _ => True).
Proof.
  induction f as [|f IH]; cbn [media_loop]; [apply yields_panic|]. apply yields_next_then. intros [|]; [|by apply yields_ret].
  cbn [negb]. apply yields_then, yields_the_decoder_then; [apply yields_expect|].
  intros d _. case_match; [apply yields_step_back|].
  apply yields_then, yields_then; [apply yields_advance|apply yields_wrap, yields_decodeField|done].
Qed.
Lemma yields_decodeMedia f : yields (decodeMedia f) (fun _ => True).
Proof.
  unfold decodeMedia. apply yields_then; [|apply yields_then, yields_the_decoder_then; [apply yields_media_loop|]].
  - apply yields_on_decoder. intros d _. apply plain_zero_media.
  - intros d Hd. field_write. apply Forall_app_2; [done|]. apply Forall_cons_2; [done|apply Forall_nil_2].
Qed.
Lemma yields_session_loop n f : yields (session_loop n f) (fun _ => True).
Proof.
  induction f as [|f IH]; cbn [session_loop]; [apply yields_panic|]. apply yields_next_then. intros [|]; [|by apply yields_ret].
  cbn [negb]. apply yields_then, yields_then, yields_the_decoder_then; [apply yields_expect|apply yields_advance|].
  intros d _. cbv zeta. apply yields_then; [|done].
  assert (forall v k, yields (on_decoder (set_d_section v k)) (fun _ => True)) as Hset by (intros v k; by apply yields_on_decoder).
  case_match; [|case_match; [|apply yields_wrap, yields_decodeField]].
  - apply yields_then, yields_then; [apply yields_step_back|apply yields_wrap|done].
    unfold decodeTiming. apply yields_then; [done|apply yields_timing_loop].
  - apply yields_then, yields_then; [apply yields_step_back|apply yields_wrap, yields_decodeMedia|done].
Qed.

Lemma decoded_typed s : typed_message (decode_message s).1.
Proof.
  unfold decode_message, Decoder_Decode.
  assert (yields sdp_decodeSession (fun _ => True)) as Hy.
  { unfold sdp_decodeSession. apply yields_then, yields_the_decoder_then; [by apply yields_on_decoder|].
    intros d _. apply yields_session_loop. }
  destruct (Hy (NewDecoder s, zeroSdpMessage)) as [[Hm _] _].
  - split; [apply typed_zero_message|apply plain_zero_media].
  - by destruct (sdp_decodeSession _) as [x r].
Qed.

(** What the encoder can write of a decoded message: an origin, a connection
    that is blank or an address it prints as it is read, one timing, no time
    zones. *)
Record writable (m : SdpMessage) : Prop := {
  wr_origin : o_NetworkType (m_Origin m) <> [] /\ o_AddressType (m_Origin m) <> [];
  wr_connection : ConnectionData_Blank (m_Connection m) = false -> plain_connection (m_Connection m);
  wr_timing : (length (m_Timing m) <= 1)%nat;
  wr_zones : m_TZAdjustments m = []
}.
Lemma typed_writable m : typed_message m -> writable m -> plain_message m.
Proof.
  intros [] [[? ?] ? ? ?]. split; try done. destruct ty_origin0. by split.
Qed.

(** C16: The types of decoded messages.  Whatever the lines, and whether the
    decoder ends with an error or not, what it leaves in the message is well
    typed: every number fits an [int], every time is one an NTP timestamp stands
    for, no name of an attribute or method of an encryption holds a colon, no
    word of the origin, of the connection or of a media description a space,
    only the two types of bandwidth occur, no attribute is without values, no
    timing has repeat times, and no media has connection data.  So a decoded
    message that has an origin, at most one timing, no time zones and an address
    that is printed as it is read, is encoded as a session that decodes to the
    same message. *)
Theorem decoded_message_typed `{MapRange} (s : Session) :
  typed_message (decode_message s).1 /\
  (writable (decode_message s).1 ->
   decode_message (Append (decode_message s).1 []) = ((decode_message s).1, Ok tt)).
Proof.
  pose proof (decoded_typed s) as Ht. split; [done|]. intros Hw.
  pose proof (typed_writable _ Ht Hw) as Hp. rewrite Append_lines by done. by apply reads_decodes, message_reads.
Qed.

Definition offer_session : Session :=
  [mkLine TypeProtocolVersion (bs "0"); mkLine TypeOrigin (bs "jdoe 2890844526 2890842807 IN IP4 10.47.16.5");
   mkLine TypeSessionName (bs "-"); mkLine TypeConnectionData (bs "IN IP4 224.2.17.12/127/3");
   mkLine TypeTiming (bs "2873397496 0"); mkLine TypeAttribute (bs "recvonly");
   mkLine TypeMediaDescription (bs "audio 49170/2 RTP/AVP 0 8"); mkLine TypeBandwidth (bs "AS:64");
   mkLine TypeAttribute (bs "rtpmap:0 PCMU/8000")].

Lemma decoded_message_typed_witness :
  let _ := list_range in
  typed_message (decode_message offer_session).1 /\ (decode_message offer_session).2 = Ok tt /\
  decode_message (Append (decode_message offer_session).1 []) = ((decode_message offer_session).1, Ok tt).
Proof.
  cbv zeta. destruct (@decoded_message_typed list_range offer_session) as [H1 H2].
  split; [exact H1|]. split; [vm_compute; reflexivity|]. apply H2. clear H1 H2.
  split; [split; vm_compute; discriminate| |vm_compute; lia|vm_compute; reflexivity].
  intros _. split.
  - repeat apply Forall_cons_2; try apply Forall_nil_2; (split; [bytes_differ|vm_compute; discriminate]).
  - vm_compute. reflexivity.
  - split; [vm_compute; discriminate|]. split; bytes_differ.
  - intros _. vm_compute. discriminate.
  - intros _. vm_compute. discriminate.
Defined.
