(* ===== verification/SdpFindings.v ===== *)
(** Where the decoder of [src/sdp/decoder.go] and the encoder of
    [src/sdp/encoder.go], or RFC 4566, disagree. *)
From stdpp Require Import base list gmap sets strings.
From Stdlib Require Import ZArith Lia.
From S2P Require Import Prelude GoFmt Utf8 Sdp SdpProps NetAddr Turn SdpFields SdpDecoder SdpDecoderProps SdpRoundtrip SdpTyped.
Open Scope Z_scope.

Definition is_err {E A} (r : result E A) : bool := match r with Err _ => true | _ => false end.

(** The repeat times of a session are decoded and thrown away: no decoded timing
    has any. *)
Theorem repeat_times_lost s :
  Forall (fun t => Repeat t = 0 /\ Active t = 0 /\ Offsets t = []) (m_Timing (decode_message s).1).
Proof. eapply Forall_impl; [apply ty_timing, decoded_typed|]. by intros t []. Qed.

(** A media never has connection data; its line overwrites that of the session. *)
Theorem media_connection_lost s :
  Forall (fun mm => mm_Connection mm = zeroConnection) (m_Medias (decode_message s).1).
Proof. eapply Forall_impl; [apply ty_medias, decoded_typed|]. by intros t []. Qed.

Definition media_connection_session : Session :=
  [mkLine TypeConnectionData (bs "IN IP4 10.0.0.1"); mkLine TypeMediaDescription (bs "audio 9 UDP 0");
   mkLine TypeConnectionData (bs "IN IP4 10.0.0.2")].
Example media_connection_overwrites :
  c_IP (m_Connection (decode_message media_connection_session).1) = v4_prefix ++ [zb 10; zb 0; zb 0; zb 2] /\
  (decode_message media_connection_session).2 = Ok tt.
Proof. split; vm_compute; reflexivity. Qed.

Section Encoder.
Definition two_timings : SdpMessage :=
  set_m_Timing [mkTiming zeroTime zeroTime 0 0 []; mkTiming zeroTime zeroTime 0 0 []] example_message.
Definition time_zone_message : SdpMessage :=
  set_m_TZAdjustments [mkTimeZone (mkTime 664854608 0) Hour] example_message.

(** Two timings, and time zones, are encoded where the decoder refuses them. *)
Example two_timings_refused :
  is_err (decode_message (@Append list_range two_timings [])).2 = true /\
  is_err (decode_message (@Append list_range time_zone_message [])).2 = true.
Proof. split; vm_compute; reflexivity. Qed.
End Encoder.

(** Directly behind a timing they are refused; behind an attribute line, which
    ends the section of the timing, they are accepted. *)
Definition line_types (ts : list (Z * bytes)) : Session := map (fun tv => mkLine tv.1 tv.2) ts.
Definition timing_line : Z * bytes := (TypeTiming, bs "0 0").
Definition flag_line : Z * bytes := (TypeAttribute, bs "recvonly").
Definition zone_line : Z * bytes := (TypeTimeZones, bs "2882844526 1h").
Example timings_behind_attribute :
  is_err (decode_message (line_types [timing_line; timing_line])).2 = true /\
  is_err (decode_message (line_types [timing_line; zone_line])).2 = true /\
  (let '(m, r) := decode_message (line_types [timing_line; flag_line; timing_line; flag_line; zone_line]) in
   (length (m_Timing m), length (m_TZAdjustments m), r) = (2%nat, 1%nat, Ok tt)).
Proof. split_and!; vm_compute; reflexivity. Qed.

(** The number of IPv6 addresses is read from the wrong field, so it is always an
    error; and a number past 255 is cut to its low byte. *)
Example address_numbers :
  is_err (decode_message [mkLine TypeConnectionData (bs "IN IP6 FF15::101/3")]).2 = true /\
  decodeByte (bs "256") = Ok Byte.x00 /\ decodeByte (bs "-1") = Ok (zb 255).
Proof. split_and!; vm_compute; reflexivity. Qed.

(** No field is required: a session without lines is a message. *)
Example nothing_required : decode_message [] = (zeroSdpMessage, Ok tt).
Proof. reflexivity. Qed.
