(* ===== verification/IceSetup.v ===== *)
(** Properties of the check list of an ICE session: pair priorities, sorting and
    pruning, [createCheckList]. *)
From stdpp Require Import base list gmap sets sorting strings.
From Stdlib Require Import ZArith Lia.
From S2P Require Import Prelude Wire GoFmt GoSlice StunTypes StunMessage StunBuild StunAttrs.
From S2P Require Import StunAddr StunIntegrity Turn NetAddr IceCandidate IceChecklist IceSession.
Open Scope Z_scope.

(** * The loops of [createCheckList] *)

Lemma seq_snoc_app (l : list nat) n k : l ++ seq n (S k) = (l ++ [n]) ++ seq (S n) k.
Proof. by rewrite <- app_assoc. Qed.

Lemma add_remotes cs s :
  for_each cs add_remote s
  = (set_remoteCandidates (remoteCandidates s ++ seq (length (cands s)) (length cs))
       (set_cands (cands s ++ cs) s), Ok tt).
Proof.
  revert s. induction cs as [|c cs IH]; intros s.
  - cbn. rewrite !app_nil_r. by destruct s.
  - cbn [for_each]. unfold st_bind at 1, add_remote, st_bind, new_cand, st_modify.
    rewrite IH. cbn [length remoteCandidates cands set_remoteCandidates set_cands].
    rewrite seq_snoc_app, length_app, Nat.add_1_r, <- (app_assoc (cands s)). done.
Qed.
Lemma add_pairs ps s :
  for_each ps add_pair s
  = (set_checkList (checkList s ++ seq (length (allChecks s)) (length ps))
       (set_allChecks (allChecks s ++ map (pair_check s) ps) s), Ok tt).
Proof.
  revert s. induction ps as [|p ps IH]; intros s.
  - cbn. rewrite !app_nil_r. by destruct s.
  - cbn [for_each]. unfold st_bind at 1, add_pair, st_bind, st_get, new_check, st_modify.
    rewrite IH. cbn [length checkList allChecks set_checkList set_allChecks map].
    rewrite seq_snoc_app, length_app, Nat.add_1_r, <- (app_assoc (allChecks s)). done.
Qed.

(** What [createCheckList] makes of a session, in one step each. *)
Definition with_description (sd : sessionDescription) (s : session) : session :=
  let new := filter (fun c => ComponentID c = 1) (sd_candidates sd) in
  let s := set_txUserName (sd_user sd ++ bs ":" ++ rxUserFrag s) s in
  let s := set_rxUserName (rxUserFrag s ++ bs ":" ++ sd_user sd) s in
  let s := set_txPassword (sd_password sd) s in
  set_remoteCandidates (remoteCandidates s ++ seq (length (cands s)) (length new))
    (set_cands (cands s ++ new) s).
Definition with_pairs (s : session) : session :=
  let pairs := list_prod (localCandidates s) (remoteCandidates s) in
  set_checkList (checkList s ++ seq (length (allChecks s)) (length pairs))
    (set_allChecks (allChecks s ++ map (pair_check s) pairs) s).

Lemma modify_then {A} f (k : SM A) s : (st_modify f;;; k) s = k (f s).
Proof. done. Qed.
Lemma ok_then {A B} (c : SM A) (k : A -> SM B) s s' a :
  c s = (s', Ok a) -> (let! x := c in k x) s = k a s'.
Proof. intros E. unfold st_bind. by rewrite E. Qed.

Lemma createCheckList_eq sd s :
  createCheckList sd s =
  if (maxCandidates <? length (sd_candidates sd))%nat then (s, Ok (Some ErrTooManyCandidates))
  else
    let s1 := with_pairs (with_description sd s) in
    if bool_decide (checkList s1 = []) then (s1, Ok (Some NoMatchedCandidate))
    else
      (set_checkList (prune (prune_key_of s1) (sort_stable (priority_in s1) (checkList s1))) s1,
       Ok None).
Proof.
  unfold createCheckList. destruct (_ <? _)%nat; [done|]. rewrite !modify_then.
  erewrite ok_then by apply add_remotes.
  lazymatch goal with |- st_bind _ _ ?x = _ => change x with (with_description sd s) end.
  generalize (with_description sd s) as s1. clear s. intros s. erewrite ok_then by done.
  erewrite ok_then by apply add_pairs.
  lazymatch goal with |- st_bind _ _ ?x = _ => change x with (with_pairs s) end.
  generalize (with_pairs s) as s1. clear s. intros s. erewrite ok_then by done.
  cbn zeta. by case_bool_decide.
Qed.

(** * The check list *)

Lemma with_pairs_elem s i :
  checkList s = [] -> i ∈ checkList (with_pairs s) ->
  exists lr, lr ∈ list_prod (localCandidates s) (remoteCandidates s) /\
    allChecks (with_pairs s) !! i = Some (pair_check s lr).
Proof.
  intros Hs Hi. cbn in Hi |- *. rewrite Hs in Hi. apply elem_of_seq in Hi as [H1 H2].
  destruct (lookup_lt_is_Some_2 (list_prod (localCandidates s) (remoteCandidates s))
    (i - length (allChecks s))%nat) as [lr Hlr]; [lia|].
  exists lr. split; [by eapply list_elem_of_lookup_2|].
  rewrite lookup_app_r, list_lookup_fmap, Hlr by lia. done.
Qed.
Lemma with_pairs_all s lr :
  lr ∈ list_prod (localCandidates s) (remoteCandidates s) ->
  exists i, i ∈ checkList (with_pairs s) /\
    allChecks (with_pairs s) !! i = Some (pair_check s lr).
Proof.
  intros (k & Hk)%list_elem_of_lookup. exists (length (allChecks s) + k)%nat. split; cbn.
  - apply elem_of_app. right. apply elem_of_seq. apply lookup_lt_Some in Hk. lia.
  - rewrite lookup_app_r, list_lookup_fmap by lia.
    by replace (length (allChecks s) + k - length (allChecks s))%nat with k by lia; rewrite Hk.
Qed.

Lemma descending_sublist {A} (prio : A -> Z) l l' :
  l `sublist_of` l' -> descending prio l' -> descending prio l.
Proof.
  induction 1 as [|x l l' Hs IH|x l l' Hs IH]; intros Hd; [done| |];
    apply StronglySorted_inv in Hd as [Hd Hx]; [|by apply IH].
  constructor; [by apply IH|]. rewrite List.Forall_forall in Hx |- *. intros y Hy.
  apply Hx, list_elem_of_In, (sublist_subseteq _ _ Hs). by apply list_elem_of_In.
Qed.
Lemma descending_before {A} (prio : A -> Z) l1 x l2 y :
  descending prio (l1 ++ x :: l2) -> y ∈ l1 -> prio x <= prio y.
Proof.
  induction l1 as [|z l1 IH]; intros Hd Hy; [set_solver|].
  apply StronglySorted_inv in Hd as [Hd Hz]. apply elem_of_cons in Hy as [->|Hy]; [|by apply IH].
  apply (proj1 (List.Forall_forall _ _) Hz). apply List.in_or_app. right. by left.
Qed.

Lemma prune_sort_represents {A} (prio : A -> Z) key_of l x :
  x ∈ l -> exists y, y ∈ prune key_of (sort_stable prio l) /\ key_of y = key_of x /\ prio x <= prio y.
Proof.
  intros Hx. rewrite <- (sort_stable_perm prio) in Hx.
  apply list_elem_of_split in Hx as (l1 & l2 & E).
  destruct (prune_from_spec key_of ∅ (sort_stable prio l)) as (_ & _ & _ & Hex).
  destruct (Hex l1 x l2 E) as (y & Hy & Hin & Hk); [set_solver|].
  exists y. split_and!; [done|done|]. apply elem_of_app in Hy as [Hy|Hy]; [|set_solver by lia].
  apply (descending_before prio l1 x l2); [rewrite <- E; apply sort_stable_sorted|done].
Qed.

(** C11: After [createCheckList] on a session without checks the check list is
    ordered by descending priority and no two of its pairs have the same local
    foundation and remote address; each of its checks is the frozen check of a
    local and a remote candidate, and every such pair is on the list itself or
    represented by one with the same key and at least its priority. *)
Theorem createCheckList_correct sd s s' :
  checkList s = [] -> createCheckList sd s = (s', Ok None) ->
  descending (priority_in s') (checkList s') /\
  NoDup (map (prune_key_of s') (checkList s')) /\
  (forall i, i ∈ checkList s' -> exists lr,
     lr ∈ list_prod (localCandidates s') (remoteCandidates s') /\
     allChecks s' !! i = Some (pair_check s' lr)) /\
  (forall lr, lr ∈ list_prod (localCandidates s') (remoteCandidates s') ->
     exists i c, i ∈ checkList s' /\ allChecks s' !! i = Some c /\
       prune_key_of s' i = prune_key (default zeroCandidate (cands s' !! lr.1))
                             (default zeroCandidate (cands s' !! lr.2)) /\
       priority (pair_check s' lr) <= priority c).
Proof.
  intros Hs. rewrite createCheckList_eq. destruct (_ <? _)%nat; [done|].
  assert (checkList (with_description sd s) = []) as Hd by done.
  revert Hd. generalize (with_description sd s) as s0. intros s0 Hd. cbn zeta.
  case_bool_decide; [done|]. intros [= <-].
  pose proof (prune_from_spec (prune_key_of (with_pairs s0)) ∅
    (sort_stable (priority_in (with_pairs s0)) (checkList (with_pairs s0)))) as (H1 & H2 & _).
  split; [eapply descending_sublist; [exact H2|apply sort_stable_sorted]|].
  split; [exact H1|]. split.
  - intros i Hi. apply (sublist_subseteq _ _ H2) in Hi. rewrite sort_stable_perm in Hi.
    destruct (with_pairs_elem s0 i Hd Hi) as (lr & Hlr & Hc). exists lr. split; [exact Hlr|exact Hc].
  - intros lr Hlr. destruct (with_pairs_all s0 lr Hlr) as (i & Hi & Hc).
    destruct (prune_sort_represents (priority_in (with_pairs s0)) (prune_key_of (with_pairs s0))
      _ i Hi) as (j & Hj & Hk & Hp).
    unfold prune in Hj. pose proof Hj as Hj'. apply (sublist_subseteq _ _ H2) in Hj'.
    rewrite sort_stable_perm in Hj'. apply with_pairs_elem in Hj' as (lr' & _ & Hc'); [|done].
    exists j, (pair_check s0 lr'). split; [exact Hj|]. split; [exact Hc'|]. split.
    + etrans; [exact Hk|]. unfold prune_key_of. by rewrite Hc.
    + revert Hp. unfold priority_in. by rewrite Hc, Hc'.
Qed.

(** Two local candidates on one base and two remote ones. *)
Definition host_candidate (a : string) (prio : Z) : Candidate :=
  mkCandidate (bs a) (bs a) [] TransportUDP [] (calcFoundation (bs a)) 1 prio CandidateHost 0 0 [].
Definition example_agent (r : SessionRole) (l : list Candidate) : session :=
  newIceSession r l (bs "abcdefgh") (bs "ijklmnop") 42.
Definition example_local : list Candidate :=
  [host_candidate "10.0.0.1:4000" 2130706431; host_candidate "10.0.0.2:4000" 2130706175].
Definition example_description : sessionDescription :=
  mkDescription (bs "qrstuvwx") (bs "yzyzyzyz") 0 [] None
    [host_candidate "10.0.0.7:5000" 2130706175; host_candidate "10.0.0.8:5000" 2130706431].
Definition example_created : session :=
  (createCheckList example_description (example_agent SessionRoleControlling example_local)).1.

Lemma createCheckList_correct_witness :
  checkList example_created = [1; 0; 3; 2]%nat /\
  descending (priority_in example_created) (checkList example_created) /\
  NoDup (map (prune_key_of example_created) (checkList example_created)).
Proof.
  split; [vm_compute; reflexivity|].
  destruct (createCheckList_correct example_description
    (example_agent SessionRoleControlling example_local) example_created)
    as (H1 & H2 & _); [reflexivity|vm_compute; reflexivity|]. exact (conj H1 H2).
Defined.

(** * Pair priorities *)

(** The order of the formula: by the smaller, then by the larger of the two
    priorities, then by who controls. *)
Lemma pair_priority_lex g d g' d' :
  0 <= g < 2 ^ 31 -> 0 <= d < 2 ^ 31 -> 0 <= g' < 2 ^ 31 -> 0 <= d' < 2 ^ 31 ->
  pair_priority g d < pair_priority g' d' <->
  Z.min g d < Z.min g' d' \/
  (Z.min g d = Z.min g' d' /\
   (Z.max g d < Z.max g' d' \/ (Z.max g d = Z.max g' d' /\ g <= d /\ d' < g'))).
Proof.
  intros. unfold pair_priority. destruct (Z.ltb_spec d g), (Z.ltb_spec d' g'); lia.
Qed.

(** C39: The two agents compute the same priority for a pair, each seeing it from
    its own side; for candidate priorities below 2^31, as RFC 5245 wants them,
    it is the formula 2^32*MIN(G,D) + 2*MAX(G,D) + (G>D?1:0), it fits 64 bits,
    and raising a candidate's priority does not lower that of the pair. *)
Theorem pair_priority_agreed l r :
  calcPairPriority SessionRoleControlling l r = calcPairPriority SessionRoleControlled r l /\
  (0 <= Priority l < 2 ^ 31 -> 0 <= Priority r < 2 ^ 31 ->
   calcPairPriority SessionRoleControlling l r = pair_priority (Priority l) (Priority r) /\
   0 <= calcPairPriority SessionRoleControlling l r < 2 ^ 64 /\
   (forall l', Priority l <= Priority l' < 2 ^ 31 ->
      calcPairPriority SessionRoleControlling l r <= calcPairPriority SessionRoleControlling l' r)).
Proof.
  split; [done|]. intros Hl Hr. rewrite calcPairPriority_formula by done. split; [done|].
  split; [unfold pair_priority; destruct (_ <? _); lia|].
  intros l' Hl'. rewrite calcPairPriority_formula by lia. unfold pair_priority.
  destruct (Z.ltb_spec (Priority r) (Priority l)), (Z.ltb_spec (Priority r) (Priority l')); lia.
Qed.

(** Pruning loses a pair that is not redundant: the key puts the decimal
    foundation in front of the address without a separator, so the foundations 1
    and 11 with the addresses 11.2.3.4:5 and 1.2.3.4:5 collide, and the second
    pair is dropped although it shares neither candidate with the first. *)
Theorem prune_key_collides l1 r1 l2 r2 :
  Foundation l1 = 1 -> addr r1 = bs "11.2.3.4:5" -> Foundation l2 = 11 -> addr r2 = bs "1.2.3.4:5" ->
  prune_key l1 r1 = prune_key l2 r2 /\
  forall s i j, cands s !! 0%nat = Some l1 -> cands s !! 1%nat = Some r1 ->
    cands s !! 2%nat = Some l2 -> cands s !! 3%nat = Some r2 ->
    allChecks s !! i = Some (pair_check s (0, 1)%nat) ->
    allChecks s !! j = Some (pair_check s (2, 3)%nat) ->
    prune (prune_key_of s) [i; j] = [i].
Proof.
  intros H1 H2 H3 H4. assert (prune_key l1 r1 = prune_key l2 r2) as Hk.
  { unfold prune_key. by rewrite H1, H2, H3, H4. }
  split; [done|]. intros s i j E1 E2 E3 E4 Hi Hj.
  assert (prune_key_of s j = prune_key_of s i) as Hk'.
  { unfold prune_key_of. rewrite Hi, Hj. cbn. by rewrite E1, E2, E3, E4. }
  unfold prune. cbn [prune_from]. rewrite bool_decide_false by set_solver.
  rewrite Hk', bool_decide_true by set_solver. done.
Qed.

Lemma pair_priority_agreed_witness :
  let l := host_candidate "10.0.0.1:4000" 2130706431 in
  let r := host_candidate "10.0.0.7:5000" 1694498815 in
  calcPairPriority SessionRoleControlling l r = 7277816997797167103 /\
  calcPairPriority SessionRoleControlling l r = pair_priority 2130706431 1694498815.
Proof.
  intros l r. split; [vm_compute; reflexivity|].
  exact (proj1 (proj2 (pair_priority_agreed l r) ltac:(cbn; lia) ltac:(cbn; lia))).
Defined.

Definition with_foundation (f : Z) (c : Candidate) : Candidate :=
  mkCandidate (addr c) (baseAddr c) (relatedAddr c) (transport c) (transportValue c) f
    (ComponentID c) (Priority c) (Type_ c) (NetworkCost c) (Generation c) (CAttributes c).
Definition colliding : list Candidate :=
  [with_foundation 1 (host_candidate "10.0.0.1:4000" 7); host_candidate "11.2.3.4:5" 6;
   with_foundation 11 (host_candidate "10.0.0.2:4000" 5); host_candidate "1.2.3.4:5" 4].
Definition colliding_session : session :=
  let s := set_cands colliding (example_agent SessionRoleControlling []) in
  set_allChecks [pair_check s (0, 1)%nat; pair_check s (2, 3)%nat] s.
Lemma prune_key_collides_witness :
  prune (prune_key_of colliding_session) [0; 1]%nat = [0%nat].
Proof.
  exact (proj2 (prune_key_collides (nth 0 colliding zeroCandidate) (nth 1 colliding zeroCandidate)
    (nth 2 colliding zeroCandidate) (nth 3 colliding zeroCandidate) eq_refl eq_refl eq_refl eq_refl)
    colliding_session 0%nat 1%nat eq_refl eq_refl eq_refl eq_refl eq_refl eq_refl).
Defined.
