(* ===== verification/IceSessionProps.v ===== *)
(** Properties of the ICE session over whole runs and of its handlers. *)
From stdpp Require Import base list gmap sets strings.
From Stdlib Require Import ZArith Lia.
From S2P Require Import Prelude Wire GoFmt GoSlice StunTypes StunMessage StunBuild StunAttrs.
From S2P Require Import StunAddr StunIntegrity Turn NetAddr IceCandidate IceChecklist IceSession.
From S2P Require Import IceSessionInv IceSetup.
Open Scope Z_scope.

(** * Whole runs *)

Section Runs.
Context `{GoRuntime} `{SortSort}.
Variable supportsUnaligned : bool.
Variable channelBind_ok : bytes -> bool.
Abbreviation run := (run_session supportsUnaligned channelBind_ok).


End Runs.

(** A controlling agent with one pair whose check is never answered. *)
Abbreviation lonely_agent :=
  (newIceSession SessionRoleControlling [host_candidate "10.0.0.1:4000" 2130706431]
     (bs "abcdefgh") (bs "ijklmnop") 42).
Abbreviation lonely_run xs :=
  (run_session (H := doubling_runtime) (H0 := stable_sort) false (fun _ => true) xs lonely_agent).


(** * Requests *)

(** At most one packet is sent, from where the request came in to where it came
    from; nothing else changes. *)
Definition answers (localAddr fromAddr : bytes) (s s' : session) : Prop :=
  s' = s \/ exists srv raw, s' = set_events (EvSend srv localAddr fromAddr raw :: events s) s.

(** The request names a priority and the expected user, and its
    MESSAGE-INTEGRITY is made with the local password. *)
Definition authentic (s : session) (req : Message) : bool :=
  is_ok (Priority_GetFrom req 0).2 && is_ok (Username_GetFrom req []).2 &&
  (bool_decide (rxUserName s = []) || bool_decide ((Username_GetFrom req []).1 = rxUserName s)) &&
  is_ok (MessageIntegrity_Check (NewShortTermIntegrity (rxPassword s)) req).2.

Section Requests.
Context `{GoRuntime} `{SortSort}.
Variable supportsUnaligned : bool.
Variable channelBind_ok : bytes -> bool.

Lemma sendStunMessageAsync_answers srv localAddr fromAddr raw s :
  answers localAddr fromAddr s (sendStunMessageAsync srv localAddr fromAddr raw s).1.
Proof. destruct srv as [[| |]|]; [right|right|by left..]; by eexists _, _. Qed.
Lemma build_or_panic_same setters s : (build_or_panic setters s).1 = s.
Proof. unfold build_or_panic. by destruct (Build_new setters) as [? []]. Qed.
Lemma build_and_send_answers setters srv localAddr fromAddr s :
  answers localAddr fromAddr s ((let! raw := build_or_panic setters in
    sendStunMessageAsync srv localAddr fromAddr raw) s).1.
Proof.
  unfold st_bind. pose proof (build_or_panic_same setters s) as E.
  destruct (build_or_panic setters s) as [s1 [raw|e|p]]; cbn in E; subst s1; [|by left..].
  apply sendStunMessageAsync_answers.
Qed.
Lemma sendResponse_answers localAddr fromAddr req code s :
  answers localAddr fromAddr s (sendResponse supportsUnaligned localAddr fromAddr req code s).1.
Proof.
  unfold sendResponse. unfold st_bind at 1, st_get at 1.
  destruct (getSenderServerSock localAddr s) as [sc|]; [|by left].
  destruct (code =? 0); [apply build_and_send_answers|].
  destruct (code =? CodeRoleConflict); [apply build_and_send_answers|].
  destruct (code =? CodeUnauthorised); [|by left].
  destruct (Build_new _) as [m []]; [apply sendStunMessageAsync_answers..|by left].
Qed.

(** C10: A binding request that is not authentic (no PRIORITY, no or an unexpected
    USERNAME, MESSAGE-INTEGRITY missing or not made with the local password)
    changes nothing in the session; at most one packet goes back to where it
    came from. *)
Theorem unauthentic_request_harmless localAddr fromAddr req s :
  authentic s req = false ->
  answers localAddr fromAddr s
    (processBindingRequest supportsUnaligned channelBind_ok localAddr fromAddr req s).1.
Proof.
  unfold authentic, processBindingRequest.
  destruct (Priority_GetFrom req 0) as [prio []]; [|by left..].
  destruct (Username_GetFrom req []) as [userName []]; [|intros _; apply sendResponse_answers|by left].
  cbn [fst snd is_ok andb]. unfold st_bind at 1, st_get at 1.
  destruct (bool_decide_reflect (rxUserName s = [])) as [->|Hne]; cbn [orb].
  - cbn [length Nat.ltb Nat.leb andb].
    destruct (MessageIntegrity_Check _ req) as [req' []]; [done|intros _; apply sendResponse_answers|].
    by left.
  - assert ((0 <? length (rxUserName s))%nat = true) as -> by (by destruct (rxUserName s)).
    destruct (bool_decide (userName = rxUserName s)); cbn [andb negb];
      [|intros _; apply sendResponse_answers].
    destruct (MessageIntegrity_Check _ req) as [req' []]; [done|intros _; apply sendResponse_answers|].
    by left.
Qed.

(** * Role conflicts *)

Lemma resolve_role_yields wanted t localAddr fromAddr req s :
  role s <> wanted -> tieBreaker s < t ->
  resolve_role supportsUnaligned wanted t localAddr fromAddr req s = (set_role wanted s, Ok true).
Proof.
  intros Hr Ht. unfold resolve_role, st_bind, st_get. rewrite bool_decide_false by done.
  by rewrite (proj2 (Z.ltb_lt _ _) Ht).
Qed.
Lemma resolve_role_insists wanted t localAddr fromAddr req (k : SM unit) s :
  role s <> wanted -> t <= tieBreaker s ->
  answers localAddr fromAddr s
    ((let! go := resolve_role supportsUnaligned wanted t localAddr fromAddr req in
      if negb go then st_ret tt else k) s).1.
Proof.
  intros Hr Ht. unfold resolve_role, st_bind, st_get. rewrite bool_decide_false by done.
  rewrite (proj2 (Z.ltb_ge _ _) Ht).
  pose proof (sendResponse_answers localAddr fromAddr req CodeRoleConflict s) as Ha.
  by destruct (sendResponse _ _ _ _ _ s) as [s' [u|e|p]].
Qed.

(** The request says that its sender has the role [r] and the tie breaker [t]. *)
Definition claims_role (r : SessionRole) (t : Z) (req : Message) : Prop :=
  match r with
  | SessionRoleControlling =>
      is_ok (Get req AttrICEControlling) = true /\ is_ok (Get req AttrICEControlled) = false /\
      (IceControlling_GetFrom req 0).1 = t
  | SessionRoleControlled =>
      is_ok (Get req AttrICEControlling) = false /\ is_ok (Get req AttrICEControlled) = true /\
      (IceControlled_GetFrom req 0).1 = t
  | SessionRoleUnkown => False
  end.
Definition opposite (r : SessionRole) : SessionRole :=
  match r with
  | SessionRoleControlling => SessionRoleControlled
  | _ => SessionRoleControlling
  end.

End Requests.

(** Two controlling agents with the tie breakers 7 and 42. *)
Definition agent_with_tie (tie : Z) : session :=
  newIceSession SessionRoleControlling [host_candidate "10.0.0.1:4000" 2130706431]
    (bs "abcdefgh") (bs "ijklmnop") tie.
Definition request_of (setters : list (M unit)) : Message := (Build_new (H := doubling_runtime) setters).1.
Definition controlling_request (tie : Z) : Message :=
  request_of [MessageType_AddTo BindingRequest; Priority_AddTo (H := doubling_runtime) 1;
    IceControlling_AddTo (H := doubling_runtime) tie].

Lemma unauthentic_request_harmless_witness :
  authentic (agent_with_tie 7) (controlling_request 42) = false /\
  answers (bs "10.0.0.1:4000") (bs "10.0.0.8:5000") (agent_with_tie 7)
    (processBindingRequest (H := doubling_runtime) false (fun _ => true) (bs "10.0.0.1:4000")
      (bs "10.0.0.8:5000") (controlling_request 42) (agent_with_tie 7)).1.
Proof.
  assert (authentic (agent_with_tie 7) (controlling_request 42) = false) as E by (vm_compute; reflexivity).
  split; [exact E|].
  exact (unauthentic_request_harmless (H := doubling_runtime) false (fun _ => true) _ _ _ _ E).
Defined.
