(* ===== verification/IceRetransmit.v ===== *)
(** The retransmissions of a connectivity check ([onecheck]) and its end. *)
From stdpp Require Import base list gmap sets strings.
From Stdlib Require Import ZArith Lia.
From S2P Require Import Prelude Wire GoFmt GoSlice StunTypes StunMessage StunBuild StunAttrs.
From S2P Require Import StunAddr StunIntegrity Turn NetAddr IceCandidate IceChecklist IceSession.
From S2P Require Import IceSessionInv IceSetup.
Open Scope Z_scope.

Definition slept (g : goroutine) : list Z :=
  match g with Sleeping _ _ d _ _ => [d] | Finished => [] end.

(** [n] timeouts in a row; before the [k]-th last the rest of the program has
    turned the session into [env k]. *)
Fixpoint time_out (env : nat -> session -> session) (i n : nat) (g : goroutine) :
    SM (goroutine * list Z) :=
  match n with
  | O => st_ret (g, slept g)
  | S n' =>
      st_modify (env n');;;
      let! g' := onecheck_timeout i g in
      let! rest := time_out env i n' g' in
      st_ret (rest.1, slept g ++ rest.2)
  end.

Section Retransmissions.
Context `{GoRuntime}.

(** Check and candidates are there, as they always remain. *)
Definition has_pair (i : nat) (l r : Candidate) (s : session) : Prop :=
  exists c, allChecks s !! i = Some c /\
    cands s !! localCandidate c = Some l /\ cands s !! remoteCandidate c = Some r.
Lemma has_pair_evolves i l r s s' : evolves s s' -> has_pair i l r s -> has_pair i l r s'.
Proof.
  intros (x & [H1 H2 _ _ _ _ _ _]) (c & Hc & Hl & Hr).
  destruct (H1 i c Hc) as (c' & Hc' & [El Er _ _ _]).
  destruct (H2 _ _ Hl) as (l' & Hl' & <-), (H2 _ _ Hr) as (r' & Hr' & <-).
  exists c'. by rewrite El, Er.
Qed.

Lemma check_of_ok i c s : allChecks s !! i = Some c -> check_of i s = (s, Ok c).
Proof. intros E. unfold check_of. by rewrite E. Qed.
Lemma cand_of_ok i c s : cands s !! i = Some c -> cand_of i s = (s, Ok c).
Proof. intros E. unfold cand_of. by rewrite E. Qed.

(** One more transmission. *)
Definition sent (k : sock) (i : nat) (l r : Candidate) (tid raw : bytes) (s : session) : session :=
  set_events (EvSend k (addr l) (addr r) raw :: events s)
    (set_msg2Check (<[tid := i]> (msg2Check s)) s).
Lemma round_sends k i l r round sleep tid raw s :
  (round < maxRetryBindingRequest)%nat -> k <> NilTurnSock -> has_pair i l r s ->
  onecheck_round i (Some k) round sleep tid raw s
  = (sent k i l r tid raw s, Ok (Sleeping (Some k) round (calcRetransmitTimeout round sleep) tid raw)).
Proof.
  intros Hr Hk (c & Hc & Hl & Hcr). unfold onecheck_round.
  destruct (Nat.ltb_spec round maxRetryBindingRequest); [|lia].
  unfold addMsgCheck. rewrite modify_then.
  erewrite ok_then by (apply check_of_ok; exact Hc). erewrite ok_then by (apply cand_of_ok; exact Hl).
  erewrite ok_then by (apply cand_of_ok; exact Hcr). by destruct k.
Qed.
Lemma round_gives_up srv i round sleep tid raw s :
  (maxRetryBindingRequest <= round)%nat ->
  onecheck_round i srv round sleep tid raw s
  = (set_msg2Check (delete tid (msg2Check s)) (set_events (EvTryFail i :: events s) s), Ok Finished).
Proof.
  intros Hr. unfold onecheck_round. by destruct (Nat.ltb_spec round maxRetryBindingRequest); [lia|].
Qed.

(** The sleeps from a round on. *)
Fixpoint sleeps (n round : nat) (sleep : Z) : list Z :=
  match n with
  | O => []
  | S n' => sleep :: sleeps n' (S round) (calcRetransmitTimeout (S round) sleep)
  end.

Lemma time_out_finishes env n i k round sleep tid raw l r s :
  (forall m s, evolves s (env m s)) -> k <> NilTurnSock -> has_pair i l r s ->
  (round + n = maxRetryBindingRequest)%nat -> (0 < n)%nat ->
  exists s', time_out env i n (Sleeping (Some k) round sleep tid raw) s
             = (s', Ok (Finished, sleeps n round sleep)) /\
    EvTryFail i ∈ events s' /\ msg2Check s' !! tid = None.
Proof.
  intros He Hk. revert round sleep s. induction n as [|n IH]; intros round sleep s Hp Hn Hpos; [lia|].
  cbn [time_out]. rewrite modify_then. apply (has_pair_evolves i l r _ _ (He n s)) in Hp.
  cbn [onecheck_timeout]. destruct (decide (n = 0)%nat) as [->|Hn0].
  - erewrite ok_then by (apply round_gives_up; lia). eexists. split; [reflexivity|]. cbn.
    split; [set_solver|apply lookup_delete_eq].
  - erewrite ok_then by (apply round_sends; [lia|done|exact Hp]).
    destruct (IH (S round) (calcRetransmitTimeout (S round) sleep) (sent k i l r tid raw (env n s)))
      as (s' & E & Hs'); [destruct Hp as (c & ?); by exists c|lia|lia|].
    exists s'. erewrite ok_then by exact E. done.
Qed.

Lemma replicate_then_cons {A} n (x : A) l : replicate n x ++ x :: l = x :: replicate n x ++ l.
Proof. induction n as [|n IH]; [done|]. cbn. by rewrite IH. Qed.

(** Alone, the check sends every round and reports at the end. *)
Lemma time_out_alone n i k round sleep tid raw l r s :
  k <> NilTurnSock -> has_pair i l r s ->
  (round + n = maxRetryBindingRequest)%nat -> (0 < n)%nat ->
  events (time_out (fun _ s => s) i n (Sleeping (Some k) round sleep tid raw) s).1
  = EvTryFail i :: replicate (n - 1) (EvSend k (addr l) (addr r) raw) ++ events s.
Proof.
  intros Hk. revert round sleep s. induction n as [|n IH]; intros round sleep s Hp Hn Hpos; [lia|].
  cbn [time_out]. rewrite modify_then. cbn [onecheck_timeout]. destruct (decide (n = 0)%nat) as [->|Hn0].
  - erewrite ok_then by (apply round_gives_up; lia). done.
  - erewrite ok_then by (apply round_sends; [lia|done|exact Hp]).
    assert (has_pair i l r (sent k i l r tid raw s)) as Hp' by (destruct Hp as (c & ?); by exists c).
    specialize (IH (S round) (calcRetransmitTimeout (S round) sleep) _ Hp' ltac:(lia) ltac:(lia)).
    revert IH. unfold st_bind, st_ret. destruct (time_out _ _ _ _ _) as [s' [a|e|p]]; cbn [fst];
      intros ->; (replace (S n - 1)%nat with (S (n - 1)) by lia); f_equal;
      cbn [sent events set_events replicate app]; by rewrite replicate_then_cons.
Qed.

(** Without a socket the call on the nil interface or pointer panics. *)
Lemma round_panics srv i l r sleep tid raw s :
  srv = None \/ srv = Some NilTurnSock -> has_pair i l r s ->
  onecheck_round i srv 0 sleep tid raw s
  = (set_msg2Check (<[tid := i]> (msg2Check s)) s, Panic NilDereference).
Proof.
  intros Hk (c & Hc & Hl & Hr). unfold onecheck_round, addMsgCheck.
  change (0 <? maxRetryBindingRequest)%nat with true. cbv iota. rewrite modify_then.
  erewrite ok_then by (apply check_of_ok; exact Hc). erewrite ok_then by (apply cand_of_ok; exact Hl).
  erewrite ok_then by (apply cand_of_ok; exact Hr). by destruct Hk as [->| ->].
Qed.

(** How a check starts: with nothing when it has no socket, else with a request
    that is sent at once. *)
Lemma buildBindingRequest_same i rnd s s1 a : buildBindingRequest i rnd s = (s1, Ok a) -> s1 = s.
Proof.
  unfold buildBindingRequest, st_bind, check_of, st_get. destruct (allChecks s !! i); [|done].
  destruct (Build_new _) as [m []]; [|done..]. by intros [= <- _].
Qed.
Lemma onecheck_started i nominate rnd s s1 g l r :
  has_pair i l r s -> onecheck i nominate rnd s = (s1, Ok g) ->
  g = Finished \/
  exists k tid raw s0, k <> NilTurnSock /\ g = Sleeping (Some k) 0 defaultRTOValue tid raw /\
    evolves s s0 /\ events s0 = events s /\ s1 = sent k i l r tid raw s0.
Proof.
  intros Hp. pose proof Hp as (c & Hc & Hl & Hr). unfold onecheck.
  erewrite ok_then by (apply check_of_ok; exact Hc). erewrite ok_then by (apply cand_of_ok; exact Hl).
  erewrite ok_then by done. cbn zeta.
  destruct (_ && _); [intros [= _ <-]; by left|].
  match goal with |- context [st_bind ?x _ _] => set (nom := x) end.
  assert (exists s0, nom s = (s0, Ok tt) /\ evolves s s0 /\ events s0 = events s) as (s0 & E0 & He & Hev).
  { subst nom. destruct (_ && _); [|by exists s].
    pose proof (update_nominated_quiet i (fun _ => true) s) as Hq.
    unfold update_nominated in *. erewrite ok_then in Hq |- * by (apply check_of_ok; exact Hc).
    eexists. split; [reflexivity|]. split; [|done]. by apply advances_evolves, quiet_advances. }
  erewrite ok_then by exact E0. unfold onecheck_restart. unfold st_bind at 1.
  destruct (buildBindingRequest i rnd s0) as [s0' [[tid raw]|e|p]] eqn:Eb; [|done..].
  apply buildBindingRequest_same in Eb as ->. cbn [fst snd].
  apply (has_pair_evolves i l r _ _ He) in Hp.
  destruct (default None _) as [k|]; [destruct (decide (k = NilTurnSock)) as [->|Hk]|].
  - by rewrite (round_panics (Some NilTurnSock) i l r) by auto.
  - rewrite (round_sends k i l r) by (done || unfold maxRetryBindingRequest; lia).
    intros [= <- <-]. right. by exists k, tid, raw, s0.
  - by rewrite (round_panics None i l r) by auto.
Qed.

(** C12: A check that starts to wait has sent its request; if no answer or retry
    comes, then whatever the rest of the program does in between, it ends after
    seven timeouts, having slept 100, 200, 400, 800, 1600, 3200 and 1600 ms, and
    reports to the loop that it failed; its transaction is forgotten.  Left alone,
    it has sent the same request exactly seven times. *)
Theorem unanswered_check_gives_up env i nominate rnd l r s s1 srv round sleep tid raw :
  (forall m s, evolves s (env m s)) -> has_pair i l r s ->
  onecheck i nominate rnd s = (s1, Ok (Sleeping srv round sleep tid raw)) ->
  exists k, srv = Some k /\
  events s1 = EvSend k (addr l) (addr r) raw :: events s /\
  (exists s2, time_out env i 7 (Sleeping srv round sleep tid raw) s1
     = (s2, Ok (Finished, map (fun ms => ms * Millisecond) [100; 200; 400; 800; 1600; 3200; 1600])) /\
     EvTryFail i ∈ events s2 /\ msg2Check s2 !! tid = None) /\
  events (time_out (fun _ s => s) i 7 (Sleeping srv round sleep tid raw) s1).1
  = EvTryFail i :: replicate 7 (EvSend k (addr l) (addr r) raw) ++ events s.
Proof.
  intros He Hp Hs. destruct (onecheck_started i nominate rnd s s1 _ l r Hp Hs)
    as [|(k & tid' & raw' & s0 & Hk & [= -> -> -> -> ->] & Hev & Hevs & ->)]; [done|].
  apply (has_pair_evolves i l r _ _ Hev) in Hp.
  assert (has_pair i l r (sent k i l r tid' raw' s0)) as Hp' by (destruct Hp as (c & ?); by exists c).
  exists k. split; [done|]. split; [cbn; by rewrite Hevs|]. split.
  - exact (time_out_finishes env 7 i k 0 defaultRTOValue tid' raw' l r _ He Hk Hp'
      ltac:(reflexivity) ltac:(lia)).
  - rewrite (time_out_alone 7 i k 0 defaultRTOValue tid' raw' l r) by (done || lia).
    cbn [sent events set_events set_msg2Check]. rewrite replicate_then_cons, Hevs. done.
Qed.
End Retransmissions.

(** An agent with one pair, its check about to start. *)
Definition waiting_agent : session :=
  let s := example_agent SessionRoleControlling [host_candidate "10.0.0.1:4000" 2130706431] in
  let s := set_serverSocks {[bs "10.0.0.1:4000" := StunSock (bs "10.0.0.1:4000")]} s in
  (createCheckList (mkDescription (bs "qrstuvwx") (bs "yzyzyzyz") 0 [] None
     [host_candidate "10.0.0.8:5000" 2130706431]) s).1.
Definition waiting_check : session * result stop goroutine :=
  onecheck (H := doubling_runtime) 0 true (inl (replicate 12 Byte.x07)) waiting_agent.
Definition waiting_raw : bytes :=
  match waiting_check.2 with Ok (Sleeping _ _ _ _ raw) => raw | _ => [] end.

Lemma unanswered_check_gives_up_witness :
  length waiting_raw = 124%nat /\
  events (time_out (fun _ s => s) 0 7
    (Sleeping (Some (StunSock (bs "10.0.0.1:4000"))) 0 defaultRTOValue (replicate 12 Byte.x07) waiting_raw)
    waiting_check.1).1
  = EvTryFail 0 :: replicate 7 (EvSend (StunSock (bs "10.0.0.1:4000")) (bs "10.0.0.1:4000")
      (bs "10.0.0.8:5000") waiting_raw) ++ events waiting_agent.
Proof.
  split; [vm_compute; reflexivity|].
  assert (onecheck (H := doubling_runtime) 0 true (inl (replicate 12 Byte.x07)) waiting_agent
    = (waiting_check.1, Ok (Sleeping (Some (StunSock (bs "10.0.0.1:4000"))) 0 defaultRTOValue
        (replicate 12 Byte.x07) waiting_raw))) as E by (vm_compute; reflexivity).
  assert (has_pair 0 (host_candidate "10.0.0.1:4000" 2130706431)
    (host_candidate "10.0.0.8:5000" 2130706431) waiting_agent) as Hp
    by (eexists; vm_compute; split_and!; reflexivity).
  destruct (unanswered_check_gives_up (H := doubling_runtime) (fun _ s => s) 0 true
    (inl (replicate 12 Byte.x07)) _ _ _ _ _ _ _ _ _ (fun _ s => reflexivity s) Hp E)
    as (k & Hk & _ & _ & Hev).
  injection Hk as <-. exact Hev.
Defined.
