(* ===== verification/IceFindings.v ===== *)
(** What the model of the ICE session shows against its comments and RFC 5245. *)
From stdpp Require Import base list gmap sets strings.
From Stdlib Require Import ZArith Lia.
From S2P Require Import Prelude Wire GoFmt GoSlice StunTypes StunMessage StunPacket StunBuild StunAttrs StunText.
From S2P Require Import StunAddr StunIntegrity Turn NetAddr IceCandidate IceChecklist IceSession.
From S2P Require Import IceSessionInv IceSetup IceSessionProps IceRetransmit.
Open Scope Z_scope.

(** * [SendData] *)

(** [SendData] sends from the base of a reflexive local candidate, or else
    from the candidate's own address, to the remote address of the nominated
    pair, and is an error without a socket.  Before a pair is nominated it does
    not return the error it tests for: it reads the nil pair first and panics. *)
Theorem SendData_cases data s :
  (nominatedCheck s = None -> SendData data s = (s, Panic NilDereference)) /\
  (forall n l r, nominatedCheck s = Some n -> has_pair n l r s ->
     (nominatedServerSock s = None -> SendData data s = (s, Ok false)) /\
     (forall srv, nominatedServerSock s = Some srv -> srv <> NilTurnSock ->
        let from := if bool_decide (Type_ l = CandidateServerReflexive)
                       || bool_decide (Type_ l = CandidatePeerReflexive)
                    then baseAddr l else addr l in
        SendData data s
        = (set_events (EvSendData srv data from (addr r) :: events s) s, Ok true))).
Proof.
  split. { intros Hn. unfold SendData, st_bind, st_get. by rewrite Hn. }
  intros n l r Hn (c & Hc & Hl & Hr). unfold SendData. erewrite ok_then by done. rewrite Hn.
  erewrite ok_then by (apply check_of_ok; exact Hc). erewrite ok_then by (apply cand_of_ok; exact Hl).
  erewrite ok_then by (apply cand_of_ok; exact Hr). split; [by intros ->|].
  intros srv -> Hs. destruct srv; [| |done]; by destruct (Type_ l).
Qed.
Lemma SendData_cases_witness :
  SendData [] waiting_agent = (waiting_agent, Panic NilDereference).
Proof. exact (proj1 (SendData_cases [] waiting_agent) eq_refl). Defined.

(** * Runs that should not happen *)

Definition our_address : bytes := bs "10.0.0.1:4000".
Definition their_address : bytes := bs "10.0.0.8:5000".
Definition agent (r : SessionRole) : session :=
  (StartServer (fun _ => true) false [our_address]
    (newIceSession r [host_candidate "10.0.0.1:4000" 2130706431] (bs "abcdefgh") (bs "ijklmnop") 42)).1.
Definition description (l : list Candidate) : sessionDescription :=
  mkDescription (bs "qrstuvwx") (bs "yzyzyzyz") 0 [] None l.
Definition the_id : bytes := replicate 12 Byte.x07.
Definition built (setters : list (M unit)) : Message := (Build_new (H := doubling_runtime) setters).1.
Abbreviation run xs := (run_session (H := doubling_runtime) (H0 := stable_sort) false (fun _ => true) xs).

(** A success response without any credentials. *)
Definition forged : Message :=
  built [TransactionID_AddTo the_id; MessageType_AddTo BindingSuccess;
         XORMappedAddress_AddTo (H := doubling_runtime) false (mapped_address (addrToUDPAddr our_address))].
Definition two_checks : session :=
  run [InDescription (description [host_candidate "10.0.0.8:5000" 2130706431;
                                   host_candidate "10.0.0.9:5000" 2130706175]);
       InStart; InCheck 0 true (inl the_id)] (agent SessionRoleControlling).

(** A controlling agent accepts a response that carries no credentials at all:
    when the check of MESSAGE-INTEGRITY fails [handleCheckResponse] fails the
    check but does not return, goes on as for a good response, makes a valid pair
    that inherits the nomination of the check and tells the upper layer that the
    negotiation succeeded. *)
Theorem forged_response_nominates :
  let s := two_checks in
  let s' := run [InMessage our_address their_address forged] s in
  role s = SessionRoleControlling /\ notified s = 0%nat /\ nominatedCheck s = None /\
  (MessageIntegrity_Check (NewShortTermIntegrity (rxPassword s)) forged).2 = Err ErrAttributeNotFound /\
  map state (allChecks s') = [checkStateFailed; checkStateInProgress; checkStateSucced] /\
  nominatedCheck s' = Some 2%nat /\ completeResult s' = sessionCompleteSuccess /\
  head (events s') = Some (EvNotify None).
Proof. vm_compute. split_and!; reflexivity. Qed.

(** A binding request of the other side with the user name and password that
    the description names. *)
Definition their_request (s : session) : Message :=
  built [MessageType_AddTo BindingRequest; TransactionID_AddTo (replicate 12 Byte.x08);
         Priority_AddTo (H := doubling_runtime) 1; IceControlling_AddTo (H := doubling_runtime) 1;
         Username_AddTo (H := doubling_runtime) (fresh (rxUserName s));
         MessageIntegrity_AddTo (H := doubling_runtime) (NewShortTermIntegrity (rxPassword s))].
Definition their_response (s : session) : Message :=
  built [TransactionID_AddTo the_id; MessageType_AddTo BindingSuccess;
         XORMappedAddress_AddTo (H := doubling_runtime) false (mapped_address (addrToUDPAddr our_address));
         MessageIntegrity_AddTo (H := doubling_runtime) (NewShortTermIntegrity (rxPassword s))].
(** The only check of a controlled agent has succeeded; it waits for a nomination. *)
Definition awaiting_nomination : session :=
  let s := run [InDescription (description [host_candidate "10.0.0.8:5000" 2130706431]);
                InStart; InCheck 0 false (inl the_id)] (agent SessionRoleControlled) in
  run [InMessage our_address their_address (their_response s)] s.

(** While a controlled agent waits for the nomination, an authentic binding
    request without USE-CANDIDATE for the same pair, such as a retransmission,
    makes it panic: [tryCompleteCheck] sets the complete result to the value it
    has already, which [changeCompleteResult] does not allow. *)
Theorem waiting_agent_panics :
  let s := awaiting_nomination in
  completeResult s = sessionCheckComplete /\ map state (allChecks s) = [checkStateSucced; checkStateSucced] /\
  hasStopped s = false /\ authentic s (their_request s) = true /\
  (processStunMessage (H := doubling_runtime) (H0 := stable_sort) false (fun _ => true)
     our_address their_address (their_request s) s).2
  = Panic (PanicCall (bs "complete result must increase only")).
Proof. vm_compute. split_and!; reflexivity. Qed.

(** C40: A response to a running check ends the program, whoever sent it and
    without any credentials, when it holds an XOR address attribute that starts
    within the last two bytes of the array of the message: [handleCheckResponse]
    makes the text of the message for the log first, and the text of such an
    attribute slices beyond the array. *)
Theorem short_address_panics `{GoRuntime} `{SortSort} supportsUnaligned channelBind_ok localAddr from msg s i c l :
  getMsgCheck (TID msg) s = Some i -> allChecks s !! i = Some c -> cands s !! localCandidate c = Some l ->
  addr l = localAddr -> (state_rank (state c) < state_rank checkStateSucced)%nat ->
  existsb (family_unreadable msg) (attrs msg) = true ->
  processBindingResponse supportsUnaligned channelBind_ok localAddr from msg s = (s, Panic SliceOutOfRange).
Proof.
  intros Hi Hc Hl Ha Hst Hun. unfold processBindingResponse, st_bind, st_get. rewrite Hi.
  unfold check_of. rewrite Hc. unfold cand_of. rewrite Hl, bool_decide_true by done. cbn [negb].
  rewrite (proj2 (Nat.leb_gt _ _)) by done. unfold handleCheckResponse.
  pose proof (Message_String_outcomes supportsUnaligned msg) as Ht. rewrite Hun in Ht.
  destruct (Message_String _ _) as [|[]|p]; [done|by destruct Ht as [-> _]].
Qed.

(** A datagram of 32 bytes, which is also the size of its array, that ends with an
    empty XOR-PEER-ADDRESS. *)
Definition short_address_packet : bytes :=
  encode_packet (Packet BindingSuccess the_id [(AttrSoftware, bs "none"); (AttrXORPeerAddress, [])]).
Definition short_address_response : Message :=
  (Write (H := doubling_runtime) short_address_packet zeroMessage).1.

Lemma short_address_panics_witness :
  processBindingResponse (H := doubling_runtime) (H0 := stable_sort) false (fun _ => true) our_address their_address
    short_address_response two_checks = (two_checks, Panic SliceOutOfRange).
Proof.
  eapply short_address_panics; [vm_compute; reflexivity..| |].
  - apply Nat.ltb_lt. vm_compute. reflexivity.
  - vm_compute. reflexivity.
Defined.
