(* ===== verification/IceExchange.v ===== *)
(** A connectivity check between two agents: the request that one builds against
    the handling of requests by the other, and the answer against the handling of
    responses by the first, over the wire ([buildBindingRequest],
    [processBindingRequest], [sendResponse] and [handleCheckResponse] of
    [src/ice/icesession.go]). *)
From stdpp Require Import base list gmap sets strings.
From Stdlib Require Import ZArith Lia.
From S2P Require Import Prelude Wire GoFmt GoSlice StunTypes StunMessage StunPacket StunBuild StunAttrs StunText.
From S2P Require Import StunAddr Crypto StunIntegrity Turn NetAddr IceCandidate IceChecklist IceSession.
From S2P Require Import IceSessionInv IceSetup IceSessionProps IceRetransmit.
Open Scope Z_scope.

(** * What the messages of a check hold *)

Definition check_priority : Z := u32 (calcCandidatePriority CandidatePeerReflexive defaultPreference 1).
Definition controlling (s : session) : bool := bool_decide (role s = SessionRoleControlling).
(** USE-CANDIDATE is sent for nominated pairs by the controlling agent only. *)
Definition nominates (c : check) (s : session) : bool := nominated c && controlling s.
Definition request_attrs (c : check) (s : session) : list (Z * bytes) :=
  (if nominates c s then [(AttrUseCandidate, [])] else []) ++
  [(AttrPriority, put32 check_priority);
   (if controlling s then AttrICEControlling else AttrICEControlled, put64 (tieBreaker s));
   (AttrSoftware, software); (AttrUsername, txUserName s)].
Definition response_attrs (tid : bytes) (a : bytes * Z) : list (Z * bytes) :=
  [(AttrSoftware, software); (AttrXORMappedAddress, xor_address_value tid a.1 a.2)].

Definition protected (key : bytes) (p : packet) : packet := with_fingerprint (with_integrity key p).

(** * Building protected messages *)

Lemma is_ok_Get m t :
  is_ok (Get m t) = match lookup_attr t (p_attrs (abs m)) with Some _ => true | None => false end.
Proof. pose proof (Get_lookup m t) as H. destruct (Get m t); [by rewrite H|by destruct H as [_ ->]|done]. Qed.

Section Protected.
Context `{GoRuntime}.

Lemma protected_built key pre fs t tid l :
  Forall2 Implements pre fs -> leads fs (Packet (MType zeroMessage) (TID zeroMessage) []) (Packet t tid l) ->
  lookup_attr AttrFingerprint l = None -> packet_ok (protected key (Packet t tid l)) ->
  exists m, Build_new (pre ++ [MessageIntegrity_AddTo key; Fingerprint_AddTo]) = (m, Ok tt) /\
    well_formed m /\ abs m = protected key (Packet t tid l).
Proof.
  intros Hpre Hl Hfp Hok. set (p := Packet t tid l) in *.
  set (mi := fun x : packet => if bool_decide (is_Some (lookup_attr AttrFingerprint (p_attrs x)))
     then Err ErrFingerprintBeforeIntegrity
     else Ok (with_attr (AttrMessageIntegrity, integrity_value key x) x) : result error packet).
  set (fp := fun x : packet => Ok (with_attr (AttrFingerprint, fingerprint_value x) x) : result error packet).
  assert (mi p = Ok (with_integrity key p)) as Hmi.
  { unfold mi. rewrite bool_decide_false; [done|]. cbn [p_attrs p]. rewrite Hfp. by intros [? [=]]. }
  pose proof (Build_spec (pre ++ [MessageIntegrity_AddTo key; Fingerprint_AddTo]) (fs ++ [mi; fp]) zeroMessage) as HB.
  destruct (Hl [mi; fp]) as [Hfits Hrun]. cbn zeta in HB. rewrite Hrun in HB. cbn [run_setters] in HB.
  rewrite Hmi in HB. apply HB; clear HB.
  - apply Forall2_app; [done|]. constructor; [apply MessageIntegrity_implements|].
    constructor; [apply Fingerprint_implements|done].
  - apply zeroMessage_reusable.
  - apply Hfits. cbn [fits]. rewrite Hmi. split; [|by split].
    by apply (packet_ok_prefix _ [(AttrFingerprint, fingerprint_value (with_integrity key p))]).
Qed.

(** What was built and sent is received, and passes the check of its key. *)
Lemma protected_received key m t tid l :
  well_formed m -> abs m = protected key (Packet t tid l) -> type_ok t ->
  lookup_attr AttrMessageIntegrity l = None -> packet_ok (protected key (Packet t tid l)) ->
  exists r, Write (visible (Raw m)) zeroMessage = (r, Ok (length (visible (Raw m)), None)) /\
    abs r = protected key (Packet t tid l) /\ well_formed r /\
    exists r', MessageIntegrity_Check key r = (r', Ok tt) /\ well_formed r' /\
      abs r' = protected key (Packet t tid l).
Proof.
  intros Hwf Habs Hty Hmi Hok.
  destruct (Write_spec (visible (Raw m)) (abs m) zeroMessage) as (r & HW & Hr & Hwfr);
    [by rewrite Habs|by rewrite Habs|by destruct Hwf|apply zeroMessage_reusable|].
  rewrite Habs in Hr. exists r. split; [done|]. split; [done|]. split; [done|].
  by apply (integrity_accepts key r (Packet t tid l)
    [(AttrFingerprint, fingerprint_value (with_integrity key (Packet t tid l)))]).
Qed.
End Protected.

(** * The request *)

(** The lengths and types of a protected packet. *)
Lemma protected_ok key t tid l :
  length tid = TransactionIDSize -> Forall (fun a => 0 <= a.1 < 2 ^ 16) l ->
  Z.of_nat (length (encode_attrs l)) <= 65000 -> packet_ok (protected key (Packet t tid l)).
Proof.
  intros Htid Hl Hlen. split; [done|]. unfold protected, with_fingerprint, with_integrity, with_attr. cbn [p_attrs p_tid p_type].
  split; [repeat (apply Forall_app; split); [done|repeat constructor; by vm_compute..]|].
  rewrite !encode_attrs_app, !length_app, !encode_attrs_singleton, !encode_attr_length. cbn [snd].
  unfold integrity_value, newHMAC. rewrite hmac_sha1_length. change (length (fingerprint_value _)) with 4%nat.
  change (nearestPaddedValueLength 20) with 20%nat. change (nearestPaddedValueLength 4) with 4%nat. lia.
Qed.

Lemma request_ok key t tid c s :
  length tid = TransactionIDSize -> zlen (txUserName s) <= maxUsernameB ->
  packet_ok (protected key (Packet t tid (request_attrs c s))).
Proof.
  intros Htid Hu. apply protected_ok; [done|..].
  - unfold request_attrs. apply Forall_app.
    split; [destruct (nominates c s)|destruct (controlling s)]; repeat constructor; by vm_compute.
  - unfold request_attrs. rewrite encode_attrs_app, length_app. rewrite !encode_attrs_cons, !length_app, !encode_attr_length.
    cbn [snd]. assert (length (encode_attrs (if nominates c s then [(AttrUseCandidate, [])] else [])) <= 4)%nat
      by (destruct (nominates c s); cbn; lia).
    pose proof (padded_spec (length (txUserName s))) as [? _].
    change (nearestPaddedValueLength (length (put32 check_priority))) with 4%nat.
    change (nearestPaddedValueLength (length (put64 (tieBreaker s)))) with 8%nat.
    change (nearestPaddedValueLength (length software)) with 20%nat. change (length (encode_attrs [])) with 0%nat.
    unfold zlen, maxUsernameB in Hu. lia.
Qed.

(** What the sender of a request knows: the attributes of what it built. *)
Lemma request_lookup c s :
  let l := request_attrs c s in
  lookup_attr AttrPriority l = Some (put32 check_priority) /\
  lookup_attr AttrUsername l = Some (txUserName s) /\
  lookup_attr AttrUseCandidate l = (if nominates c s then Some [] else None) /\
  lookup_attr AttrICEControlling l = (if controlling s then Some (put64 (tieBreaker s)) else None) /\
  lookup_attr AttrICEControlled l = (if controlling s then None else Some (put64 (tieBreaker s))) /\
  lookup_attr AttrMessageIntegrity l = None /\ lookup_attr AttrFingerprint l = None.
Proof. unfold request_attrs. destruct (nominates c s), (controlling s); split_and!; reflexivity. Qed.

Lemma protected_lookup key p t :
  t <> AttrMessageIntegrity -> t <> AttrFingerprint ->
  lookup_attr t (p_attrs (protected key p)) = lookup_attr t (p_attrs p).
Proof.
  intros H1 H2. unfold protected, with_fingerprint, with_integrity, with_attr. cbn [p_attrs].
  rewrite !lookup_attr_app. destruct (lookup_attr t (p_attrs p)); [done|]. cbn [lookup_attr].
  by rewrite !(proj2 (Z.eqb_neq _ _)) by congruence.
Qed.

(** * The response *)

Lemma response_lookup tid a :
  let l := response_attrs tid a in
  lookup_attr AttrXORMappedAddress l = Some (xor_address_value tid a.1 a.2) /\
  lookup_attr AttrMessageIntegrity l = None /\ lookup_attr AttrFingerprint l = None.
Proof. done. Qed.

Lemma xor_address_length tid ip port :
  length tid = TransactionIDSize -> ip_ok ip ->
  length (xor_address_value tid ip port) = (4 + length (normal_ip ip))%nat /\ (length (normal_ip ip) <= 16)%nat.
Proof.
  intros Htid Hip. destruct (normal_ip_length ip Hip) as (_ & Hn & _). unfold xor_address_value.
  rewrite !length_app, !put16_length, xor_list_length. unfold xor_key. rewrite length_app, Htid.
  change (length (put32 magicCookie)) with 4%nat. unfold TransactionIDSize. split; lia.
Qed.

Lemma response_ok key t tid a :
  length tid = TransactionIDSize -> ip_ok a.1 -> packet_ok (protected key (Packet t tid (response_attrs tid a))).
Proof.
  intros Htid Hip. apply protected_ok; [done|repeat constructor; by vm_compute|].
  unfold response_attrs. rewrite !encode_attrs_cons, !length_app, !encode_attr_length. cbn [snd].
  destruct (xor_address_length tid a.1 a.2 Htid Hip) as [-> Hn].
  pose proof (padded_spec (4 + length (normal_ip a.1))) as [? _].
  change (nearestPaddedValueLength (length software)) with 20%nat. change (length (encode_attrs [])) with 0%nat. lia.
Qed.

(** An address that was sent normalised has the text of the address. *)
Lemma isIPv4_prefix ip : isIPv4 ip = true -> (12 <= length ip)%nat -> take 12 ip = v4_prefix.
Proof.
  intros Hv Hl. do 12 (destruct ip as [|? ip]; [cbn in Hl; lia|]). unfold isIPv4, isZeros in Hv. cbn in Hv.
  rewrite !andb_true_iff, !Z.eqb_eq in Hv. destruct_and! Hv.
  assert (forall b, bz b = 0 -> b = Byte.x00) as Hz by (intros x Hx; by apply bz_inj).
  assert (forall b, bz b = 255 -> b = zb 255) as Hf by (intros x Hx; apply bz_inj; by rewrite Hx).
  cbn [take v4_prefix]. unfold v4_prefix. cbn [replicate app]. by repeat f_equal; auto.
Qed.
Lemma normal_ip_text ip : IP_String (normal_ip ip) = IP_String ip.
Proof.
  unfold normal_ip. destruct (_ && _) eqn:E; [|done]. apply andb_true_iff in E as [Hl Hv]. apply Nat.eqb_eq in Hl.
  assert (ip_equiv (drop 12 ip) ip) as ->; [|done]. unfold ip_equiv, IP_Equal. rewrite length_drop, Hl. cbn [Nat.eqb andb].
  apply bool_decide_eq_true. split; [apply isIPv4_prefix; [done|lia]|done].
Qed.

Section Exchange.
Context `{GoRuntime} `{SortSort}.
Variable supportsUnaligned : bool.
Variable channelBind_ok : bytes -> bool.

Lemma request_built tid c s :
  length tid = TransactionIDSize -> zlen (txUserName s) <= maxUsernameB ->
  exists m, Build_new (request_setters c (inl tid) s) = (m, Ok tt) /\ well_formed m /\
    abs m = protected (txPassword s) (Packet BindingRequest tid (request_attrs c s)).
Proof.
  intros Htid Hu. destruct (request_lookup c s) as (_ & _ & _ & _ & _ & _ & Hfp).
  pose proof (request_ok (txPassword s) BindingRequest tid c s Htid Hu) as Hok.
  set (uc := if nominates c s then [(AttrUseCandidate, [])] else [] : list (Z * bytes)).
  set (rest := [(AttrPriority, put32 check_priority);
   (if controlling s then AttrICEControlling else AttrICEControlled, put64 (tieBreaker s));
   (AttrSoftware, software); (AttrUsername, txUserName s)]).
  assert (packet_ok (Packet BindingRequest tid (request_attrs c s))) as Hokp.
  { eapply packet_ok_smaller; [done|]. exact (packet_ok_prefix (with_integrity _ _) [_] Hok). }
  set (t0 := MType zeroMessage). set (tid0 := TID zeroMessage).
  replace (request_setters c (inl tid) s) with
    (((if nominates c s then [UseCandidate_AddTo] else []) ++
      [MessageType_AddTo BindingRequest; TransactionIDSetter_AddTo (inl tid); Priority_AddTo check_priority;
       if controlling s then IceControlling_AddTo (tieBreaker s) else IceControlled_AddTo (tieBreaker s);
       Software_AddTo (fresh software); Username_AddTo (fresh (txUserName s))])
     ++ [MessageIntegrity_AddTo (NewShortTermIntegrity (txPassword s)); Fingerprint_AddTo])
    by (rewrite <- app_assoc; reflexivity).
  apply (protected_built (txPassword s) _
    (map add_step uc ++ (fun p => Ok (with_type BindingRequest p)) :: (fun p => Ok (with_tid tid p)) :: map add_step rest));
    [| |done|done].
  - apply Forall2_app.
    { unfold uc. destruct (nominates c s); cbn [map]; [|constructor].
      constructor; [exact (Add_implements AttrUseCandidate [])|constructor]. }
    constructor; [apply MessageType_implements|].
    constructor; [apply TransactionIDSetter_implements; by intros ? [= <-]|].
    constructor; [exact (Add_implements AttrPriority _)|].
    constructor; [destruct (controlling s); exact (Add_implements _ _)|].
    constructor; [apply text_adds; by vm_compute|]. constructor; [exact (text_adds _ _ _ Hu)|constructor].
  - apply (leads_app _ _ _ (Packet t0 tid0 uc)).
    { exact (leads_adds uc (Packet t0 tid0 []) (packet_ok_smaller _ BindingRequest tid0 tid uc rest eq_refl Hokp)). }
    apply leads_cons with (Packet BindingRequest tid0 uc);
      [reflexivity|exact (packet_ok_smaller _ BindingRequest tid0 tid uc rest eq_refl Hokp)|].
    apply leads_cons with (Packet BindingRequest tid uc);
      [reflexivity|exact (packet_ok_smaller _ BindingRequest tid tid uc rest Htid Hokp)|].
    exact (leads_adds rest (Packet BindingRequest tid uc) Hokp).
Qed.

(** The peer [sB] was told the credentials that [sA] sends. *)
Definition knows (sB sA : session) : Prop :=
  txPassword sA = rxPassword sB /\ (rxUserName sB = [] \/ rxUserName sB = txUserName sA).

Lemma accept_opposite localAddr from userName prio req sA sB c :
  role sA <> SessionRoleUnkown -> role sB = opposite (role sA) ->
  (forall t, t <> AttrMessageIntegrity -> t <> AttrFingerprint ->
     lookup_attr t (p_attrs (abs req)) = lookup_attr t (request_attrs c sA)) ->
  accept_request supportsUnaligned channelBind_ok localAddr from userName prio req sB
  = admit_request supportsUnaligned channelBind_ok localAddr from userName prio (role sA) req sB.
Proof.
  intros HA HB Hl. destruct (request_lookup c sA) as (_ & _ & _ & Hc & Hd & _).
  assert (forall t w, role sB = w ->
    resolve_role supportsUnaligned w t localAddr from req sB = (sB, Ok true)) as Hagree.
  { intros t w Hw. unfold resolve_role, st_bind, st_get. by rewrite bool_decide_true. }
  unfold accept_request. rewrite !is_ok_Get, !Hl, Hc, Hd by done. unfold controlling.
  destruct (role sA); [done| |]; cbn [opposite] in HB; rewrite ?(bool_decide_true (_ = _)) by done;
    rewrite ?(bool_decide_false (_ = _)) by done; cbn zeta.
  - erewrite ok_then by (by apply Hagree). cbn [negb]. by erewrite ok_then by done.
  - erewrite ok_then by done. cbn [negb]. by erewrite ok_then by (by apply Hagree).
Qed.

(** A request with the attributes of a check arrives at a peer that was told the
    user name and password of the sender and has the other role: it passes the
    checks of user name, credentials and role, and is handled as a check of the
    priority it names and with the nomination that it carries. *)
Lemma request_handled req c tid sA sB localAddr from :
  well_formed req -> abs req = protected (txPassword sA) (Packet BindingRequest tid (request_attrs c sA)) ->
  length tid = TransactionIDSize -> zlen (txUserName sA) <= maxUsernameB ->
  knows sB sA -> role sA <> SessionRoleUnkown -> role sB = opposite (role sA) ->
  exists req',
    TID req' = tid /\ is_ok (Get req' AttrUseCandidate) = nominates c sA /\
    processStunMessage supportsUnaligned channelBind_ok localAddr from req sB
    = admit_request supportsUnaligned channelBind_ok localAddr from (txUserName sA) check_priority
        (role sA) req' sB.
Proof.
  intros Hwf Hreq Htid Hu [Hp Hn] HA HB. destruct (request_lookup c sA) as (Hpr & Hus & Huc & _ & _ & Hmi & Hfp).
  destruct (integrity_accepts (txPassword sA) req (Packet BindingRequest tid (request_attrs c sA))
    [(AttrFingerprint, fingerprint_value (with_integrity (txPassword sA) (Packet BindingRequest tid (request_attrs c sA))))]
    Hmi Hwf Hreq) as (req' & Hc & _ & Hreq').
  change (abs req' = protected (txPassword sA) (Packet BindingRequest tid (request_attrs c sA))) in Hreq'.
  exists req'.
  assert (MType req = BindingRequest) as Hty by (change (p_type (abs req) = BindingRequest); by rewrite Hreq).
  assert (forall r t, abs r = abs req -> t <> AttrMessageIntegrity -> t <> AttrFingerprint ->
    lookup_attr t (p_attrs (abs r)) = lookup_attr t (request_attrs c sA)) as Hlook.
  { intros r t -> H1 H2. rewrite Hreq. by apply protected_lookup. }
  assert (length (TID req) = TransactionIDSize) as Hrt.
  { change (length (p_tid (abs req)) = TransactionIDSize). by rewrite Hreq. }
  split; [change (p_tid (abs req') = tid); by rewrite Hreq'|].
  split. { rewrite is_ok_Get, Hlook, Huc by (done || congruence). by destruct (nominates c sA). }
  unfold processStunMessage. rewrite Hty, bool_decide_true by done. unfold processBindingRequest.
  destruct (codec_get_ok (Codec := priority_codec) req check_priority 0) as (y & Hy & Hys);
    [by vm_compute|done|done|by rewrite Hlook|].
  change (codec_get req 0) with (Priority_GetFrom req 0) in Hy. change (y = check_priority) in Hys. rewrite Hy, Hys.
  destruct (codec_get_ok (Codec := text_codec AttrUsername maxUsernameB) req (txUserName sA) []) as (u & Huu & Hus');
    [done|done|done|by rewrite Hlook|].
  change (codec_get req []) with (Username_GetFrom req []) in Huu. change (u = txUserName sA) in Hus'. rewrite Huu, Hus'.
  unfold st_bind, st_get. unfold NewShortTermIntegrity. rewrite <- Hp, Hc.
  assert ((0 <? length (rxUserName sB))%nat && negb (bool_decide (txUserName sA = rxUserName sB)) = false) as ->.
  { destruct Hn as [-> | ->]; [done|]. rewrite bool_decide_true by done. by destruct (_ <? _)%nat. }
  apply (accept_opposite _ _ _ _ _ _ _ c); [done|done|]. intros t. apply Hlook. congruence.
Qed.

(** A connectivity check is admitted: this is such a request. *)
Lemma request_admitted i c tid sA sB localAddr from :
  allChecks sA !! i = Some c -> length tid = TransactionIDSize -> zlen (txUserName sA) <= maxUsernameB ->
  knows sB sA -> role sA <> SessionRoleUnkown -> role sB = opposite (role sA) ->
  exists packet req req',
    buildBindingRequest i (inl tid) sA = (sA, Ok (tid, packet)) /\
    Write packet zeroMessage = (req, Ok (length packet, None)) /\
    TID req' = tid /\ is_ok (Get req' AttrUseCandidate) = nominates c sA /\
    processStunMessage supportsUnaligned channelBind_ok localAddr from req sB
    = admit_request supportsUnaligned channelBind_ok localAddr from (txUserName sA) check_priority
        (role sA) req' sB.
Proof.
  intros Hi Htid Hu Hk HA HB. destruct (request_lookup c sA) as (_ & _ & _ & _ & _ & Hmi & _).
  pose proof (request_ok (txPassword sA) BindingRequest tid c sA Htid Hu) as Hok.
  destruct (request_built tid c sA Htid Hu) as (m & Hb & Hwf & Habs).
  destruct (protected_received (txPassword sA) m BindingRequest tid _ Hwf Habs ltac:(by vm_compute) Hmi Hok)
    as (req & HW & Hreq & Hwfr & _).
  destruct (request_handled req c tid sA sB localAddr from) as (req' & Ht & Huc & Hadm); [done..|].
  exists (visible (Raw m)), req, req'.
  assert (TID m = tid) as Hm by (change (p_tid (abs m) = tid); by rewrite Habs).
  split. { unfold buildBindingRequest, check_of, st_bind, st_get, st_ret. rewrite Hi, Hb. by rewrite Hm. }
  by split.
Qed.

(** ** The answer *)

Lemma mapped_implements a :
  Implements (XORMappedAddress_AddTo supportsUnaligned (mapped_address a))
    (fun p => if bool_decide (length a.1 = 4%nat \/ length a.1 = 16%nat)
              then Ok (with_attr (AttrXORMappedAddress, xor_address_value (p_tid p) a.1 a.2) p)
              else Err ErrBadIPLength).
Proof.
  pose proof (XORMappedAddress_implements supportsUnaligned a.1 a.2 AttrXORMappedAddress []) as Hi.
  rewrite app_nil_r in Hi. exact Hi.
Qed.

(** An answer with some attributes between the software and the address. *)
Lemma answer_built key t tid ss l a :
  length tid = TransactionIDSize -> ip_ok a.1 -> Forall2 adds ss l -> lookup_attr AttrFingerprint l = None ->
  let attrs := (AttrSoftware, software) :: l ++ [(AttrXORMappedAddress, xor_address_value tid a.1 a.2)] in
  packet_ok (protected key (Packet t tid attrs)) ->
  exists m, Build_new
    ([TransactionID_AddTo tid; MessageType_AddTo t; Software_AddTo (fresh software)] ++ ss ++
     [XORMappedAddress_AddTo supportsUnaligned (mapped_address a);
      MessageIntegrity_AddTo key; Fingerprint_AddTo]) = (m, Ok tt) /\
    well_formed m /\ abs m = protected key (Packet t tid attrs).
Proof.
  intros Htid Hip Hss Hfp attrs Hok. set (xa := (AttrXORMappedAddress, xor_address_value tid a.1 a.2)) in *.
  set (t0 := MType zeroMessage). set (tid0 := TID zeroMessage).
  assert (packet_ok (Packet t tid attrs)) as Hokp.
  { eapply packet_ok_smaller; [done|]. exact (packet_ok_prefix (with_integrity _ _) [_] Hok). }
  set (fx := fun p : packet => if bool_decide (length a.1 = 4%nat \/ length a.1 = 16%nat)
     then Ok (with_attr (AttrXORMappedAddress, xor_address_value (p_tid p) a.1 a.2) p)
     else Err ErrBadIPLength : result error packet).
  replace ([TransactionID_AddTo tid; MessageType_AddTo t; Software_AddTo (fresh software)] ++ ss ++ _)
    with (([TransactionID_AddTo tid; MessageType_AddTo t; Software_AddTo (fresh software)] ++ ss ++
           [XORMappedAddress_AddTo supportsUnaligned (mapped_address a)]) ++ [MessageIntegrity_AddTo key; Fingerprint_AddTo])
    by (rewrite <- !app_assoc; reflexivity).
  assert (attrs = ((AttrSoftware, software) :: l) ++ [xa]) as Hat by done.
  apply (protected_built key _
    ([(fun p => Ok (with_tid tid p)); (fun p => Ok (with_type t p))] ++ map add_step ((AttrSoftware, software) :: l) ++ [fx]));
    [| |by unfold attrs; cbn; rewrite lookup_attr_app, Hfp|exact Hok].
  - constructor; [exact (TransactionID_implements tid Htid)|]. constructor; [apply MessageType_implements|].
    constructor; [apply text_adds; by vm_compute|]. apply Forall2_app; [by apply Forall2_fmap_r|].
    constructor; [apply mapped_implements|constructor].
  - apply leads_cons with (Packet t0 tid []);
      [reflexivity|exact (packet_ok_smaller t0 t tid tid [] _ Htid Hokp)|].
    apply leads_cons with (Packet t tid []);
      [reflexivity|exact (packet_ok_smaller _ t tid tid [] _ Htid Hokp)|].
    apply (leads_app _ _ _ (Packet t tid ((AttrSoftware, software) :: l))).
    { apply (leads_adds ((AttrSoftware, software) :: l) (Packet t tid [])).
      rewrite Hat in Hokp. exact (packet_ok_smaller _ t tid tid _ [xa] Htid Hokp). }
    apply leads_cons with (Packet t tid attrs); [|exact Hokp|apply leads_nil].
    unfold fx. by rewrite bool_decide_true by exact Hip.
Qed.
Lemma response_built key tid a :
  length tid = TransactionIDSize -> ip_ok a.1 ->
  exists m, Build_new
    [TransactionID_AddTo tid; MessageType_AddTo BindingSuccess; Software_AddTo (fresh software);
     XORMappedAddress_AddTo supportsUnaligned (mapped_address a);
     MessageIntegrity_AddTo key; Fingerprint_AddTo] = (m, Ok tt) /\
    well_formed m /\ abs m = protected key (Packet BindingSuccess tid (response_attrs tid a)).
Proof.
  intros Htid Hip. apply (answer_built key BindingSuccess tid [] [] a); [done|done|constructor|done|].
  exact (response_ok key BindingSuccess tid a Htid Hip).
Qed.

(** A message whose XOR addresses have a family has a text. *)
Lemma readable m :
  (forall t v, is_xor_address t = true -> lookup_attr t (p_attrs (abs m)) = Some v -> (2 <= length v)%nat) ->
  exists s, Message_String supportsUnaligned m = Ok s.
Proof.
  intros Hl. pose proof (Message_String_outcomes supportsUnaligned m) as Hs.
  destruct (Message_String supportsUnaligned m) as [s|[]|p]; [by eexists|]. exfalso. destruct Hs as [_ Hs].
  apply existsb_exists in Hs as (at_ & _ & Hu). unfold family_unreadable in Hu.
  apply andb_true_iff in Hu as [Hx Hu]. pose proof (Get_lookup m (StunMessage.Type_ at_)) as Hg.
  destruct (Get m (StunMessage.Type_ at_)) as [sl| |]; [|done..]. specialize (Hl _ _ Hx Hg).
  apply Nat.ltb_lt in Hu. unfold contents, reachable in *. rewrite length_take in Hl. lia.
Qed.

(** The attributes of an answer can be read, by whoever received it. *)
Lemma response_readable key m tid a :
  abs m = protected key (Packet BindingSuccess tid (response_attrs tid a)) ->
  length tid = TransactionIDSize -> ip_ok a.1 -> exists s, Message_String supportsUnaligned m = Ok s.
Proof.
  intros Hm Htid Hip. apply readable. intros t v Hx Hv.
  rewrite Hm, protected_lookup in Hv by (intros ->; vm_compute in Hx; done).
  cbn [p_attrs response_attrs lookup_attr] in Hv. destruct (AttrSoftware =? t) eqn:E1.
  { apply Z.eqb_eq in E1. subst t. vm_compute in Hx. done. }
  destruct (AttrXORMappedAddress =? t); [|done]. injection Hv as <-.
  destruct (xor_address_length tid a.1 a.2 Htid Hip) as [-> _]. lia.
Qed.
Lemma response_address key m tid a :
  abs m = protected key (Packet BindingSuccess tid (response_attrs tid a)) ->
  length tid = TransactionIDSize -> ip_ok a.1 -> 0 <= a.2 < 2 ^ 16 ->
  exists y, XORMappedAddress_GetFrom supportsUnaligned m (mkAddress (Buffer [] 0) 0) = (y, Ok tt) /\
    Address_String y = UDPAddr_String a.
Proof.
  intros Hm Htid Hip Hport. assert (TID m = tid) as Ht by (change (p_tid (abs m) = tid); by rewrite Hm).
  destruct (codec_get_ok (Codec := xor_address_codec supportsUnaligned AttrXORMappedAddress) m a
    (mkAddress (Buffer [] 0) 0)) as (y & Hy & Hip' & Hport');
    [by split|exact (Nat.le_refl 0)|by rewrite Ht|by rewrite Hm, protected_lookup, Ht|].
  exists y. split; [exact Hy|]. unfold Address_String, UDPAddr_String. rewrite Hip', Hport', normal_ip_text.
  destruct a.1 as [|b ip]; [by destruct Hip|done].
Qed.

(** What [handle_success_response] does with a good response. *)
Definition check_succeeds (i : nat) (c : check) (l : Candidate) (xaddr : bytes) : SM unit :=
  let! lcand := local_of_mapped l xaddr in
  let! j := valid_pair lcand (remoteCandidate c) (nominated c) in
  markValidAndNonimated j;;;
  changeCheckState i checkStateSucced None;;;
  let! _ := tryCompleteCheck channelBind_ok i in st_ret tt.

(** A check that waits for the response to the request [tid]. *)
Definition awaits (s : session) (tid : bytes) (i : nat) (c : check) (l r : Candidate) : Prop :=
  getMsgCheck tid s = Some i /\ allChecks s !! i = Some c /\
  cands s !! localCandidate c = Some l /\ cands s !! remoteCandidate c = Some r /\
  (state_rank (state c) < state_rank checkStateSucced)%nat /\ all_complete s = false.

Lemma response_handled i c l r tid a s res res' :
  awaits s tid i c l r -> length tid = TransactionIDSize -> ip_ok a.1 -> 0 <= a.2 < 2 ^ 16 ->
  abs res = protected (rxPassword s) (Packet BindingSuccess tid (response_attrs tid a)) ->
  MessageIntegrity_Check (rxPassword s) res = (res', Ok tt) -> abs res' = abs res ->
  processStunMessage supportsUnaligned channelBind_ok (addr l) (addr r) res s
  = check_succeeds i c l (UDPAddr_String a) s.
Proof.
  intros (Hmsg & Hi & Hl & Hr & Hst & Hall) Htid Hip Hport Hres Hc Hres'. rewrite Hres in Hres'.
  assert (MType res = BindingSuccess) as Hty by (change (p_type (abs res) = BindingSuccess); by rewrite Hres).
  assert (TID res = tid) as Ht by (change (p_tid (abs res) = tid); by rewrite Hres).
  destruct (response_readable _ _ _ _ Hres Htid Hip) as [text Htext].
  destruct (response_address _ _ _ _ Hres' Htid Hip Hport) as (y & Hy & Hya).
  unfold processStunMessage, processBindingResponse. rewrite Hty.
  rewrite bool_decide_false by done. rewrite (bool_decide_true (BindingSuccess = BindingSuccess)) by done. rewrite orb_true_r.
  unfold st_bind at 1, st_get at 1. rewrite Ht, Hmsg.
  erewrite ok_then by (by apply check_of_ok). erewrite ok_then by (by apply cand_of_ok).
  rewrite bool_decide_true by done. cbn [negb]. rewrite (proj2 (Nat.leb_gt _ _) Hst).
  unfold handleCheckResponse. rewrite Htext. unfold st_bind at 1, st_get at 1. rewrite Hall, Ht, Hmsg.
  rewrite bool_decide_false by done. rewrite Hty.
  change (Class BindingSuccess =? ClassErrorResponse) with false. cbv iota.
  unfold handle_success_response. unfold st_bind at 1, st_get at 1. cbv beta.
  unfold NewShortTermIntegrity. rewrite Hc.
  erewrite ok_then by done. erewrite ok_then by (by apply check_of_ok). erewrite ok_then by (by apply cand_of_ok).
  rewrite bool_decide_true by done. cbn [negb]. rewrite Hy.
  erewrite ok_then by (by apply cand_of_ok). by rewrite Hya.
Qed.

(** The answer that an agent sends to a request arrives at the agent that made the
    request, from the address it was sent to: the check of its pair succeeds with
    the address that the peer saw, the valid pair takes over the nomination. *)
Lemma response_accepted i c l r tid sA sB srv localAddr from req :
  let a := addrToUDPAddr from in
  TID req = tid -> length tid = TransactionIDSize -> ip_ok a.1 -> 0 <= a.2 < 2 ^ 16 ->
  getSenderServerSock localAddr sB = Some (Some srv) -> srv <> NilTurnSock ->
  awaits sA tid i c l r -> txPassword sB = rxPassword sA ->
  exists packet res,
    sendResponse supportsUnaligned localAddr from req 0 sB
    = (set_events (EvSend srv localAddr from packet :: events sB) sB, Ok tt) /\
    Write packet zeroMessage = (res, Ok (length packet, None)) /\
    processStunMessage supportsUnaligned channelBind_ok (addr l) (addr r) res sA
    = check_succeeds i c l (UDPAddr_String a) sA.
Proof.
  intros a Hreq Htid Hip Hport Hsock Hsrv Haw Hpw.
  pose proof (response_ok (txPassword sB) BindingSuccess tid a Htid Hip) as Hok.
  destruct (response_built (txPassword sB) tid a Htid Hip) as (m & Hb & Hwf & Habs).
  destruct (protected_received (txPassword sB) m BindingSuccess tid _ Hwf Habs ltac:(by vm_compute) eq_refl Hok)
    as (res & HW & Hres & _ & res' & Hc & _ & Hres').
  exists (visible (Raw m)), res. split; [|split; [exact HW|]].
  - unfold sendResponse. unfold st_bind at 1, st_get at 1. rewrite Hsock, Hreq. cbn [Z.eqb]. fold a.
    unfold build_or_panic, NewShortTermIntegrity. rewrite Hb. unfold st_bind, st_ret. by destruct srv.
  - rewrite Hpw in *. apply (response_handled i c l r tid a sA res res'); [done..|congruence].
Qed.

(** * The whole check *)

(** What [createCheckList] takes from the description of the peer. *)
Lemma createCheckList_credentials sd s s' :
  createCheckList sd s = (s', Ok None) ->
  txUserName s' = sd_user sd ++ bs ":" ++ rxUserFrag s /\ rxUserName s' = rxUserFrag s ++ bs ":" ++ sd_user sd /\
  txPassword s' = sd_password sd /\ rxPassword s' = rxPassword s.
Proof.
  rewrite createCheckList_eq. destruct (_ <? _)%nat; [done|]. cbn zeta. case_bool_decide; [done|]. by intros [= <-].
Qed.

(** After an offer and an answer each side knows the credentials of the other. *)
Lemma exchanged_knows sdA sdB sA sB sA' sB' :
  sd_user sdA = rxUserFrag sA -> sd_password sdA = rxPassword sA ->
  sd_user sdB = rxUserFrag sB -> sd_password sdB = rxPassword sB ->
  createCheckList sdB sA = (sA', Ok None) -> createCheckList sdA sB = (sB', Ok None) ->
  knows sB' sA' /\ knows sA' sB'.
Proof.
  intros HuA HpA HuB HpB (T1 & R1 & P1 & Q1)%createCheckList_credentials (T2 & R2 & P2 & Q2)%createCheckList_credentials.
  unfold knows. rewrite T1, R1, P1, Q1, T2, R2, P2, Q2, HuA, HpA, HuB, HpB. auto.
Qed.

(** C6: A connectivity check between two agents with exchanged credentials and
    opposite roles succeeds.  The request that one builds for a pair decodes at
    the other, passes its checks of user name, MESSAGE-INTEGRITY and role, and is
    handled as a check with the sender's priority, role and nomination; the
    success response the other sends for it decodes at the first, passes its
    checks, and makes the check succeed with the address that the other saw. *)
Theorem connectivity_check_succeeds i c l r tid sA sA' sB srv localAddr from :
  let a := addrToUDPAddr from in
  knows sB sA -> rxPassword sA' = txPassword sB ->
  role sA <> SessionRoleUnkown -> role sB = opposite (role sA) ->
  allChecks sA !! i = Some c -> zlen (txUserName sA) <= maxUsernameB -> length tid = TransactionIDSize ->
  awaits sA' tid i c l r ->
  getSenderServerSock localAddr sB = Some (Some srv) -> srv <> NilTurnSock ->
  ip_ok a.1 -> 0 <= a.2 < 2 ^ 16 ->
  exists request req req' response res,
    buildBindingRequest i (inl tid) sA = (sA, Ok (tid, request)) /\
    Write request zeroMessage = (req, Ok (length request, None)) /\
    is_ok (Get req' AttrUseCandidate) = nominates c sA /\
    processStunMessage supportsUnaligned channelBind_ok localAddr from req sB
    = admit_request supportsUnaligned channelBind_ok localAddr from (txUserName sA) check_priority (role sA) req' sB /\
    sendResponse supportsUnaligned localAddr from req' 0 sB
    = (set_events (EvSend srv localAddr from response :: events sB) sB, Ok tt) /\
    Write response zeroMessage = (res, Ok (length response, None)) /\
    processStunMessage supportsUnaligned channelBind_ok (addr l) (addr r) res sA'
    = check_succeeds i c l (UDPAddr_String a) sA'.
Proof.
  intros a Hk Hpw HA HB Hi Hu Htid Haw Hsock Hsrv Hip Hport.
  destruct (request_admitted i c tid sA sB localAddr from Hi Htid Hu Hk HA HB)
    as (request & req & req' & Hbuild & HW & Ht & Huc & Hadm).
  destruct (response_accepted i c l r tid sA' sB srv localAddr from req') as (response & res & Hsend & HW' & Hres);
    [done..|by rewrite Hpw|].
  exists request, req, req', response, res. by split_and!.
Qed.
End Exchange.

(** * A check between two agents *)

Definition bob_address : bytes := bs "10.0.0.8:5000".
Definition alice_address : bytes := bs "10.0.0.1:4000".
Definition a_tid : bytes := replicate 12 Byte.x07.
Definition agent_at (r : SessionRole) (here : string) (there : string) (mine yours : bytes) (tie : Z) : session :=
  (run_session (H := doubling_runtime) (H0 := stable_sort) false (fun _ => true)
    [InDescription (mkDescription yours yours 0 [] None [host_candidate there 2130706431]); InStart;
     InCheck 0 true (inl a_tid)]
    (StartServer (fun _ => true) false [bs here]
      (newIceSession r [host_candidate here 2130706431] mine mine tie)).1).
Definition alice : session :=
  agent_at SessionRoleControlling "10.0.0.1:4000" "10.0.0.8:5000" (bs "alice") (bs "bobby") 42.
Definition bob : session :=
  agent_at SessionRoleControlled "10.0.0.8:5000" "10.0.0.1:4000" (bs "bobby") (bs "alice") 7.

Definition alice_check : check := default (mkCheck 0 0 [] 0 checkStateFrozen false None) (head (allChecks alice)).

(** Alice's check succeeds, with the pair nominated. *)
Lemma connectivity_check_succeeds_witness :
  exists res s',
    processStunMessage (H := doubling_runtime) (H0 := stable_sort) false (fun _ => true)
      alice_address bob_address res alice = (s', Ok tt) /\
    map state (allChecks s') = [checkStateSucced; checkStateSucced] /\ nominatedCheck s' = Some 1%nat.
Proof.
  destruct (connectivity_check_succeeds (H := doubling_runtime) (H0 := stable_sort) false (fun _ => true)
    0 alice_check (host_candidate "10.0.0.1:4000" 2130706431) (host_candidate "10.0.0.8:5000" 2130706431)
    a_tid alice alice bob (StunSock bob_address) bob_address alice_address)
    as (request & req & req' & response & res & _ & _ & _ & _ & _ & _ & Hres).
  - split; [vm_compute; reflexivity|right; vm_compute; reflexivity].
  - vm_compute; reflexivity.
  - vm_compute; discriminate.
  - vm_compute; reflexivity.
  - vm_compute; reflexivity.
  - vm_compute; discriminate.
  - reflexivity.
  - unfold awaits. split_and!; vm_compute; reflexivity.
  - vm_compute; reflexivity.
  - discriminate.
  - right. vm_compute. reflexivity.
  - vm_compute. split; [discriminate|reflexivity].
  - exists res. eexists. split; [etransitivity; [exact Hres|vm_compute; reflexivity]|].
    split; vm_compute; reflexivity.
Defined.

(** RFC 5389, section 10.1.2, keys a response with the password that
    authenticated the request, here Bob's own.  Bob's code keys it with Alice's
    instead, and Alice expects that: the response of a conforming peer fails her
    check. *)
Definition conforming_response : Message :=
  (Write (H := doubling_runtime) (encode_packet (protected (rxPassword bob)
    (Packet BindingSuccess a_tid (response_attrs a_tid (addrToUDPAddr alice_address))))) zeroMessage).1.
Lemma conforming_response_refused :
  is_ok (MessageIntegrity_Check (txPassword alice) conforming_response).2 = true /\
  is_ok (MessageIntegrity_Check (rxPassword alice) conforming_response).2 = false /\
  state <$> head (allChecks (processStunMessage (H := doubling_runtime) (H0 := stable_sort) false (fun _ => true)
    alice_address bob_address conforming_response alice).1) = Some checkStateFailed.
Proof. vm_compute. split_and!; reflexivity. Qed.
