(* ===== verification/IceRoles.v ===== *)
(** Role conflicts ([processBindingRequest] and [sendResponse] of
    [src/ice/icesession.go]): who gives its role up, and the error response that
    the other one sends. *)
From stdpp Require Import base list gmap sets strings.
From Stdlib Require Import ZArith Lia.
From S2P Require Import Prelude Wire GoFmt GoSlice StunTypes StunMessage StunPacket StunBuild StunAttrs.
From S2P Require Import StunAddr Crypto StunIntegrity Turn NetAddr IceCandidate IceChecklist IceSession.
From S2P Require Import IceSessionInv IceSetup IceSessionProps IceExchange.
Open Scope Z_scope.

Section Roles.
Context `{GoRuntime} `{SortSort}.
Variable supportsUnaligned : bool.
Variable channelBind_ok : bytes -> bool.

(** * The error response *)

Definition conflict_attr : Z * bytes := (AttrErrorCode, error_code_value CodeRoleConflict (bs "Role Conflict")).
Definition conflict_attrs (tid : bytes) (a : bytes * Z) : list (Z * bytes) :=
  [(AttrSoftware, software); conflict_attr; (AttrXORMappedAddress, xor_address_value tid a.1 a.2)].

Lemma conflict_ok key tid a :
  length tid = TransactionIDSize -> ip_ok a.1 ->
  packet_ok (protected key (Packet BindingError tid (conflict_attrs tid a))).
Proof.
  intros Htid Hip. apply protected_ok; [done|repeat constructor; by vm_compute|].
  unfold conflict_attrs. rewrite !encode_attrs_cons, !length_app, !encode_attr_length. cbn [snd conflict_attr].
  destruct (xor_address_length tid a.1 a.2 Htid Hip) as [-> Hn].
  pose proof (padded_spec (4 + length (normal_ip a.1))) as [? _].
  change (nearestPaddedValueLength (length software)) with 20%nat. change (length (encode_attrs [])) with 0%nat.
  change (nearestPaddedValueLength (length (error_code_value CodeRoleConflict (bs "Role Conflict")))) with 20%nat. lia.
Qed.
Lemma conflict_setter : adds (ErrorCode_AddTo CodeRoleConflict) conflict_attr.
Proof. exact (codec_add_ok (Codec := error_code_codec) (CodeRoleConflict, bs "Role Conflict") ltac:(vm_compute; by split_and!)). Qed.

(** What [response] is for the agent that gets it. *)
Definition reports_conflict (key tid response : bytes) : Prop :=
  exists m m' code, Write response zeroMessage = (m, Ok (length response, None)) /\
    MType m = BindingError /\ TID m = tid /\
    ErrorCodeAttribute_GetFrom m (mkErrorCode 0 (fresh [])) = (code, Ok tt) /\ Code code = CodeRoleConflict /\
    MessageIntegrity_Check key m = (m', Ok tt).

Lemma conflict_sent localAddr fromAddr req srv s :
  getSenderServerSock localAddr s = Some (Some srv) -> srv <> NilTurnSock ->
  length (TID req) = TransactionIDSize -> ip_ok (addrToUDPAddr fromAddr).1 ->
  exists response,
    sendResponse supportsUnaligned localAddr fromAddr req CodeRoleConflict s
    = (set_events (EvSend srv localAddr fromAddr response :: events s) s, Ok tt) /\
    reports_conflict (txPassword s) (TID req) response.
Proof.
  intros Hsock Hsrv Htid Hip. set (a := addrToUDPAddr fromAddr) in *. set (tid := TID req) in *.
  pose proof (conflict_ok (txPassword s) tid a Htid Hip) as Hok.
  destruct (answer_built supportsUnaligned (txPassword s) BindingError tid [ErrorCode_AddTo CodeRoleConflict]
    [conflict_attr] a) as (m & HB & Hwf & Habs); [done|done|by constructor; [apply conflict_setter|]|done|done|].
  destruct (protected_received (txPassword s) m BindingError tid _ Hwf Habs ltac:(by vm_compute) eq_refl Hok)
    as (r & HW & Hr & Hwfr & r' & Hc & _).
  exists (visible (Raw m)). split.
  - unfold sendResponse. unfold st_bind at 1, st_get at 1. rewrite Hsock. change (CodeRoleConflict =? 0) with false.
    rewrite Z.eqb_refl. cbv beta iota zeta. unfold build_or_panic, NewShortTermIntegrity.
    change (TID req) with tid. fold a. cbn [app] in HB.
    rewrite HB. unfold st_bind, st_ret. by destruct srv.
  - destruct (codec_get_ok (Codec := error_code_codec) r (CodeRoleConflict, bs "Role Conflict") (mkErrorCode 0 (fresh [])))
      as (code & Hg & Hcode & _); [by vm_compute|done| |by rewrite Hr, protected_lookup|].
    { change (length (p_tid (abs r)) = TransactionIDSize). by rewrite Hr. }
    exists r, r', code. split_and!; [done| | |exact Hg|exact Hcode|done].
    + change (p_type (abs r) = BindingError). by rewrite Hr.
    + change (p_tid (abs r) = tid). by rewrite Hr.
Qed.

(** * The conflict *)

(** The request of the agent with the smaller tie breaker is refused. *)
Lemma conflict_refused r s t localAddr fromAddr userName prio req :
  role s = r -> t < tieBreaker s -> claims_role r t req ->
  exists k,
    accept_request supportsUnaligned channelBind_ok localAddr fromAddr userName prio req s
    = (let! go := resolve_role supportsUnaligned (opposite r) t localAddr fromAddr req in
       if negb go then st_ret tt else k) s.
Proof.
  intros Hr Ht Hc. unfold accept_request. destruct r; [done| |]; destruct Hc as (-> & -> & ->); cbn [opposite].
  - eexists. reflexivity.
  - eexists. cbn [negb]. erewrite ok_then by done. cbn [negb]. reflexivity.
Qed.
Lemma conflict_yielded r s t localAddr fromAddr userName prio req :
  role s = r -> tieBreaker s < t -> claims_role r t req ->
  accept_request supportsUnaligned channelBind_ok localAddr fromAddr userName prio req s
  = admit_request supportsUnaligned channelBind_ok localAddr fromAddr userName prio r req (set_role (opposite r) s).
Proof.
  intros Hr Ht Hc. unfold accept_request. destruct r; [done| |]; destruct Hc as (-> & -> & ->); cbn [opposite negb].
  - erewrite ok_then by (apply resolve_role_yields; [by rewrite Hr|done]). cbn [negb].
    erewrite ok_then by done. by cbn [negb orb].
  - erewrite ok_then by done. cbn [negb].
    erewrite ok_then by (apply resolve_role_yields; [by rewrite Hr|done]). by cbn [negb orb].
Qed.

(** C13: Two agents that both believe to be in one role, with different tie
    breakers, end in different roles.  The one with the smaller tie breaker gives
    its role up and admits the request of the other.  The other keeps its session
    as it is; when it has a socket for the address the request came to (not a TURN
    socket that is nil), and the request has a transaction id of 12 bytes and came
    from an IP address, it sends exactly one packet back, which
    decodes to a binding error response to that request with the code of a role
    conflict and passes the check of the key it was made with.  (For two
    controlled agents this is the opposite of RFC 5245 section 7.2.1.2, where the
    larger one becomes controlling.) *)
Theorem role_conflict_resolved r sA sB addrA addrB userName prio reqA reqB :
  role sA = r -> role sB = r -> tieBreaker sA < tieBreaker sB ->
  claims_role r (tieBreaker sA) reqA -> claims_role r (tieBreaker sB) reqB ->
  let atA := accept_request supportsUnaligned channelBind_ok addrA addrB userName prio reqB sA in
  let atB := accept_request supportsUnaligned channelBind_ok addrB addrA userName prio reqA sB in
  role atA.1 = opposite r /\
  atA = admit_request supportsUnaligned channelBind_ok addrA addrB userName prio r reqB (set_role (opposite r) sA) /\
  role atB.1 = r /\ answers addrB addrA sB atB.1 /\
  (forall srv, getSenderServerSock addrB sB = Some (Some srv) -> srv <> NilTurnSock ->
     length (TID reqA) = TransactionIDSize -> ip_ok (addrToUDPAddr addrA).1 ->
     exists response,
       atB = (set_events (EvSend srv addrB addrA response :: events sB) sB, Ok tt) /\
       reports_conflict (txPassword sB) (TID reqA) response).
Proof.
  intros HA HB Ht HrA HrB. cbn zeta. rewrite (conflict_yielded r sA (tieBreaker sB)) by done.
  destruct (conflict_refused r sB (tieBreaker sA) addrB addrA userName prio reqA HB Ht HrA) as [k ->].
  assert (role sB <> opposite r) as Hne by (rewrite HB; by destruct r).
  split; [by rewrite (ad_role _ _ (admit_request_advances _ _ _ _ _ _ _ _ (set_role (opposite r) sA)))|].
  split; [done|].
  assert (tieBreaker sA <= tieBreaker sB) as Hle by lia.
  pose proof (resolve_role_insists supportsUnaligned (opposite r) (tieBreaker sA) addrB addrA reqA k sB Hne Hle) as Hans.
  split; [by destruct Hans as [->|(? & ? & ->)]|]. split; [exact Hans|].
  intros srv Hsock Hsrv Htid Hip. destruct (conflict_sent addrB addrA reqA srv sB Hsock Hsrv Htid Hip) as (response & Hs & Hrep).
  exists response. split; [|exact Hrep]. unfold resolve_role, st_bind, st_get. rewrite bool_decide_false by done.
  rewrite (proj2 (Z.ltb_ge _ _) Hle). by rewrite Hs.
Qed.
End Roles.

(** * Two controlling agents with the tie breakers 7 and 42 *)

Definition socket_agent (tie : Z) (here : string) (password : bytes) : session :=
  (StartServer (fun _ => true) false [bs here]
    (newIceSession SessionRoleControlling [host_candidate here 2130706431] (bs "abcdefgh") password tie)).1.
Definition smaller : session := set_txPassword (bs "qrstuvwx") (socket_agent 7 "10.0.0.1:4000" (bs "ijklmnop")).
Definition larger : session := set_txPassword (bs "ijklmnop") (socket_agent 42 "10.0.0.8:5000" (bs "qrstuvwx")).

Lemma role_conflict_resolved_witness :
  role (accept_request (H := doubling_runtime) false (fun _ => true) (bs "10.0.0.1:4000")
    (bs "10.0.0.8:5000") [] 1 (controlling_request 42) smaller).1 = SessionRoleControlled /\
  exists response,
    (accept_request (H := doubling_runtime) false (fun _ => true) (bs "10.0.0.8:5000")
      (bs "10.0.0.1:4000") [] 1 (controlling_request 7) larger)
    = (set_events (EvSend (StunSock (bs "10.0.0.8:5000")) (bs "10.0.0.8:5000") (bs "10.0.0.1:4000") response :: events larger)
         larger, Ok tt) /\
    reports_conflict (H := doubling_runtime) (bs "ijklmnop") (replicate 12 Byte.x00) response.
Proof.
  assert (claims_role SessionRoleControlling 7 (controlling_request 7)) as H7
    by (vm_compute; split_and!; reflexivity).
  assert (claims_role SessionRoleControlling 42 (controlling_request 42)) as H42
    by (vm_compute; split_and!; reflexivity).
  destruct (role_conflict_resolved (H := doubling_runtime) false (fun _ => true)
    SessionRoleControlling smaller larger (bs "10.0.0.1:4000") (bs "10.0.0.8:5000") [] 1
    (controlling_request 7) (controlling_request 42) eq_refl eq_refl eq_refl H7 H42) as (HA & _ & _ & _ & HB).
  split; [exact HA|]. apply HB.
  - vm_compute. reflexivity.
  - discriminate.
  - vm_compute. reflexivity.
  - right. vm_compute. reflexivity.
Defined.
