(* ===== verification/IceSelection.v ===== *)
(** The selected pair of an ICE session: [markValidAndNonimated] keeps the valid
    and the nominated check of highest priority. *)
From stdpp Require Import base list gmap sets strings.
From Stdlib Require Import ZArith Lia.
From S2P Require Import Prelude Wire GoFmt GoSlice StunTypes StunMessage StunBuild StunAttrs.
From S2P Require Import StunAddr StunIntegrity Turn NetAddr IceCandidate IceChecklist IceSession.
From S2P Require Import IceSessionInv IceSetup IceSessionProps IceRetransmit IceFindings.
Open Scope Z_scope.

(** * The invariant *)

(** A check that is not a valid pair; the check list and the goroutines know such
    checks only. *)
Definition outside (s : session) (i : nat) : Prop :=
  (i < length (allChecks s))%nat /\ i ∉ validCheckList s.
Definition nominated_in (s : session) (i : nat) : bool :=
  match allChecks s !! i with Some c => nominated c | None => false end.

(** [best s l o]: [o] is a check of highest priority among [l], if there is one. *)
Definition best (s : session) (P : nat -> Prop) (o : option nat) : Prop :=
  (forall n, o = Some n -> n ∈ validCheckList s) /\
  (forall j, j ∈ validCheckList s -> P j ->
     exists n, o = Some n /\ priority_in s j <= priority_in s n).

(** The invariant, up to the valid pairs that are not [P]. *)
Record selection_on (P : nat -> Prop) (s : session) : Prop := {
  sl_bound : forall j, j ∈ validCheckList s -> (j < length (allChecks s))%nat;
  sl_checks : forall i, i ∈ checkList s -> outside s i;
  sl_spawned : forall i ch n, EvSpawn i ch n ∈ events s -> outside s i;
  sl_valid : best s P (validCheck s);
  sl_nominated : best s (fun j => P j /\ nominated_in s j = true) (nominatedCheck s)
}.
Definition selection : session -> Prop := selection_on (fun _ => True).

(** What a call keeps: the invariant, and what is outside. *)
Definition selects (s s' : session) : Prop :=
  selection s -> selection s' /\ (forall i, outside s i -> outside s' i).
#[export] Instance selects_preorder : PreOrder selects.
Proof.
  split; [by intros s|]. intros s1 s2 s3 H12 H23 H1. destruct (H12 H1) as [H2 O2].
  destruct (H23 H2) as [H3 O3]. auto.
Qed.

(** * Calls that leave the selection alone *)

Definition is_spawn (e : event) : bool := match e with EvSpawn _ _ _ => true | _ => false end.
Record frame (s s' : session) : Prop := {
  fr_valid : validCheckList s' = validCheckList s;
  fr_best : validCheck s' = validCheck s;
  fr_nominated : nominatedCheck s' = nominatedCheck s;
  fr_list : checkList s' = checkList s;
  fr_events : forall e, is_spawn e = true -> e ∈ events s' -> e ∈ events s;
  fr_checks : forall i c, allChecks s !! i = Some c -> exists c', allChecks s' !! i = Some c' /\
    priority c' = priority c /\ nominated c' = nominated c
}.
#[export] Instance frame_preorder : PreOrder frame.
Proof.
  split; [split; eauto|]. intros s1 s2 s3 [] []. split; [congruence..|auto|].
  intros i c Hc. destruct (fr_checks0 i c Hc) as (c' & Hc' & ? & ?).
  destruct (fr_checks1 i c' Hc') as (c'' & ? & ? & ?). exists c''. split_and!; congruence.
Qed.

Lemma frame_lookup s s' i : frame s s' -> (i < length (allChecks s))%nat ->
  (i < length (allChecks s'))%nat /\ priority_in s' i = priority_in s i /\
  nominated_in s' i = nominated_in s i.
Proof.
  intros [_ _ _ _ _ Hf] [c Hc]%lookup_lt_is_Some. destruct (Hf i c Hc) as (c' & Hc' & Hp & Hn).
  unfold priority_in, nominated_in. rewrite Hc, Hc'. split; [by eapply lookup_lt_Some|done].
Qed.
Lemma frame_outside s s' i : frame s s' -> outside s i -> outside s' i.
Proof.
  intros Hf [Hi Hv]. split; [by eapply frame_lookup|]. by rewrite (fr_valid _ _ Hf).
Qed.
Lemma frame_best s s' P P' o : frame s s' ->
  (forall j, j ∈ validCheckList s -> (j < length (allChecks s))%nat) ->
  (forall j, j ∈ validCheckList s -> P' j -> P j) -> best s P o -> best s' P' o.
Proof.
  intros Hf Hb HP [H1 H2]. split; [intros n Hn; rewrite (fr_valid _ _ Hf); auto|].
  intros j Hj Hp. rewrite (fr_valid _ _ Hf) in Hj. destruct (H2 j Hj) as (n & -> & Hle); [auto|].
  exists n. split; [done|].
  destruct (frame_lookup s s' j Hf) as (_ & -> & _); [auto|].
  by destruct (frame_lookup s s' n Hf) as (_ & -> & _); [auto|].
Qed.
Lemma frame_selects s s' : frame s s' -> selects s s'.
Proof.
  intros Hf Hs. split; [|intros i; by apply frame_outside]. destruct Hs. split.
  - intros j. rewrite (fr_valid _ _ Hf). intros Hj. by eapply frame_lookup; auto.
  - intros i. rewrite (fr_list _ _ Hf). intros Hi. by eapply frame_outside; auto.
  - intros i ch n Hi. eapply frame_outside; [done|]. eapply sl_spawned0. by apply (fr_events _ _ Hf).
  - rewrite (fr_best _ _ Hf). by apply (frame_best s s' (fun _ => True)).
  - rewrite (fr_nominated _ _ Hf).
    apply (frame_best s s' (fun j => True /\ nominated_in s j = true)); [done|done| |done].
    intros j Hj. by destruct (frame_lookup s s' j Hf) as (_ & _ & ->); auto.
Qed.

Lemma frame_set (f : session -> session) :
  (forall s, allChecks (f s) = allChecks s /\ checkList (f s) = checkList s /\
     validCheckList (f s) = validCheckList s /\ validCheck (f s) = validCheck s /\
     nominatedCheck (f s) = nominatedCheck s /\ events (f s) = events s) ->
  keeps (E := stop) frame (st_modify f).
Proof.
  intros Hf. apply keeps_modify. intros s. destruct (Hf s) as (H1 & H2 & H3 & H4 & H5 & H6).
  split; [done..|by rewrite H6|rewrite H1; eauto].
Qed.
#[export] Hint Extern 1 (keeps frame (st_modify _)) =>
  apply frame_set; intros; by split_and! : keeps.
Lemma emit_frame e : is_spawn e = false -> keeps frame (emit e).
Proof.
  intros He. apply keeps_modify. intros s. split; [done..| |eauto].
  intros e' He' [->|Hin]%elem_of_cons; [congruence|done].
Qed.
#[export] Hint Extern 1 (keeps frame (emit _)) => apply emit_frame; reflexivity : keeps.
Lemma new_check_frame c : keeps frame (new_check c).
Proof. intros s. split; try done. intros i x Hx. exists x. split; [by apply lookup_app_l_Some|done]. Qed.
Lemma new_cand_frame c : keeps frame (new_cand c).
Proof. intros s. split; eauto. Qed.
Lemma new_chan_frame : keeps frame new_chan.
Proof. intros s. split; eauto. Qed.
Lemma send_chan_frame ch m : keeps frame (send_chan ch m).
Proof.
  intros s. unfold send_chan. destruct ch as [i|]; [|done]. destruct (chans s !! i) as [c|]; [|done].
  destruct (is_closed c); [done|]. destruct (buf c); [done|]. split; eauto.
Qed.
Lemma close_chan_frame ch : keeps frame (close_chan ch).
Proof.
  intros s. unfold close_chan. destruct ch as [i|]; [|done]. destruct (chans s !! i) as [c|]; [|done].
  destruct (is_closed c); [done|]. split; eauto.
Qed.
#[export] Hint Resolve new_check_frame new_cand_frame new_chan_frame send_chan_frame
  close_chan_frame : keeps.

Lemma put_check_frame i c c' s :
  allChecks s !! i = Some c -> priority c' = priority c -> nominated c' = nominated c ->
  frame s (set_allChecks (<[i := c']> (allChecks s)) s).
Proof.
  intros Hc Hp Hn. split; [done..|auto|]. intros j x Hx. cbn.
  destruct (decide (j = i)) as [->|Hne]; [|rewrite list_lookup_insert_ne by done; by exists x].
  exists c'. rewrite list_lookup_insert_eq by (by eapply lookup_lt_Some).
  split; [done|]. by assert (x = c) as -> by congruence.
Qed.
Lemma modify_keeps {R} `{!PreOrder R} {A} f (k : SM A) s :
  R s (f s) -> keeps R k -> R s ((st_modify f;;; k) s).1.
Proof. intros Hf Hk. etrans; [exact Hf|exact (Hk (f s))]. Qed.
Lemma changeCheckState_frame i st err : keeps frame (changeCheckState i st err).
Proof.
  apply read_check_keeps. intros s c Hc. destruct (_ <=? _)%nat; [done|].
  apply modify_keeps; [by apply (put_check_frame i c)|]. unfold finishOneCheck. keeps_walk.
Qed.
#[export] Hint Resolve changeCheckState_frame : keeps.

Section Frames.
Context `{GoRuntime} `{SortSort}.
Variable supportsUnaligned : bool.
Variable channelBind_ok : bytes -> bool.

Lemma cancelOneCheck_frame i : keeps frame (cancelOneCheck i).
Proof. unfold cancelOneCheck. keeps_walk. Qed.
Lemma retryOneCheck_frame i : keeps frame (retryOneCheck i).
Proof. unfold retryOneCheck. keeps_walk. Qed.
Lemma on_sock_frame srv f : (forall k, keeps frame (f k)) -> keeps frame (on_sock srv f).
Proof. intros Hf. unfold on_sock, nil_deref. destruct srv as [[| |]|]; auto; keeps_walk. Qed.
Hint Resolve cancelOneCheck_frame retryOneCheck_frame : keeps.
Hint Extern 1 (keeps frame (on_sock _ _)) => apply on_sock_frame; intros ?; keeps_walk : keeps.
Lemma changeCompleteResult_frame r : keeps frame (changeCompleteResult r).
Proof. unfold changeCompleteResult. keeps_walk. Qed.
Hint Resolve changeCompleteResult_frame : keeps.
Lemma iceComplete_frame result all : keeps frame (iceComplete channelBind_ok result all).
Proof.
  unfold iceComplete, closeUselessServerSock, notify_once, nominated_pair, FinishNegotiation, nil_deref.
  keeps_walk.
Qed.
Hint Resolve iceComplete_frame : keeps.
Lemma tryCompleteCheck_frame i : keeps frame (tryCompleteCheck channelBind_ok i).
Proof. unfold tryCompleteCheck, unfreeze, cancel_useless, unfinished. keeps_walk. Qed.
Hint Resolve tryCompleteCheck_frame : keeps.
Lemma fail_check_frame i e : keeps frame (fail_check channelBind_ok i e).
Proof. unfold fail_check. keeps_walk. Qed.
Hint Resolve fail_check_frame : keeps.
Lemma handle_error_response_frame i res : keeps frame (handle_error_response channelBind_ok i res).
Proof. unfold handle_error_response, changeRole. keeps_walk. Qed.
Lemma sendResponse_frame localAddr fromAddr req code :
  keeps frame (sendResponse supportsUnaligned localAddr fromAddr req code).
Proof. unfold sendResponse, build_or_panic, sendStunMessageAsync. keeps_walk. Qed.
Lemma local_of_mapped_frame l xaddr : keeps frame (local_of_mapped l xaddr).
Proof. unfold local_of_mapped. keeps_walk. Qed.
Lemma remote_of_request_frame rc : keeps frame (remote_of_request rc).
Proof. unfold remote_of_request. keeps_walk. Qed.
Lemma resolve_role_frame wanted t localAddr fromAddr req :
  keeps frame (resolve_role supportsUnaligned wanted t localAddr fromAddr req).
Proof. unfold resolve_role, changeRole. pose proof sendResponse_frame. keeps_walk. Qed.
Lemma onecheck_round_frame i srv round sleep tid raw :
  keeps frame (onecheck_round i srv round sleep tid raw).
Proof. unfold onecheck_round, addMsgCheck, deleteMsgCheck, sendStunMessageAsync. keeps_walk. Qed.
Lemma buildBindingRequest_frame i rnd : keeps frame (buildBindingRequest i rnd).
Proof. unfold buildBindingRequest. keeps_walk. Qed.
Hint Resolve onecheck_round_frame buildBindingRequest_frame : keeps.
Lemma onecheck_receive_frame i ch rnd g : keeps frame (onecheck_receive i ch rnd g).
Proof. unfold onecheck_receive, onecheck_restart, deleteMsgCheck. keeps_walk. Qed.
Lemma SendData_frame data : keeps frame (SendData data).
Proof. unfold SendData, nil_deref. keeps_walk. Qed.
End Frames.

(** * Calls that change the selection *)

Lemma check_of_bound s i : (i < length (allChecks s))%nat ->
  exists c, allChecks s !! i = Some c /\ check_of i s = (s, Ok c).
Proof.
  intros [c Hc]%lookup_lt_is_Some. exists c. split; [done|]. by apply check_of_ok.
Qed.

(** What [better] computes. *)
Definition better_of (s : session) (o : option nat) (i : nat) : option nat :=
  match o with
  | None => Some i
  | Some o' => if priority_in s o' <? priority_in s i then Some i else o
  end.
Lemma better_ok s o i :
  (i < length (allChecks s))%nat -> (forall n, o = Some n -> n < length (allChecks s))%nat ->
  better o i s = (s, Ok (better_of s o i)).
Proof.
  intros Hi Ho. unfold better, better_of. destruct (check_of_bound s i Hi) as (c & Hc & E).
  erewrite ok_then by exact E. destruct o as [o'|]; [|done].
  destruct (check_of_bound s o' (Ho o' eq_refl)) as (c' & Hc' & E').
  erewrite ok_then by exact E'. unfold priority_in. by rewrite Hc, Hc'.
Qed.
Lemma best_better s P o j :
  j ∈ validCheckList s -> best s P o -> best s (fun k => P k \/ k = j) (better_of s o j).
Proof.
  intros Hj [H1 H2]. unfold better_of. split.
  - intros n. destruct o as [o'|]; [destruct (_ <? _)|]; naive_solver.
  - intros k Hk [Hp| ->].
    + destruct (H2 k Hk Hp) as (n & -> & Hle). destruct (Z.ltb_spec (priority_in s n) (priority_in s j));
        eexists; (split; [reflexivity|lia]).
    + destruct o as [n|]; [|by exists j]. destruct (Z.ltb_spec (priority_in s n) (priority_in s j));
        eexists; (split; [reflexivity|lia]).
Qed.
Lemma best_weaken s P P' o :
  (forall j, j ∈ validCheckList s -> P' j -> P j) -> best s P o -> best s P' o.
Proof. intros HP [H1 H2]. split; [done|]. intros j Hj Hp. auto. Qed.

Definition marked (s : session) (j : nat) : session :=
  let s' := set_validCheck (better_of s (validCheck s) j) s in
  if nominated_in s j then set_nominatedCheck (better_of s (nominatedCheck s) j) s' else s'.
Lemma markValid_ok P s j : selection_on P s -> j ∈ validCheckList s ->
  markValidAndNonimated j s = (marked s j, Ok tt).
Proof.
  intros Hs Hj. pose proof (sl_bound _ _ Hs j Hj) as Hb. unfold markValidAndNonimated, marked.
  erewrite ok_then by done. erewrite ok_then.
  2: { apply better_ok; [done|]. intros n Hn. apply (sl_bound _ _ Hs), (sl_valid _ _ Hs), Hn. }
  rewrite modify_then. destruct (check_of_bound s j Hb) as (c & Hc & _).
  erewrite ok_then by (apply check_of_ok; exact Hc). unfold nominated_in at 1. rewrite Hc.
  destruct (nominated c); [|done]. erewrite ok_then by done. erewrite ok_then; [reflexivity|].
  apply (better_ok (set_validCheck _ s)); [done|].
  intros n Hn. apply (sl_bound _ _ Hs), (sl_nominated _ _ Hs), Hn.
Qed.
Lemma marked_selection s j :
  selection_on (fun k => k <> j) s -> j ∈ validCheckList s -> selection (marked s j).
Proof.
  intros [H1 H2 H3 Hv Hn] Hj.
  apply (best_better s _ _ j Hj) in Hv. unfold marked. destruct (nominated_in s j) eqn:E.
  - apply (best_better s _ _ j Hj) in Hn. split; [done..| |].
    + eapply (best_weaken s); [|exact Hv]. intros k _ _. destruct (decide (k = j)); tauto.
    + eapply (best_weaken s); [|exact Hn]. intros k _ [_ Hk]. destruct (decide (k = j)); tauto.
  - split; [done..| |].
    + eapply (best_weaken s); [|exact Hv]. intros k _ _. destruct (decide (k = j)); tauto.
    + eapply (best_weaken s); [|exact Hn]. intros k _ [_ Hk]. split; [|done]. intros ->.
      change (nominated_in s j = true) in Hk. congruence.
Qed.
Lemma marked_same s j : validCheckList (marked s j) = validCheckList s /\
  allChecks (marked s j) = allChecks s /\ checkList (marked s j) = checkList s.
Proof. unfold marked. by destruct (nominated_in s j). Qed.

(** Setting the nomination of a check. *)
Definition renominated (s : session) (i : nat) (c : check) (b : bool) : session :=
  set_allChecks (<[i := with_nominated b c]> (allChecks s)) s.
Lemma update_nominated_ok s i f : (i < length (allChecks s))%nat ->
  exists c, allChecks s !! i = Some c /\
    update_nominated i f s = (renominated s i c (f (nominated c)), Ok tt).
Proof.
  intros Hi. destruct (check_of_bound s i Hi) as (c & Hc & E). exists c. split; [done|].
  unfold update_nominated. by erewrite ok_then by exact E.
Qed.
Lemma renominated_in s i c b k : allChecks s !! i = Some c ->
  priority_in (renominated s i c b) k = priority_in s k /\
  (k <> i -> nominated_in (renominated s i c b) k = nominated_in s k).
Proof.
  intros Hc. unfold priority_in, nominated_in, renominated. cbn.
  destruct (decide (k = i)) as [->|Hne].
  - rewrite list_lookup_insert_eq by (by eapply lookup_lt_Some). by rewrite Hc.
  - by rewrite list_lookup_insert_ne.
Qed.
Lemma renominated_best s i c b P P' o : allChecks s !! i = Some c ->
  (forall j, j ∈ validCheckList s -> P' j -> P j) -> best s P o -> best (renominated s i c b) P' o.
Proof.
  intros Hc HP [H1 H2]. split; [done|]. intros j Hj Hp. destruct (H2 j Hj) as (n & -> & Hle); [auto|].
  exists n. split; [done|]. by rewrite !(proj1 (renominated_in _ _ _ _ _ Hc)).
Qed.
Lemma renominated_selection s i c b (P : nat -> Prop) : allChecks s !! i = Some c ->
  selection s -> (forall j, j ∈ validCheckList s -> P j -> j <> i) ->
  selection_on P (renominated s i c b).
Proof.
  intros Hc [H1 H2 H3 Hv Hn] HP.
  assert (forall k, outside s k -> outside (renominated s i c b) k) as Ho
    by (intros k [Hk ?]; split; [cbn; by rewrite length_insert|done]).
  split.
  - intros j Hj. cbn. rewrite length_insert. auto.
  - auto.
  - eauto.
  - by apply (renominated_best s i c b (fun _ => True)).
  - apply (renominated_best s i c b (fun j => True /\ nominated_in s j = true)); [done| |done].
    intros j Hj [Hp Hb]. split; [done|]. rewrite <- Hb. symmetry. apply renominated_in; auto.
Qed.
Lemma renominated_outside s i c b k : outside s k -> outside (renominated s i c b) k.
Proof. intros [Hk ?]. split; [cbn; by rewrite length_insert|done]. Qed.

(** A check outside the valid pairs may be nominated freely. *)
Lemma update_nominated_selects i f s :
  outside s i -> selects s (update_nominated i f s).1.
Proof.
  intros [Hi Hv] Hs. destruct (update_nominated_ok s i f Hi) as (c & Hc & ->).
  split; [|intros k; apply renominated_outside]. by apply renominated_selection; [..|intros ? ? _ ->].
Qed.
(** A valid one when it is marked at once. *)
Lemma nominate_valid_selects i f s : i ∈ validCheckList s ->
  selects s ((update_nominated i f;;; markValidAndNonimated i) s).1 /\
  (selection s ->
   validCheckList ((update_nominated i f;;; markValidAndNonimated i) s).1 = validCheckList s).
Proof.
  intros Hv. assert (selection s ->
    exists c b, allChecks s !! i = Some c /\
      ((update_nominated i f;;; markValidAndNonimated i) s).1 = marked (renominated s i c b) i /\
      selection (marked (renominated s i c b) i)) as Hm.
  { intros Hs. destruct (update_nominated_ok s i f (sl_bound _ _ Hs i Hv)) as (c & Hc & E).
    exists c, (f (nominated c)). split; [done|].
    assert (selection_on (fun k => k <> i) (renominated s i c (f (nominated c)))) as Hs'
      by (by apply renominated_selection).
    erewrite ok_then by exact E. rewrite (markValid_ok _ _ i Hs') by done.
    split; [done|]. by apply marked_selection. }
  split.
  - intros Hs. destruct (Hm Hs) as (c & b & Hc & -> & Hs'). split; [done|].
    intros k Hk%(renominated_outside s i c b). unfold outside.
    by destruct (marked_same (renominated s i c b) i) as (-> & -> & _).
  - intros Hs. destruct (Hm Hs) as (c & b & Hc & -> & _).
    by destruct (marked_same (renominated s i c b) i) as (-> & _).
Qed.

(** Searching does not change the state, and finds an element of the list. *)
Lemma find_first_found {A} (p : A -> SM bool) l s :
  (forall x, keeps eq (p x)) ->
  (find_first p l s).1 = s /\
  (forall x, (find_first p l s).2 = Ok (Some x) -> x ∈ l).
Proof.
  intros Hp. induction l as [|y l [IH1 IH2]]; [done|]. cbn [find_first]. unfold st_bind.
  pose proof (Hp y s) as Hy. destruct (p y s) as [s1 [b|e|q]]; cbn in Hy; subst s1; [|done..].
  destruct b; [split; [done|]; intros x [= ->]; set_solver|]. split; [done|].
  intros x Hx. apply elem_of_cons. right. auto.
Qed.

Section Selecting.
Context `{GoRuntime} `{SortSort}.
Variable supportsUnaligned : bool.
Variable channelBind_ok : bytes -> bool.

Definition with_valid (s : session) (c : check) : session :=
  let s1 := set_allChecks (allChecks s ++ [c]) s in
  set_validCheckList
    (sort_Sort (priority_in s1) (validCheckList s ++ [length (allChecks s)])) s1.
Lemma with_valid_selection s c : selection s ->
  selection_on (fun k => k <> length (allChecks s)) (with_valid s c) /\
  length (allChecks s) ∈ validCheckList (with_valid s c) /\
  (forall i, outside s i -> outside (with_valid s c) i).
Proof.
  intros [H1 H2 H3 Hv Hn].
  assert (forall j, j ∈ validCheckList (with_valid s c) <-> j ∈ validCheckList s \/ j = length (allChecks s)) as Hin.
  { intros j. cbn. rewrite sort_Sort_perm. set_solver. }
  assert (forall i, outside s i -> outside (with_valid s c) i) as Ho.
  { intros i [Hi Hni]. split; [cbn; rewrite length_app; lia|]. rewrite Hin. intros [?| ->]; [done|lia]. }
  assert (frame s (set_allChecks (allChecks s ++ [c]) s)) as Hf by apply (new_check_frame c s).
  assert (forall P P' o, (forall j, j ∈ validCheckList s -> P' j -> P j) -> best s P o ->
    best (with_valid s c) (fun j => j <> length (allChecks s) /\ P' j) o) as Hb.
  { intros P P' o HP Hbest. pose proof (frame_best s _ P P' o Hf H1 HP Hbest) as [B1 B2].
    split; [intros n Hn'; apply Hin; left; by apply B1|].
    intros j [Hj| ->]%Hin [Hne Hp]; [|done]. by apply B2. }
  split; [|split; [by apply Hin; right|done]]. split.
  - intros j [Hj| ->]%Hin; cbn; rewrite length_app; cbn; [specialize (H1 j Hj)|]; lia.
  - auto.
  - eauto.
  - apply (best_weaken _ (fun j => j <> length (allChecks s) /\ True)); [tauto|].
    by apply (Hb (fun _ => True)).
  - apply (best_weaken _ (fun j => j <> length (allChecks s) /\ nominated_in (with_valid s c) j = true)); [tauto|].
    apply (Hb (fun j => True /\ nominated_in s j = true)); [|done].
    intros j Hj Hp. split; [done|]. by rewrite <- (proj2 (proj2 (frame_lookup s _ j Hf (H1 j Hj)))).
Qed.

Lemma valid_pair_spec l r nom s : selection s ->
  match valid_pair l r nom s with
  | (s', Ok j) => selection_on (fun k => k <> j) s' /\ j ∈ validCheckList s' /\
                  (forall i, outside s i -> outside s' i)
  | (s', _) => s' = s
  end.
Proof.
  intros Hs. unfold valid_pair. erewrite ok_then by done.
  match goal with |- context [find_first ?p ?l] =>
    destruct (find_first_found p l s) as [E1 E2]; [keeps_walk|];
    unfold st_bind at 1; destruct (find_first p l s) as [s1 [found|e|q]]
  end; cbn in E1, E2; subst s1; [|done..].
  destruct found as [j|].
  - pose proof (E2 j eq_refl) as Hj. destruct (update_nominated_ok s j (fun _ => nom)) as (c & Hc & E);
      [by apply (sl_bound _ _ Hs)|].
    erewrite ok_then by exact E. cbn. split; [by apply renominated_selection|].
    split; [done|]. intros i. apply renominated_outside.
  - unfold st_bind, cand_of. destruct (cands s !! l) as [cl|]; [|done].
    destruct (cands s !! r) as [cr|]; [|done]. apply (with_valid_selection s), Hs.
Qed.
Lemma valid_pair_then_mark {A} l r nom (k : nat -> SM A) :
  (forall j, keeps selects (k j)) ->
  keeps selects (let! j := valid_pair l r nom in markValidAndNonimated j;;; k j).
Proof.
  intros Hk s. pose proof (valid_pair_spec l r nom s) as Hv. unfold st_bind at 1.
  destruct (valid_pair l r nom s) as [s' [j|e|p]]; intros Hs; specialize (Hv Hs); cbn;
    [|by subst s'..].
  destruct Hv as (Hs' & Hj & Ho). erewrite ok_then by (by eapply markValid_ok).
  destruct (Hk j (marked s' j)) as [? Ho']; [by apply marked_selection|]. split; [done|].
  intros i Hi%Ho. apply Ho'. unfold outside. by destruct (marked_same s' j) as (-> & -> & _).
Qed.

(** * Handlers *)

(** Where the checks of [L] are known to be outside. *)
Definition selects_given (L : nat -> Prop) (s s' : session) : Prop :=
  (forall i, L i -> outside s i) -> selects s s'.
#[local] Instance selects_given_preorder L : PreOrder (selects_given L).
Proof.
  split; [by intros s _|]. intros s1 s2 s3 H12 H23 HL Hs. destruct (H12 HL Hs) as [Hs2 Ho2].
  destruct (H23 (fun i Hi => Ho2 i (HL i Hi)) Hs2) as [Hs3 Ho3]. auto.
Qed.
Lemma lift_frame {A} (c : SM A) : keeps frame c -> keeps selects c.
Proof. apply keeps_mono, frame_selects. Qed.
Lemma lift_given {A} L (c : SM A) : keeps selects c -> keeps (selects_given L) c.
Proof. apply keeps_mono. by intros s s' Hs _. Qed.
Hint Extern 2 (keeps selects _) =>
  apply lift_frame; solve [eauto 3 with keeps typeclass_instances] : keeps.
Hint Extern 2 (keeps (selects_given _) _) =>
  apply lift_given; solve [eauto 4 with keeps typeclass_instances] : keeps.
Hint Resolve cancelOneCheck_frame retryOneCheck_frame changeCompleteResult_frame
  iceComplete_frame tryCompleteCheck_frame fail_check_frame handle_error_response_frame
  sendResponse_frame local_of_mapped_frame remote_of_request_frame resolve_role_frame
  onecheck_round_frame buildBindingRequest_frame onecheck_receive_frame
  SendData_frame : keeps.
Hint Extern 1 (keeps selects (st_bind (valid_pair _ _ _) _)) =>
  apply valid_pair_then_mark; intros ?; keeps_walk : keeps.

Lemma handle_success_response_selects i from res :
  keeps selects (handle_success_response supportsUnaligned channelBind_ok i from res).
Proof. unfold handle_success_response. keeps_walk. Qed.
Hint Resolve handle_success_response_selects : keeps.
Lemma processBindingResponse_selects localAddr remoteAddr msg :
  keeps selects (processBindingResponse supportsUnaligned channelBind_ok localAddr remoteAddr msg).
Proof. unfold processBindingResponse, handleCheckResponse. keeps_walk. Qed.

Lemma spawn_selects (L : nat -> Prop) i ch n : L i -> keeps (selects_given L) (spawn i ch n).
Proof.
  intros Hi s HL Hs. split; [|done]. destruct Hs. split; try done.
  intros j ch' n' [[= -> -> ->]|Hin]%elem_of_cons; [by apply HL|by eapply sl_spawned0].
Qed.
Lemma update_given (L : nat -> Prop) i f : L i -> keeps (selects_given L) (update_nominated i f).
Proof. intros Hi s HL. by apply update_nominated_selects, HL. Qed.
Lemma push_check (L : nat -> Prop) i : L i ->
  keeps (E := stop) (selects_given L) (st_modify (fun s => set_checkList (checkList s ++ [i]) s)).
Proof.
  intros Hi s HL Hs. split; [|done]. destruct Hs. split; try done.
  intros j [Hj| ->%list_elem_of_singleton]%elem_of_app; [by apply sl_checks0|by apply HL].
Qed.
Lemma new_check_then {A} c (k : nat -> SM A) :
  (forall i, keeps (selects_given (eq i)) (k i)) -> keeps selects (let! i := new_check c in k i).
Proof.
  intros Hk s Hs. unfold st_bind, new_check.
  destruct (frame_selects _ _ (new_check_frame c s) Hs) as [Hs' Ho].
  destruct (Hk (length (allChecks s)) (set_allChecks (allChecks s ++ [c]) s)) as [Hs'' Ho'];
    [|done|split; [done|auto]].
  intros i <-. split; [cbn; rewrite length_app; cbn; lia|]. cbn. intros Hin.
  apply (sl_bound _ _ Hs) in Hin. lia.
Qed.
Lemma triggered_new_selects rc l r : keeps selects (triggered_new rc l r).
Proof.
  unfold triggered_new, nil_deref. destruct l as [l|]; [|keeps_walk].
  apply keeps_bind; [keeps_walk|intros cl]. apply keeps_bind; [keeps_walk|intros cr].
  apply keeps_bind; [keeps_walk|intros s0]. apply new_check_then. intros i.
  apply keeps_bind; [by apply push_check|intros _]. keeps_walk. by apply spawn_selects.
Qed.
Hint Resolve processBindingResponse_selects triggered_new_selects : keeps.

(** A loop over valid pairs that only marks them. *)
Lemma nominate_one_selects (p : check -> bool) j s : j ∈ validCheckList s ->
  let c := let! vc := check_of j in
    if p vc then update_nominated j (fun _ => true);;; markValidAndNonimated j else st_ret tt in
  selects s (c s).1 /\ (selection s -> validCheckList (c s).1 = validCheckList s).
Proof.
  intros Hj c. unfold c, st_bind at 1 3. destruct (check_of j s) as [s1 [vc|e|q]] eqn:E;
    unfold check_of in E; destruct (allChecks s !! j); simplify_eq; [|done].
  destruct (p vc); [by apply nominate_valid_selects|done].
Qed.
Lemma nominate_all_selects (p : check -> bool) l s :
  (forall j, j ∈ l -> j ∈ validCheckList s) ->
  selects s (for_each l (fun j =>
    let! vc := check_of j in
    if p vc then update_nominated j (fun _ => true);;; markValidAndNonimated j else st_ret tt) s).1.
Proof.
  revert s. induction l as [|j l IH]; intros s Hl; [done|]. cbn [for_each].
  destruct (nominate_one_selects p j s) as [Hsel Hv]; [apply Hl; set_solver|]. cbn zeta in *.
  unfold st_bind at 1.
  destruct ((let! vc := check_of j in if p vc then _ else _) s) as [s' [u|e|q]]; [|done..].
  cbn [fst] in *. intros Hs. specialize (Hv Hs).
  exact (transitivity Hsel (IH s' ltac:(rewrite Hv; set_solver)) Hs).
Qed.
Lemma nominate_then {A} (c : SM unit) (k : SM A) s :
  selects s (c s).1 -> keeps selects k -> selects s ((c;;; k) s).1.
Proof.
  intros Hc Hk. unfold st_bind. destruct (c s) as [s' [u|e|p]]; cbn in *; [|done..].
  etrans; [exact Hc|apply Hk].
Qed.
Lemma triggered_known_given rc i : keeps (selects_given (eq i)) (triggered_known channelBind_ok rc i).
Proof.
  unfold triggered_known. apply keeps_bind; [by apply update_given|intros _].
  apply keeps_bind; [keeps_walk|intros c]. apply keeps_get_bind. intros s.
  destruct (_ || _); [|destruct (bool_decide _); [|destruct (bool_decide _); [|done]]].
  - destruct (checkMap s !! key c) as [ch|]; [|done].
    apply (keeps_bind (R := selects_given (eq i)));
      [keeps_walk|intros _; by apply spawn_selects].
  - intros _. apply frame_selects, retryOneCheck_frame.
  - intros _. destruct (userCandidate rc).
    + apply nominate_then; [|keeps_walk]. by apply nominate_all_selects.
    + revert s. change (keeps selects (st_ret tt;;; let! _ := tryCompleteCheck channelBind_ok i in st_ret tt)).
      keeps_walk.
Qed.

Lemma bind_at {R} `{!PreOrder R} {A B} (c : SM A) (k : A -> SM B) s :
  R s (c s).1 -> (forall s' a, c s = (s', Ok a) -> R s' (k a s').1) -> R s (st_bind c k s).1.
Proof.
  intros Hc Hk. unfold st_bind. destruct (c s) as [s' [a|e|p]]; [|done..]. etrans; [exact Hc|auto].
Qed.
(** A search over the check list gives a check that is outside. *)
Lemma find_check_then {A} p (k : option nat -> SM A) s :
  (forall x, keeps eq (p x)) -> keeps selects (k None) ->
  (forall i, keeps (selects_given (eq i)) (k (Some i))) ->
  selects s ((let! found := find_first p (checkList s) in k found) s).1.
Proof.
  intros Hp Hn Hk. destruct (find_first_found p (checkList s) s Hp) as [E1 E2].
  apply bind_at; [by rewrite E1|]. intros s' found Ef. rewrite Ef in E1, E2. cbn in E1, E2. subst s'.
  destruct found as [i|]; [|apply Hn]. intros Hs. apply Hk; [|done]. intros ? <-.
  by apply (sl_checks _ _ Hs), E2.
Qed.
Lemma handleIncomingCheck_selects rc : keeps selects (handleIncomingCheck channelBind_ok rc).
Proof.
  unfold handleIncomingCheck. apply keeps_bind; [keeps_walk|]. intros [rcand|]; [|keeps_walk].
  apply keeps_get_bind. intros s.
  match goal with |- context [find_first ?p (localCandidates s)] =>
    destruct (find_first_found p (localCandidates s) s) as [E1 _]; [keeps_walk|] end.
  apply bind_at; [by rewrite E1|]. intros s' lcand Ef. rewrite Ef in E1. cbn in E1. subst s'.
  apply find_check_then; [keeps_walk|keeps_walk|]. intros i. apply triggered_known_given.
Qed.
Hint Resolve handleIncomingCheck_selects : keeps.
Lemma processStunMessage_selects localAddr remoteAddr msg :
  keeps selects (processStunMessage supportsUnaligned channelBind_ok localAddr remoteAddr msg).
Proof.
  unfold processStunMessage, processBindingRequest, accept_request, admit_request. keeps_walk.
Qed.

(** The check list loses checks and is reordered. *)
Lemma shrink_checks (f : session -> list nat) :
  (forall s i, i ∈ f s -> i ∈ checkList s) ->
  keeps (E := stop) selects (st_modify (fun s => set_checkList (f s) s)).
Proof.
  intros Hf s Hs. split; [|done]. destruct Hs. split; try done.
  intros i Hi. by apply sl_checks0, Hf.
Qed.
Lemma add_pair_selects lr : keeps selects (add_pair lr).
Proof.
  unfold add_pair. apply keeps_get_bind. intros s. apply new_check_then. intros i. by apply push_check.
Qed.
Lemma createCheckList_selects sd : keeps selects (createCheckList sd).
Proof.
  unfold createCheckList, add_remote. pose proof add_pair_selects. keeps_walk.
  - apply shrink_checks. intros s i. by rewrite sort_stable_perm.
  - apply shrink_checks. intros s i. apply sublist_subseteq, prune_from_spec.
Qed.

Lemma start_one_given (L : nat -> Prop) st i : L i -> keeps (selects_given L) (start_one st i).
Proof. intros Hi. unfold start_one. keeps_walk. by apply spawn_selects. Qed.
Lemma start_all_given (L : nat -> Prop) st l : (forall i, i ∈ l -> L i) ->
  keeps (selects_given L) (for_each l (start_one st)).
Proof. intros Hl. apply keeps_for_each. intros i Hi. by apply start_one_given, Hl. Qed.
Lemma wait_foundations_selects seen l : keeps selects (wait_foundations seen l).
Proof. revert seen. induction l as [|i l IH]; intros seen; cbn [wait_foundations]; keeps_walk. Qed.
Lemma allcheck_given l : keeps (selects_given (fun i => i ∈ l)) (allcheck channelBind_ok l).
Proof.
  unfold allcheck, make_channels. pose proof wait_foundations_selects as Hw.
  pose proof (start_all_given (fun i => i ∈ l)) as Ha.
  keeps_walk; auto using lift_given.
Qed.
Lemma startCheck_selects : keeps selects (startCheck channelBind_ok).
Proof.
  unfold startCheck. apply keeps_get_bind. intros s.
  enough (forall c : SM bool, keeps (selects_given (fun i => i ∈ checkList s)) c -> selects s (c s).1) as Hc.
  { apply Hc. pose proof (allcheck_given (checkList s)) as Ha. revert Ha.
    destruct (checkList s) as [|i l]; intros Ha; keeps_walk. }
  intros c Hc Hs. apply Hc; [|done]. intros i. apply (sl_checks _ _ Hs).
Qed.

Lemma onecheck_given i nominate rnd : keeps (selects_given (eq i)) (onecheck i nominate rnd).
Proof.
  unfold onecheck, onecheck_restart. pose proof (update_given (eq i) i). keeps_walk.
Qed.

(** * Runs

    A goroutine runs for the checks it was started for. *)
Definition plausible (s : session) (x : input) : Prop :=
  match x with InCheck i _ _ => exists ch n, EvSpawn i ch n ∈ events s | _ => True end.
Inductive reachable : session -> Prop :=
| reach_new r l frag password tie socks :
    reachable (set_serverSocks socks (newIceSession r l frag password tie))
| reach_step s x : reachable s -> plausible s x ->
    reachable (handle supportsUnaligned channelBind_ok x s).1.

Lemma handle_selects s x : plausible s x -> selects s (handle supportsUnaligned channelBind_ok x s).1.
Proof.
  pose proof processStunMessage_selects as H1. pose proof createCheckList_selects as H2.
  pose proof startCheck_selects as H3.
  assert (forall c : SM unit, keeps selects c -> selects s (c s).1) as Hk by auto.
  destruct x as [| | | | | | |i nominate rnd| |]; cbn [handle plausible]; intros Hx.
  8: { destruct Hx as (ch & n & Hx). intros Hs.
       assert (keeps (selects_given (eq i)) (let! _ := onecheck i nominate rnd in st_ret tt)) as Hc
         by (apply keeps_bind; [apply onecheck_given|keeps_walk]).
       apply Hc; [|done]. intros ? <-. by eapply (sl_spawned _ _ Hs). }
  all: apply Hk; unfold handle_try_fail, nomination_timeout, onecheck_timeout; keeps_walk.
Qed.

(** C4: In every state a session can reach, by any messages, timeouts and calls,
    the pair that media uses is a valid pair, and no valid pair whose nominated
    flag is set has a higher priority; in particular a pair is selected as soon
    as a valid one is nominated.  The same holds of the best valid check among
    all valid pairs. *)
Theorem selected_pair_is_best s j c :
  reachable s -> j ∈ validCheckList s -> allChecks s !! j = Some c ->
  (exists v cv, validCheck s = Some v /\ v ∈ validCheckList s /\
     allChecks s !! v = Some cv /\ priority c <= priority cv) /\
  (nominated c = true ->
   exists n cn, nominatedCheck s = Some n /\ n ∈ validCheckList s /\
     allChecks s !! n = Some cn /\ priority c <= priority cn).
Proof.
  intros Hr Hj Hc. assert (selection s) as Hs.
  { clear Hj Hc. induction Hr as [|s x Hr IH Hx]; [|by apply handle_selects].
    split; [| | |split; [done|]|split; [done|]]; cbn; intros; exfalso; by eapply not_elem_of_nil. }
  destruct Hs as [Hb _ _ [Hv1 Hv2] [Hn1 Hn2]]. unfold priority_in, nominated_in in *. split.
  - destruct (Hv2 j Hj I) as (v & Hv & Hle).
    destruct (lookup_lt_is_Some_2 (allChecks s) v) as [cv Ecv]; [auto|].
    exists v, cv. rewrite Hc, Ecv in Hle. auto.
  - intros Hn. destruct (Hn2 j Hj) as (n & Hn' & Hle); [by rewrite Hc|].
    destruct (lookup_lt_is_Some_2 (allChecks s) n) as [cn Ecn]; [auto|].
    exists n, cn. rewrite Hc, Ecn in Hle. auto.
Qed.
End Selecting.

(** A run that nominates a pair. *)
Abbreviation do x s :=
  (handle (H := doubling_runtime) (H0 := stable_sort) false (fun _ => true) x s).1.
Definition before_response : session :=
  do (InCheck 0 true (inl the_id)) (do InStart (do (InDescription
    (description [host_candidate "10.0.0.8:5000" 2130706431; host_candidate "10.0.0.9:5000" 2130706175]))
    (set_serverSocks {[our_address := StunSock our_address]}
      (newIceSession SessionRoleControlling [host_candidate "10.0.0.1:4000" 2130706431]
        (bs "abcdefgh") (bs "ijklmnop") 42)))).
Definition after_response : session :=
  do (InMessage our_address their_address (their_response before_response)) before_response.

Lemma selected_pair_is_best_witness :
  nominatedCheck after_response = Some 2%nat /\
  map nominated (allChecks after_response) = [true; false; true] /\
  exists n cn, nominatedCheck after_response = Some n /\ n ∈ validCheckList after_response /\
    allChecks after_response !! n = Some cn /\ nominated cn = true.
Proof.
  assert (reachable (H := doubling_runtime) (H0 := stable_sort) false (fun _ => true) after_response) as Hr.
  { apply reach_step; [|exact I]. apply reach_step; [|exists (Some 0%nat), true; vm_compute; right; by left].
    apply reach_step; [|exact I]. apply reach_step; [|exact I]. apply reach_new. }
  assert (2%nat ∈ validCheckList after_response) as Hj by (vm_compute; by left).
  destruct (lookup_lt_is_Some_2 (allChecks after_response) 2) as [c Hc]; [vm_compute; lia|].
  assert (nominated c = true) as Hn by (revert Hc; vm_compute; by intros [= <-]).
  split; [vm_compute; reflexivity|]. split; [vm_compute; reflexivity|].
  destruct (proj2 (selected_pair_is_best (H := doubling_runtime) (H0 := stable_sort) false
    (fun _ => true) _ _ _ Hr Hj Hc) Hn) as (n & cn & Hs & Hv & Hcn & _).
  exists n, cn. split_and!; [exact Hs|exact Hv|exact Hcn|].
  assert (n = 2%nat) as -> by (revert Hs; vm_compute; by intros [= <-]). congruence.
Defined.
