(* ===== verification/IceHarmony.v ===== *)
(** What two agents that know each other's credentials say to each other: an agent
    whose input is what its peer may send keeps its role and its credentials, and
    what it sends is again what its peer expects, never an error response.

    [ties] are the constants of an agent, [flip] those of its peer; [carries] are
    the packets that an agent may send and [expected] the messages it may get. *)
From stdpp Require Import base list gmap sets strings.
From Stdlib Require Import ZArith Lia.
From S2P Require Import Prelude Wire GoFmt GoSlice StunTypes StunMessage StunPacket StunCodec StunBuild StunAttrs.
From S2P Require Import StunAddr Crypto StunIntegrity Turn NetAddr IceCandidate IceChecklist IceSession.
From S2P Require Import IceSessionInv IceSetup IceSessionProps IceExchange.
Open Scope Z_scope.

(** * Agents that know each other *)

Record ties := mkTies {
  k_role : SessionRole;
  k_tx : bytes;        (** the password of the peer *)
  k_rx : bytes;        (** the agent's own *)
  k_user : bytes;      (** the user name it sends *)
  k_peer : bytes       (** the one it expects *)
}.
Definition flip (k : ties) : ties := mkTies (opposite (k_role k)) (k_rx k) (k_tx k) (k_peer k) (k_user k).
Definition ties_ok (k : ties) : Prop :=
  k_role k <> SessionRoleUnkown /\ zlen (k_user k) <= maxUsernameB /\ zlen (k_peer k) <= maxUsernameB.

Lemma opposite_involutive r : r <> SessionRoleUnkown -> opposite (opposite r) = r.
Proof. by destruct r. Qed.
Lemma flip_ok k : ties_ok k -> ties_ok (flip k).
Proof. intros (H1 & H2 & H3). split; [|done]. cbn. by destruct (k_role k). Qed.
Lemma flip_flip k : ties_ok k -> flip (flip k) = k.
Proof. intros (H1 & _). destruct k. unfold flip. cbn in *. by rewrite opposite_involutive. Qed.

Record tuned (k : ties) (s : session) : Prop := {
  tn_role : role s = k_role k;
  tn_tx : txPassword s = k_tx k;
  tn_rx : rxPassword s = k_rx k;
  tn_user : txUserName s = k_user k;
  tn_peer : rxUserName s = [] \/ rxUserName s = k_peer k
}.

(** * Packets *)

(** The request of a check, and the answer to one. *)
Definition request_of (k : ties) (p : packet) : Prop :=
  exists tid c s, length tid = TransactionIDSize /\ role s = k_role k /\ txPassword s = k_tx k /\
    txUserName s = k_user k /\ p = protected (txPassword s) (Packet BindingRequest tid (request_attrs c s)).
Definition stun_of (k : ties) (raw : bytes) : Prop :=
  exists p, type_ok (p_type p) /\ packet_ok p /\ (length raw <= 1024)%nat /\ raw = encode_packet p /\
    (request_of k p \/ p_type p = BindingSuccess).

Section Harmony.
Context `{GoRuntime} `{SortSort}.
Variable supportsUnaligned : bool.
Variable channelBind_ok : bytes -> bool.

(** Application data that is not taken for a request or an error response. *)
Definition polite (data : bytes) : Prop :=
  forall m n, Write (take 1024 data) zeroMessage = (m, Ok (n, None)) ->
    MType m <> BindingRequest /\ MType m <> BindingError.
Definition carries (k : ties) (data : bytes) : Prop := stun_of k data \/ polite data.

(** What an agent of [k] may receive. *)
Definition expected (k : ties) (msg : Message) : Prop :=
  MType msg <> BindingError /\
  (MType msg = BindingRequest -> well_formed msg /\ request_of (flip k) (abs msg)).

(** What it asks of its sockets, and what its goroutines hold. *)
Definition event_ok (k : ties) (e : event) : Prop :=
  match e with
  | EvSend _ _ _ raw => stun_of k raw
  | EvSendData _ data _ _ => polite data
  | _ => True
  end.
Definition goroutine_ok (k : ties) (g : goroutine) : Prop :=
  match g with Sleeping _ _ _ _ raw => stun_of k raw | Finished => True end.
Record in_harmony (k : ties) (s : session) : Prop := {
  ih_tuned : tuned k s;
  ih_events : forall e, e ∈ events s -> event_ok k e
}.

(** * Sizes *)

Lemma request_size key tid c s :
  length tid = TransactionIDSize -> zlen (txUserName s) <= maxUsernameB ->
  (length (encode_packet (protected key (Packet BindingRequest tid (request_attrs c s)))) <= 1024)%nat.
Proof.
  intros Htid Hu. unfold encode_packet. rewrite length_app, encode_header_length by done.
  unfold protected, with_fingerprint, with_integrity, with_attr. cbn [p_attrs p_tid p_type].
  rewrite !encode_attrs_app, !length_app, !encode_attrs_singleton, !encode_attr_length. cbn [snd].
  unfold integrity_value, newHMAC. rewrite hmac_sha1_length. change (length (fingerprint_value _)) with 4%nat.
  change (nearestPaddedValueLength 20) with 20%nat. change (nearestPaddedValueLength 4) with 4%nat.
  unfold request_attrs. rewrite encode_attrs_app, length_app. rewrite !encode_attrs_cons, !length_app, !encode_attr_length.
  cbn [snd]. assert (length (encode_attrs (if nominates c s then [(AttrUseCandidate, [])] else [])) <= 4)%nat
    by (destruct (nominates c s); cbn; lia).
  pose proof (padded_spec (length (txUserName s))) as [? _].
  change (nearestPaddedValueLength (length (put32 check_priority))) with 4%nat.
  change (nearestPaddedValueLength (length (put64 (tieBreaker s)))) with 8%nat.
  change (nearestPaddedValueLength (length software)) with 20%nat. change (length (encode_attrs [])) with 0%nat.
  unfold zlen, maxUsernameB in Hu. lia.
Qed.
Lemma response_size key tid a :
  length tid = TransactionIDSize -> ip_ok a.1 ->
  (length (encode_packet (protected key (Packet BindingSuccess tid (response_attrs tid a)))) <= 1024)%nat.
Proof.
  intros Htid Hip. unfold encode_packet. rewrite length_app, encode_header_length by done.
  unfold protected, with_fingerprint, with_integrity, with_attr. cbn [p_attrs p_tid p_type].
  rewrite !encode_attrs_app, !length_app, !encode_attrs_singleton, !encode_attr_length. cbn [snd].
  unfold integrity_value, newHMAC. rewrite hmac_sha1_length. change (length (fingerprint_value _)) with 4%nat.
  change (nearestPaddedValueLength 20) with 20%nat. change (nearestPaddedValueLength 4) with 4%nat.
  unfold response_attrs. rewrite !encode_attrs_cons, !length_app, !encode_attr_length. cbn [snd].
  destruct (xor_address_length tid a.1 a.2 Htid Hip) as [-> Hn].
  pose proof (padded_spec (4 + length (normal_ip a.1))) as [? _].
  change (nearestPaddedValueLength (length software)) with 20%nat. change (length (encode_attrs [])) with 0%nat. lia.
Qed.

(** * What is built *)

Lemma request_stun k c tid s m :
  ties_ok k -> tuned k s -> length tid = TransactionIDSize ->
  Build_new (request_setters c (inl tid) s) = (m, Ok tt) -> stun_of k (visible (Raw m)).
Proof.
  intros (_ & Hu & _) Ht Htid HB. destruct Ht. rewrite <- tn_user0 in Hu.
  destruct (request_built tid c s Htid Hu) as (m' & HB' & Hwf & Habs).
  assert (m' = m) as -> by congruence. assert (visible (Raw m) = encode_packet (abs m)) as Hraw by apply Hwf.
  exists (abs m). rewrite Hraw, Habs. split; [by vm_compute|]. split; [by apply request_ok|].
  split; [by apply request_size|]. split; [done|]. left. by exists tid, c, s.
Qed.

(** The answer to a request from any address, if it is built at all. *)
Lemma response_stun k tid a s s' raw :
  length tid = TransactionIDSize ->
  build_or_panic
    [TransactionID_AddTo tid; MessageType_AddTo BindingSuccess; Software_AddTo (fresh software);
     XORMappedAddress_AddTo supportsUnaligned (mapped_address a);
     MessageIntegrity_AddTo (txPassword s); Fingerprint_AddTo] s = (s', Ok raw) -> stun_of k raw.
Proof.
  intros Htid. unfold build_or_panic. destruct (decide (ip_ok a.1)) as [Hip|Hip].
  - destruct (response_built supportsUnaligned (txPassword s) tid a Htid Hip) as (m & -> & Hwf & Habs).
    intros [= <- <-]. assert (visible (Raw m) = encode_packet (abs m)) as -> by apply Hwf.
    exists (abs m). rewrite Habs. split; [by vm_compute|]. split; [by apply response_ok|].
    split; [by apply response_size|]. split; [done|]. by right.
  - set (p0 := Packet (MType zeroMessage) (TID zeroMessage) []).
    set (l := [(AttrSoftware, software)]).
    assert (packet_ok (Packet BindingSuccess tid l)) as Hok.
    { split; [done|]. split; [repeat constructor; by vm_compute|by vm_compute]. }
    set (fx := fun p => if bool_decide (length a.1 = 4%nat \/ length a.1 = 16%nat)
               then Ok (with_attr (AttrXORMappedAddress, xor_address_value (p_tid p) a.1 a.2) p)
               else Err ErrBadIPLength : result error packet).
    assert (forall p, fx p = Err ErrBadIPLength) as Hfx.
    { intros p. unfold fx. by rewrite bool_decide_false by exact Hip. }
    pose proof (Build_spec
      [TransactionID_AddTo tid; MessageType_AddTo BindingSuccess; Software_AddTo (fresh software);
       XORMappedAddress_AddTo supportsUnaligned (mapped_address a);
       MessageIntegrity_AddTo (txPassword s); Fingerprint_AddTo]
      [(fun p => Ok (with_tid tid p)); (fun p => Ok (with_type BindingSuccess p)); add_step (AttrSoftware, software);
       fx;
       (fun p => if bool_decide (is_Some (lookup_attr AttrFingerprint (p_attrs p)))
              then Err ErrFingerprintBeforeIntegrity
              else Ok (with_attr (AttrMessageIntegrity, integrity_value (txPassword s) p) p));
       (fun p => Ok (with_attr (AttrFingerprint, fingerprint_value p) p))] zeroMessage) as HB.
    cbn zeta in HB. cbn [run_setters mbind result_mbind result_bind add_step] in HB.
    rewrite Hfx in HB. cbn [result_bind] in HB.
    destruct HB as (m & HB & _); [..|unfold Build_new; by rewrite HB].
    + constructor; [exact (TransactionID_implements tid Htid)|]. constructor; [apply MessageType_implements|].
      constructor; [apply text_adds; by vm_compute|]. constructor; [apply mapped_implements|].
      constructor; [apply MessageIntegrity_implements|]. constructor; [apply Fingerprint_implements|constructor].
    + apply zeroMessage_reusable.
    + cbn [fits add_step]. rewrite Hfx.
      split; [exact (packet_ok_smaller _ BindingSuccess tid tid [] l Htid Hok)|].
      split; [exact (packet_ok_smaller _ BindingSuccess tid tid [] l Htid Hok)|]. by split.
Qed.
End Harmony.

(** * Calls that say nothing *)

Definition says (e : event) : bool :=
  match e with EvSend _ _ _ _ | EvSendData _ _ _ _ => true | _ => false end.
Record calm (s s' : session) : Prop := {
  cl_role : role s' = role s;
  cl_tx : txPassword s' = txPassword s;
  cl_rx : rxPassword s' = rxPassword s;
  cl_user : txUserName s' = txUserName s;
  cl_peer : rxUserName s' = rxUserName s;
  cl_events : forall e, says e = true -> e ∈ events s' -> e ∈ events s
}.
#[export] Instance calm_preorder : PreOrder calm.
Proof. split; [by split|]. intros ? ? ? [] []. split; [congruence..|auto]. Qed.

Lemma calm_set (f : session -> session) :
  (forall s, role (f s) = role s /\ txPassword (f s) = txPassword s /\ rxPassword (f s) = rxPassword s /\
     txUserName (f s) = txUserName s /\ rxUserName (f s) = rxUserName s /\ events (f s) = events s) ->
  keeps (E := stop) calm (st_modify f).
Proof.
  intros Hf. apply keeps_modify. intros s. destruct (Hf s) as (H1 & H2 & H3 & H4 & H5 & H6).
  split; [done..|by rewrite H6].
Qed.
#[export] Hint Extern 1 (keeps calm (st_modify _)) => apply calm_set; intros; by split_and! : keeps.
Lemma emit_calm e : says e = false -> keeps calm (emit e).
Proof.
  intros He. apply keeps_modify. intros s. split; [done..|].
  intros e' He' [->|Hin]%elem_of_cons; [congruence|done].
Qed.
#[export] Hint Extern 1 (keeps calm (emit _)) => apply emit_calm; reflexivity : keeps.
Lemma put_check_calm i c : keeps calm (put_check i c).
Proof. unfold put_check. keeps_walk. Qed.
Lemma new_check_calm c : keeps calm (new_check c).
Proof. by intros s. Qed.
Lemma new_cand_calm c : keeps calm (new_cand c).
Proof. by intros s. Qed.
Lemma new_chan_calm : keeps calm new_chan.
Proof. by intros s. Qed.
Lemma send_chan_calm ch m : keeps calm (send_chan ch m).
Proof.
  intros s. unfold send_chan. destruct ch as [i|]; [|done]. destruct (chans s !! i) as [c|]; [|done].
  destruct (is_closed c); [done|]. by destruct (buf c).
Qed.
Lemma close_chan_calm ch : keeps calm (close_chan ch).
Proof.
  intros s. unfold close_chan. destruct ch as [i|]; [|done]. destruct (chans s !! i) as [c|]; [|done].
  by destruct (is_closed c).
Qed.
#[export] Hint Resolve put_check_calm new_check_calm new_cand_calm new_chan_calm send_chan_calm close_chan_calm : keeps.
Lemma update_nominated_calm i f : keeps calm (update_nominated i f).
Proof. unfold update_nominated. keeps_walk. Qed.
Lemma changeCheckState_calm i st err : keeps calm (changeCheckState i st err).
Proof. unfold changeCheckState, finishOneCheck. keeps_walk. Qed.
#[export] Hint Resolve update_nominated_calm changeCheckState_calm : keeps.
Lemma cancelOneCheck_calm i : keeps calm (cancelOneCheck i).
Proof. unfold cancelOneCheck. keeps_walk. Qed.
Lemma retryOneCheck_calm i : keeps calm (retryOneCheck i).
Proof. unfold retryOneCheck. keeps_walk. Qed.
Lemma changeCompleteResult_calm r : keeps calm (changeCompleteResult r).
Proof. unfold changeCompleteResult. keeps_walk. Qed.
Lemma markValidAndNonimated_calm i : keeps calm (markValidAndNonimated i).
Proof. unfold markValidAndNonimated, better. keeps_walk. Qed.
Lemma on_sock_calm srv f : (forall k, keeps calm (f k)) -> keeps calm (on_sock srv f).
Proof. intros Hf. unfold on_sock, nil_deref. destruct srv as [[| |]|]; auto; keeps_walk. Qed.
#[export] Hint Resolve cancelOneCheck_calm retryOneCheck_calm changeCompleteResult_calm markValidAndNonimated_calm : keeps.
#[export] Hint Extern 1 (keeps calm (on_sock _ _)) => apply on_sock_calm; intros ?; keeps_walk : keeps.

Section Calm.
Context `{GoRuntime} `{SortSort}.
Variable supportsUnaligned : bool.
Variable channelBind_ok : bytes -> bool.

Lemma iceComplete_calm result all : keeps calm (iceComplete channelBind_ok result all).
Proof.
  unfold iceComplete, closeUselessServerSock, notify_once, nominated_pair, FinishNegotiation, nil_deref. keeps_walk.
Qed.
Hint Resolve iceComplete_calm : keeps.
Lemma tryCompleteCheck_calm i : keeps calm (tryCompleteCheck channelBind_ok i).
Proof. unfold tryCompleteCheck, unfreeze, cancel_useless, unfinished. keeps_walk. Qed.
Hint Resolve tryCompleteCheck_calm : keeps.
Lemma fail_check_calm i e : keeps calm (fail_check channelBind_ok i e).
Proof. unfold fail_check. keeps_walk. Qed.
Hint Resolve fail_check_calm : keeps.
Lemma handle_success_response_calm i from res :
  keeps calm (handle_success_response supportsUnaligned channelBind_ok i from res).
Proof. unfold handle_success_response, local_of_mapped, valid_pair. keeps_walk. Qed.
Hint Resolve handle_success_response_calm : keeps.
Lemma processBindingResponse_calm localAddr remoteAddr msg :
  Class (MType msg) <> ClassErrorResponse ->
  keeps calm (processBindingResponse supportsUnaligned channelBind_ok localAddr remoteAddr msg).
Proof.
  intros Hc. unfold processBindingResponse, handleCheckResponse. rewrite (proj2 (Z.eqb_neq _ _) Hc). keeps_walk.
Qed.
Lemma handleIncomingCheck_calm rc : keeps calm (handleIncomingCheck channelBind_ok rc).
Proof.
  unfold handleIncomingCheck, remote_of_request, triggered_known, triggered_new, spawn, nil_deref. keeps_walk.
Qed.
Lemma wait_foundations_calm seen l : keeps calm (wait_foundations seen l).
Proof. revert seen. induction l as [|i l IH]; intros seen; cbn [wait_foundations]; keeps_walk. Qed.
Lemma startCheck_calm : keeps calm (startCheck channelBind_ok).
Proof.
  pose proof handleIncomingCheck_calm. pose proof wait_foundations_calm.
  unfold startCheck, allcheck, make_channels, start_one, spawn. keeps_walk.
Qed.
Lemma buildBindingRequest_calm i rnd : keeps calm (buildBindingRequest i rnd).
Proof. unfold buildBindingRequest. keeps_walk. Qed.
End Calm.

(** * Calls that say only what the peer expects *)
Section Talks.
Context `{GoRuntime} `{SortSort}.
Variable supportsUnaligned : bool.
Variable channelBind_ok : bytes -> bool.
Variable k : ties.
Hypothesis Hk : ties_ok k.

Abbreviation talks := (obeys (in_harmony k)).

Lemma calm_harmony s s' : calm s s' -> in_harmony k s -> in_harmony k s'.
Proof.
  intros [] [[] He]. split; [split; try congruence; by rewrite cl_peer0|]. intros e Hin.
  destruct (says e) eqn:E; [auto|]. destruct e; done.
Qed.
Lemma talks_calm {A} (c : SM A) : keeps calm c -> talks c any.
Proof. apply obeys_keeps, calm_harmony. Qed.
Lemma talks_step {A B} (c : SM A) (f : A -> SM B) Q :
  keeps calm c -> (forall a, talks (f a) Q) -> talks (st_bind c f) Q.
Proof. intros Hc. by apply obeys_then, talks_calm. Qed.
Lemma talks_emit e : event_ok k e -> talks (emit e) any.
Proof. intros He s [Ht Hs]. split; [|done]. split; [by destruct Ht|]. intros e' [->|Hin]%elem_of_cons; auto. Qed.

Lemma send_stun_talks srv from to raw : stun_of k raw -> talks (sendStunMessageAsync srv from to raw) any.
Proof.
  intros Hraw. unfold sendStunMessageAsync, on_sock, nil_deref.
  destruct srv as [[]|]; try apply obeys_panic; by apply talks_emit.
Qed.

(** ** The answer to a request *)

Lemma sendResponse_talks localAddr from req :
  length (TID req) = TransactionIDSize -> talks (sendResponse supportsUnaligned localAddr from req 0) any.
Proof.
  intros Htid. unfold sendResponse. apply obeys_read. intros s _.
  destruct (getSenderServerSock localAddr s) as [srv|]; [|by apply obeys_ret]. cbn [Z.eqb].
  apply (obeys_bind _ _ _ (stun_of k)); [|by intros; apply send_stun_talks].
  intros s' Hs'. unfold NewShortTermIntegrity.
  pose proof (response_stun supportsUnaligned k (TID req) (addrToUDPAddr from) s) as Hr.
  unfold build_or_panic in *. destruct (Build_new _) as [m [|e|p]]; (split; [done|]); [|done..].
  intros raw [= <-]. by apply (Hr s).
Qed.

Lemma admit_talks localAddr from prio rx_role req :
  length (TID req) = TransactionIDSize ->
  talks (admit_request supportsUnaligned channelBind_ok localAddr from (k_peer k) prio rx_role req) any.
Proof.
  intros Htid. unfold admit_request.
  apply (obeys_bind _ _ _ any); [by apply sendResponse_talks|]. intros _ _. apply obeys_read. intros s _.
  destruct (all_complete s); [by apply obeys_ret|]. destruct (_ && _).
  - intros s' [[] He]. split; [|done]. split; [|exact He]. split; try done. by right.
  - apply talks_step; [apply keeps_ret|]. intros _. apply talks_calm, handleIncomingCheck_calm.
Qed.

(** Messages that the peer may send. *)
Lemma processStunMessage_talks localAddr from msg :
  expected k msg -> talks (processStunMessage supportsUnaligned channelBind_ok localAddr from msg) any.
Proof.
  intros [He Hreq]. destruct (decide (MType msg = BindingRequest)) as [E|E].
  - destruct (Hreq E) as (Hwf & tid & c & sA & Htid & Hrole & Htx & Huser & Habs). intros s Hs.
    destruct Hs as [Ht Hev] eqn:Hs'. clear Hs'. pose proof Ht as [].
    destruct Hk as (Hr & Hu & Hp).
    destruct (request_handled supportsUnaligned channelBind_ok msg c tid sA s localAddr from)
      as (req' & Hreq' & _ & ->); [done|done|done|..].
    + by rewrite Huser.
    + split; [rewrite Htx; cbn; congruence|]. rewrite Huser. exact tn_peer0.
    + rewrite Hrole. cbn. by destruct (k_role k).
    + rewrite Hrole, tn_role0. cbn. by rewrite opposite_involutive.
    + rewrite Huser. cbn [flip k_user]. apply admit_talks; [|by split]. by rewrite Hreq'.
  - unfold processStunMessage. rewrite bool_decide_false by done. rewrite (bool_decide_false (_ = BindingError)) by done.
    cbn [orb]. case_bool_decide as Hb; [|by apply obeys_ret]. apply talks_calm, processBindingResponse_calm.
    rewrite Hb. by vm_compute.
Qed.

(** ** The goroutines of checks *)

Lemma onecheck_round_talks i srv round sleep tid raw :
  stun_of k raw -> talks (onecheck_round i srv round sleep tid raw) (goroutine_ok k).
Proof.
  intros Hraw. unfold onecheck_round, addMsgCheck, deleteMsgCheck. destruct (_ <? _)%nat.
  - apply talks_step; [keeps_walk|]. intros _. apply talks_step; [keeps_walk|]. intros c.
    apply talks_step; [keeps_walk|]. intros l. apply talks_step; [keeps_walk|]. intros r.
    apply (obeys_bind _ _ _ any); [by apply send_stun_talks|]. intros _ _. by apply obeys_ret.
  - apply talks_step; [keeps_walk|]. intros _. apply talks_step; [keeps_walk|]. intros _. by apply obeys_ret.
Qed.
Lemma onecheck_restart_talks i srv sleep tid :
  length tid = TransactionIDSize -> talks (onecheck_restart i srv sleep (inl tid)) (goroutine_ok k).
Proof.
  intros Htid. unfold onecheck_restart. apply (obeys_bind _ _ _ (fun req => stun_of k req.2)).
  - unfold buildBindingRequest. apply talks_step; [keeps_walk|]. intros c. apply obeys_read. intros s [Hs _].
    pose proof (fun m => request_stun k c tid s m Hk Hs Htid) as Hr.
    destruct (Build_new _) as [m [[]|e|p]]; [|apply obeys_panic..]. apply obeys_ret. by apply Hr.
  - intros req Hreq. by apply onecheck_round_talks.
Qed.
Lemma onecheck_talks i nominate tid :
  length tid = TransactionIDSize -> talks (onecheck i nominate (inl tid)) (goroutine_ok k).
Proof.
  intros Htid. unfold onecheck. apply talks_step; [keeps_walk|]. intros c. apply talks_step; [keeps_walk|].
  intros l. apply obeys_read. intros s _. cbv zeta. case_match; [by apply obeys_ret|].
  apply talks_step; [keeps_walk|]. intros _. by apply onecheck_restart_talks.
Qed.
Lemma onecheck_timeout_talks i g : goroutine_ok k g -> talks (onecheck_timeout i g) (goroutine_ok k).
Proof. destruct g; intros Hg; [by apply onecheck_round_talks|by apply obeys_ret]. Qed.
Lemma onecheck_receive_talks i ch tid g :
  length tid = TransactionIDSize -> talks (onecheck_receive i ch (inl tid) g) (goroutine_ok k).
Proof.
  intros Htid. unfold onecheck_receive, deleteMsgCheck. destruct g; [|by apply obeys_ret].
  apply obeys_read. intros s _. destruct (chans s !! ch) as [[[[|]|] [|]]|].
  1-4: apply talks_step; [keeps_walk|]; intros _.
  all: try by apply onecheck_restart_talks.
  all: try by (apply talks_step; [keeps_walk|]; intros _; apply obeys_ret).
  all: intros s' Hs'; by split.
Qed.

(** ** Everything else *)

Lemma SendData_talks data : polite data -> talks (SendData data) any.
Proof.
  intros Hd. unfold SendData, nil_deref, on_sock. apply obeys_read. intros s _.
  destruct (nominatedCheck s); [|apply obeys_panic]. apply talks_step; [keeps_walk|]. intros c.
  apply talks_step; [keeps_walk|]. intros l. apply talks_step; [keeps_walk|]. intros r.
  destruct (nominatedServerSock s) as [srv|]; [|by apply obeys_ret]. cbv zeta.
  apply (obeys_bind _ _ _ any); [|intros; by apply obeys_ret].
  destruct srv; try apply obeys_panic; by apply talks_emit.
Qed.
Lemma try_fail_talks i : talks (handle_try_fail channelBind_ok i) any.
Proof. apply talks_calm. pose proof (fail_check_calm channelBind_ok i). unfold handle_try_fail. keeps_walk. Qed.
Lemma nomination_timeout_talks : talks (nomination_timeout channelBind_ok) any.
Proof. apply talks_calm. pose proof iceComplete_calm. unfold nomination_timeout. keeps_walk. Qed.
Lemma RxData_talks data remoteAddr : talks (emit (EvRxData data remoteAddr)) any.
Proof. by apply talks_emit. Qed.
End Talks.
