(* ===== verification/IceSock.v ===== *)
(** The server sockets of ICE: [src/ice/stunserversock.go] and
    [src/ice/turnserversock.go].

    The state is that of a [stunServerSock]; a [turnServerSock] wraps one and is
    its callback.  What reaches the network, the session above or a waiting call
    is recorded in [outputs], newest first.  Time is in nanoseconds. *)
From stdpp Require Import base list gmap sets strings.
From Stdlib Require Import ZArith Lia.
From S2P Require Import Prelude Wire GoFmt GoSlice StunTypes StunMessage StunBuild StunAttrs.
From S2P Require Import StunAddr StunIntegrity Turn NetAddr IceCandidate IceSession.
Open Scope Z_scope.

(** * State *)

Record cachedResponse := mkCached { cacheTime : Z; cached_msg : Message }.
(** Who made the channel of a waiter: a call that still waits for the answer, or
    one that has timed out and left the channel in the map. *)
Inductive waiter := Listening | GaveUp.

Inductive output :=
| OutPacket (data : bytes) (to : UDPAddr)                   (** [sendchan] *)
| OutStun (localAddr remoteAddr : bytes) (msg : Message)    (** to the session *)
| OutData (localAddr peerAddr data : bytes)                 (** to the session *)
| OutResponse (id : bytes) (res : Message) (from : bytes)   (** to a waiting call *)
| OutWaiterClosed (id : bytes).

Record stunServerSock := mkSock {
  Addr : bytes;
  mode : serverSockMode;
  channelNumber2Address : gmap Z bytes;
  address2ChannelNumber : gmap bytes Z;
  waiters : gmap bytes waiter;
  cachedResponses : gmap bytes cachedResponse;
  stoped : bool;
  outputs : list output
}.
Definition set_mode v s := mkSock (Addr s) v (channelNumber2Address s) (address2ChannelNumber s)
  (waiters s) (cachedResponses s) (stoped s) (outputs s).
Definition set_channels v w s := mkSock (Addr s) (mode s) v w (waiters s) (cachedResponses s)
  (stoped s) (outputs s).
Definition set_waiters v s := mkSock (Addr s) (mode s) (channelNumber2Address s)
  (address2ChannelNumber s) v (cachedResponses s) (stoped s) (outputs s).
Definition set_cachedResponses v s := mkSock (Addr s) (mode s) (channelNumber2Address s)
  (address2ChannelNumber s) (waiters s) v (stoped s) (outputs s).
Definition set_stoped v s := mkSock (Addr s) (mode s) (channelNumber2Address s)
  (address2ChannelNumber s) (waiters s) (cachedResponses s) v (outputs s).
Definition set_outputs v s := mkSock (Addr s) (mode s) (channelNumber2Address s)
  (address2ChannelNumber s) (waiters s) (cachedResponses s) (stoped s) v.

(** What ends a call early: its errors, a send on a channel nobody reads, and
    the end of the fuel of the nested unwrapping. *)
Inductive sock_error := DuplicateWaiter | Timeout | WaiterClosed | ChannelBindError
| BlockedSend | NoFuel.
Abbreviation SK := (ST stunServerSock sock_error).

Definition out (o : output) : SK unit := st_modify (fun s => set_outputs (o :: outputs s) s).

(** [newStunServerSock] *)
Definition newStunServerSock (bindAddr : bytes) : stunServerSock :=
  mkSock bindAddr stageNegotiation ∅ ∅ ∅ ∅ false [].

Definition stunResponseCacheDuration : Z := 10 * Second.

Section Sock.
Context `{GoRuntime}.
Variable supportsUnaligned : bool.

(** * Sending *)

(** [sendData] *)
Definition sendData (data fromaddr toaddr : bytes) : SK unit :=
  let! s := st_get in
  if negb (bool_decide (Addr s = fromaddr)) then st_panic (PanicCall (bs "each binding..."))
  else if stoped s then st_ret tt
  else out (OutPacket data (addrToUDPAddr toaddr)).

(** [sendStunMessageAsync]: responses are kept for retransmissions. *)
Definition sendStunMessageAsync (now : Z) (msg : Message) (fromaddr toaddr : bytes) : SK unit :=
  (if (Class (MType msg) =? ClassSuccessResponse) || (Class (MType msg) =? ClassErrorResponse)
   then st_modify (fun s =>
          set_cachedResponses (<[TID msg := mkCached now msg]> (cachedResponses s)) s)
   else st_ret tt);;;
  sendData (visible (Raw msg)) fromaddr toaddr.

(** [addWaiter], [getAndRemoveWaiter] *)
Definition addWaiter (key : bytes) : SK unit :=
  let! s := st_get in
  match waiters s !! key with
  | Some _ => st_err DuplicateWaiter
  | None => st_modify (set_waiters (<[key := Listening]> (waiters s)))
  end.
Definition getAndRemoveWaiter (key : bytes) : SK (option waiter) :=
  let! s := st_get in
  match waiters s !! key with
  | Some w => st_modify (set_waiters (delete key (waiters s)));;; st_ret (Some w)
  | None => st_ret None
  end.

(** [sendStunMessageSync] up to [wait]. *)
Definition sendStunMessageSync (now : Z) (msg : Message) (fromaddr toaddr : bytes) : SK unit :=
  addWaiter (TID msg);;; sendStunMessageAsync now msg fromaddr toaddr.
(** [sendStunMessageWithResult]: the channel to wait on, for the caller to read. *)
Definition sendStunMessageWithResult (now : Z) (msg : Message) (fromaddr toaddr : bytes) : SK (option waiter) :=
  addWaiter (TID msg);;; sendStunMessageAsync now msg fromaddr toaddr;;;
  let! s := st_get in st_ret (waiters s !! TID msg).
(** [wait] when the time is over: the channel stays in the map. *)
Definition wait_timeout (key : bytes) : SK unit :=
  let! s := st_get in
  match waiters s !! key with
  | Some _ => st_modify (set_waiters (<[key := GaveUp]> (waiters s)));;; st_err Timeout
  | None => st_err Timeout
  end.

(** [SetChannelNumber], [FinishNegotiation] *)
Definition SetChannelNumber (channelNumber : Z) (addr : bytes) : SK unit :=
  st_modify (fun s => set_channels (<[channelNumber := addr]> (channelNumber2Address s))
                        (<[addr := channelNumber]> (address2ChannelNumber s)) s).
Definition FinishNegotiation (m : serverSockMode) : SK unit := st_modify (set_mode m).

(** [Close]: the second one closes a closed channel. *)
Definition Close : SK unit :=
  let! s := st_get in
  if stoped s then st_panic (PanicCall (bs "close of closed channel"))
  else
    st_modify (set_stoped true);;;
    st_modify (fun s => set_outputs
      (map (fun kv => OutWaiterClosed kv.1) (map_to_list (waiters s)) ++ outputs s) s);;;
    st_modify (set_waiters ∅).

(** * Receiving *)

(** [checkCachedResponse]: expired responses are dropped first. *)
Definition fresh_response (now : Z) (c : cachedResponse) : Prop :=
  now <= cacheTime c + stunResponseCacheDuration.
Definition answers_request (req : Message) (kv : bytes * cachedResponse) : Prop :=
  Method (MType (cached_msg kv.2)) = Method (MType req) /\ TID (cached_msg kv.2) = TID req.
#[export] Instance fresh_response_dec now c : Decision (fresh_response now c).
Proof. unfold fresh_response. apply _. Defined.
#[export] Instance answers_request_dec req kv : Decision (answers_request req kv).
Proof. unfold answers_request. apply _. Defined.

Definition checkCachedResponse (now : Z) (req : Message) (from : bytes) : SK bool :=
  let! s := st_get in
  if bool_decide (cachedResponses s = ∅) then st_ret false
  else
    st_modify (fun s =>
      set_cachedResponses (filter (fun kv => fresh_response now kv.2) (cachedResponses s)) s);;;
    let! s := st_get in
    match list_find (answers_request req) (map_to_list (cachedResponses s)) with
    | Some (_, (_, c)) => sendData (visible (Raw (cached_msg c))) (Addr s) from;;; st_ret true
    | None => st_ret false
    end.

(** The callback of the socket: the session, or a [turnServerSock]. *)
Section Callback.
Variable cb_stun : bytes -> bytes -> Message -> SK unit.
Variable cb_data : bytes -> bytes -> bytes -> SK unit.

(** [dataReceived] *)
Definition dataReceived (peerAddr data : bytes) : SK unit :=
  let! s := st_get in cb_data (Addr s) peerAddr data.

(** The ChannelData case of [stunMessageReceived]; [true] goes on with the rest
    of the function, as the code does after the data of a channel. *)
Definition channel_data_received (from : bytes) (msg : Message) : SK bool :=
  let! s := st_get in
  match mode s with
  | stageNegotiation => st_ret false
  | stunModeData => dataReceived from (visible (Raw msg));;; st_ret false
  | turnModeData =>
      match ChannelData_GetFrom supportsUnaligned msg (mkChannelData 0 []) with
      | (_, Panic p) => st_panic p
      | (_, Err _) => st_ret false
      | (data, Ok _) =>
          match channelNumber2Address s !! ChannelNumber data with
          | None => st_ret false
          | Some peer => dataReceived peer (cd_Data data);;; st_ret true
          end
      end
  end.

(** [stunMessageReceived]; the send to a caller that gave up blocks forever. *)
Definition stunMessageReceived (now : Z) (localaddr from : bytes) (msg : Message) : SK unit :=
  let! go := (if Method (MType msg) =? MethodChannelData then channel_data_received from msg
              else st_ret true) in
  if negb go then st_ret tt
  else
    let! w := getAndRemoveWaiter (TID msg) in
    match w with
    | Some Listening => out (OutResponse (TID msg) msg from)
    | Some GaveUp => st_err BlockedSend
    | None =>
        let! cached := checkCachedResponse now msg from in
        if cached : bool then st_ret tt else cb_stun localaddr from msg
    end.

(** [serveConn]: a datagram of at most 1024 bytes is read. *)
Definition serveConn (now : Z) (packet : bytes) (from : UDPAddr) : SK unit :=
  let raw := take 1024 packet in
  match Write raw zeroMessage with
  | (_, Panic p) => st_panic p
  | (_, Err _) | (_, Ok (_, Some _)) => dataReceived (udpAddrToAddr from) raw
  | (req, Ok (_, None)) =>
      if bool_decide (MType req = BindingIndication) || bool_decide (MType req = SendIndication)
      then st_ret tt
      else let! s := st_get in stunMessageReceived now (Addr s) (UDPAddr_String from) req
  end.

(** [Serve]: what its reads return, until one fails; [None] waits for the next.
    The sends of its goroutine are the packets in [outputs]. *)
Fixpoint Serve (reads : list (Z * bytes * UDPAddr + error)) : SK (option error) :=
  match reads with
  | [] => st_ret None
  | inr err :: _ => st_ret (Some err)
  | inl (now, packet, from) :: reads' => serveConn now packet from;;; Serve reads'
  end.
End Callback.

(** The session as the callback. *)
Definition session_stun (localAddr remoteAddr : bytes) (msg : Message) : SK unit :=
  out (OutStun localAddr remoteAddr msg).
Definition session_data (localAddr peerAddr data : bytes) : SK unit :=
  out (OutData localAddr peerAddr data).
Definition stun_serve : Z -> bytes -> UDPAddr -> SK unit := serveConn session_stun session_data.

(** * The socket behind a TURN server *)

Record turnServerSockConfig := mkConfig {
  user : bytes;
  nonce : bytes;
  realm : bytes;
  credentials : bytes;
  lifetime : Z;
  relayAddress : bytes;
  serverAddr : bytes
}.
Variable cfg : turnServerSockConfig.

(** A STUN message in [data] that is not ChannelData, if there is one. *)
Definition inner_message (data : bytes) : result sock_error (option Message) :=
  match Write data zeroMessage with
  | (_, Panic p) => Panic p
  | (res, Ok (_, None)) =>
      if Method (MType res) =? MethodChannelData then Ok None else Ok (Some res)
  | _ => Ok None
  end.

(** [RecieveStunMessage] and [ReceiveData] of a [turnServerSock], the callbacks
    of the socket it wraps.  They hand what is inside of a data indication or a
    channel back to the socket, which may call them again: [fuel] bounds the
    nesting. *)
Fixpoint turn_stun (fuel : nat) (now : Z) (localAddr remoteAddr : bytes) (msg : Message) : SK unit :=
  match fuel with
  | O => st_err NoFuel
  | S fuel' =>
      if bool_decide (MType msg = DataIndication) then
        if negb (bool_decide (remoteAddr = serverAddr cfg))
        then st_panic (PanicCall (bs "data indication from unkown address"))
        else
          match Data_GetFrom msg (fresh []) with
          | (_, Panic p) => st_panic p
          | (_, Err _) => st_panic (PanicCall (bs "unexpected message.. "))
          | (d, Ok _) =>
              let data := contents (array msg) d in
              if (length data =? 0)%nat then st_panic (PanicCall (bs "unexpected message.. "))
              else
                match PeerAddress_GetFrom supportsUnaligned msg (mkAddress (Buffer [] 0) 0) with
                | (_, Panic p) => st_panic p
                | (_, Err _) => st_panic (PanicCall (bs "unexpected message.. "))
                | (peer, Ok _) =>
                    match inner_message data with
                    | Panic p => st_panic p
                    | Ok (Some res) =>
                        stunMessageReceived (turn_stun fuel' now) (turn_data fuel' now) now
                          (relayAddress cfg) (Address_String peer) res
                    | _ => session_data localAddr (Address_String peer) data
                    end
                end
          end
      else session_stun localAddr remoteAddr msg
  end
with turn_data (fuel : nat) (now : Z) (localAddr peerAddr data : bytes) : SK unit :=
  match fuel with
  | O => st_err NoFuel
  | S fuel' =>
      match inner_message data with
      | Panic p => st_panic p
      | Ok (Some msg2) =>
          stunMessageReceived (turn_stun fuel' now) (turn_data fuel' now) now
            (relayAddress cfg) peerAddr msg2
      | _ => session_data localAddr peerAddr data
      end
  end.

(** What arrives is nested at most as deep as it has bytes. *)
Definition turn_serve (now : Z) (packet : bytes) (from : UDPAddr) : SK unit :=
  let fuel := S (S (length packet)) in
  serveConn (turn_stun fuel now) (turn_data fuel now) now packet from.

(** [Close] of the [turnServerSock]: closing [stopchan], open like the socket,
    ends its goroutines. *)
Definition turn_Close : SK unit := Close.

(** * Sending through the TURN server *)

Definition peer_of (toaddr : bytes) : Address := mapped_address (addrToUDPAddr toaddr).

(** [wrapperStunMessage]; an error of the build is ignored. *)
Definition wrapperStunMessage (rnd : bytes + error) (fromaddr toaddr : bytes) (msg : Message) :
    SK (Message * bytes * bytes) :=
  let! s := st_get in
  if bool_decide (fromaddr = Addr s) then st_ret (msg, fromaddr, toaddr)
  else if negb (bool_decide (fromaddr = relayAddress cfg))
  then st_panic (PanicCall (bs "sendData from unkonw address.. "))
  else
    match Build_new
      [TransactionIDSetter_AddTo rnd; MessageType_AddTo SendIndication;
       PeerAddress_AddTo supportsUnaligned (peer_of toaddr); Data_AddTo (fresh (visible (Raw msg)));
       Fingerprint_AddTo] with
    | (_, Panic p) => st_panic p
    | (msg2, _) => st_ret (msg2, Addr s, serverAddr cfg)
    end.

(** [sendStunMessageAsync] of the [turnServerSock] *)
Definition turn_sendStunMessageAsync (now : Z) (rnd : bytes + error) (msg : Message)
    (fromaddr toaddr : bytes) : SK unit :=
  let! w := wrapperStunMessage rnd fromaddr toaddr msg in
  sendStunMessageAsync now w.1.1 w.1.2 w.2.
(** [sendStunMessageSync]: the waiter is that of the message itself. *)
Definition turn_sendStunMessageSync (now : Z) (rnd : bytes + error) (msg : Message)
    (fromaddr toaddr : bytes) : SK unit :=
  addWaiter (TID msg);;;
  let! w := wrapperStunMessage rnd fromaddr toaddr msg in
  sendStunMessageAsync now w.1.1 w.1.2 w.2.

(** [sendStunMessageWithResult] of the [turnServerSock] *)
Definition turn_sendStunMessageWithResult (now : Z) (rnd : bytes + error) (msg : Message)
    (fromaddr toaddr : bytes) : SK (option waiter) :=
  addWaiter (TID msg);;; turn_sendStunMessageAsync now rnd msg fromaddr toaddr;;;
  let! s := st_get in st_ret (waiters s !! TID msg).

(** [sendData] of the [turnServerSock] *)
Definition turn_sendData (now : Z) (rnd : bytes + error) (data fromaddr toaddr : bytes) : SK unit :=
  let! s := st_get in
  if bool_decide (fromaddr = relayAddress cfg) then
    let number := default 0 (address2ChannelNumber s !! toaddr) in
    if (MinChannelNumber <=? number) && (number <=? MaxChannelNumber) then
      match ChannelData_AddTo (mkChannelData (u16 number) data)
              (Build_new [MessageType_AddTo ChannelDataRequest]).1 with
      | (r, Ok _) => sendData (visible (Raw r)) (Addr s) (serverAddr cfg)
      | (_, Err _) => st_panic (PanicCall (bs "turn.channeldata error"))
      | (_, Panic p) => st_panic p
      end
    else
      match Build_new
        [TransactionIDSetter_AddTo rnd; MessageType_AddTo SendIndication; Data_AddTo (fresh data);
         PeerAddress_AddTo supportsUnaligned (peer_of toaddr); Fingerprint_AddTo] with
      | (r, Ok _) => sendStunMessageAsync now r (Addr s) (serverAddr cfg)
      | (_, Err _) => st_panic (PanicCall (bs "build error"))
      | (_, Panic p) => st_panic p
      end
  else sendData data fromaddr toaddr.

(** * Requests to the TURN server: what is sent, and what the answer does *)

Definition login : list (M unit) :=
  [Username_AddTo (fresh (user cfg)); Realm_AddTo (fresh (realm cfg));
   Nonce_AddTo (fresh (nonce cfg))].
Definition request_or_panic (now : Z) (setters : list (M unit)) : SK unit :=
  match Build_new setters with
  | (req, Ok _) => let! s := st_get in sendStunMessageSync now req (Addr s) (serverAddr cfg)
  | (_, Err _) => st_panic (PanicCall (bs "...."))
  | (_, Panic p) => st_panic p
  end.

(** [channelBind] *)
Definition channelBind_request (now : Z) (rnd : bytes + error) (addr : bytes) : SK unit :=
  request_or_panic now
    ([TransactionIDSetter_AddTo rnd; MessageType_AddTo ChannelBindRequest;
      ChannelNumber_AddTo MinChannelNumber; PeerAddress_AddTo supportsUnaligned (peer_of addr)]
     ++ login ++ [MessageIntegrity_AddTo (credentials cfg)]).
Definition channelBind_response (addr : bytes) (res : Message) : SK unit :=
  if negb (Method (MType res) =? MethodChannelBind) && negb (Class (MType res) =? ClassSuccessResponse)
  then st_err ChannelBindError
  else SetChannelNumber MinChannelNumber addr.

(** [refreshRequest]; the new lifetime of the configuration. *)
Definition refreshRequest (now : Z) (rnd : bytes + error) (life : Z) : SK unit :=
  request_or_panic now
    ([TransactionIDSetter_AddTo rnd; MessageType_AddTo RefreshRequest]
     ++ login ++ [Lifetime_AddTo life; MessageIntegrity_AddTo (credentials cfg)]).
Definition refresh_response (life : Z) (res : Message) : Z :=
  if bool_decide (MType res = RefreshResponse) then
    match Lifetime_GetFrom res life with (l, Ok _) => l | _ => lifetime cfg end
  else lifetime cfg.

(** [createPermission]: the errors of the single steps are logged and the
    message goes on; addresses that do not parse are left out. *)
Definition permission_peers (l : list bytes) : list Address :=
  omap (fun a => match SplitHostPort a with
                 | Some (host, port) => Some (mapped_address (ParseIP host, atoi_value port))
                 | None => None
                 end) l.
(** A list of setters where an error ends only the setter. *)
Fixpoint add_each (setters : list (M unit)) : M unit := fun m =>
  match setters with
  | [] => (m, Ok tt)
  | f :: l => match f m with
              | (m', Panic p) => (m', Panic p)
              | (m', _) => add_each l m'
              end
  end.
Definition createPermission (now : Z) (rnd : bytes + error) (remote : list bytes) : SK unit :=
  let head := [TransactionIDSetter_AddTo rnd; MessageType_AddTo CreatePermissionRequest;
               Realm_AddTo (fresh (realm cfg)); Nonce_AddTo (fresh (nonce cfg));
               Username_AddTo (fresh (user cfg))] in
  match add_each ([Build head] ++ map (PeerAddress_AddTo supportsUnaligned) (permission_peers remote)
                  ++ [MessageIntegrity_AddTo (credentials cfg); Fingerprint_AddTo]) zeroMessage with
  | (_, Panic p) => st_panic p
  | (req, _) => let! s := st_get in sendStunMessageSync now req (Addr s) (serverAddr cfg)
  end.

(** [keepAlive] *)
Definition keepAlive (now : Z) (rnd : bytes + error) : SK unit :=
  let! s := st_get in
  sendStunMessageAsync now
    (Build_new [TransactionIDSetter_AddTo rnd; MessageType_AddTo BindingIndication]).1
    (Addr s) (serverAddr cfg).

(** [StartRefresh]: what its goroutines do first; without relayed data the
    allocation is released by a lifetime of zero. *)
Definition StartRefresh (now : Z) (rnd rnd' : bytes + error) : SK unit :=
  keepAlive now rnd;;;
  let! s := st_get in
  refreshRequest now rnd' (match mode s with turnModeData => lifetime cfg | _ => 0 end).
(** [FinishNegotiation] of the [turnServerSock] *)
Definition turn_FinishNegotiation (now : Z) (rnd rnd' : bytes + error) (m : serverSockMode) : SK unit :=
  FinishNegotiation m;;; StartRefresh now rnd rnd'.

End Sock.
