(* ===== verification/IceSockProps.v ===== *)
(** Properties of the server sockets of ICE: unwrapping what the TURN server
    relays, the cache of responses, waiting calls. *)
From stdpp Require Import base list gmap sets strings.
From Stdlib Require Import ZArith Lia.
From S2P Require Import Prelude Wire GoFmt GoSlice StunTypes StunMessage StunPacket StunCodec.
From S2P Require Import StunBuild StunAttrs StunAddr StunIntegrity StunText Turn NetAddr IceCandidate.
From S2P Require Import IceSession IceSock.
Open Scope Z_scope.

Section Nesting.
Context `{GoRuntime}.
Variable supportsUnaligned : bool.
Variable cfg : turnServerSockConfig.
Abbreviation tstun := (turn_stun supportsUnaligned cfg).
Abbreviation tdata := (turn_data supportsUnaligned cfg).

(** * The nesting of relayed messages *)

(** The length of the DATA attribute. *)
Definition data_size (m : Message) : nat :=
  match Data_GetFrom m (fresh []) with
  | (d, Ok _) => length (contents (array m) d)
  | _ => 0
  end.

Lemma parses_value_smaller region l t v :
  parses region l -> lookup_attr t l = Some v -> (length v + 4 <= length region)%nat.
Proof.
  induction 1 as [|t' v' pad r l Ht Hv Hpad Hr IH]; [done|]. cbn [lookup_attr].
  rewrite !length_app, !put16_length. destruct (t' =? t); [intros [= ->]; lia|].
  intros Hl. specialize (IH Hl). lia.
Qed.

Lemma append_to_new data :
  exists m1, append_raw 0 data zeroMessage = (m1, Ok tt) /\ buffer_ok (Raw m1) /\
    visible (Raw m1) = data /\ Attributes m1 = None.
Proof.
  destruct (append_raw_spec 0 data zeroMessage) as (m1 & E & Hb & Hvis); [cbn; lia|].
  exists m1. split; [done|]. split; [done|]. split; [done|]. revert E.
  unfold append_raw, st_bind, reslice_raw, set_len. cbn [Nat.leb bcap length arr Raw zeroMessage].
  cbn -[append]. destruct (append _ data) as [b o]. by intros [= <-].
Qed.

(** What [Write] makes of a datagram: with success a ChannelData message without
    attributes, or the packet on the wire. *)
Lemma Write_cases data m n : Write data zeroMessage = (m, Ok (n, None)) ->
  visible (Raw m) = data /\
  ((Method (MType m) = MethodChannelData /\ Attributes m = None) \/
   exists p, wire data p /\ abs m = p).
Proof.
  unfold Write, st_bind. destruct (append_to_new data) as (m1 & -> & Hb & Hvis & Hat).
  unfold with_error. destruct (decide (data = [])) as [->|Hne]; [unfold Decode; by rewrite Hvis|].
  destruct (is_channel_data data) eqn:Hch.
  - unfold Decode. rewrite Hvis. destruct data as [|b0 r]; [done|]. cbn in Hch. rewrite Hch.
    destruct (reslice (array m1) 2 4) as [b|e|q]; [|done|done].
    destruct (u16 _ =? _); [|done]. intros [= <- _]. by split; [|left].
  - destruct (Decode_decides m1) as [(p & m' & Hw & -> & Hdec)|(m' & e & _ & ->)];
      [done|by rewrite Hvis|by rewrite Hvis| |done].
    intros [= <- _]. rewrite Hvis in Hw. split; [by rewrite (dc_raw _ _ _ Hdec)|].
    right. exists p. by destruct Hdec.
Qed.
Lemma wire_data_size data m p :
  wire data p -> abs m = p -> (data_size m < length data)%nat.
Proof.
  intros (region & rest & -> & Hp & _ & Htid & _) Ha.
  rewrite !length_app, encode_header_length by done. unfold data_size, Data_GetFrom.
  pose proof (Get_lookup m AttrData) as Hg. destruct (Get m AttrData) as [d|e|q]; [|lia|done].
  rewrite Ha in Hg. apply (parses_value_smaller _ _ _ _ Hp) in Hg. lia.
Qed.
(** A decoded datagram: its bytes, and the bound of what it carries. *)
Lemma datagram_sizes packet msg n :
  Write packet zeroMessage = (msg, Ok (n, None)) ->
  visible (Raw msg) = packet /\ (data_size msg < S (length packet))%nat.
Proof.
  intros [Hv [[_ Hat]|(p & Hw & Ha)]]%Write_cases; (split; [done|]).
  - unfold data_size, Data_GetFrom, Get, attrs. rewrite Hat. cbn. lia.
  - pose proof (wire_data_size _ _ _ Hw Ha). lia.
Qed.
(** What a STUN message carries is shorter than the message. *)
Lemma inner_smaller data res :
  inner_message data = Ok (Some res) -> (data_size res < length data)%nat.
Proof.
  unfold inner_message. destruct (Write data zeroMessage) as [m [[n [e|]]|e|q]] eqn:E; [done| |done..].
  destruct (Z.eqb_spec (Method (MType m)) MethodChannelData) as [|Hm]; [done|]. intros [= <-].
  apply Write_cases in E as [_ [[? _]|(p & Hw & Ha)]]; [done|by eapply wire_data_size].
Qed.
Lemma inner_not_channel data res :
  inner_message data = Ok (Some res) -> (Method (MType res) =? MethodChannelData) = false.
Proof.
  unfold inner_message. destruct (Write data zeroMessage) as [m [[n [e|]]|e|p]]; [done| |done|done].
  by destruct (Method (MType m) =? MethodChannelData) eqn:E; [|intros [= <-]].
Qed.

(** The callbacks matter only for the messages that reach them. *)
Lemma stunMessageReceived_ext cs cs' cd cd' now localaddr from msg s :
  (Method (MType msg) =? MethodChannelData) = false ->
  (forall s, cs localaddr from msg s = cs' localaddr from msg s) ->
  stunMessageReceived supportsUnaligned cs cd now localaddr from msg s
  = stunMessageReceived supportsUnaligned cs' cd' now localaddr from msg s.
Proof.
  intros Hm Hc. unfold stunMessageReceived. rewrite Hm. unfold st_bind, st_ret. cbn [negb].
  destruct (getAndRemoveWaiter (TID msg) s) as [s1 [[[]|]|e|p]]; try done.
  destruct (checkCachedResponse now msg from s1) as [s2 [[]|e|p]]; done.
Qed.

Lemma turn_stun_fuel f1 f2 now localAddr remoteAddr msg s :
  (data_size msg < f1)%nat -> (data_size msg < f2)%nat ->
  tstun f1 now localAddr remoteAddr msg s = tstun f2 now localAddr remoteAddr msg s.
Proof.
  revert f2 localAddr remoteAddr msg s. induction f1 as [|f1 IH]; intros f2 localAddr remoteAddr msg s H1 H2; [lia|].
  destruct f2 as [|f2]; [lia|]. cbn [turn_stun]. destruct (bool_decide (MType msg = DataIndication)); [|done].
  destruct (negb _); [done|]. unfold data_size in H1, H2.
  destruct (Data_GetFrom msg (fresh [])) as [d [u|e|p]]; [|done..].
  destruct (_ =? 0)%nat; [done|]. destruct (PeerAddress_GetFrom _ _ _) as [peer [u'|e|p]]; [|done..].
  destruct (inner_message _) as [[res|]|e|p] eqn:E; [|done..].
  apply stunMessageReceived_ext; [by eapply inner_not_channel|]. apply inner_smaller in E.
  intros s'. apply IH; lia.
Qed.
Lemma turn_data_fuel f1 f2 now localAddr peerAddr data s :
  (length data < f1)%nat -> (length data < f2)%nat ->
  tdata f1 now localAddr peerAddr data s = tdata f2 now localAddr peerAddr data s.
Proof.
  intros H1 H2. destruct f1 as [|f1]; [lia|]. destruct f2 as [|f2]; [lia|]. cbn [turn_data].
  destruct (inner_message data) as [[res|]|e|p] eqn:E; [|done..].
  apply stunMessageReceived_ext; [by eapply inner_not_channel|]. apply inner_smaller in E.
  intros s'. apply turn_stun_fuel; lia.
Qed.

Lemma read_full_ok n b x r : read_full n b = Ok (x, r) -> x = take n b /\ r = drop n b.
Proof. unfold read_full. destruct (n <=? length b)%nat; [by intros [= <- <-]|by destruct b]. Qed.
Lemma channel_data_shorter msg cd0 cd :
  ChannelData_GetFrom supportsUnaligned msg cd0 = (cd, Ok tt) ->
  (length (cd_Data cd) <= length (visible (Raw msg)))%nat.
Proof.
  unfold ChannelData_GetFrom. destruct (negb _); [by destruct (Message_String _ _) as [|[]|]|].
  destruct (read_full 2 _) as [[n b]|e|p] eqn:E1; [|done..]. apply read_full_ok in E1 as [_ ->].
  destruct (_ || _); [done|]. destruct (read_full 2 _) as [[l b]|e|p] eqn:E2; [|done..].
  apply read_full_ok in E2 as [_ ->]. destruct (read_full (Z.to_nat _) _) as [[d r]|e|p] eqn:E3; [|done..].
  apply read_full_ok in E3 as [-> _]. intros [= <-]. cbn. rewrite length_take, !length_drop. lia.
Qed.

(** The same for any message. *)
Lemma stunMessageReceived_ext' cs cs' cd cd' now localaddr from msg s :
  (forall s, cs localaddr from msg s = cs' localaddr from msg s) ->
  (forall la pa d s, (length d <= length (visible (Raw msg)))%nat -> cd la pa d s = cd' la pa d s) ->
  stunMessageReceived supportsUnaligned cs cd now localaddr from msg s
  = stunMessageReceived supportsUnaligned cs' cd' now localaddr from msg s.
Proof.
  intros Hs Hd. destruct (Method (MType msg) =? MethodChannelData) eqn:Hm;
    [|by apply stunMessageReceived_ext].
  unfold stunMessageReceived. rewrite Hm. cbv iota.
  assert (channel_data_received supportsUnaligned cd from msg s
    = channel_data_received supportsUnaligned cd' from msg s) as Hc.
  { unfold channel_data_received, dataReceived, st_bind, st_get.
    destruct (mode s); [done|by rewrite Hd by lia|].
    destruct (ChannelData_GetFrom _ _ _) as [d [[]|e|p]] eqn:E; [|done..].
    apply channel_data_shorter in E. destruct (channelNumber2Address s !! _); [|done].
    by rewrite Hd by lia. }
  unfold st_bind. rewrite Hc.
  destruct (channel_data_received supportsUnaligned cd' from msg s) as [s1 [[]|e|p]];
    [|done..].
  cbn [negb].
  destruct (getAndRemoveWaiter (TID msg) s1) as [s2 [[[]|]|e|p]]; try done.
  destruct (checkCachedResponse now msg from s2) as [s3 [[]|e|p]]; done.
Qed.

(** * No call runs out of fuel *)

Definition fuelled {A} (c : SK A) : Prop := forall s, (c s).2 <> Err NoFuel.
Lemma fuelled_bind {A B} (c : SK A) (k : A -> SK B) :
  fuelled c -> (forall a, fuelled (k a)) -> fuelled (st_bind c k).
Proof.
  intros Hc Hk s. unfold st_bind. specialize (Hc s). destruct (c s) as [s' [a|e|p]];
    [apply Hk| |done]. intros [= ->]. by apply Hc.
Qed.
Lemma fuelled_get_bind {B} (k : stunServerSock -> SK B) :
  (forall s, fuelled (k s)) -> fuelled (let! s := st_get in k s).
Proof. intros Hk s. apply Hk. Qed.
Ltac fuelled_walk :=
  repeat first
    [ progress (intros; cbv beta zeta)
    | assumption
    | match goal with
      | |- fuelled (st_ret _) => by intros ?
      | |- fuelled (st_panic _) => by intros ?
      | |- fuelled (st_modify _) => by intros ?
      | |- fuelled (st_err _) => by intros ?
      | |- fuelled (st_bind st_get _) => apply fuelled_get_bind
      | |- fuelled (match ?x with _ => _ end) => destruct x
      end
    | apply fuelled_bind ].

Lemma stunMessageReceived_fuelled cs cd now localaddr from msg :
  (Method (MType msg) =? MethodChannelData) = false -> fuelled (cs localaddr from msg) ->
  fuelled (stunMessageReceived supportsUnaligned cs cd now localaddr from msg).
Proof.
  intros Hm Hc. unfold stunMessageReceived, getAndRemoveWaiter, checkCachedResponse, sendData, out.
  rewrite Hm. fuelled_walk.
Qed.
Lemma turn_stun_fuelled f now localAddr remoteAddr msg :
  (data_size msg < f)%nat -> fuelled (tstun f now localAddr remoteAddr msg).
Proof.
  revert localAddr remoteAddr msg. induction f as [|f IH]; intros localAddr remoteAddr msg Hf; [lia|].
  cbn [turn_stun]. destruct (bool_decide (MType msg = DataIndication));
    [|unfold session_stun, out; fuelled_walk].
  destruct (negb _); [fuelled_walk|]. unfold data_size in Hf.
  destruct (Data_GetFrom msg (fresh [])) as [d [u|e|p]]; [|fuelled_walk..].
  destruct (_ =? 0)%nat; [fuelled_walk|].
  destruct (PeerAddress_GetFrom _ _ _) as [peer [u'|e|p]]; [|fuelled_walk..].
  destruct (inner_message _) as [[res|]|e|p] eqn:E;
    [|unfold session_data, out; fuelled_walk..].
  apply stunMessageReceived_fuelled; [by eapply inner_not_channel|]. apply IH.
  apply inner_smaller in E. lia.
Qed.
Lemma turn_data_fuelled f now localAddr peerAddr data :
  (length data < f)%nat -> fuelled (tdata f now localAddr peerAddr data).
Proof.
  intros Hf. destruct f as [|f]; [lia|]. cbn [turn_data].
  destruct (inner_message data) as [[res|]|e|p] eqn:E;
    [|unfold session_data, out; fuelled_walk..].
  apply stunMessageReceived_fuelled; [by eapply inner_not_channel|]. apply turn_stun_fuelled.
  apply inner_smaller in E. lia.
Qed.


Lemma stunMessageReceived_fuelled' cs cd now localaddr from msg :
  fuelled (cs localaddr from msg) ->
  (forall la pa d, (length d <= length (visible (Raw msg)))%nat -> fuelled (cd la pa d)) ->
  fuelled (stunMessageReceived supportsUnaligned cs cd now localaddr from msg).
Proof.
  intros Hc Hd. destruct (Method (MType msg) =? MethodChannelData) eqn:Hm;
    [|by apply stunMessageReceived_fuelled].
  assert (fuelled (channel_data_received supportsUnaligned cd from msg)) as Hch.
  { unfold channel_data_received, dataReceived. apply fuelled_get_bind. intros s.
    destruct (mode s); [fuelled_walk|fuelled_walk; by apply Hd|].
    destruct (ChannelData_GetFrom _ _ _) as [d [[]|e|p]] eqn:E; [|fuelled_walk..].
    apply channel_data_shorter in E. fuelled_walk. by apply Hd. }
  unfold stunMessageReceived, getAndRemoveWaiter, checkCachedResponse, sendData, out.
  rewrite Hm. fuelled_walk.
Qed.
Lemma data_received_ends f1 f2 now peer data s :
  (length data < f1)%nat -> (length data < f2)%nat ->
  dataReceived (tdata f1 now) peer data s = dataReceived (tdata f2 now) peer data s /\
  (dataReceived (tdata f2 now) peer data s).2 <> Err NoFuel.
Proof.
  intros H1 H2. unfold dataReceived, st_bind, st_get. split; [by apply turn_data_fuel|].
  by apply turn_data_fuelled.
Qed.

(** C20: Whatever arrives at a socket behind a TURN server, the unwrapping of
    relayed messages ends: data indications may be nested in data indications
    and channels, but each level is shorter than the one around it, so a fuel
    just above the length of the datagram is never used up, and more fuel does
    not change what happens. *)
Theorem unwrapping_terminates now packet from s fuel :
  (length packet + 2 <= fuel)%nat ->
  serveConn supportsUnaligned (tstun fuel now) (tdata fuel now) now packet from s
  = turn_serve supportsUnaligned cfg now packet from s /\
  (turn_serve supportsUnaligned cfg now packet from s).2 <> Err NoFuel.
Proof.
  intros Hf. unfold turn_serve, serveConn.
  assert (length (take 1024 packet) <= length packet)%nat as Hl by (rewrite length_take; lia).
  revert Hl. generalize (take 1024 packet) as raw. intros raw Hl.
  destruct (Write raw zeroMessage) as [req [[n [e|]]|e|p]] eqn:Ew; [| | |done].
  - apply data_received_ends; lia.
  - apply datagram_sizes in Ew as [Hv Hd]. destruct (_ || _); [done|].
    unfold st_bind, st_get. split.
    + apply stunMessageReceived_ext'; intros; [apply turn_stun_fuel|apply turn_data_fuel]; lia || (rewrite Hv in *; lia).
    + apply stunMessageReceived_fuelled'; intros; [apply turn_stun_fuelled|apply turn_data_fuelled];
        rewrite ?Hv in *; lia.
  - apply data_received_ends; lia.
Qed.
End Nesting.

(** * What is sent through the TURN server *)

Section Relaying.
Context `{GoRuntime}.
Variable supportsUnaligned : bool.
Variable cfg : turnServerSockConfig.

Lemma peer_of_address toaddr : peer_of toaddr = address_of (addrToUDPAddr toaddr).
Proof. unfold peer_of, mapped_address, address_of. by rewrite app_nil_r. Qed.

Lemma xor_address_value_length tid ip port :
  (length (xor_address_value tid ip port) <= 4 + length (normal_ip ip))%nat.
Proof.
  unfold xor_address_value, xor_list. rewrite !length_app, !put16_length, length_zip_with. lia.
Qed.

(** The indication that carries [raw] to a peer. *)
Lemma wrapped_packet tid a raw :
  length tid = TransactionIDSize -> ip_ok a.1 -> 0 <= a.2 < 2 ^ 16 ->
  Z.of_nat (length raw) <= 65000 ->
  exists m v, Build_new
    [TransactionIDSetter_AddTo (inl tid); MessageType_AddTo SendIndication;
     PeerAddress_AddTo supportsUnaligned (address_of a); Data_AddTo (fresh raw); Fingerprint_AddTo]
    = (m, Ok tt) /\ well_formed m /\
    abs m = Packet SendIndication tid
      [(AttrXORPeerAddress, xor_address_value tid a.1 a.2); (AttrData, raw); (AttrFingerprint, v)]
    /\ packet_ok (abs m).
Proof.
  intros Htid Hip Hport Hraw.
  set (xv := xor_address_value tid a.1 a.2).
  set (p2 := Packet SendIndication tid [(AttrXORPeerAddress, xv); (AttrData, raw)]).
  set (p3 := with_attr (AttrFingerprint, fingerprint_value p2) p2).
  assert (packet_ok p3) as Hok.
  { split; [done|]. split; [repeat constructor; by vm_compute|].
    unfold p3, with_attr, encode_attrs. cbn [p_attrs app p2 mbind list_bind].
    rewrite app_nil_r, !length_app, !encode_attr_length. cbn [snd].
    assert (length xv <= 20)%nat as Hx.
    { unfold xv. etrans; [apply xor_address_value_length|].
      destruct (normal_ip_length a.1 Hip) as (? & ? & _). lia. }
    pose proof (padded_spec (length xv)) as [? _]. pose proof (padded_spec (length raw)) as [? _].
    change (nearestPaddedValueLength (length (fingerprint_value p2))) with 4%nat. lia. }
  assert (packet_ok p2) as Hok2 by exact (packet_ok_prefix p2 [_] Hok).
  assert (packet_ok (Packet SendIndication tid [(AttrXORPeerAddress, xv)])) as Hok1
    by exact (packet_ok_prefix (Packet SendIndication tid [(AttrXORPeerAddress, xv)]) [_] Hok2).
  assert (packet_ok (Packet SendIndication tid [])) as Hok0
    by exact (packet_ok_prefix (Packet SendIndication tid []) [_] Hok1).
  pose proof (Build_spec
    [TransactionIDSetter_AddTo (inl tid); MessageType_AddTo SendIndication;
     PeerAddress_AddTo supportsUnaligned (address_of a); Data_AddTo (fresh raw); Fingerprint_AddTo]
    [fun q => Ok (with_tid tid q); fun q => Ok (with_type SendIndication q);
     fun p => Ok (with_attr (AttrXORPeerAddress, xor_address_value (p_tid p) a.1 a.2) p);
     add_step (AttrData, raw); fun p => Ok (with_attr (AttrFingerprint, fingerprint_value p) p)]
    zeroMessage) as HB.
  destruct HB as (m & Hm & Hwf & Habs).
  - constructor; [apply TransactionIDSetter_implements; by intros ? [= <-]|].
    constructor; [apply _|]. constructor; [|constructor; [apply Add_implements|constructor; [apply _|done]]].
    exact (codec_add_ok (Codec := xor_address_codec supportsUnaligned AttrXORPeerAddress) a
      (conj Hip Hport)).
  - apply zeroMessage_reusable.
  - cbn [fits]. split; [by destruct Hok0|]. split; [exact Hok0|]. split; [exact Hok1|].
    split; [exact Hok2|]. split; [exact Hok|done].
  - exists m, (fingerprint_value p2). split; [done|]. split; [done|]. by rewrite Habs.
Qed.

(** C19: A message sent from the relayed address goes, in one packet, to the TURN
    server; any receiver that decodes the packet finds a Send indication whose
    XOR-PEER-ADDRESS is the address the message was sent to and whose DATA is
    the message, byte for byte; nothing is cached for it. *)
Theorem relayed_message_roundtrip now tid msg toaddr s m2 :
  let peer := addrToUDPAddr toaddr in
  length tid = TransactionIDSize -> ip_ok peer.1 -> 0 <= peer.2 < 2 ^ 16 ->
  Z.of_nat (length (visible (Raw msg))) <= 65000 -> stoped s = false ->
  relayAddress cfg <> Addr s -> reusable m2 ->
  exists packet m3 d a,
    turn_sendStunMessageAsync supportsUnaligned cfg now (inl tid) msg (relayAddress cfg) toaddr s
    = (set_outputs (OutPacket packet (addrToUDPAddr (serverAddr cfg)) :: outputs s) s, Ok tt) /\
    Write packet m2 = (m3, Ok (length packet, None)) /\ MType m3 = SendIndication /\
    Data_GetFrom m3 (fresh []) = (d, Ok tt) /\ contents (array m3) d = visible (Raw msg) /\
    PeerAddress_GetFrom supportsUnaligned m3 (mkAddress (Buffer [] 0) 0) = (a, Ok tt) /\
    visible (IP a) = normal_ip peer.1 /\ Port a = peer.2.
Proof.
  intros peer Htid Hip Hport Hlen Hs Hrelay Hm2.
  destruct (wrapped_packet tid peer (visible (Raw msg)) Htid Hip Hport Hlen)
    as (m & v & HB & Hwf & Habs & Hok).
  destruct (Write_spec (visible (Raw m)) (abs m) m2) as (m3 & HW & Habs3 & _);
    [by rewrite Habs|done|by destruct Hwf|done|].
  rewrite Habs in Habs3.
  assert (TID m3 = tid) as Ht3 by (change (p_tid (abs m3) = tid); by rewrite Habs3).
  destruct (codec_get_ok (Codec := data_codec) m3 (visible (Raw msg)) (fresh []) I I)
    as (d & Hd & Hdv); [by rewrite Ht3|by rewrite Habs3|].
  destruct (codec_get_ok (Codec := xor_address_codec supportsUnaligned AttrXORPeerAddress) m3 peer
    (mkAddress (Buffer [] 0) 0)) as (a & Ha & Hav);
    [done|exact (Nat.le_refl 0)|by rewrite Ht3|by rewrite Habs3, Ht3|].
  exists (visible (Raw m)), m3, d, a. split; [|].
  - unfold turn_sendStunMessageAsync, wrapperStunMessage. unfold st_bind at 1, st_bind at 1, st_get at 1.
    rewrite bool_decide_false by done. rewrite bool_decide_true by done. cbn [negb].
    rewrite peer_of_address. fold peer. rewrite HB. cbn [st_ret fst snd].
    assert (MType m = SendIndication) as Hty by (change (p_type (abs m) = SendIndication); by rewrite Habs).
    unfold sendStunMessageAsync, sendData, st_bind, st_get, st_ret. rewrite Hty. cbn.
    rewrite bool_decide_true by done. cbn. by rewrite Hs.
  - split; [exact HW|]. split; [change (p_type (abs m3) = SendIndication); by rewrite Habs3|].
    split; [exact Hd|]. split; [exact Hdv|]. by split.
Qed.
End Relaying.

(** * Retransmitted requests, late responses, stray datagrams *)

(** The cache files a response under its transaction id. *)
Definition cache_ok (s : stunServerSock) : Prop :=
  forall k c, cachedResponses s !! k = Some c -> TID (cached_msg c) = k.

Section Serving.
Context `{GoRuntime}.
Variable supportsUnaligned : bool.

Lemma find_cached (m : gmap bytes cachedResponse) req c :
  (forall k c, m !! k = Some c -> TID (cached_msg c) = k) -> m !! TID req = Some c ->
  Method (MType (cached_msg c)) = Method (MType req) ->
  exists i, list_find (answers_request req) (map_to_list m) = Some (i, (TID req, c)).
Proof.
  intros Hm Hc Hmeth.
  destruct (list_find_elem_of (answers_request req) (map_to_list m) (TID req, c)) as [[i [k c']] Hf].
  { by apply elem_of_map_to_list. }
  { split; [done|]. by apply Hm. }
  exists i. rewrite Hf. apply list_find_Some in Hf as (Hin & [_ Ht] & _).
  apply list_elem_of_lookup_2, elem_of_map_to_list in Hin. cbn in Ht.
  specialize (Hm k c' Hin). assert (k = TID req) as -> by congruence. congruence.
Qed.
Lemma find_none (m : gmap bytes cachedResponse) req :
  (forall k c, m !! k = Some c -> TID (cached_msg c) = k) -> m !! TID req = None ->
  list_find (answers_request req) (map_to_list m) = None.
Proof.
  intros Hm Hc. apply list_find_None, Forall_forall. intros [k c] Hin [_ Ht]. cbn in Ht.
  apply elem_of_map_to_list in Hin. specialize (Hm k c Hin). congruence.
Qed.

Lemma checkCachedResponse_eq now req from s :
  checkCachedResponse now req from s =
  if bool_decide (cachedResponses s = ∅) then (s, Ok false)
  else
    let m := filter (fun kv : bytes * cachedResponse => fresh_response now kv.2) (cachedResponses s) in
    match list_find (answers_request req) (map_to_list m) with
    | Some (_, (_, c)) =>
        (sendData (visible (Raw (cached_msg c))) (Addr s) from;;; st_ret true) (set_cachedResponses m s)
    | None => (set_cachedResponses m s, Ok false)
    end.
Proof.
  unfold checkCachedResponse, st_bind at 1, st_get at 1. case_bool_decide; [done|].
  unfold st_bind at 1, st_modify, st_bind at 1, st_get at 1. cbn [cachedResponses set_cachedResponses].
  by destruct (list_find _ _) as [[i [k c]]|].
Qed.
(** A message for which nobody waits. *)
Lemma received_unwaited cs cd now localaddr from msg s :
  (Method (MType msg) =? MethodChannelData) = false -> waiters s !! TID msg = None ->
  stunMessageReceived supportsUnaligned cs cd now localaddr from msg s
  = (let! cached := checkCachedResponse now msg from in
     if cached : bool then st_ret tt else cs localaddr from msg) s.
Proof.
  intros Hm Hw. unfold stunMessageReceived. rewrite Hm. unfold st_bind at 1, st_ret at 1. cbn [negb].
  unfold getAndRemoveWaiter. unfold st_bind at 1 2, st_get. by rewrite Hw.
Qed.

(** C21: A response that was sent is kept for ten seconds: a request with its
    transaction id and method that arrives within them gets the same bytes
    again, to where it came from, and the session does not see it; one that
    arrives later is handed up as a new one and the response is forgotten. *)
Theorem retransmission_answered cs cd now now' res to req localaddr from s :
  cache_ok s -> stoped s = false ->
  Class (MType res) = ClassSuccessResponse \/ Class (MType res) = ClassErrorResponse ->
  TID req = TID res -> Method (MType req) = Method (MType res) ->
  Method (MType req) <> MethodChannelData -> waiters s !! TID req = None ->
  let s1 := (sendStunMessageAsync now res (Addr s) to s).1 in
  let packet := visible (Raw res) in
  outputs s1 = OutPacket packet (addrToUDPAddr to) :: outputs s /\ cache_ok s1 /\
  exists s2,
    outputs s2 = outputs s1 /\ cache_ok s2 /\
    (now' <= now + 10 * Second ->
     stunMessageReceived supportsUnaligned cs cd now' localaddr from req s1
     = (set_outputs (OutPacket packet (addrToUDPAddr from) :: outputs s2) s2, Ok tt)) /\
    (now + 10 * Second < now' -> cachedResponses s2 !! TID req = None /\
     stunMessageReceived supportsUnaligned cs cd now' localaddr from req s1 = cs localaddr from req s2).
Proof.
  intros Hok Hst Hcl Ht Hm Hch Hw. cbn zeta.
  assert ((sendStunMessageAsync now res (Addr s) to s).1
    = set_outputs (OutPacket (visible (Raw res)) (addrToUDPAddr to) :: outputs s)
        (set_cachedResponses (<[TID res := mkCached now res]> (cachedResponses s)) s)) as ->.
  { unfold sendStunMessageAsync, sendData, st_bind, st_modify, st_get.
    replace (_ || _) with true by (destruct Hcl as [-> | ->]; done).
    cbn. rewrite bool_decide_true by done. cbn. by rewrite Hst. }
  set (m := <[TID res := mkCached now res]> (cachedResponses s)).
  assert (forall k c, m !! k = Some c -> TID (cached_msg c) = k) as Hm1.
  { intros k c. unfold m. destruct (decide (k = TID res)) as [->|Hne].
    - rewrite lookup_insert_eq. by intros [= <-].
    - rewrite lookup_insert_ne by done. apply Hok. }
  set (m' := filter (fun kv : bytes * cachedResponse => fresh_response now' kv.2) m).
  assert (forall k c, m' !! k = Some c -> TID (cached_msg c) = k) as Hm2
    by (intros k c [Hk _]%map_lookup_filter_Some; by apply Hm1).
  split; [done|]. split; [exact Hm1|].
  exists (set_cachedResponses m' (set_outputs (OutPacket (visible (Raw res)) (addrToUDPAddr to) :: outputs s) s)).
  split; [done|]. split; [exact Hm2|].
  assert (bool_decide (m = ∅) = false) as He by (apply bool_decide_false, insert_non_empty).
  apply Z.eqb_neq in Hch. rewrite (received_unwaited cs cd now' localaddr from req) by done.
  unfold st_bind. rewrite checkCachedResponse_eq. cbn [cachedResponses set_outputs set_cachedResponses].
  rewrite He. cbv zeta. fold m'. split; intros Hnow.
  - destruct (find_cached m' req (mkCached now res)) as [i Hi]; [done| |done|].
    { apply map_lookup_filter_Some. unfold m. rewrite Ht, lookup_insert_eq. split; [done|].
      unfold fresh_response, stunResponseCacheDuration. cbn. lia. }
    rewrite Hi. unfold sendData, st_bind, st_get. cbn [Addr set_outputs set_cachedResponses stoped].
    rewrite bool_decide_true by done. cbn [negb]. by rewrite Hst.
  - assert (m' !! TID req = None) as Hnone.
    { apply map_lookup_filter_None. right. intros c. unfold m. rewrite Ht, lookup_insert_eq.
      intros [= <-]. unfold fresh_response, stunResponseCacheDuration. cbn. lia. }
    split; [done|]. by rewrite find_none.
Qed.

(** C22: The answer to a request of this socket reaches the call that waits for
    it, once, and not the session.  When the call has timed out its channel is
    still in the map, and the answer that comes late blocks the goroutine that
    reads the socket for ever. *)
Theorem late_response_blocks cs cd now now' req res to localaddr from s :
  waiters s !! TID req = None -> TID res = TID req -> Method (MType res) <> MethodChannelData ->
  let s1 := (sendStunMessageSync now req (Addr s) to s).1 in
  let s2 := (wait_timeout (TID req) s1).1 in
  (exists s3, stunMessageReceived supportsUnaligned cs cd now' localaddr from res s1 = (s3, Ok tt) /\
     outputs s3 = OutResponse (TID req) res from :: outputs s1 /\ waiters s3 !! TID req = None) /\
  (stunMessageReceived supportsUnaligned cs cd now' localaddr from res s2).2 = Err BlockedSend.
Proof.
  intros Hw Ht Hm. apply Z.eqb_neq in Hm. cbn zeta.
  assert (waiters (sendStunMessageSync now req (Addr s) to s).1 !! TID req = Some Listening) as H1.
  { unfold sendStunMessageSync, addWaiter, sendStunMessageAsync, sendData, out.
    unfold st_bind, st_get. rewrite Hw. unfold st_modify, st_ret. cbn.
    destruct (_ || _); cbn; rewrite bool_decide_true by done; cbn; destruct (stoped s); cbn;
      by rewrite lookup_insert_eq. }
  revert H1. generalize (sendStunMessageSync now req (Addr s) to s).1 as s1. intros s1 H1.
  assert (waiters (wait_timeout (TID req) s1).1 !! TID req = Some GaveUp) as H2.
  { unfold wait_timeout, st_bind, st_get, st_modify. rewrite H1. cbn. by rewrite lookup_insert_eq. }
  revert H2. generalize (wait_timeout (TID req) s1).1 as s2. intros s2 H2.
  unfold stunMessageReceived, getAndRemoveWaiter, out, st_bind, st_get, st_ret, st_modify.
  rewrite Hm, Ht. cbn [negb]. rewrite H1, H2. split; [|done].
  eexists. split; [reflexivity|]. split; [done|]. apply lookup_delete_eq.
Qed.

(** What is read is served in order, as long as no read fails. *)
Lemma Serve_app cs cd reads reads' s :
  Forall (fun r => exists x, r = inl x) reads ->
  Serve supportsUnaligned cs cd (reads ++ reads') s
  = st_bind (Serve supportsUnaligned cs cd reads) (fun _ => Serve supportsUnaligned cs cd reads') s.
Proof.
  intros Hr. revert s. induction Hr as [|r reads [[[now packet] from] ->] _ IH]; intros s; [done|].
  cbn [app Serve]. unfold st_bind in *.
  destruct (serveConn supportsUnaligned cs cd now packet from s) as [s' [[]| |]]; [|done..].
  by rewrite IH.
Qed.

(** After the late answer the socket is deaf: whatever else arrives is not
    looked at, and not even the error of a read ends the loop. *)
Lemma late_response_deafens cs cd now packet from req s n rest :
  Write (take 1024 packet) zeroMessage = (req, Ok (n, None)) ->
  Method (MType req) <> MethodChannelData -> MType req <> BindingIndication -> MType req <> SendIndication ->
  waiters s !! TID req = Some GaveUp ->
  Serve supportsUnaligned cs cd (inl (now, packet, from) :: rest) s
  = (set_waiters (delete (TID req) (waiters s)) s, Err BlockedSend).
Proof.
  intros Hw Hm Hb Hs Hg. apply Z.eqb_neq in Hm. cbn [Serve]. unfold st_bind at 1, serveConn. rewrite Hw.
  rewrite !bool_decide_false by done. cbn [orb].
  unfold stunMessageReceived, getAndRemoveWaiter, st_bind, st_get, st_ret, st_modify, st_err.
  rewrite Hm. cbn [negb]. by rewrite Hg.
Qed.

(** One datagram from anywhere ends the program: an empty one makes the
    decoder panic, and behind a TURN server so does any data indication that
    does not come from the server (or, coming from it, has no data or no peer). *)
Theorem stray_datagrams_panic cs cd now from s :
  serveConn supportsUnaligned cs cd now [] from s = (s, Panic IndexOutOfRange) /\
  forall cfg packet m n,
    Write (take 1024 packet) zeroMessage = (m, Ok (n, None)) -> MType m = DataIndication ->
    waiters s !! TID m = None -> cachedResponses s = ∅ ->
    UDPAddr_String from <> serverAddr cfg ->
    turn_serve supportsUnaligned cfg now packet from s
    = (s, Panic (PanicCall (bs "data indication from unkown address"))).
Proof.
  split.
  { unfold serveConn. cbn [take]. unfold Write, st_bind.
    destruct (append_to_new []) as (m1 & -> & Hb & Hvis & Hat). unfold with_error, Decode.
    by rewrite Hvis. }
  intros cfg packet m n Hw Hty Hwait Hcache Hfrom. unfold turn_serve, serveConn. rewrite Hw.
  rewrite !bool_decide_false by (rewrite Hty; by intros [=]). cbn [orb].
  unfold st_bind, st_get. rewrite received_unwaited by (done || by rewrite Hty).
  unfold st_bind. rewrite checkCachedResponse_eq. rewrite bool_decide_true by done.
  cbn [turn_stun]. rewrite bool_decide_true by done. by rewrite bool_decide_false.
Qed.
End Serving.

(** * Examples *)

Definition server : UDPAddr := ([zb 192; zb 0; zb 2; zb 1], 3478).
Definition relay : turnServerSockConfig :=
  mkConfig (bs "user") (bs "nonce") (bs "realm") (bs "key") (600 * Second) (bs "192.0.2.1:50000")
    (bs "192.0.2.1:3478").
Definition our_sock : stunServerSock := newStunServerSock (bs "10.0.0.1:4000").
Definition some_peer : Address := mapped_address ([zb 192; zb 0; zb 2; zb 7], 5000).
Definition data_indication (data : bytes) : Message :=
  (Build_new (H := doubling_runtime)
    [TransactionID_AddTo (replicate 12 Byte.x09); MessageType_AddTo DataIndication;
     PeerAddress_AddTo (H := doubling_runtime) false some_peer;
     Data_AddTo (H := doubling_runtime) (fresh data)]).1.
Definition packet_of (m : Message) : bytes := visible (Raw m).
Definition success_response : Message :=
  (Build_new (H := doubling_runtime)
    [TransactionID_AddTo (replicate 12 Byte.x07); MessageType_AddTo BindingSuccess]).1.
Definition binding_request : Message :=
  (Build_new (H := doubling_runtime)
    [TransactionID_AddTo (replicate 12 Byte.x07); MessageType_AddTo BindingRequest]).1.

Lemma unwrapping_terminates_witness :
  map (fun o => match o with OutStun l r m => Some (l, r, MType m) | _ => None end)
    (outputs (turn_serve (H := doubling_runtime) false relay 0
      (packet_of (data_indication (packet_of success_response))) server our_sock).1)
  = [Some (bs "192.0.2.1:50000", bs "192.0.2.7:5000", BindingSuccess)] /\
  (turn_serve (H := doubling_runtime) false relay 0
    (packet_of (data_indication (packet_of success_response))) server our_sock).2 <> Err NoFuel.
Proof.
  split; [vm_compute; reflexivity|].
  exact (proj2 (unwrapping_terminates (H := doubling_runtime) false relay 0
    (packet_of (data_indication (packet_of success_response))) server our_sock
    (length (packet_of (data_indication (packet_of success_response))) + 2) (Nat.le_refl _))).
Defined.

Lemma relayed_message_roundtrip_witness :
  exists packet m3,
    outputs (turn_sendStunMessageAsync (H := doubling_runtime) false relay 0
      (inl (replicate 12 Byte.x05)) success_response (bs "192.0.2.1:50000") (bs "192.0.2.7:5000")
      our_sock).1 = [OutPacket packet (addrToUDPAddr (serverAddr relay))] /\
    Write (H := doubling_runtime) packet zeroMessage = (m3, Ok (length packet, None)) /\
    MType m3 = SendIndication.
Proof.
  destruct (relayed_message_roundtrip (H := doubling_runtime) false relay 0
    (replicate 12 Byte.x05) success_response (bs "192.0.2.7:5000") our_sock zeroMessage)
    as (packet & m3 & d & a & E & HW & Hty & _).
  - reflexivity.
  - right. reflexivity.
  - vm_compute. split; [intros Hc; discriminate Hc|reflexivity].
  - vm_compute. intros Hc; discriminate Hc.
  - reflexivity.
  - intros Hc. vm_compute in Hc. discriminate Hc.
  - apply zeroMessage_reusable.
  - exists packet, m3. change (bs "192.0.2.1:50000") with (relayAddress relay).
    rewrite E. split; [reflexivity|]. split; [exact HW|exact Hty].
Defined.

Lemma retransmission_answered_witness :
  let s1 := (sendStunMessageAsync 0 success_response (bs "10.0.0.1:4000") (bs "192.0.2.7:5000") our_sock).1 in
  exists s2, outputs s2 = outputs s1 /\
    stunMessageReceived (H := doubling_runtime) false session_stun session_data (9 * Second) (bs "10.0.0.1:4000")
      (bs "192.0.2.7:5001") binding_request s1
    = (set_outputs (OutPacket (packet_of success_response) (addrToUDPAddr (bs "192.0.2.7:5001"))
                    :: outputs s2) s2, Ok tt).
Proof.
  destruct (retransmission_answered (H := doubling_runtime) false session_stun session_data 0 (9 * Second)
    success_response (bs "192.0.2.7:5000") binding_request (bs "10.0.0.1:4000")
    (bs "192.0.2.7:5001") our_sock) as (_ & _ & s2 & Ho & _ & Hin & _).
  - intros k c Hc. vm_compute in Hc. discriminate Hc.
  - reflexivity.
  - left. reflexivity.
  - reflexivity.
  - reflexivity.
  - intros Hc. vm_compute in Hc. discriminate Hc.
  - reflexivity.
  - exists s2. split; [exact Ho|]. apply Hin. unfold Second. lia.
Defined.

Lemma late_response_blocks_witness :
  let s1 := (sendStunMessageSync 0 binding_request (bs "10.0.0.1:4000") (bs "192.0.2.1:3478") our_sock).1 in
  (stunMessageReceived (H := doubling_runtime) false session_stun session_data (6 * Second) (bs "10.0.0.1:4000")
    (bs "192.0.2.1:3478") success_response (wait_timeout (TID binding_request) s1).1).2
  = Err BlockedSend.
Proof.
  exact (proj2 (late_response_blocks (H := doubling_runtime) false session_stun session_data 0 (6 * Second)
    binding_request success_response (bs "192.0.2.1:3478") (bs "10.0.0.1:4000")
    (bs "192.0.2.1:3478") our_sock eq_refl eq_refl ltac:(vm_compute; intros Hc; discriminate Hc))).
Defined.

Definition stranger : UDPAddr := ([zb 203; zb 0; zb 113; zb 9], 9).
Lemma stray_datagrams_panic_witness :
  turn_serve (H := doubling_runtime) false relay 0 (packet_of (data_indication [Byte.x01]))
    stranger our_sock
  = (our_sock, Panic (PanicCall (bs "data indication from unkown address"))).
Proof.
  refine (proj2 (stray_datagrams_panic (H := doubling_runtime) false session_stun session_data
    0 stranger our_sock) relay (packet_of (data_indication [Byte.x01]))
    (Write (H := doubling_runtime) (take 1024 (packet_of (data_indication [Byte.x01]))) zeroMessage).1
    (length (packet_of (data_indication [Byte.x01]))) _ _ _ _ _).
  - vm_compute. reflexivity.
  - vm_compute. reflexivity.
  - vm_compute. reflexivity.
  - vm_compute. reflexivity.
  - intros Hc. vm_compute in Hc. discriminate Hc.
Defined.
