(* ===== verification/IceNetwork.v ===== *)
(** Two agents and the network between them: the transports of
    [src/ice/icestreamtransport.go] with their sessions ([icesession.go]) and
    server sockets ([stunserversock.go]), which the other files model one by one.

    The network may lose, delay, reorder and duplicate packets; it delivers none
    that was not sent.  An action is one atomic thing that can happen: a goroutine
    of a check begins, its time is over or its channel delivers, a packet arrives,
    a timer fires, a call of the upper layer.  [act] is executable, so a schedule
    is a list of actions.  The agents use their host candidates: there is no NAT
    and no TURN server between them. *)
From stdpp Require Import base list gmap sets strings.
From Stdlib Require Import ZArith Lia.
From S2P Require Import Prelude Wire GoFmt GoSlice StunTypes StunMessage StunPacket StunBuild.
From S2P Require Import StunAddr Turn NetAddr IceCandidate IceChecklist IceGather IceSession IceSock.
From S2P Require Import IceTransport.
Open Scope Z_scope.

(** * State *)

(** [running] are the goroutines of [onecheck] with their check and channel;
    [begun] counts those that began, in the order of [EvSpawn], and [fired] the
    timers that fired. *)
Record agent := mkAgent {
  ag_transport : StreamTransport;
  sockets : gmap bytes stunServerSock;
  begun : nat;
  fired : nat;
  running : list (nat * option nat * goroutine)
}.
Definition set_transport v g := mkAgent v (sockets g) (begun g) (fired g) (running g).
Definition set_sockets v g := mkAgent (ag_transport g) v (begun g) (fired g) (running g).
Definition set_running v g := mkAgent (ag_transport g) (sockets g) (begun g) (fired g) v.
Definition set_begun v g := mkAgent (ag_transport g) (sockets g) v (fired g) (running g).
Definition set_fired v g := mkAgent (ag_transport g) (sockets g) (begun g) v (running g).

Inductive side := LeftSide | RightSide.
Definition other (x : side) : side := match x with LeftSide => RightSide | RightSide => LeftSide end.
Record net := mkNet { left_agent : agent; right_agent : agent }.
Definition agent_of (x : side) (n : net) : agent :=
  match x with LeftSide => left_agent n | RightSide => right_agent n end.
Definition set_agent (x : side) (g : agent) (n : net) : net :=
  match x with LeftSide => mkNet g (right_agent n) | RightSide => mkNet (left_agent n) g end.

Inductive action :=
| Begin (x : side) (tid : bytes)            (** the next goroutine, with its random id *)
| TimeOut (x : side) (k : nat)              (** of the [k]th running goroutine *)
| ChannelReady (x : side) (k : nat) (tid : bytes)
| Deliver (x : side) (a : bytes) (k : nat)  (** the [k]th packet that socket [a] sent *)
| TryFailed (x : side) (i : nat)
| TimerFires (x : side)
| Send (x : side) (data : bytes).           (** [StreamTransport.SendData] *)

Section Network.
Context `{GoRuntime} `{SortSort}.
Variable supportsUnaligned : bool.
Variable channelBind_ok : bytes -> bool.

(** * What a session asks of its sockets *)

Definition on_socket (a : bytes) (c : ST stunServerSock sock_error unit) (ks : gmap bytes stunServerSock) :
    gmap bytes stunServerSock * option panic :=
  match ks !! a with
  | None => (ks, None)
  | Some k =>
      match c k with
      | (k', Panic p) => (<[a := k']> ks, Some p)
      | (k', _) => (<[a := k']> ks, None)
      end
  end.
(** The message that a session sends is the one that its bytes decode to. *)
Definition perform (now : Z) (e : event) (ks : gmap bytes stunServerSock) :
    gmap bytes stunServerSock * option panic :=
  match e with
  | EvSend (StunSock a) from to raw =>
      on_socket a (IceSock.sendStunMessageAsync now (Write raw zeroMessage).1 from to) ks
  | EvSendData (StunSock a) data from to => on_socket a (IceSock.sendData data from to) ks
  | EvFinish (StunSock a) m => on_socket a (IceSock.FinishNegotiation m) ks
  | EvClose (StunSock a) => on_socket a IceSock.Close ks
  | _ => (ks, None)
  end.
Fixpoint perform_all (now : Z) (l : list event) (ks : gmap bytes stunServerSock) :
    gmap bytes stunServerSock * option panic :=
  match l with
  | [] => (ks, None)
  | e :: l' =>
      match perform now e ks with
      | (ks', None) => perform_all now l' ks'
      | stopped => stopped
      end
  end.

(** The sockets that [StartServer] made are there from then on. *)
Definition open_sock (kv : bytes * sock) (ks : gmap bytes stunServerSock) : gmap bytes stunServerSock :=
  match kv.2, ks !! kv.1 with
  | StunSock a, None => <[kv.1 := newStunServerSock a]> ks
  | _, _ => ks
  end.
Definition open_sockets (o : option session) (ks : gmap bytes stunServerSock) : gmap bytes stunServerSock :=
  foldr open_sock ks (from_option (map_to_list ∘ serverSocks) [] o).

(** A call of the transport, with what it asks of the sockets. *)
Definition session_events (t : StreamTransport) : list event := from_option events [] (t_session t).
Definition agent_call {A} (now : Z) (c : ST StreamTransport transport_error A) (g : agent) :
    agent * result transport_error A :=
  let '(t', r) := c (ag_transport g) in
  let new := rev (take (length (session_events t') - length (session_events (ag_transport g)))
                    (session_events t')) in
  let '(ks, p) := perform_all now new (open_sockets (t_session t') (sockets g)) in
  (set_sockets ks (set_transport t' g), match p with Some q => Panic q | None => r end).
Definition session_call {A} (now : Z) (c : SM A) : agent -> agent * result transport_error A :=
  agent_call now (on_session c).

(** What a socket hands to the session, oldest first. *)
Definition inputs_of (s : session) (o : output) : list input :=
  match o with
  | OutStun la ra m => RecieveStunMessage la ra m s
  | OutData la pa d => ReceiveData la pa d s
  | _ => []
  end.
Fixpoint handle_all (now : Z) (xs : list input) (g : agent) : agent * option panic :=
  match xs with
  | [] => (g, None)
  | x :: xs' =>
      match session_call now (handle supportsUnaligned channelBind_ok x) g with
      | (g', Panic p) => (g', Some p)
      | (g', _) => handle_all now xs' g'
      end
  end.
Definition new_outputs (k k' : stunServerSock) : list output :=
  rev (take (length (outputs k') - length (outputs k)) (outputs k')).

(** A packet arrives at the socket that is bound to [to]. *)
Definition arrive (now : Z) (packet : bytes) (from : bytes) (to : UDPAddr) (g : agent) : agent * option panic :=
  match sockets g !! UDPAddr_String to, t_session (ag_transport g) with
  | Some k, Some s =>
      match stun_serve supportsUnaligned now packet (addrToUDPAddr from) k with
      | (k', Panic p) => (set_sockets (<[UDPAddr_String to := k']> (sockets g)) g, Some p)
      | (k', _) =>
          handle_all now (new_outputs k k' ≫= inputs_of s)
            (set_sockets (<[UDPAddr_String to := k']> (sockets g)) g)
      end
  | _, _ => (g, None)
  end.

(** * Actions *)

Definition is_spawn (e : event) : bool := match e with EvSpawn _ _ _ => true | _ => false end.
Definition is_timer (e : event) : bool := match e with EvTimer => true | _ => false end.
Definition is_try_fail (i : nat) (e : event) : bool := match e with EvTryFail j => (i =? j)%nat | _ => false end.
Definition is_packet (o : output) : bool := match o with OutPacket _ _ => true | _ => false end.

Definition after {A} (f : A -> agent -> agent) (r : agent * result transport_error A) : agent * option panic :=
  match r with
  | (g, Ok a) => (f a g, None)
  | (g, Err _) => (g, None)
  | (g, Panic p) => (g, Some p)
  end.
(** What an agent does at [x]'s action; [None] when it is not enabled. *)
Definition local_step (now : Z) (a : action) (g : agent) : option (agent * option panic) :=
  match a with
  | Begin _ tid =>
      match filter is_spawn (rev (session_events (ag_transport g))) !! begun g with
      | Some (EvSpawn i ch nominate) =>
          Some (after (fun r g => set_running (running g ++ [(i, ch, r)]) g)
                  (session_call now (onecheck i nominate (inl tid)) (set_begun (S (begun g)) g)))
      | _ => None
      end
  | TimeOut _ k =>
      match running g !! k with
      | Some (i, ch, r) =>
          Some (after (fun r g => set_running (<[k := (i, ch, r)]> (running g)) g)
                  (session_call now (onecheck_timeout i r) g))
      | None => None
      end
  | ChannelReady _ k tid =>
      match running g !! k with
      | Some (i, Some ch, r) =>
          Some (after (fun r g => set_running (<[k := (i, Some ch, r)]> (running g)) g)
                  (session_call now (onecheck_receive i ch (inl tid) r) g))
      | _ => None
      end
  | TryFailed _ i =>
      if existsb (is_try_fail i) (session_events (ag_transport g))
      then Some (after (fun _ g => g) (session_call now (handle supportsUnaligned channelBind_ok (InTryFail i)) g))
      else None
  | TimerFires _ =>
      if (fired g <? length (filter is_timer (session_events (ag_transport g))))%nat
      then Some (after (fun _ g => g)
             (session_call now (handle supportsUnaligned channelBind_ok InTimer) (set_fired (S (fired g)) g)))
      else None
  | Send _ data => Some (after (fun _ g => g) (agent_call now (Transport_SendData data) g))
  | Deliver _ _ _ => None
  end.
Definition side_of (a : action) : side :=
  match a with
  | Begin x _ | TimeOut x _ | ChannelReady x _ _ | Deliver x _ _ | TryFailed x _ | TimerFires x | Send x _ => x
  end.
Definition act (now : Z) (a : action) (n : net) : option (net * option panic) :=
  match a with
  | Deliver x addr k =>
      k' ← sockets (agent_of x n) !! addr;
      match filter is_packet (rev (outputs k')) !! k with
      | Some (OutPacket packet to) =>
          let '(g, p) := arrive now packet addr to (agent_of (other x) n) in
          Some (set_agent (other x) g n, p)
      | _ => None
      end
  | _ =>
      '(g, p) ← local_step now a (agent_of (side_of a) n);
      Some (set_agent (side_of a) g n, p)
  end.

(** A run goes on as long as nothing panics. *)
Fixpoint run_net (l : list (Z * action)) (n : net) : option net :=
  match l with
  | [] => Some n
  | (now, a) :: l' =>
      match act now a n with
      | Some (n', None) => run_net l' n'
      | _ => None
      end
  end.
Inductive net_reachable (legal : action -> Prop) (n0 : net) : net -> Prop :=
| net_start : net_reachable legal n0 n0
| net_act n now a n' :
    net_reachable legal n0 n -> legal a -> act now a n = Some (n', None) -> net_reachable legal n0 n'.
End Network.
