(* ===== verification/IceNetworkProps.v ===== *)
(** Two agents on a network that forges nothing: whatever is lost, delayed,
    reordered or duplicated, each keeps its role and neither answers the other
    with an error. *)
From stdpp Require Import base list gmap sets strings.
From Stdlib Require Import ZArith Lia.
From S2P Require Import Prelude Wire GoFmt GoSlice StunTypes StunMessage StunPacket StunCodec StunBuild.
From S2P Require Import StunAttrs StunAddr Turn NetAddr IceCandidate IceChecklist IceGather IceSession.
From S2P Require Import IceSessionInv IceSetup IceSessionProps IceTransport IceTransportProps.
From S2P Require Import IceExchange IceHarmony IceSock IceSockProps IceNetwork.
Open Scope Z_scope.

(** * Packets on their way *)

Section Packets.
Context `{GoRuntime} `{SortSort}.
Variable supportsUnaligned : bool.
Variable k : ties.
Hypothesis Hk : ties_ok k.

(** What the bytes of a check or of its answer decode to. *)
Lemma stun_of_decodes raw :
  stun_of k raw -> take 1024 raw = raw /\
  exists m p, Write raw zeroMessage = (m, Ok (length raw, None)) /\ abs m = p /\ well_formed m /\
    raw = encode_packet p /\ (request_of k p \/ p_type p = BindingSuccess).
Proof.
  intros (p & Hty & Hok & Hl & -> & Hp). split; [by apply take_ge|].
  destruct (Write_spec (encode_packet p) p zeroMessage Hty Hok eq_refl zeroMessage_reusable) as (m & HW & Ha & Hwf).
  by exists m, p.
Qed.
Lemma request_type p : request_of k p -> p_type p = BindingRequest.
Proof. by intros (? & ? & ? & _ & _ & _ & _ & ->). Qed.

(** A packet of the agent is what its peer expects. *)
Lemma carried_expected data m n :
  carries k data -> Write (take 1024 data) zeroMessage = (m, Ok (n, None)) -> expected (flip k) m.
Proof.
  intros [Hd|Hd] HW; [|by destruct (Hd _ _ HW) as [? ?]].
  destruct (stun_of_decodes data Hd) as (E & m' & p & HW' & Ha & Hwf & _ & Hp). rewrite E, HW' in HW.
  injection HW as <- _. assert (MType m' = p_type p) as Hty by (by rewrite <- Ha).
  unfold expected. rewrite Hty, flip_flip, Ha by done. destruct Hp as [Hp|Hp]; [|by rewrite Hp].
  by rewrite (request_type p Hp).
Qed.
Lemma sent_back raw : stun_of k raw -> visible (Raw (Write raw zeroMessage).1) = raw.
Proof.
  intros Hr. destruct (stun_of_decodes raw Hr) as (_ & m & p & -> & <- & Hwf & -> & _). apply Hwf.
Qed.

(** * Sockets *)

Record sock_ok (ks : stunServerSock) : Prop := {
  so_packets : forall data to, OutPacket data to ∈ outputs ks -> carries k data;
  so_stun : forall la ra m, OutStun la ra m ∈ outputs ks -> expected k m;
  so_cache : forall id c, cachedResponses ks !! id = Some c -> carries k (visible (Raw (cached_msg c)))
}.
Abbreviation serves := (obeys sock_ok).

Definition output_ok (o : output) : Prop :=
  match o with OutPacket d _ => carries k d | OutStun _ _ m => expected k m | _ => True end.
Lemma out_serves o : output_ok o -> serves (out o) any.
Proof.
  intros Ho. apply obeys_modify. intros ks [Hp Hs Hc]. split; [| |done]; cbn.
  - intros d to [<-|?]%elem_of_cons; eauto.
  - intros la ra m [<-|?]%elem_of_cons; eauto.
Qed.
Lemma cache_serves f :
  (forall ks id c, f ks !! id = Some c -> cachedResponses ks !! id = Some c \/ carries k (visible (Raw (cached_msg c)))) ->
  serves (st_modify (fun ks => set_cachedResponses (f ks) ks) : SK unit) any.
Proof.
  intros Hf. apply obeys_modify. intros ks [Hp Hs Hc]. split; [done..|]. cbn. intros id c Hin.
  destruct (Hf _ _ _ Hin); eauto.
Qed.
Lemma new_sock_ok a : sock_ok (newStunServerSock a).
Proof. split; cbn; [by intros ? ? ?%elem_of_nil|by intros ? ? ? ?%elem_of_nil|]. intros id c. by rewrite lookup_empty. Qed.

(** ** Calls of the session *)

Lemma sendData_serves data from to : carries k data -> serves (sendData data from to) any.
Proof.
  intros Hd. unfold sendData. apply obeys_read. intros ks _. destruct (negb _); [apply obeys_panic|].
  destruct (stoped ks); [by apply obeys_ret|by apply out_serves].
Qed.
Lemma send_stun_serves now raw from to :
  stun_of k raw -> serves (sendStunMessageAsync now (Write raw zeroMessage).1 from to) any.
Proof.
  intros Hr. unfold sendStunMessageAsync. pose proof (sent_back raw Hr) as E.
  apply obeys_then; [|intros _; apply sendData_serves; rewrite E; by left].
  destruct (_ || _); [|by apply obeys_ret]. apply (cache_serves (fun ks => <[_ := _]> (cachedResponses ks))).
  intros ks id c [[<- <-]|[_ ?]]%lookup_insert_Some; [|by left]. right. cbn. rewrite E. by left.
Qed.
Lemma finish_serves m : serves (FinishNegotiation m) any.
Proof. apply obeys_modify. by intros ks []. Qed.
Lemma waiters_serves w : serves (st_modify (set_waiters w) : SK unit) any.
Proof. apply obeys_modify. by intros ks []. Qed.
Lemma Close_serves : serves Close any.
Proof.
  unfold Close. apply obeys_read. intros ks _. destruct (stoped ks); [apply obeys_panic|].
  apply obeys_then; [apply obeys_modify; by intros ? []|]. intros _.
  apply obeys_then; [|intros _; apply waiters_serves]. apply obeys_modify. intros ks' [Hp Hs Hc].
  split; [| |done]; cbn.
  - intros d to [[? [? _]]%list_elem_of_fmap|?]%elem_of_app; [done|eauto].
  - intros la ra m [[? [? _]]%list_elem_of_fmap|?]%elem_of_app; [done|eauto].
Qed.

(** ** Packets that arrive *)

Lemma checkCachedResponse_serves now req from : serves (checkCachedResponse now req from) any.
Proof.
  unfold checkCachedResponse. apply obeys_read. intros ks0 _. case_match; [by apply obeys_ret|].
  apply obeys_then.
  { apply (cache_serves (fun ks => filter _ (cachedResponses ks))). intros ks id c [? _]%map_lookup_filter_Some. by left. }
  intros _. apply obeys_read. intros ks [_ _ Hc].
  destruct (list_find _ _) as [[i [id c]]|] eqn:E; [|by apply obeys_ret].
  apply list_find_Some in E as (E & _). apply list_elem_of_lookup_2, elem_of_map_to_list in E.
  apply obeys_then; [apply sendData_serves; by eapply Hc|]. intros _. by apply obeys_ret.
Qed.
Lemma session_data_serves la peer data : serves (session_data la peer data) any.
Proof. by apply out_serves. Qed.
Lemma getAndRemoveWaiter_serves key : serves (getAndRemoveWaiter key) any.
Proof.
  unfold getAndRemoveWaiter. apply obeys_read. intros ks _. destruct (waiters ks !! key); [|by apply obeys_ret].
  apply obeys_then; [apply waiters_serves|]. intros _. by apply obeys_ret.
Qed.
Lemma dataReceived_serves peer data : serves (dataReceived session_data peer data) any.
Proof. unfold dataReceived. apply obeys_read. intros ks _. apply session_data_serves. Qed.
Lemma channel_data_serves from msg :
  serves (channel_data_received supportsUnaligned session_data from msg) any.
Proof.
  unfold channel_data_received. apply obeys_read. intros ks _. destruct (mode ks); [by apply obeys_ret|..].
  - apply obeys_then; [apply dataReceived_serves|]. intros _. by apply obeys_ret.
  - destruct (ChannelData_GetFrom _ _ _) as [d [u|e|q]]; [|by apply obeys_ret|apply obeys_panic].
    destruct (channelNumber2Address ks !! _); [|by apply obeys_ret].
    apply obeys_then; [apply dataReceived_serves|]. intros _. by apply obeys_ret.
Qed.
Lemma stunMessageReceived_serves now la from msg :
  expected k msg ->
  serves (stunMessageReceived supportsUnaligned session_stun session_data now la from msg) any.
Proof.
  intros Hm. unfold stunMessageReceived. apply obeys_then.
  { destruct (_ =? _); [apply channel_data_serves|by apply obeys_ret]. }
  intros [|]; [|by apply obeys_ret]. cbn [negb].
  apply obeys_then; [apply getAndRemoveWaiter_serves|]. intros [[|]|]; [by apply out_serves|apply obeys_err|].
  apply obeys_then; [apply checkCachedResponse_serves|]. intros [|]; [by apply obeys_ret|by apply out_serves].
Qed.
End Packets.

(** A packet of the peer. *)
Lemma serveConn_serves `{GoRuntime} `{SortSort} u k now data from :
  ties_ok k -> carries (flip k) data -> obeys (sock_ok k) (stun_serve u now data from) any.
Proof.
  intros Hk Hd. unfold stun_serve, serveConn. cbv zeta.
  pose proof (fun m n => carried_expected (flip k) (flip_ok k Hk) data m n Hd) as Hm. rewrite flip_flip in Hm by done.
  destruct (Write (take 1024 data) zeroMessage) as [m [[n [e|]]|e|p]].
  - apply dataReceived_serves.
  - case_match; [by apply obeys_ret|]. apply obeys_read. intros ks _. apply stunMessageReceived_serves.
    by apply (Hm _ _ eq_refl).
  - apply dataReceived_serves.
  - apply obeys_panic.
Qed.

(** * Agents *)

Section Agents.
Context `{GoRuntime} `{SortSort}.
Variable supportsUnaligned : bool.
Variable channelBind_ok : bytes -> bool.

Section Agent.
Variable k : ties.
Hypothesis Hk : ties_ok k.

Definition transport_ok (t : StreamTransport) : Prop := forall s, t_session t = Some s -> in_harmony k s.
Definition sockets_ok (ks : gmap bytes stunServerSock) : Prop := forall a x, ks !! a = Some x -> sock_ok k x.
Record agent_ok (g : agent) : Prop := {
  ao_transport : transport_ok (ag_transport g);
  ao_sockets : sockets_ok (sockets g);
  ao_running : forall i x, running g !! i = Some x -> goroutine_ok k x.2
}.

(** ** Calls of the transport *)

Definition same_session (t t' : StreamTransport) : Prop := t_session t' = t_session t.
#[local] Instance same_session_preorder : PreOrder same_session.
Proof. split; unfold same_session; [done|]. intros ? ? ?. congruence. Qed.
Lemma deliver_session l : keeps same_session (deliver l).
Proof.
  induction l as [|e l IH]; cbn [deliver]; [keeps_walk|]. apply keeps_bind; [|by intros].
  destruct e; cbn [deliver_one]; unfold onIceComplete, onRxData, up; keeps_walk; by intros t.
Qed.
Lemma on_session_ok {A} (c : SM A) (Q : A -> Prop) :
  obeys (in_harmony k) c Q -> obeys transport_ok (on_session c) Q.
Proof.
  intros Hc t Ht. unfold on_session. destruct (t_session t) as [s|] eqn:E; [|by split].
  destruct (Hc s (Ht s E)) as [Hs Hr]. destruct (c s) as [s' r]. cbn in Hs, Hr.
  pose proof (deliver_session (new_events s s') (set_session (Some s') t)) as Hd. unfold same_session in Hd.
  destruct (deliver _ _) as [t' [u|e|p]]; cbn in Hd |- *;
    (split; [intros s1; rewrite Hd; by intros [= <-]|]); try done. destruct r; naive_solver.
Qed.
Lemma SendData_ok data : polite data -> obeys transport_ok (Transport_SendData data) any.
Proof.
  intros Hd. unfold Transport_SendData. apply obeys_read. intros t _. destruct (negb _); [apply obeys_err|].
  apply obeys_then; [by apply on_session_ok, SendData_talks|]. intros []; [by apply obeys_ret|apply obeys_err].
Qed.

(** ** What the sockets do of it *)

Lemma on_socket_ok a c ks : obeys (sock_ok k) c any -> sockets_ok ks -> sockets_ok (on_socket a c ks).1.
Proof.
  intros Hc Hks. unfold on_socket. destruct (ks !! a) as [x|] eqn:E; [|done].
  destruct (Hc x (Hks a x E)) as [Hx _].
  assert (sockets_ok (<[a := (c x).1]> ks)) as Hi.
  { intros b y [[<- <-]|[_ ?]]%lookup_insert_Some; eauto. }
  destruct (c x) as [x' [u|e|p]]; exact Hi.
Qed.
Lemma perform_ok now e ks : event_ok k e -> sockets_ok ks -> sockets_ok (perform now e ks).1.
Proof.
  intros He Hks. destruct e; try done; destruct srv; try done; apply on_socket_ok; auto using finish_serves, Close_serves.
  - by apply send_stun_serves.
  - apply sendData_serves. by right.
Qed.
Lemma perform_all_ok now l ks :
  (forall e, e ∈ l -> event_ok k e) -> sockets_ok ks -> sockets_ok (perform_all now l ks).1.
Proof.
  revert ks. induction l as [|e l IH]; intros ks Hl Hks; [done|]. cbn [perform_all].
  pose proof (perform_ok now e ks (Hl e (list_elem_of_here _ _)) Hks) as H1.
  destruct (perform now e ks) as [ks' [p|]]; [exact H1|]. apply IH; [|done]. intros e' ?. apply Hl. by right.
Qed.
Lemma open_sockets_ok o ks : sockets_ok ks -> sockets_ok (open_sockets o ks).
Proof.
  intros Hks. unfold open_sockets. induction (from_option _ _ o) as [|[a v] l IH]; [done|]. cbn [foldr].
  unfold open_sock at 1. cbn. destruct v; try done. destruct (foldr _ _ _ !! a); [done|].
  intros b x [[<- <-]|[_ ?]]%lookup_insert_Some; [apply new_sock_ok|eauto].
Qed.

Lemma agent_call_from {A} now (c : ST StreamTransport transport_error A) g :
  transport_ok (c (ag_transport g)).1 -> sockets_ok (sockets g) ->
  (forall i x, running g !! i = Some x -> goroutine_ok k x.2) -> agent_ok (agent_call now c g).1.
Proof.
  intros Ht' Hs Hg. unfold agent_call. destruct (c (ag_transport g)) as [t' r]. cbn in Ht'. set (new := rev _).
  assert (forall e, e ∈ new -> event_ok k e) as Hnew.
  { intros e He. unfold new, session_events in He. apply list_elem_of_In, in_rev, list_elem_of_In in He.
    apply elem_of_take in He as (i & He & _). apply list_elem_of_lookup_2 in He.
    destruct (t_session t') as [s|] eqn:E; [|by apply elem_of_nil in He]. by apply (ih_events _ _ (Ht' s E)). }
  pose proof (perform_all_ok now new _ Hnew (open_sockets_ok (t_session t') _ Hs)) as Hks.
  destruct (perform_all _ _ _) as [ks p]. by split.
Qed.
Lemma agent_call_returns {A} now (c : ST StreamTransport transport_error A) g a :
  (agent_call now c g).2 = Ok a -> (c (ag_transport g)).2 = Ok a.
Proof. unfold agent_call. destruct (c (ag_transport g)) as [t' r]. destruct (perform_all _ _ _) as [ks [p|]]; done. Qed.
Lemma agent_call_ok {A} now (c : ST StreamTransport transport_error A) (Q : A -> Prop) :
  obeys transport_ok c Q -> obeys agent_ok (agent_call now c) Q.
Proof.
  intros Hc g [Ht Hs Hg]. destruct (Hc _ Ht) as [Ht' Hr]. split; [by apply agent_call_from|].
  intros a Ha. by apply Hr, (agent_call_returns now c g).
Qed.
Lemma session_call_ok {A} now (c : SM A) (Q : A -> Prop) :
  obeys (in_harmony k) c Q -> obeys agent_ok (session_call now c) Q.
Proof. intros Hc. by apply agent_call_ok, on_session_ok. Qed.

(** ** What arrives *)

Definition input_ok (x : input) : Prop :=
  match x with InMessage _ _ m => expected k m | InData _ _ => True | _ => False end.
Lemma handle_input_ok x : input_ok x -> obeys (in_harmony k) (handle supportsUnaligned channelBind_ok x) any.
Proof. destruct x; try done; intros Hx; [by apply processStunMessage_talks|by apply RxData_talks]. Qed.
Lemma handle_all_ok now xs g :
  (forall x, x ∈ xs -> input_ok x) -> agent_ok g ->
  agent_ok (handle_all supportsUnaligned channelBind_ok now xs g).1.
Proof.
  revert g. induction xs as [|x xs IH]; intros g Hx Hg; [done|]. cbn [handle_all].
  destruct (session_call_ok now _ _ (handle_input_ok x (Hx x (list_elem_of_here _ _))) g Hg) as [Hg' _].
  destruct (session_call now _ g) as [g' [u|e|p]]; [apply IH..|done]; try done; intros y ?; apply Hx; by right.
Qed.
Lemma inputs_of_ok s o : output_ok k o -> forall x, x ∈ inputs_of s o -> input_ok x.
Proof.
  intros Ho x. destruct o; cbn; try (by intros ?%elem_of_nil); unfold RecieveStunMessage, ReceiveData;
    destruct (hasStopped s); try (by intros ?%elem_of_nil); by intros ->%list_elem_of_singleton.
Qed.
Lemma set_sockets_ok ks g : sockets_ok ks -> agent_ok g -> agent_ok (set_sockets ks g).
Proof. intros Hks []. by split. Qed.
Lemma arrive_ok now packet from to g :
  carries (flip k) packet -> agent_ok g ->
  agent_ok (arrive supportsUnaligned channelBind_ok now packet from to g).1.
Proof.
  intros Hp Hg. unfold arrive. destruct (sockets g !! _) as [x|] eqn:Ex; [|done].
  destruct (t_session _) as [s|]; [|done].
  pose proof (ao_sockets g Hg _ x Ex) as Hx.
  destruct (serveConn_serves supportsUnaligned k now packet (addrToUDPAddr from) Hk Hp x Hx) as [Hx' _].
  destruct (stun_serve _ now packet _ x) as [x' r]. cbn in Hx'.
  assert (agent_ok (set_sockets (<[UDPAddr_String to := x']> (sockets g)) g)) as Hg'.
  { apply set_sockets_ok; [|done]. intros b y [[<- <-]|[_ ?]]%lookup_insert_Some; [done|by eapply ao_sockets]. }
  assert (forall y, y ∈ (new_outputs x x' ≫= inputs_of s) -> input_ok y) as Hin.
  { intros y (o & Hy & Ho)%list_elem_of_bind. apply (inputs_of_ok s o); [|done]. unfold new_outputs in Ho.
    apply list_elem_of_In, in_rev, list_elem_of_In, elem_of_take in Ho as (i & Ho%list_elem_of_lookup_2 & _).
    destruct Hx'. destruct o; cbn; eauto. }
  destruct r; [by apply handle_all_ok..|exact Hg'].
Qed.

(** ** Actions *)

(** Ids of transactions have their 12 bytes, and the application sends no packet
    that reads as a request or an error response. *)
Definition legal (a : action) : Prop :=
  match a with
  | Begin _ tid | ChannelReady _ _ tid => length tid = TransactionIDSize
  | Send _ data => polite data
  | _ => True
  end.

Lemma after_ok {A} (c : agent -> agent * result transport_error A) (Q : A -> Prop) f g :
  obeys agent_ok c Q -> (forall a g', Q a -> agent_ok g' -> agent_ok (f a g')) ->
  agent_ok g -> agent_ok (after f (c g)).1.
Proof.
  intros Hc Hf Hg. destruct (Hc g Hg) as [Hg' Hr]. unfold after.
  destruct (c g) as [g' [a|e|p]]; [by apply Hf; [apply Hr|]|exact Hg'..].
Qed.
Lemma running_ok j i ch r g : goroutine_ok k r -> agent_ok g ->
  agent_ok (set_running (<[j := (i, ch, r)]> (running g)) g) /\
  agent_ok (set_running (running g ++ [(i, ch, r)]) g).
Proof.
  intros Hr [Ht Hs Hg]. split; (split; [done..|]); cbn; intros n y.
  - intros [(_ & <- & _)|[_ ?]]%list_lookup_insert_Some; [exact Hr|eauto].
  - intros [?|[_ Hy]]%lookup_app_Some; [eauto|]. apply list_lookup_singleton_Some in Hy as [_ <-]. exact Hr.
Qed.
Lemma local_step_ok now a g r :
  legal a -> agent_ok g -> local_step supportsUnaligned channelBind_ok now a g = Some r -> agent_ok r.1.
Proof.
  intros Ha Hg. destruct a as [x tid|x j|x j tid| |x i|x|x data]; cbn [local_step legal] in *; [| | |done|..].
  - destruct (_ !! begun g) as [[]|]; try done. intros [= <-].
    eapply (after_ok (session_call now _) (goroutine_ok k)); [by apply session_call_ok, onecheck_talks| |by destruct Hg].
    intros r' g' Hr Hg'. by apply running_ok.
  - destruct (running g !! j) as [[[i ch] r0]|] eqn:E; [|done]. intros [= <-].
    eapply (after_ok (session_call now _) (goroutine_ok k)); [|intros; by apply running_ok|done].
    apply session_call_ok, onecheck_timeout_talks. exact (ao_running g Hg _ _ E).
  - destruct (running g !! j) as [[[i [ch|]] r0]|]; try done. intros [= <-].
    eapply (after_ok (session_call now _) (goroutine_ok k)); [|intros; by apply running_ok|done].
    by apply session_call_ok, onecheck_receive_talks.
  - destruct (existsb _ _); [|done]. intros [= <-].
    eapply (after_ok (session_call now _) any); [by apply session_call_ok, try_fail_talks|by intros|done].
  - destruct (_ <? _)%nat; [|done]. intros [= <-].
    eapply (after_ok (session_call now _) any); [by apply session_call_ok, nomination_timeout_talks|by intros|by destruct Hg].
  - intros [= <-]. eapply (after_ok (agent_call now _) any); [by apply agent_call_ok, SendData_ok|by intros|done].
Qed.
End Agent.

(** * The network *)

Definition ties_of (x : side) (k : ties) : ties := match x with LeftSide => k | RightSide => flip k end.
Definition net_ok (k : ties) (n : net) : Prop := forall x, agent_ok (ties_of x k) (agent_of x n).

Lemma ties_of_ok x k : ties_ok k -> ties_ok (ties_of x k).
Proof. intros ?. destruct x; [done|by apply flip_ok]. Qed.
Lemma ties_of_other x k : ties_ok k -> ties_of (other x) k = flip (ties_of x k).
Proof. intros ?. destruct x; [done|]. symmetry. by apply flip_flip. Qed.
Lemma set_agent_ok x k g n : net_ok k n -> agent_ok (ties_of x k) g -> net_ok k (set_agent x g n).
Proof. intros Hn Hg y. destruct x, y; [exact Hg|apply (Hn RightSide)|apply (Hn LeftSide)|exact Hg]. Qed.

Lemma act_ok k now a n r :
  ties_ok k -> legal a -> net_ok k n -> act supportsUnaligned channelBind_ok now a n = Some r -> net_ok k r.1.
Proof.
  intros Hk Ha Hn.
  assert (forall b, legal b ->
    ('(g, p) ← local_step supportsUnaligned channelBind_ok now b (agent_of (side_of b) n);
     Some (set_agent (side_of b) g n, p)) = Some r -> net_ok k r.1) as Hl.
  { intros b Hb. destruct (local_step _ _ now b _) as [[g p]|] eqn:E; [|done]. cbn. intros [= <-]. cbn.
    apply set_agent_ok; [done|].
    apply (local_step_ok (ties_of (side_of b) k) (ties_of_ok _ k Hk) now b _ (g, p) Hb (Hn _) E). }
  destruct a as [| | |x addr j| | |]; try exact (Hl _ Ha). clear Hl. cbn [act].
  destruct (sockets (agent_of x n) !! addr) as [ks|] eqn:Eks; [|done]. cbn.
  destruct (filter is_packet _ !! j) as [[packet to| | | |]|] eqn:Ep; try done.
  destruct (arrive _ _ _ _ _ _ _) as [g p] eqn:Eg. intros [= <-]. cbn. apply set_agent_ok; [done|].
  apply list_elem_of_lookup_2, list_elem_of_filter in Ep as [_ Ep].
  apply list_elem_of_In, in_rev, list_elem_of_In in Ep.
  change g with (g, p).1. rewrite <- Eg. apply arrive_ok; [by apply ties_of_ok| |apply Hn].
  rewrite (ties_of_other x k Hk), (flip_flip _ (ties_of_ok x k Hk)).
  exact (so_packets _ _ (ao_sockets _ _ (Hn x) _ _ Eks) _ _ Ep).
Qed.

(** * The start *)

(** A session that has said nothing yet. *)
Record prepared (r : SessionRole) (frag password : bytes) (s : session) : Prop := {
  pr_role : role s = r;
  pr_frag : rxUserFrag s = frag;
  pr_rx : rxPassword s = password;
  pr_events : forall e, e ∈ events s -> says e = false
}.
Lemma prepared_set r frag password (f : session -> session) :
  (forall s, role (f s) = role s /\ rxUserFrag (f s) = rxUserFrag s /\ rxPassword (f s) = rxPassword s /\
     events (f s) = events s) ->
  obeys (E := stop) (prepared r frag password) (st_modify f) any.
Proof.
  intros Hf. apply obeys_modify. intros s []. destruct (Hf s) as (H1 & H2 & H3 & H4).
  split; [congruence..|]. by rewrite H4.
Qed.
Lemma add_sock_prepared r frag password listen v : obeys (prepared r frag password) (add_sock listen v) any.
Proof.
  unfold add_sock. destruct (listen _); [|by apply obeys_ret].
  apply obeys_then; [by apply prepared_set|]. intros _. by apply obeys_ret.
Qed.
Lemma add_socks_prepared r frag password listen l : obeys (prepared r frag password) (add_socks listen l) any.
Proof.
  induction l as [|v l IH]; cbn [add_socks]; [by apply obeys_ret|].
  apply obeys_then; [apply add_sock_prepared|]. intros [|]; [exact IH|by apply obeys_ret].
Qed.
Lemma close_all_prepared r frag password : obeys (prepared r frag password) close_all any.
Proof.
  unfold close_all. apply obeys_read. intros s _. induction (map_to_list (serverSocks s)) as [|x l IH]; [by apply obeys_ret|].
  cbn [for_each]. apply obeys_then; [|by intros]. apply obeys_modify. intros s' []. split; [done..|].
  by intros e [->|?]%elem_of_cons; [|auto].
Qed.
Lemma StartServer_prepared r frag password listen relay l :
  obeys (prepared r frag password) (StartServer listen relay l) any.
Proof.
  unfold StartServer. apply obeys_then.
  - destruct relay, l as [|a l]; [apply obeys_panic| |apply add_socks_prepared..].
    apply obeys_then; [apply add_sock_prepared|].
    intros [|]; [|by apply obeys_ret]. apply obeys_then; [by apply prepared_set|].
    intros _. apply add_socks_prepared.
  - intros ok. apply obeys_then; [|intros _; by apply obeys_ret].
    destruct ok; [by apply obeys_ret|apply close_all_prepared].
Qed.

(** One of the two: its transport as [NewIceStreamTransport] makes it, its role
    and its random credentials. *)
Record party := mkParty {
  p_transport : StreamTransport;
  p_role : SessionRole;
  p_frag : bytes;
  p_password : bytes;
  p_tie : Z;
  p_listen : bytes -> bool
}.
(** A session description with the party's credentials. *)
Definition describes (sdp : bytes) (p : party) : Prop :=
  exists sd, decodeSession sdp = (sd, Ok tt) /\ sd_user sd = p_frag p /\ sd_password sd = p_password p.
(** The calls with which a party joins, given the description of the other. *)
Definition join (p : party) (sdp : bytes) (permission : option Message) : ST StreamTransport transport_error unit :=
  InitIce (p_role p) (p_frag p) (p_password p) (p_tie p) (p_listen p);;;
  SetCallBack;;;
  StartNegotiation channelBind_ok sdp permission.
Definition joins (now : Z) (p : party) (sdp : bytes) (permission : option Message) (g : agent) : Prop :=
  agent_call now (join p sdp permission) (mkAgent (p_transport p) ∅ 0 0 []) = (g, Ok tt).
Definition ties_between (p q : party) : ties :=
  mkTies (p_role p) (p_password q) (p_password p) (p_frag q ++ bs ":" ++ p_frag p) (p_frag p ++ bs ":" ++ p_frag q).

Definition session_prepared (p : party) (t : StreamTransport) : Prop :=
  exists s, t_session t = Some s /\ prepared (p_role p) (p_frag p) (p_password p) s.
Lemma on_session_prepared {A} p (c : SM A) :
  obeys (prepared (p_role p) (p_frag p) (p_password p)) c any ->
  obeys (session_prepared p) (on_session c) any.
Proof.
  intros Hc t (s & Hs & Hp). split; [|by intros]. unfold on_session. rewrite Hs. destruct (Hc s Hp) as [Hp' _].
  destruct (c s) as [s' r]. pose proof (deliver_session (new_events s s') (set_session (Some s') t)) as Hd.
  unfold same_session in Hd. destruct (deliver _ _) as [t' [u|e|q]]; exists s'; by split.
Qed.
Lemma InitIce_prepared p t t' :
  InitIce (p_role p) (p_frag p) (p_password p) (p_tie p) (p_listen p) t = (t', Ok tt) -> session_prepared p t'.
Proof.
  intros E. pose proof (on_session_prepared p _
    (StartServer_prepared _ _ _ (p_listen p) (is_turn (t_transporter t)) (getListenCandidiates (t_transporter t)))) as Hs.
  pose proof (obeys_then (session_prepared p) _ (fun ok : bool =>
    if negb ok then st_err StartServerFailed else st_modify (set_State TransportStateSessionReady)) any Hs) as Ho.
  replace t' with (InitIce (p_role p) (p_frag p) (p_password p) (p_tie p) (p_listen p) t).1 by (by rewrite E).
  apply Ho.
  - intros [|]; cbn [negb]; [|apply obeys_err]. apply obeys_modify. by intros t1 (s & ? & ?); exists s.
  - eexists. split; [reflexivity|]. split; try done. by intros ? ?%elem_of_nil.
Qed.

(** After its call to start, a party knows the other: it is in harmony with it. *)
Lemma createTurnPermission_calm permission : keeps calm (createTurnPermissionIfNeeded permission).
Proof. unfold createTurnPermissionIfNeeded. keeps_walk. Qed.
Lemma createCheckList_tuned p q sd s s' :
  prepared (p_role p) (p_frag p) (p_password p) s -> sd_user sd = p_frag q -> sd_password sd = p_password q ->
  createCheckList sd s = (s', Ok None) -> in_harmony (ties_between p q) s'.
Proof.
  intros [Hr Hf Hp He] Hu Hpw E. destruct (createCheckList_credentials sd s s' E) as (Htu & Hru & Htx & Hrx).
  assert (role s' = role s /\ events s' = events s) as [Hr' He'].
  { revert E. rewrite createCheckList_eq. destruct (_ <? _)%nat; [done|]. cbn zeta. case_bool_decide; [done|].
    by intros [= <-]. }
  split; [|rewrite He'; intros e Hin; specialize (He e Hin); by destruct e].
  split; cbn [ties_between k_role k_tx k_rx k_user k_peer]; [congruence..|right; congruence].
Qed.
Lemma StartNegotiation_ok p q sdp permission t t' :
  session_prepared p t -> describes sdp q ->
  StartNegotiation channelBind_ok sdp permission t = (t', Ok tt) -> transport_ok (ties_between p q) t'.
Proof.
  intros (s & Hs & Hp) (sd & Hsd & Hu & Hpw) E. unfold StartNegotiation in E.
  unfold st_bind in E at 1. unfold st_get in E. cbv beta in E. destruct (_ || _); [done|].
  unfold st_bind in E at 1. unfold st_modify in E at 1. rewrite Hsd in E.
  set (t1 := set_State _ t) in E. assert (t_session t1 = Some s) as Hs1 by done. clearbody t1.
  apply st_bind_ok in E as (created & t2 & E & E').
  destruct created; [done|].
  assert (transport_ok (ties_between p q) t2) as Ht2.
  { unfold on_session in E. rewrite Hs1 in E. destruct (createCheckList sd s) as [s' r] eqn:Ec.
    pose proof (deliver_session (new_events s s') (set_session (Some s') t1)) as Hd. unfold same_session in Hd.
    destruct (deliver _ _) as [t3 [u|e|x]]; [|done..]. cbn in Hd. destruct r; injection E as <- ?; subst; try done.
    intros s1. rewrite Hd. intros [= <-]. by apply (createCheckList_tuned p q sd s). }
  clear E. eassert (obeys (transport_ok (ties_between p q)) _ any) as Ho;
    [|destruct (Ho t2 Ht2) as [Hr _]; rewrite E' in Hr; exact Hr].
  apply obeys_then; [apply on_session_ok, talks_calm, createTurnPermission_calm|].
  intros [|]; cbn [negb]; [|apply obeys_err].
  apply obeys_then; [apply on_session_ok, talks_calm, startCheck_calm|].
  intros [|]; cbn [negb]; [by apply obeys_ret|apply obeys_err].
Qed.
Lemma joins_ok now p q sdp permission g :
  describes sdp q -> joins now p sdp permission g -> agent_ok (ties_between p q) g.
Proof.
  intros Hd Hj. unfold joins in Hj.
  pose proof (agent_call_returns now _ _ tt (f_equal snd Hj)) as Hr. cbn [ag_transport] in Hr.
  replace g with (agent_call now (join p sdp permission) (mkAgent (p_transport p) ∅ 0 0 [])).1 by (by rewrite Hj).
  apply agent_call_from; cbn; [|intros a x; by rewrite lookup_empty|by intros i x].
  destruct (join p sdp permission (p_transport p)) as [t r] eqn:E. cbn in Hr |- *. subst r.
  unfold join in E. apply st_bind_ok in E as (u & t1 & E1 & E). destruct u.
  apply InitIce_prepared in E1. apply st_bind_ok in E as (u & t2 & [= <- <-] & E).
  apply (StartNegotiation_ok p q sdp permission) in E; [done| |done].
  destruct E1 as (s & Hs & Hp). by exists s.
Qed.
End Agents.

(** * What holds on the network *)

Lemma run_net_reachable `{GoRuntime} `{SortSort} u channelBind_ok l n0 n :
  Forall (fun x => legal x.2) l -> run_net u channelBind_ok l n0 = Some n ->
  net_reachable u channelBind_ok legal n0 n.
Proof.
  intros Hl Hr. enough (forall n1, net_reachable u channelBind_ok legal n0 n1 ->
    run_net u channelBind_ok l n1 = Some n -> net_reachable u channelBind_ok legal n0 n) by (eapply H1; [constructor|done]).
  clear Hr. induction Hl as [|[now a] l Ha Hl IH]; intros n1 Hn1; cbn [run_net]; [by intros [= <-]|].
  destruct (act _ _ now a n1) as [[n2 [p|]]|] eqn:E; [done| |done]. apply IH. by eapply net_act.
Qed.
Lemma net_reachable_ok `{GoRuntime} `{SortSort} u channelBind_ok k n0 n :
  ties_ok k -> net_ok k n0 -> net_reachable u channelBind_ok legal n0 n -> net_ok k n.
Proof. intros Hk H0'. induction 1 as [|n now a n' _ IH Ha E]; [done|]. exact (act_ok u channelBind_ok k now a n _ Hk Ha IH E). Qed.

(** C7: Two agents that joined with opposite roles, each with the description of
    the other, keep their roles in every state that the network can reach, however
    it loses, delays, reorders or repeats packets and whatever times out: there is
    no role conflict and no refused request.  No packet that either sends decodes
    to an error response. *)
Theorem roles_never_conflict `{GoRuntime} `{SortSort} u channelBind_ok now A B sdpA sdpB permA permB gA gB n :
  p_role A <> SessionRoleUnkown -> p_role B = opposite (p_role A) ->
  zlen (p_frag A) + zlen (p_frag B) < maxUsernameB ->
  describes sdpA A -> describes sdpB B ->
  joins channelBind_ok now A sdpB permA gA -> joins channelBind_ok now B sdpA permB gB ->
  net_reachable u channelBind_ok legal (mkNet gA gB) n ->
  forall x,
    (forall s, t_session (ag_transport (agent_of x n)) = Some s ->
       role s = p_role (match x with LeftSide => A | RightSide => B end)) /\
    (forall a ks data to m r, sockets (agent_of x n) !! a = Some ks -> OutPacket data to ∈ outputs ks ->
       Write (take 1024 data) zeroMessage = (m, Ok (r, None)) -> MType m <> BindingError).
Proof.
  intros HA HB Hu HdA HdB HjA HjB Hr x. set (k := ties_between A B).
  assert (ties_ok k) as Hk.
  { split; [done|]. cbn [k ties_between k_user k_peer]. unfold zlen in *. rewrite !length_app. change (length (bs ":")) with 1%nat. lia. }
  assert (ties_between B A = flip k) as E by (unfold k, ties_between, flip; cbn [k_role k_tx k_rx k_user k_peer]; by rewrite HB).
  assert (net_ok k n) as Hn.
  { apply (net_reachable_ok u channelBind_ok k (mkNet gA gB) n Hk); [|done]. intros [|]; cbn [agent_of left_agent right_agent ties_of].
    - by apply (joins_ok channelBind_ok now A B sdpB permA).
    - rewrite <- E. by apply (joins_ok channelBind_ok now B A sdpA permB). }
  destruct (Hn x) as [Ht Hs _]. split.
  - intros s Es. rewrite (tn_role _ _ (ih_tuned _ _ (Ht s Es))). destruct x; cbn; [done|by rewrite HB].
  - intros a ks data to m r Ea Ho HW. pose proof (so_packets _ _ (Hs _ _ Ea) _ _ Ho) as Hc.
    by apply (carried_expected _ (ties_of_ok x k Hk) data m r Hc).
Qed.

(** ** Two agents with a host candidate each *)

Section Pair.
#[local] Existing Instance doubling_runtime.
#[local] Existing Instance stable_sort.

Definition host_transport (address : bytes) (port : Z) : StreamTransport :=
  match NewIceStreamTransport NewTransportConfigHostonly (fun _ => None)
    (fun tr => match tr with
               | HostTransporter h =>
                   let '(h', r) := HostOnlySock_GetCandidates (Some [mkIface (bs "eth0") true (Some [address])]) port h in
                   (HostTransporter h', r)
               | _ => (tr, Err EventError)
               end) with
  | Ok t => t
  | _ => mkTransport NewTransportConfigHostonly (HostTransporter (mkHostOnly [])) (newTransportComponent 1)
           TransportStateReady None false []
  end.
Definition here : party := mkParty (host_transport (bs "10.0.0.1/8") 4000) SessionRoleControlling
  (bs "aaaaaaaa") (bs "bbbbbbbb") 42 (fun _ => true).
Definition there : party := mkParty (host_transport (bs "10.0.0.8/8") 5000) SessionRoleControlled
  (bs "cccccccc") (bs "dddddddd") 7 (fun _ => true).
Definition description (p : party) (address : string) (port : Z) : bytes :=
  session_text (p_frag p) (p_password p) (ParseIP (bs address), port) (tc_candidates (component (p_transport p))).
Definition here_sdp := description here "10.0.0.1" 4000.
Definition there_sdp := description there "10.0.0.8" 5000.
Definition agent_here := (agent_call 0 (join (fun _ => true) here there_sdp None) (mkAgent (p_transport here) ∅ 0 0 [])).1.
Definition agent_there := (agent_call 0 (join (fun _ => true) there here_sdp None) (mkAgent (p_transport there) ∅ 0 0 [])).1.

(** The requests cross and are answered; the first answer arrives twice and the
    request of the left agent too, and application data follows. *)
Definition schedule : list (Z * action) :=
  map (pair 1) [Begin LeftSide (replicate 12 Byte.x01); Begin RightSide (replicate 12 Byte.x02);
    Deliver LeftSide (bs "10.0.0.1:4000") 0; Deliver RightSide (bs "10.0.0.8:5000") 1;
    Deliver RightSide (bs "10.0.0.8:5000") 1; Deliver RightSide (bs "10.0.0.8:5000") 0;
    Deliver LeftSide (bs "10.0.0.1:4000") 0; Deliver LeftSide (bs "10.0.0.1:4000") 1;
    Send LeftSide (bs "hello"); Deliver LeftSide (bs "10.0.0.1:4000") 2].
Definition final_net : net :=
  default (mkNet agent_here agent_there) (run_net false (fun _ => true) schedule (mkNet agent_here agent_there)).
Definition packets_at (a : bytes) (g : agent) : nat :=
  match sockets g !! a with Some ks => length (filter is_packet (outputs ks)) | None => 0 end.

Lemma schedule_legal : Forall (fun x => legal x.2) schedule.
Proof.
  repeat (apply Forall_cons; split; [|]); try apply Forall_nil_2; try exact I; try reflexivity.
  intros m n. vm_compute. discriminate.
Qed.

Lemma roles_never_conflict_witness :
  (packets_at (bs "10.0.0.1:4000") (left_agent final_net), packets_at (bs "10.0.0.8:5000") (right_agent final_net)) = (3%nat, 3%nat) /\
  forall x s, t_session (ag_transport (agent_of x final_net)) = Some s ->
    role s = match x with LeftSide => SessionRoleControlling | RightSide => SessionRoleControlled end.
Proof.
  assert (forall x s, t_session (ag_transport (agent_of x final_net)) = Some s ->
    role s = p_role (match x with LeftSide => here | RightSide => there end)) as Hr.
  { intros x. apply (roles_never_conflict false (fun _ => true) 0 here there here_sdp there_sdp None None
      agent_here agent_there final_net).
    - discriminate.
    - reflexivity.
    - vm_compute. reflexivity.
    - eexists. split; [vm_compute; reflexivity|]. split; vm_compute; reflexivity.
    - eexists. split; [vm_compute; reflexivity|]. split; vm_compute; reflexivity.
    - vm_compute. reflexivity.
    - vm_compute. reflexivity.
    - apply run_net_reachable with schedule; [exact schedule_legal|vm_compute; reflexivity]. }
  split; [vm_compute; reflexivity|]. intros x s E. rewrite (Hr x s E). destruct x; reflexivity.
Defined.
End Pair.
