(* ===== verification/TurnClient.v ===== *)
(** The TURN client program, [src/turn/cmd/turn-client/client.go]: it allocates
    a relay, permits a peer, sends it data in an indication and over a channel,
    and releases the allocation.

    The program talks over one connection and sends before it reads, so what
    arrives is a function of the packets sent so far.  That function, the random
    ids, name resolution and what the logger's [Crit] does, which is a package of
    its own, are arguments.  The texts of the log are kept without their
    arguments: [fmt] recovers when a value cannot be shown. *)
From stdpp Require Import base list sets strings.
From Stdlib Require Import ZArith Lia.
From S2P Require Import Prelude Wire GoFmt GoSlice StunTypes StunMessage StunPacket StunBuild.
From S2P Require Import StunAttrs StunAddr Crypto StunIntegrity Turn NetAddr IceCandidate.
Open Scope Z_scope.

(** * Flags and state *)

Record flags := mkFlags {
  f_server : bytes;
  f_peer : bytes;
  f_username : bytes;
  f_password : bytes
}.
Definition default_flags : flags :=
  mkFlags (bs "193.112.248.133:3478") (bs "182.254.155.208:3333") (bs "smartraiden") (bs "smartraiden").

Record client := mkClient {
  req : Message;
  res : Message;
  sent : list bytes;       (** the packets written, whatever became of them; newest first *)
  logged : list bytes
}.
Definition set_req v c := mkClient v (res c) (sent c) (logged c).
Definition set_res v c := mkClient (req c) v (sent c) (logged c).
Definition set_sent v c := mkClient (req c) (res c) v (logged c).
Definition set_logged v c := mkClient (req c) (res c) (sent c) v.
Definition new_client : client := mkClient zeroMessage zeroMessage [] [].

(** The program ends with a status: [os.Exit], or a [Crit] that does not return. *)
Inductive exited := Exited (msg : bytes).
Abbreviation CL := (ST client exited).

Definition isErr (m : Message) : bool := Class (MType m) =? ClassErrorResponse.

Section Client.
Context `{GoRuntime}.
Variable supportsUnaligned : bool.
(** [Crit] ends the program. *)
Variable crit_exits : bool.
(** What becomes of the newest packet, and what arrives after it. *)
Variable on_write : list bytes -> option error.
Variable on_read : list bytes -> bytes + error.
(** The transaction id after some number of packets. *)
Variable ids : nat -> bytes + error.
Variable resolve : bytes -> option UDPAddr.
Variable dial : option UDPAddr -> bool.
Variable config : flags.

Definition info (msg : bytes) : CL unit := st_modify (fun c => set_logged (msg :: logged c) c).
Definition crit (msg : bytes) : CL unit :=
  info msg;;; (if crit_exits then st_err (Exited msg) else st_ret tt).
(** [if err != nil { log.Crit(msg) }] *)
Definition crit_if (failed : bool) (msg : bytes) : CL unit :=
  if failed then crit msg else st_ret tt.
Definition failed (err : option error) : bool := match err with Some _ => true | None => false end.

(** A getter on the response: the target and the error. *)
Definition get_from {T} (g : Message -> ST T error unit) (target : T) : CL (T * option error) := fun c =>
  match g (res c) target with
  | (t, Ok _) => (c, Ok (t, None))
  | (t, Err e) => (c, Ok (t, Some e))
  | (t, Panic p) => (c, Panic p)
  end.

(** [res.Raw = make([]byte, 0, 1024)]: the attributes keep the old array. *)
Definition with_room (m : Message) : Message :=
  if (bcap (Raw m) <? 800)%nat then
    mkMessage (MType m) (Length m) (TID m) (map (moved_attr (Some (array m))) <$> Attributes m)
      (Buffer (replicate 1024 Byte.x00) 0)
  else m.

(** The reader of the connection. *)
Definition read_conn (r : bytes + error) (n : nat) : bytes * option error :=
  match r with inl b => (b, None) | inr e => ([], Some e) end.

(** [do] *)
Definition do (attrs : list (M unit)) : CL (option error) := fun c =>
  match Build attrs (req c) with
  | (m, Panic p) => (set_req m c, Panic p)
  | (m, Err e) => (info (bs "failed to build");;; st_ret (Some e)) (set_req m c)
  | (m, Ok _) =>
      let c := set_sent (visible (Raw m) :: sent c) (set_req m c) in
      match on_write (sent c) with
      | Some e => (info (bs "failed to write");;; st_ret (Some e)) c
      | None =>
          match ReadFrom (read_conn (on_read (sent c))) (with_room (res c)) with
          | (r, Ok (_, err)) =>
              ((if failed err then info (bs "failed to read") else st_ret tt);;;
               info (bs "got message");;; st_ret err) (set_res r c)
          | (r, Err e) => (set_res r c, Ok (Some e))
          | (r, Panic p) => (set_res r c, Panic p)
          end
      end
  end.

(** [stun.TransactionIDSetter] in the next packet. *)
Definition with_id (attrs : M unit -> list (M unit)) : CL (option error) := fun c =>
  do (attrs (TransactionIDSetter_AddTo (ids (length (sent c))))) c.

(** [if isErr(res) { code.GetFrom(res); log.Crit(...) }]: the code is only shown. *)
Definition refuse_errors (msg : bytes) : CL unit :=
  let! c := st_get in
  if isErr (res c) then
    let! _ := get_from ErrorCodeAttribute_GetFrom (mkErrorCode 0 (fresh [])) in crit msg
  else st_ret tt.

(** * The steps of [main] *)

(** A connection that could not be made is nil, and its address is asked for. *)
Definition connect : CL unit :=
  let raddr := resolve (f_server config) in
  crit_if (bool_decide (raddr = None)) (bs "failed to resolve TURN server ");;;
  if dial raddr then info (bs "dial server ")
  else crit (bs "failed to dial to TURN server ");;; st_panic NilDereference.

(** The request without credentials: the realm and the nonce of the answer. *)
Definition challenge : CL (bytes * bytes) :=
  let! err := with_id (fun tid =>
    [tid; MessageType_AddTo AllocateRequest; RequestedTransportUDP]) in
  crit_if (failed err) (bs "do failed ");;;
  let! c := st_get in
  crit_if (negb (Class (MType (res c)) =? ClassErrorResponse)) (bs "expected error class, got ");;;
  let! code := get_from ErrorCodeAttribute_GetFrom (mkErrorCode 0 (fresh [])) in
  crit_if (failed code.2) (bs "failed to get error code from message ");;;
  crit_if (negb (Code code.1 =? CodeUnauthorised)) (bs "unexpected code of error err:");;;
  let! nonce := get_from Nonce_GetFrom [] in
  crit_if (failed nonce.2) (bs "failed to nonce from message ");;;
  let! realm := get_from Realm_GetFrom [] in
  crit_if (failed realm.2) (bs "failed to get realm from message ");;;
  info (bs "got credentials  ");;;
  info (bs "using integrity ");;;
  st_ret (realm.1, nonce.1).

Section Authenticated.
Variables realm nonce : bytes.
Definition credentials : bytes := NewLongTermIntegrity (f_username config) realm (f_password config).
Definition Username : M unit := Username_AddTo (fresh (f_username config)).
Definition Realm : M unit := Realm_AddTo (fresh realm).
Definition Nonce : M unit := Nonce_AddTo (fresh nonce).
Definition Credentials : M unit := MessageIntegrity_AddTo credentials.

(** The allocation with integrity, in a new request. *)
Definition allocate : CL unit :=
  st_modify (set_req zeroMessage);;;
  let! err := with_id (fun tid =>
    [tid; MessageType_AddTo AllocateRequest; RequestedTransportUDP; Realm; Username; Nonce; Credentials]) in
  crit_if (failed err) (bs "failed to do request ");;;
  refuse_errors (bs "got error response ");;;
  let! reladdr := get_from (RelayedAddress_GetFrom supportsUnaligned) (mkAddress (Buffer [] 0) 0) in
  crit_if (failed reladdr.2) (bs "failed to get relayed address ");;;
  info (bs "relayed address ");;;
  let! maddr := get_from (XORMappedAddress_GetFrom supportsUnaligned) (mkAddress (Buffer [] 0) 0) in
  match maddr.2 with
  | Some ErrAttributeNotFound | None => info (bs "mapped address ")
  | Some _ => crit (bs "failed to decode relayed address ")
  end.

(** The address of the peer, whose resolution may fail. *)
Definition resolve_peer : CL Address :=
  match resolve (f_peer config) with
  | None => crit (bs "failed to resonve addr ");;; st_panic NilDereference
  | Some a => info (bs "peer address ");;; st_ret (mkAddress (Buffer a.1 (length a.1)) a.2)
  end.

Definition permission (peerAddr : Address) : CL unit :=
  let! err := with_id (fun tid =>
    [tid; MessageType_AddTo CreatePermissionRequest; PeerAddress_AddTo supportsUnaligned peerAddr;
     Realm; Nonce; Username; Credentials]) in
  crit_if (failed err) (bs "failed to do request ");;;
  refuse_errors (bs "failed to allocate ");;;
  fun c =>
    match MessageIntegrity_Check credentials (res c) with
    | (m, Ok _) => (set_res m c, Ok tt)
    | (m, Err _) => info (bs "failed to check integrity ") (set_res m c)
    | (m, Panic p) => (set_res m c, Panic p)
    end.

Definition sentData : bytes := bs "Hello world!".
Definition send_indication (peerAddr : Address) : CL unit :=
  let! err := with_id (fun tid =>
    [tid; MessageType_AddTo SendIndication; Data_AddTo (fresh sentData);
     PeerAddress_AddTo supportsUnaligned peerAddr; Fingerprint_AddTo]) in
  crit_if (failed err) (bs "failed to build ");;;
  info (bs "sent data ");;;
  refuse_errors (bs "got error response");;;
  let! data := get_from Data_GetFrom (fresh []) in
  crit_if (failed data.2) (bs "failed to get DATA attribute ");;;
  info (bs "got data ");;;
  let! peer := get_from (PeerAddress_GetFrom supportsUnaligned) (mkAddress (Buffer [] 0) 0) in
  crit_if (failed peer.2) (bs "failed to get peer addr ");;;
  info (bs "peer is :");;;
  let! c := st_get in
  if bool_decide (contents (array (res c)) data.1 = sentData)
  then info (bs "OK") else info (bs "DATA missmatch").

Definition channelNumber : Z := 0x4000.
Definition cdata : ChannelData := mkChannelData channelNumber (bs "hello,data from channel").
Definition channel (peerAddr : Address) : CL unit :=
  let! err := with_id (fun tid =>
    [tid; MessageType_AddTo ChannelBindRequest; ChannelNumber_AddTo 0x4000;
     PeerAddress_AddTo supportsUnaligned peerAddr; Username; Realm; Nonce; Credentials]) in
  crit_if (failed err) (bs "failed to build ");;;
  info (bs "sent data ");;;
  refuse_errors (bs "got error response");;;
  info (bs "channel bind success");;;
  let! err := do [MessageType_AddTo ChannelDataRequest; ChannelData_AddTo cdata] in
  crit_if (failed err) (bs "failed to build ");;;
  refuse_errors (bs "got error response");;;
  let! cdata2 := get_from (ChannelData_GetFrom supportsUnaligned) (mkChannelData 0 []) in
  crit_if (failed cdata2.2) (bs "failed to get channel data ");;;
  crit_if (negb (ChannelNumber cdata2.1 =? channelNumber)) (bs "channel number not equal ");;;
  crit_if (negb (bool_decide (cd_Data cdata2.1 = cd_Data cdata))) (bs "data not equal");;;
  info (bs "received channel data :").

Definition deallocate : CL unit :=
  let! err := with_id (fun tid =>
    [tid; MessageType_AddTo RefreshRequest; Realm; Username; Nonce; ZeroLifetime; Credentials]) in
  crit_if (failed err) (bs "failed to do ");;;
  refuse_errors (bs "got error response").
End Authenticated.

(** [main], unless it runs as the peer. *)
Definition main : CL unit :=
  if (length (f_password config) =? 0)%nat then st_err (Exited (bs "No password set, auth is required."))
  else
    connect;;;
    let! login := challenge in
    allocate login.1 login.2;;;
    let! peerAddr := resolve_peer in
    permission login.1 login.2 peerAddr;;;
    send_indication peerAddr;;;
    channel login.1 login.2 peerAddr;;;
    deallocate login.1 login.2;;;
    info (bs "closing").

(** * The peer: an echo server

    A round reads a packet of at most 1024 bytes and writes it back.  Where a
    failed read leaves no address, nothing can be written. *)
Definition echo_round (packet : bytes * UDPAddr + error) : ST (list (bytes * UDPAddr)) exited unit :=
  match packet with
  | inr _ => if crit_exits then st_err (Exited (bs "failed to read  ")) else st_ret tt
  | inl (body, addr) => st_modify (fun out => out ++ [(take 1024 body, addr)])
  end.
Fixpoint echo_rounds (arriving : list (bytes * UDPAddr + error)) : ST (list (bytes * UDPAddr)) exited unit :=
  match arriving with
  | [] => st_ret tt
  | p :: arriving' => echo_round p;;; echo_rounds arriving'
  end.
Definition crit_else {S A} (msg : bytes) (k : ST S exited A) : ST S exited A :=
  if crit_exits then st_err (Exited msg) else k.

(** [listen]: whether the address can be bound. *)
Definition peer_main (listen : option UDPAddr -> bool) (arriving : list (bytes * UDPAddr + error)) :
    ST (list (bytes * UDPAddr)) exited unit :=
  let parts := SplitHostPort (f_peer config) in
  let laddr := resolve (bs ":" ++ from_option snd [] parts) in
  let serve := echo_rounds arriving in
  let serve := if listen laddr then serve
               else crit_else (bs "failed to listen  ") (st_panic NilDereference) in
  let serve := if bool_decide (laddr = None) then crit_else (bs "failed to resolve UDP addr  ") serve else serve in
  if bool_decide (parts = None) then crit_else (bs "failed to find port in peer address ") serve else serve.
End Client.
