(* ===== verification/TurnClientProps.v ===== *)
(** What the TURN client program achieves: against a server that answers as
    RFC 5766 asks, it goes through all its steps, and its packets are the ones the
    protocol wants. *)
From stdpp Require Import base list sets strings.
From Stdlib Require Import ZArith Lia.
From S2P Require Import Prelude Wire GoFmt GoSlice StunTypes StunMessage StunPacket StunCodec StunBuild.
From S2P Require Import StunAttrs StunAddr Crypto StunIntegrity Turn NetAddr TurnClient.
Open Scope Z_scope.

(** * The echo server *)

(** What arrives goes back to where it came from, at most 1024 bytes of it. *)
Lemma echo_rounds_ok crit_exits l out :
  echo_rounds crit_exits (map inl l) out = (out ++ map (fun p => (take 1024 p.1, p.2)) l, Ok tt).
Proof.
  revert out. induction l as [|[body addr] l IH]; intros out; [cbn; by rewrite app_nil_r|].
  cbn [map echo_rounds]. unfold st_bind. cbn [echo_round st_modify]. unfold st_modify. rewrite IH. by rewrite <- app_assoc.
Qed.

(** * Calls that succeed *)

Definition runs {A} (m : ST client exited A) (c : client) (Q : A -> client -> Prop) : Prop :=
  exists a c', m c = (c', Ok a) /\ Q a c'.

Lemma runs_bind {A B} (m : ST client exited A) (f : A -> ST client exited B) c Q :
  runs m c (fun a c' => runs (f a) c' Q) -> runs (st_bind m f) c Q.
Proof. intros (a & c1 & Hm & b & c2 & Hf & HQ). exists b, c2. unfold st_bind. by rewrite Hm. Qed.
Lemma runs_ret {A} (a : A) c (Q : A -> client -> Prop) : Q a c -> runs (st_ret a) c Q.
Proof. by exists a, c. Qed.
Lemma runs_mono {A} (m : ST client exited A) c (Q Q' : A -> client -> Prop) :
  runs m c Q -> (forall a c', Q a c' -> Q' a c') -> runs m c Q'.
Proof. intros (a & c' & Hm & HQ) Himp. exists a, c'. auto. Qed.
Lemma runs_info msg c (Q : unit -> client -> Prop) : Q tt (set_logged (msg :: logged c) c) -> runs (info msg) c Q.
Proof. by exists tt, (set_logged (msg :: logged c) c). Qed.
Lemma runs_get c (Q : client -> client -> Prop) : Q c c -> runs st_get c Q.
Proof. by exists c, c. Qed.
Lemma runs_get_from {T} (g : Message -> ST T error unit) (y y' : T) c (Q : T * option error -> client -> Prop) :
  g (res c) y = (y', Ok tt) -> Q (y', None) c -> runs (get_from g y) c Q.
Proof. intros Hg HQ. exists (y', None), c. split; [|done]. unfold get_from. by rewrite Hg. Qed.

(** * Packets over the connection *)

Definition usable (c : client) : Prop := reusable (req c) /\ reusable (res c).

(** What fits a message and the buffer of the reader. *)
Definition carried (p : packet) : Prop :=
  type_ok (p_type p) /\ packet_ok p /\ (length (encode_packet p) <= 800)%nat.

Lemma with_room_ok m : reusable m -> reusable (with_room m) /\ (800 <= bcap (Raw (with_room m)))%nat.
Proof.
  intros [Hb Htid]. unfold with_room. destruct (Nat.ltb_spec (bcap (Raw m)) 800); [|by split].
  split; [split; [unfold buffer_ok; cbn; lia|done]|]. change (800 <= 1024)%nat. lia.
Qed.

(** The reader fills the buffer from its beginning. *)
Lemma ReadFrom_decodes data m :
  (0 < length data <= bcap (Raw m))%nat ->
  let m1 := set_Raw (Buffer (splice 0 data (array m)) (length data)) m in
  buffer_ok (Raw m1) /\ visible (Raw m1) = data /\
  ReadFrom (read_conn (inl data)) m = with_error (length data) Decode m1.
Proof.
  intros Hlen m1. assert (buffer_ok (Raw m1) /\ visible (Raw m1) = data) as [Hb Hv].
  { unfold m1, array, buffer_ok, bcap, visible in *. cbn [Raw set_Raw arr blen]. rewrite splice_length by (cbn; lia).
    split; [lia|]. exact (take_splice_end 0 data _ (proj2 Hlen)). }
  split; [done|]. split; [done|]. unfold ReadFrom. cbn [read_conn].
  rewrite (take_ge data (bcap (Raw m))) by lia.
  rewrite (proj2 (Nat.eqb_neq _ _)) by lia. unfold reslice_raw, set_len, st_bind.
  cbn [Raw set_Raw]. rewrite write_at_bcap by lia. by rewrite (proj2 (Nat.leb_le _ _)) by lia.
Qed.

Section Session.
Context `{GoRuntime}.
Variable supportsUnaligned crit_exits : bool.
Variable on_write : list bytes -> option error.
Variable on_read : list bytes -> bytes + error.
Variable ids : nat -> bytes + error.

Lemma ReadFrom_packet p m :
  carried p -> buffer_ok (Raw m) -> (800 <= bcap (Raw m))%nat ->
  exists m' n, ReadFrom (read_conn (inl (encode_packet p))) m = (m', Ok (n, None)) /\ well_formed m' /\ abs m' = p.
Proof.
  intros (Hty & Hok & Hlen) Hb Hcap.
  assert (0 < length (encode_packet p))%nat as Hpos.
  { unfold encode_packet. rewrite length_app, encode_header_length by apply Hok. lia. }
  destruct (ReadFrom_decodes (encode_packet p) m) as (Hb1 & Hv1 & ->); [lia|].
  set (m1 := set_Raw _ m) in *. unfold with_error.
  destruct (Decode_wire m1 p Hb1) as (m2 & -> & Hdec).
  { rewrite Hv1, <- (app_nil_r (encode_packet p)). by apply encode_packet_wire. }
  exists m2, (length (encode_packet p)). split; [done|]. split; [by apply (decoded_well_formed m1 m2 p)|by destruct Hdec].
Qed.

(** [do] with a request that is built, and a response that is read. *)
Lemma do_runs attrs c m r m' n (Q : option error -> client -> Prop) :
  Build attrs (req c) = (m, Ok tt) ->
  on_write (visible (Raw m) :: sent c) = None -> on_read (visible (Raw m) :: sent c) = r ->
  ReadFrom (read_conn r) (with_room (res c)) = (m', Ok (n, None)) ->
  Q None (mkClient m m' (visible (Raw m) :: sent c) (bs "got message" :: logged c)) ->
  runs (do on_write on_read attrs) c Q.
Proof.
  intros HB Hw Hr HR HQ. do 2 eexists. split; [|exact HQ]. unfold do. rewrite HB. cbn [sent set_req set_sent res].
  by rewrite Hw, Hr, HR.
Qed.

Lemma do_packet attrs c q p (Q : option error -> client -> Prop) :
  usable c -> (exists m, Build attrs (req c) = (m, Ok tt) /\ well_formed m /\ abs m = q) -> carried p ->
  on_write (encode_packet q :: sent c) = None -> on_read (encode_packet q :: sent c) = inl (encode_packet p) ->
  (forall m r, reusable m -> well_formed r -> abs r = p ->
     Q None (mkClient m r (encode_packet q :: sent c) (bs "got message" :: logged c))) ->
  runs (do on_write on_read attrs) c Q.
Proof.
  intros [_ Hres] (m & HB & Hwf & <-) Hp Hw Hr HQ.
  destruct (with_room_ok _ Hres) as [[Hb _] Hcap].
  destruct (ReadFrom_packet p _ Hp Hb Hcap) as (m' & n & HR & Hwf' & Habs).
  assert (visible (Raw m) = encode_packet (abs m)) as Hraw by apply Hwf.
  apply (do_runs attrs c m (inl (encode_packet p)) m' n); rewrite ?Hraw; [done..|].
  apply HQ; [by apply well_formed_reusable|done|done].
Qed.

(** A request with a random id. *)
Lemma with_id_packet t tid setters l tail ftail c q p (Q : option error -> client -> Prop) :
  usable c -> ids (length (sent c)) = inl tid -> length tid = TransactionIDSize ->
  Forall2 (adds_in tid) setters l -> packet_ok (Packet t tid l) ->
  Forall2 Implements tail ftail -> leads ftail (Packet t tid l) q -> carried p ->
  on_write (encode_packet q :: sent c) = None -> on_read (encode_packet q :: sent c) = inl (encode_packet p) ->
  (forall m r, reusable m -> well_formed r -> abs r = p ->
     Q None (mkClient m r (encode_packet q :: sent c) (bs "got message" :: logged c))) ->
  runs (with_id on_write on_read ids (fun id => [id; MessageType_AddTo t] ++ setters ++ tail)) c Q.
Proof.
  intros Hc Hid Htid Hs Hok Htl Hlt Hp Hw Hr HQ. unfold with_id, runs. rewrite Hid.
  apply (do_packet _ c q p); [done| |done..]. apply (Build_message tid t setters l tail ftail); [done|apply Hc|done..].
Qed.

(** A frame in, a frame out. *)
Lemma do_frame f f' c (Q : option error -> client -> Prop) :
  usable c -> MinChannelNumber <= ChannelNumber f <= MaxChannelNumber ->
  MinChannelNumber <= ChannelNumber f' <= MaxChannelNumber -> zlen (cd_Data f') <= 796 ->
  on_write (channel_bytes f :: sent c) = None -> on_read (channel_bytes f :: sent c) = inl (channel_bytes f') ->
  (forall m r, reusable m -> reusable r -> MType r = NewType MethodChannelData ClassSuccessResponse ->
     visible (Raw r) = channel_bytes f' ->
     Q None (mkClient m r (channel_bytes f :: sent c) (bs "got message" :: logged c))) ->
  runs (do on_write on_read [MessageType_AddTo ChannelDataRequest; ChannelData_AddTo f]) c Q.
Proof.
  intros [Hreq Hres] Hf Hf' Hlen Hw Hr HQ.
  destruct (with_room_ok _ Hres) as [[Hb Htid] Hcap].
  destruct (Build_leads [MessageType_AddTo ChannelDataRequest] [fun p => Ok (with_type ChannelDataRequest p)]
              (req c) (Packet ChannelDataRequest (TID (req c)) [])) as (m0 & HB & Hwf & Habs).
  { constructor; [apply MessageType_implements|constructor]. }
  { done. }
  { apply leads_cons with (Packet ChannelDataRequest (TID (req c)) []); [done| |apply leads_nil].
    split; [apply Hreq|]. split; [by constructor|]. cbn. lia. }
  destruct (ChannelData_AddTo_spec f m0) as (m & HA & Hvis & _ & HT & Hbm).
  { change (MType m0) with (p_type (abs m0)). by rewrite Habs. }
  { done. }
  assert (length (channel_bytes f') = (4 + length (cd_Data f'))%nat) as Hl by done. unfold zlen in Hlen.
  destruct (ReadFrom_decodes (channel_bytes f') (with_room (res c))) as (Hb1 & Hv1 & HR); [lia|].
  unfold with_error in HR. rewrite (Decode_frame f' _ Hf' Hv1) in HR.
  rewrite (proj2 (Z.ltb_lt _ _)) in HR by (unfold zlen; lia).
  eapply (do_runs _ c m); rewrite ?Hvis; [| |exact Hr|exact HR|].
  - unfold Build, st_bind in *. destruct (Reset (req c)) as [x1 [[]| |]]; [|done..].
    destruct (WriteHeader x1) as [x2 [[]| |]]; [|done..]. cbn [add_all] in *. unfold st_bind in *.
    destruct (MessageType_AddTo _ x2) as [x3 [[]| |]]; [|done..]. cbn in HB. injection HB as ->. by rewrite HA.
  - done.
  - apply HQ; [| |done|done].
    + split; [done|]. rewrite HT. change (TID m0) with (p_tid (abs m0)). rewrite Habs. apply Hreq.
    + by split.
Qed.
End Session.

(** * The packets of the protocol *)

Section Requests.
Variables (config : flags) (realm nonce : bytes) (peer : UDPAddr) (tid : bytes).
Definition client_key : bytes := credentials config realm.
Definition transport_attr : Z * bytes := (AttrRequestedTransport, [ProtoUDP; Byte.x00; Byte.x00; Byte.x00]).
Definition realm_attr : Z * bytes := (AttrRealm, realm).
Definition nonce_attr : Z * bytes := (AttrNonce, nonce).
Definition user_attr : Z * bytes := (AttrUsername, f_username config).
Definition peer_attr : Z * bytes := (AttrXORPeerAddress, xor_address_value tid peer.1 peer.2).

Definition challenge_request : packet := Packet AllocateRequest tid [transport_attr].
Definition allocate_request : packet :=
  with_integrity client_key (Packet AllocateRequest tid [transport_attr; realm_attr; user_attr; nonce_attr]).
Definition permission_request : packet :=
  with_integrity client_key (Packet CreatePermissionRequest tid [peer_attr; realm_attr; nonce_attr; user_attr]).
Definition send_request : packet :=
  with_fingerprint (Packet SendIndication tid [(AttrData, sentData); peer_attr]).
Definition bind_request : packet :=
  with_integrity client_key (Packet ChannelBindRequest tid
    [(AttrChannelNumber, put16 0x4000 ++ [Byte.x00; Byte.x00]); peer_attr; user_attr; realm_attr; nonce_attr]).
Definition release_request : packet :=
  with_integrity client_key (Packet RefreshRequest tid
    [realm_attr; user_attr; nonce_attr; (AttrLifetime, put32 0)]).
End Requests.

(** ** They fit *)

Definition bound (l : list (Z * bytes)) : nat := foldr (fun a n => length a.2 + 7 + n)%nat 0%nat l.

Lemma encode_attrs_bound l :
  (length (encode_attrs l) <= bound l)%nat.
Proof.
  induction l as [|a l IH]; [done|]. rewrite encode_attrs_cons, length_app, encode_attr_length.
  pose proof (padded_spec (length a.2)) as [? _]. change (bound (a :: l)) with (length a.2 + 7 + bound l)%nat. lia.
Qed.

Lemma with_integrity_ok key t tid l :
  length tid = TransactionIDSize -> Forall (fun a => 0 <= a.1 < 2 ^ 16) l ->
  Z.of_nat (bound l) <= 65000 ->
  packet_ok (with_integrity key (Packet t tid l)).
Proof.
  intros Htid Hl Hsum. pose proof (encode_attrs_bound l) as Hb. split; [done|].
  unfold with_integrity, with_attr. cbn [p_attrs p_tid p_type].
  split; [apply Forall_app; split; [done|]; repeat constructor; by vm_compute|].
  rewrite encode_attrs_app, length_app, encode_attrs_singleton, encode_attr_length. cbn [snd].
  unfold integrity_value, newHMAC. rewrite hmac_sha1_length. change (nearestPaddedValueLength 20) with 20%nat. lia.
Qed.

Lemma xor_value_size tid ip port : ip_ok ip -> (length (xor_address_value tid ip port) <= 20)%nat.
Proof.
  intros Hip. unfold xor_address_value. rewrite !length_app, !put16_length, xor_list_length.
  pose proof (normal_ip_length ip Hip). lia.
Qed.

Section Endings.
Context `{GoRuntime}.

Lemma integrity_leads key p :
  lookup_attr AttrFingerprint (p_attrs p) = None -> packet_ok (with_integrity key p) ->
  leads [fun p => if bool_decide (is_Some (lookup_attr AttrFingerprint (p_attrs p)))
                  then Err ErrFingerprintBeforeIntegrity
                  else Ok (with_attr (AttrMessageIntegrity, integrity_value key p) p)] p (with_integrity key p).
Proof.
  intros Hfp Hok. apply leads_cons with (with_integrity key p); [|done|apply leads_nil].
  rewrite Hfp, bool_decide_false by (by intros [? [=]]). done.
Qed.

Lemma fingerprint_leads p :
  packet_ok (with_fingerprint p) ->
  leads [fun p => Ok (with_attr (AttrFingerprint, fingerprint_value p) p)] p (with_fingerprint p).
Proof. intros Hok. by apply leads_cons with (with_fingerprint p); [|done|apply leads_nil]. Qed.

Lemma transport_adds tid : adds_in tid RequestedTransportUDP transport_attr.
Proof. apply adds_adds_in. exact (Add_implements AttrRequestedTransport _). Qed.
Lemma text_adds_in tid v t maxLen : zlen v <= maxLen -> adds_in tid (TextAttribute_AddToAs (fresh v) t maxLen) (t, v).
Proof. intros Hv. by apply adds_adds_in, text_adds. Qed.
Lemma peer_adds u tid peer :
  ip_ok peer.1 ->
  adds_in tid (PeerAddress_AddTo u (mkAddress (Buffer peer.1 (length peer.1)) peer.2)) (peer_attr peer tid).
Proof.
  intros Hip. eexists. split; [pose proof (XORMappedAddress_implements u peer.1 peer.2 AttrXORPeerAddress []) as Hi;
    rewrite app_nil_r in Hi; exact Hi|].
  intros p <-. cbv beta. by rewrite bool_decide_true by exact Hip.
Qed.
End Endings.

(** * A server that answers as the protocol asks *)

Record dialogue := mkDialogue {
  d_realm : bytes;
  d_nonce : bytes;
  d_peer : UDPAddr;
  d_tid : nat -> bytes;
  r_challenge : packet;
  r_allocated : packet;
  r_permitted : packet;
  r_data : packet;
  r_bound : packet;
  r_released : packet
}.

Definition granted (p : packet) : Prop := carried p /\ Class (p_type p) <> ClassErrorResponse.
Definition shows_address (t : Z) (p : packet) : Prop :=
  exists a : bytes * Z, ip_ok a.1 /\ 0 <= a.2 < 2 ^ 16 /\
    lookup_attr t (p_attrs p) = Some (xor_address_value (p_tid p) a.1 a.2).

(** The challenge is a 401 with a realm and a nonce; the allocation shows the
    relayed and the mapped address; the answer to the permission is protected by the
    client's key; the data came from a peer.  Transaction ids need not match: the
    client does not compare them. *)
Record legal (config : flags) (d : dialogue) : Prop := {
  l_tid : forall n, (n < 7)%nat -> length (d_tid d n) = TransactionIDSize;
  l_user : zlen (f_username config) <= maxUsernameB;
  l_realm : zlen (d_realm d) <= maxRealmB;
  l_nonce : zlen (d_nonce d) <= maxNonceB;
  l_peer : ip_ok (d_peer d).1 /\ 0 <= (d_peer d).2 < 2 ^ 16;
  l_challenge : carried (r_challenge d) /\ Class (p_type (r_challenge d)) = ClassErrorResponse;
  l_code : exists reason, lookup_attr AttrErrorCode (p_attrs (r_challenge d)) =
             Some (error_code_value CodeUnauthorised reason);
  l_challenge_nonce : lookup_attr AttrNonce (p_attrs (r_challenge d)) = Some (d_nonce d);
  l_challenge_realm : lookup_attr AttrRealm (p_attrs (r_challenge d)) = Some (d_realm d);
  l_allocated : granted (r_allocated d);
  l_relayed : shows_address AttrXORRelayedAddress (r_allocated d);
  l_mapped : shows_address AttrXORMappedAddress (r_allocated d);
  l_permitted : granted (r_permitted d);
  l_protected : exists q, lookup_attr AttrMessageIntegrity (p_attrs q) = None /\
                  r_permitted d = with_integrity (client_key config (d_realm d)) q;
  l_data : granted (r_data d);
  l_echoed : lookup_attr AttrData (p_attrs (r_data d)) = Some sentData;
  l_from : shows_address AttrXORPeerAddress (r_data d);
  l_bound : granted (r_bound d);
  l_released : granted (r_released d)
}.

(** What is sent and what arrives, in order. *)
Definition exchange (config : flags) (d : dialogue) : list (bytes * bytes) :=
  let realm := d_realm d in
  let nonce := d_nonce d in
  let tid := d_tid d in
  [(encode_packet (challenge_request (tid 0%nat)), encode_packet (r_challenge d));
   (encode_packet (allocate_request config realm nonce (tid 1%nat)), encode_packet (r_allocated d));
   (encode_packet (permission_request config realm nonce (d_peer d) (tid 2%nat)), encode_packet (r_permitted d));
   (encode_packet (send_request (d_peer d) (tid 3%nat)), encode_packet (r_data d));
   (encode_packet (bind_request config realm nonce (d_peer d) (tid 4%nat)), encode_packet (r_bound d));
   (channel_bytes cdata, channel_bytes cdata);
   (encode_packet (release_request config realm nonce (tid 6%nat)), encode_packet (r_released d))].

Definition answered (on_write : list bytes -> option error) (on_read : list bytes -> bytes + error)
    (l : list (bytes * bytes)) : Prop :=
  forall i q r, l !! i = Some (q, r) ->
    on_write (reverse (take (S i) l.*1)) = None /\ on_read (reverse (take (S i) l.*1)) = inl r.

(** The log of a run without complaints, oldest first. *)
Definition success_log : list bytes :=
  map bs
  ["dial server "; "got message"; "got credentials  "; "using integrity ";
   "got message"; "relayed address "; "mapped address "; "peer address "; "got message";
   "got message"; "sent data "; "got data "; "peer is :"; "OK";
   "got message"; "sent data "; "channel bind success"; "got message"; "received channel data :";
   "got message"; "closing"]%string.

Section Run.
Context `{GoRuntime}.
Variable supportsUnaligned crit_exits : bool.
Variable on_write : list bytes -> option error.
Variable on_read : list bytes -> bytes + error.
Variable ids : nat -> bytes + error.
Variable resolve : bytes -> option UDPAddr.
Variable dial : option UDPAddr -> bool.
Variable config : flags.
Variable d : dialogue.
Hypothesis Hlegal : legal config d.
Hypothesis Hids : forall n, (n < 7)%nat -> ids n = inl (d_tid d n).
Hypothesis Hanswered : answered on_write on_read (exchange config d).

(** After the [n]th packet. *)
Definition at_step (n k : nat) (c : client) : Prop :=
  usable c /\ sent c = reverse (take n (exchange config d).*1) /\ logged c = reverse (take k success_log).

Lemma runs_refuse msg (c : client) (Q : unit -> client -> Prop) :
  Class (MType (res c)) <> ClassErrorResponse -> Q tt c -> runs (refuse_errors crit_exits msg) c Q.
Proof.
  intros Hc HQ. exists tt, c. split; [|done]. unfold refuse_errors, isErr, st_bind, st_get.
  by rewrite (proj2 (Z.eqb_neq _ _)).
Qed.

Lemma runs_address t (c : client) (Q : Address * option error -> client -> Prop) :
  well_formed (res c) -> shows_address t (abs (res c)) ->
  (forall a, Q (a, None) c) ->
  runs (get_from (XORMappedAddress_GetFromAs supportsUnaligned t) (mkAddress (Buffer [] 0) 0)) c Q.
Proof.
  intros Hwf (a & Hip & Hport & Hl) HQ.
  destruct (codec_get_ok (Codec := xor_address_codec supportsUnaligned t) (res c) a (mkAddress (Buffer [] 0) 0)) as (y & Hy & _).
  - done.
  - cbn. unfold buffer_ok. cbn. lia.
  - apply Hwf.
  - exact Hl.
  - by apply (runs_get_from _ _ y).
Qed.

(** One request of the dialogue. *)
Lemma request_runs n t setters l tail ftail q p c k (Q : option error -> client -> Prop) :
  at_step n k c -> (n < 7)%nat ->
  Forall2 (adds_in (d_tid d n)) setters l -> packet_ok (Packet t (d_tid d n) l) ->
  Forall2 Implements tail ftail -> leads ftail (Packet t (d_tid d n) l) q -> carried p ->
  exchange config d !! n = Some (encode_packet q, encode_packet p) ->
  (forall m r, reusable m -> well_formed r -> abs r = p ->
     Q None (mkClient m r (reverse (take (S n) (exchange config d).*1)) (bs "got message" :: logged c))) ->
  runs (with_id on_write on_read ids (fun id => [id; MessageType_AddTo t] ++ setters ++ tail)) c Q.
Proof.
  intros (Hu & Hs & _) Hn Hset Hok Htl Hlt Hp Hx HQ.
  assert (take (S n) (exchange config d).*1 = take n (exchange config d).*1 ++ [encode_packet q]) as Hnext.
  { apply take_S_r. rewrite list_lookup_fmap, Hx. done. }
  assert (reverse (take (S n) (exchange config d).*1) = encode_packet q :: sent c) as Hsent.
  { by rewrite Hnext, reverse_snoc, Hs. }
  destruct (Hanswered n _ _ Hx) as [Hw Hr]. rewrite Hsent in Hw, Hr, HQ.
  apply (with_id_packet _ _ _ t (d_tid d n) setters l tail ftail c q p); try done.
  - rewrite Hs, length_reverse, length_take, length_fmap. change (length (exchange config d)) with 7%nat.
    rewrite Nat.min_l by lia. by apply Hids.
  - by apply Hlegal.
Qed.

Lemma at_step_intro n k m r s l :
  reusable m -> reusable r -> s = reverse (take n (exchange config d).*1) -> l = reverse (take k success_log) ->
  at_step n k (mkClient m r s l).
Proof. by intros. Qed.

(** The end of a step: the log, read off. *)
Ltac logs Hl := apply at_step_intro; cbn [logged set_logged set_req set_res res req sent]; [done|by first [done|apply well_formed_reusable]|reflexivity|by rewrite Hl].
(** Sizes of the requests. *)
Ltac types := repeat (apply Forall_cons; split; [cbn; by vm_compute|]); constructor.
Ltac fitting :=
  apply with_integrity_ok;
  [by apply Hlegal; lia|types|
   pose proof (l_user _ _ Hlegal); pose proof (l_realm _ _ Hlegal); pose proof (l_nonce _ _ Hlegal);
   pose proof (xor_value_size (d_tid d 2%nat) (d_peer d).1 (d_peer d).2 (proj1 (l_peer _ _ Hlegal)));
   pose proof (xor_value_size (d_tid d 3%nat) (d_peer d).1 (d_peer d).2 (proj1 (l_peer _ _ Hlegal)));
   pose proof (xor_value_size (d_tid d 4%nat) (d_peer d).1 (d_peer d).2 (proj1 (l_peer _ _ Hlegal)));
   unfold zlen, maxUsernameB, maxRealmB, maxNonceB in *; unfold bound, peer_attr; cbn [foldr snd length transport_attr realm_attr nonce_attr user_attr];
   rewrite ?length_app, ?put16_length, ?put32_length; change (length sentData) with 12%nat; cbn [length]; lia].

Lemma challenge_runs c :
  at_step 0 1 c ->
  runs (challenge crit_exits on_write on_read ids) c
    (fun login c' => login = (d_realm d, d_nonce d) /\ at_step 1 4 c').
Proof.
  intros Hc. pose proof Hc as (_ & _ & Hl). apply runs_bind.
  apply (request_runs 0 AllocateRequest [RequestedTransportUDP] [transport_attr] [] []
    (challenge_request (d_tid d 0%nat)) (r_challenge d) c 1); [done|lia| | |constructor|apply leads_nil|apply Hlegal|done|].
  { constructor; [apply transport_adds|constructor]. }
  { apply (packet_ok_prefix _ [(AttrMessageIntegrity, integrity_value [] (challenge_request (d_tid d 0%nat)))]).
    change (packet_ok (with_integrity [] (challenge_request (d_tid d 0%nat)))). fitting. }
  intros m r Hm Hwf Habs.
  apply runs_bind, runs_ret, runs_bind, runs_get. cbn [res].
  change (MType r) with (p_type (abs r)). rewrite Habs, (proj2 (l_challenge _ _ Hlegal)). cbn [Z.eqb Pos.eqb negb crit_if].
  apply runs_bind, runs_ret. destruct (l_code _ _ Hlegal) as [reason Hcode].
  destruct (ErrorCodeAttribute_GetFrom_spec r (mkErrorCode 0 (fresh [])) CodeUnauthorised reason)
    as (y & Hy & Hshow & _); [by vm_compute|by rewrite Habs|].
  apply runs_bind, (runs_get_from _ _ y); [done|]. apply runs_bind, runs_ret. cbn [fst]. rewrite Hshow.
  apply runs_bind, runs_ret.
  destruct (codec_get_ok (Codec := text_codec AttrNonce maxNonceB) r (d_nonce d) []) as (n & Hn & ->);
    [apply Hlegal|done|apply Hwf|rewrite Habs; apply Hlegal|].
  apply runs_bind, (runs_get_from _ _ (d_nonce d)); [exact Hn|]. apply runs_bind, runs_ret.
  destruct (codec_get_ok (Codec := text_codec AttrRealm maxRealmB) r (d_realm d) []) as (n' & Hn' & ->);
    [apply Hlegal|done|apply Hwf|rewrite Habs; apply Hlegal|].
  apply runs_bind, (runs_get_from _ _ (d_realm d)); [exact Hn'|]. apply runs_bind, runs_ret.
  apply runs_bind, runs_info, runs_bind, runs_info, runs_ret. split; [done|]. logs Hl.
Qed.

Abbreviation realm := (d_realm d).
Abbreviation nonce := (d_nonce d).
Abbreviation peer_address := (mkAddress (Buffer (d_peer d).1 (length (d_peer d).1)) (d_peer d).2).
Abbreviation key := (client_key config realm).

(** The attributes of the client itself. *)
Lemma realm_adds tid : adds_in tid (Realm realm) (realm_attr realm).
Proof. apply (text_adds_in _ _ _ maxRealmB), Hlegal. Qed.
Lemma nonce_adds tid : adds_in tid (Nonce nonce) (nonce_attr nonce).
Proof. apply (text_adds_in _ _ _ maxNonceB), Hlegal. Qed.
Lemma user_adds tid : adds_in tid (Username config) (user_attr config).
Proof. apply (text_adds_in _ _ _ maxUsernameB), Hlegal. Qed.
Lemma peer_adds_in tid : adds_in tid (PeerAddress_AddTo supportsUnaligned peer_address) (peer_attr (d_peer d) tid).
Proof. apply peer_adds, Hlegal. Qed.

(** A request protected by the client's key. *)
Lemma protected_runs n t setters l p c k (Q : option error -> client -> Prop) :
  let q := Packet t (d_tid d n) l in
  at_step n k c -> (n < 7)%nat -> Forall2 (adds_in (d_tid d n)) setters l ->
  lookup_attr AttrFingerprint l = None -> packet_ok (with_integrity key q) -> carried p ->
  exchange config d !! n = Some (encode_packet (with_integrity key q), encode_packet p) ->
  (forall m r, reusable m -> well_formed r -> abs r = p ->
     Q None (mkClient m r (reverse (take (S n) (exchange config d).*1)) (bs "got message" :: logged c))) ->
  runs (with_id on_write on_read ids (fun id => [id; MessageType_AddTo t] ++ setters ++ [Credentials config realm])) c Q.
Proof.
  intros q Hc Hn Hs Hfp Hok Hp Hx HQ.
  apply (request_runs n t setters l _ [fun p => if bool_decide (is_Some (lookup_attr AttrFingerprint (p_attrs p)))
    then Err ErrFingerprintBeforeIntegrity else Ok (with_attr (AttrMessageIntegrity, integrity_value key p) p)]
    (with_integrity key q) p c k); try done.
  - by eapply packet_ok_prefix.
  - constructor; [apply MessageIntegrity_implements|constructor].
  - by apply integrity_leads.
Qed.

Lemma granted_class p r : granted p -> abs r = p -> Class (MType r) <> ClassErrorResponse.
Proof. intros [_ Hc] Habs. change (MType r) with (p_type (abs r)). by rewrite Habs. Qed.

Lemma allocate_runs c :
  at_step 1 4 c ->
  runs (allocate supportsUnaligned crit_exits on_write on_read ids config realm nonce) c (fun _ => at_step 2 7).
Proof.
  intros ((Hq & Hr) & Hs & Hl). apply runs_bind. exists tt. eexists. split; [reflexivity|].
  apply runs_bind. apply (protected_runs 1 AllocateRequest
    [RequestedTransportUDP; Realm realm; Username config; Nonce nonce]
    [transport_attr; realm_attr realm; user_attr config; nonce_attr nonce] (r_allocated d) _ 4).
  - split; [split; [apply zeroMessage_reusable|done]|done].
  - lia.
  - constructor; [apply transport_adds|]. constructor; [apply realm_adds|]. constructor; [apply user_adds|].
    constructor; [apply nonce_adds|constructor].
  - done.
  - fitting.
  - apply Hlegal.
  - done.
  - intros m r Hm Hwf Habs. apply runs_bind, runs_ret, runs_bind, runs_refuse; cbn [res].
    { by apply (granted_class _ _ (l_allocated _ _ Hlegal)). }
    apply runs_bind, runs_address; [done|cbn [res]; rewrite Habs; apply Hlegal|intros a].
    apply runs_bind, runs_ret, runs_bind, runs_info, runs_bind, runs_address;
      [done|cbn [res set_logged]; rewrite Habs; apply Hlegal|intros a'].
    apply runs_info. logs Hl.
Qed.

Lemma permission_runs c :
  at_step 2 8 c ->
  runs (permission supportsUnaligned crit_exits on_write on_read ids config realm nonce peer_address) c
    (fun _ => at_step 3 9).
Proof.
  intros Hc. pose proof Hc as (_ & _ & Hl). apply runs_bind. apply (protected_runs 2 CreatePermissionRequest
    [PeerAddress_AddTo supportsUnaligned peer_address; Realm realm; Nonce nonce; Username config]
    [peer_attr (d_peer d) (d_tid d 2%nat); realm_attr realm; nonce_attr nonce; user_attr config] (r_permitted d) _ 8).
  - done.
  - lia.
  - constructor; [apply peer_adds_in|]. constructor; [apply realm_adds|]. constructor; [apply nonce_adds|].
    constructor; [apply user_adds|constructor].
  - done.
  - fitting.
  - apply Hlegal.
  - done.
  - intros m r Hm Hwf Habs. apply runs_bind, runs_ret, runs_bind, runs_refuse; cbn [res].
    { by apply (granted_class _ _ (l_permitted _ _ Hlegal)). }
    destruct (l_protected _ _ Hlegal) as (q & Hmi & Heq).
    assert (r_permitted d = with_attrs [] (with_integrity key q)) as Heq'.
    { rewrite Heq. unfold with_attrs, with_integrity, with_attr. cbn [p_attrs p_type p_tid]. by rewrite app_nil_r. }
    destruct (integrity_accepts key r q [] Hmi Hwf) as (r' & HC & Hwf' & _); [by rewrite Habs|].
    exists tt. eexists. split; [cbn [res]; change (credentials config realm) with key; by rewrite HC|]. logs Hl.
Qed.

Lemma send_indication_runs c :
  at_step 3 9 c ->
  runs (send_indication supportsUnaligned crit_exits on_write on_read ids peer_address) c (fun _ => at_step 4 14).
Proof.
  intros Hc. pose proof Hc as (_ & _ & Hl). apply runs_bind. apply (request_runs 3 SendIndication
    [Data_AddTo (fresh sentData); PeerAddress_AddTo supportsUnaligned peer_address]
    [(AttrData, sentData); peer_attr (d_peer d) (d_tid d 3%nat)] [Fingerprint_AddTo]
    [fun p => Ok (with_attr (AttrFingerprint, fingerprint_value p) p)]
    (send_request (d_peer d) (d_tid d 3%nat)) (r_data d) _ 9).
  - done.
  - lia.
  - constructor; [apply adds_adds_in; exact (Add_implements AttrData _)|]. constructor; [apply peer_adds_in|constructor].
  - apply (packet_ok_prefix _ [(AttrMessageIntegrity, integrity_value [] (Packet SendIndication (d_tid d 3%nat)
      [(AttrData, sentData); peer_attr (d_peer d) (d_tid d 3%nat)]))]).
    change (packet_ok (with_integrity [] (Packet SendIndication (d_tid d 3%nat)
      [(AttrData, sentData); peer_attr (d_peer d) (d_tid d 3%nat)]))). fitting.
  - constructor; [apply Fingerprint_implements|constructor].
  - apply fingerprint_leads. split; [by apply Hlegal; lia|]. split; [types|].
    pose proof (xor_value_size (d_tid d 3%nat) (d_peer d).1 (d_peer d).2 (proj1 (l_peer _ _ Hlegal))).
    pose proof (encode_attrs_bound (p_attrs (send_request (d_peer d) (d_tid d 3%nat)))) as Hb.
    change (bound _) with (12 + 7 + (length (peer_attr (d_peer d) (d_tid d 3%nat)).2 + 7 + 11))%nat in Hb. cbn [snd peer_attr] in Hb.
    unfold send_request in Hb. lia.
  - apply Hlegal.
  - done.
  - intros m r Hm Hwf Habs. apply runs_bind, runs_ret, runs_bind, runs_info, runs_bind, runs_refuse; cbn [res set_logged].
    { by apply (granted_class _ _ (l_data _ _ Hlegal)). }
    destruct (codec_get_ok (Codec := data_codec) r sentData (fresh [])) as (v & Hv & Hshow);
      [done|done|apply Hwf|rewrite Habs; apply Hlegal|].
    apply runs_bind, (runs_get_from _ _ v); [exact Hv|]. apply runs_bind, runs_ret, runs_bind, runs_info.
    apply runs_bind, runs_address; [done|cbn [res set_logged]; rewrite Habs; apply Hlegal|intros a].
    apply runs_bind, runs_ret, runs_bind, runs_info, runs_bind, runs_get. cbn [res set_logged fst].
    rewrite bool_decide_true by exact Hshow. apply runs_info. logs Hl.
Qed.

Lemma channel_runs c :
  at_step 4 14 c ->
  runs (channel supportsUnaligned crit_exits on_write on_read ids config realm nonce peer_address) c
    (fun _ => at_step 6 19).
Proof.
  intros Hc. pose proof Hc as (_ & _ & Hl). apply runs_bind. apply (protected_runs 4 ChannelBindRequest
    [ChannelNumber_AddTo 0x4000; PeerAddress_AddTo supportsUnaligned peer_address; Username config; Realm realm;
     Nonce nonce]
    [(AttrChannelNumber, put16 0x4000 ++ [Byte.x00; Byte.x00]); peer_attr (d_peer d) (d_tid d 4%nat);
     user_attr config; realm_attr realm; nonce_attr nonce] (r_bound d) _ 14).
  - done.
  - lia.
  - constructor; [apply adds_adds_in; exact (Add_implements AttrChannelNumber _)|]. constructor; [apply peer_adds_in|].
    constructor; [apply user_adds|]. constructor; [apply realm_adds|]. constructor; [apply nonce_adds|constructor].
  - done.
  - fitting.
  - apply Hlegal.
  - done.
  - intros m r Hm Hwf Habs. apply runs_bind, runs_ret, runs_bind, runs_info, runs_bind, runs_refuse; cbn [res set_logged].
    { by apply (granted_class _ _ (l_bound _ _ Hlegal)). }
    apply runs_bind, runs_info, runs_bind.
    destruct (Hanswered 5%nat (channel_bytes cdata) (channel_bytes cdata) eq_refl) as [Hw Hr].
    apply (do_frame _ _ cdata cdata);
      [split; [done|by apply well_formed_reusable]|by vm_compute|by vm_compute|by vm_compute|exact Hw|exact Hr|].
    intros m' r' Hm' Hr' Hty Hvis. apply runs_bind, runs_ret, runs_bind, runs_refuse; cbn [res set_logged].
    { by rewrite Hty. }
    apply runs_bind, (runs_get_from _ _ cdata).
    { apply ChannelData_GetFrom_frame; [by vm_compute|by vm_compute|cbn [res]; by rewrite Hty|done]. }
    apply runs_bind, runs_ret, runs_bind, runs_ret, runs_bind, runs_ret, runs_info. logs Hl.
Qed.

Lemma deallocate_runs c :
  at_step 6 19 c ->
  runs (deallocate crit_exits on_write on_read ids config realm nonce) c (fun _ => at_step 7 20).
Proof.
  intros Hc. pose proof Hc as (_ & _ & Hl). apply runs_bind. apply (protected_runs 6 RefreshRequest
    [Realm realm; Username config; Nonce nonce; ZeroLifetime]
    [realm_attr realm; user_attr config; nonce_attr nonce; (AttrLifetime, put32 0)] (r_released d) _ 19).
  - done.
  - lia.
  - constructor; [apply realm_adds|]. constructor; [apply user_adds|]. constructor; [apply nonce_adds|].
    constructor; [apply adds_adds_in; exact (Add_implements AttrLifetime _)|constructor].
  - done.
  - fitting.
  - apply Hlegal.
  - done.
  - intros m r Hm Hwf Habs. apply runs_bind, runs_ret, runs_refuse; cbn [res].
    { by apply (granted_class _ _ (l_released _ _ Hlegal)). }
    logs Hl.
Qed.

Hypothesis Hpassword : f_password config <> [].
Hypothesis Hserver : is_Some (resolve (f_server config)).
Hypothesis Hdial : dial (resolve (f_server config)) = true.
Hypothesis Hpeer : resolve (f_peer config) = Some (d_peer d).

Lemma main_runs :
  runs (main supportsUnaligned crit_exits on_write on_read ids resolve dial config) new_client
    (fun _ => at_step 7 21).
Proof.
  unfold main. destruct (f_password config) eqn:E; [done|]. cbn [length Nat.eqb]. apply runs_bind.
  unfold connect. rewrite Hdial. destruct Hserver as [a Ha]. rewrite Ha, bool_decide_false by done.
  apply runs_bind, runs_ret, runs_info.
  apply runs_bind. eapply runs_mono; [apply challenge_runs; split; [split; apply zeroMessage_reusable|done]|].
  intros login c1 [-> Hc1]. cbn [fst snd]. apply runs_bind. eapply runs_mono; [by apply allocate_runs|].
  intros [] c2 (Hu2 & Hs2 & Hl2). apply runs_bind. unfold resolve_peer. rewrite Hpeer.
  apply runs_bind, runs_info, runs_ret. apply runs_bind.
  eapply runs_mono; [apply permission_runs; split; [done|split; [done|cbn [logged set_logged]; by rewrite Hl2]]|].
  intros [] c3 Hc3. apply runs_bind. eapply runs_mono; [by apply send_indication_runs|].
  intros [] c4 Hc4. apply runs_bind. eapply runs_mono; [by apply channel_runs|].
  intros [] c5 Hc5. apply runs_bind. eapply runs_mono; [by apply deallocate_runs|].
  intros [] c6 (Hu6 & Hs6 & Hl6). apply runs_info. split; [done|]. split; [done|]. cbn [logged set_logged]. by rewrite Hl6.
Qed.
End Run.

(** C9: Whatever the logger's [Crit] does, the client goes through all its steps
    when the server's and the peer's answers are legal for its packets: it ends
    normally, has sent exactly the seven packets of the protocol, each protected by
    the key of its credentials where the protocol asks for it, and has logged no
    complaint: the last lines are those of a run in which the data came back. *)
Theorem client_completes `{GoRuntime} supportsUnaligned crit_exits on_write on_read ids resolve dial config d :
  legal config d -> (forall n, (n < 7)%nat -> ids n = inl (d_tid d n)) ->
  answered on_write on_read (exchange config d) ->
  f_password config <> [] -> dial (resolve (f_server config)) = true -> is_Some (resolve (f_server config)) ->
  resolve (f_peer config) = Some (d_peer d) ->
  exists c, main supportsUnaligned crit_exits on_write on_read ids resolve dial config new_client = (c, Ok tt) /\
    reverse (sent c) = (exchange config d).*1 /\ reverse (logged c) = success_log.
Proof.
  intros. destruct (main_runs supportsUnaligned crit_exits on_write on_read ids resolve dial config d)
    as ([] & c & Hm & _ & Hs & Hl); [done..|].
  exists c. split; [done|]. by rewrite Hs, Hl, !reverse_involutive.
Qed.

(** A server that knows the exchange: it answers by the number of packets. *)
Definition sample_peer : UDPAddr := (map zb [182; 254; 155; 208], 3333).
Definition sample_tid (n : nat) : bytes := replicate 12 (zb (Z.of_nat n)).
Definition sample : dialogue := {|
  d_realm := bs "example.org"; d_nonce := bs "f0e1"; d_peer := sample_peer; d_tid := sample_tid;
  r_challenge := Packet (NewType MethodAllocate ClassErrorResponse) (sample_tid 0)
    [(AttrErrorCode, error_code_value CodeUnauthorised (bs "Unauthorised")); (AttrRealm, bs "example.org");
     (AttrNonce, bs "f0e1")];
  r_allocated := Packet (NewType MethodAllocate ClassSuccessResponse) (sample_tid 1)
    [(AttrXORRelayedAddress, xor_address_value (sample_tid 1) (map zb [193; 112; 248; 133]) 50000);
     (AttrXORMappedAddress, xor_address_value (sample_tid 1) (map zb [10; 0; 0; 1]) 4000)];
  r_permitted := with_integrity (client_key default_flags (bs "example.org"))
    (Packet CreatePermissionResponse (sample_tid 2) []);
  r_data := Packet DataIndication (sample_tid 9)
    [(AttrData, sentData); (AttrXORPeerAddress, xor_address_value (sample_tid 9) sample_peer.1 sample_peer.2)];
  r_bound := Packet (NewType MethodChannelBind ClassSuccessResponse) (sample_tid 4) [];
  r_released := Packet RefreshResponse (sample_tid 6) []
|}.
Definition sample_on_read (s : list bytes) : bytes + error :=
  match exchange default_flags sample !! (length s - 1)%nat with Some (_, r) => inl r | None => inr EOF end.
Definition sample_resolve (s : bytes) : option UDPAddr :=
  if bool_decide (s = f_peer default_flags) then Some sample_peer else Some (map zb [193; 112; 248; 133], 3478).

Lemma client_completes_witness :
  exists c, @main doubling_runtime false false (fun _ => None) sample_on_read (inl ∘ sample_tid) sample_resolve
      (fun _ => true) default_flags new_client = (c, Ok tt) /\
    reverse (sent c) = (exchange default_flags sample).*1 /\ reverse (logged c) = success_log.
Proof.
  assert (forall p, type_ok (p_type p) -> length (p_tid p) = 12%nat ->
    forallb (fun a => (0 <=? a.1) && (a.1 <? 2 ^ 16))%Z (p_attrs p) = true ->
    (length (encode_packet p) <=? 800)%nat = true -> carried p) as Hcarried.
  { intros p Hty Htid Hf Hl. apply Nat.leb_le in Hl. split; [done|]. split; [|done]. split; [done|]. split.
    - apply Forall_forall. intros a Ha. rewrite forallb_forall in Hf.
      specialize (Hf a (proj1 (list_elem_of_In _ _) Ha)). lia.
    - unfold encode_packet in Hl. rewrite length_app in Hl. lia. }
  apply (client_completes (H := doubling_runtime)); [|done| |done|done|by eexists|by vm_compute].
  - assert (forall p, type_ok (p_type p) -> length (p_tid p) = 12%nat ->
      forallb (fun a => (0 <=? a.1) && (a.1 <? 2 ^ 16))%Z (p_attrs p) = true ->
      (length (encode_packet p) <=? 800)%nat = true -> Class (p_type p) <> ClassErrorResponse -> granted p) as Hgranted
      by (intros; split; auto).
    split.
    + intros n _. apply length_replicate.
    + by vm_compute.
    + by vm_compute.
    + by vm_compute.
    + split; [by left|by vm_compute].
    + split; [|done]. by apply Hcarried; vm_compute.
    + by exists (bs "Unauthorised").
    + reflexivity.
    + reflexivity.
    + by apply Hgranted; vm_compute.
    + exists (map zb [193; 112; 248; 133], 50000). split; [by left|]. split; [done|reflexivity].
    + exists (map zb [10; 0; 0; 1], 4000). split; [by left|]. split; [done|reflexivity].
    + by apply Hgranted; vm_compute.
    + exists (Packet CreatePermissionResponse (sample_tid 2) []). split; reflexivity.
    + by apply Hgranted; vm_compute.
    + reflexivity.
    + exists sample_peer. split; [by left|]. split; [done|reflexivity].
    + by apply Hgranted; vm_compute.
    + by apply Hgranted; vm_compute.
  - intros i q r Hi. split; [done|]. unfold sample_on_read. rewrite length_reverse, length_take, length_fmap.
    pose proof (lookup_lt_Some _ _ _ Hi) as Hlt.
    replace (S i `min` length (exchange default_flags sample) - 1)%nat with i by lia. by rewrite Hi.
Defined.
