(* ===== verification/Programs.v ===== *)
(** The small programs of the repository: [src/sdp/examples], the gatherer's
    [src/ice/ice-gather/main.go] and [src/stun/cmd/stun-client].

    What a program prints is the value of its definition, with the file or the
    network it reads as arguments. *)
From stdpp Require Import base list gmap sets strings.
From Stdlib Require Import ZArith Lia.
From S2P Require Import Prelude Wire GoFmt GoSlice Utf8 Sdp StunTypes StunMessage StunPacket StunBuild StunAttrs.
From S2P Require Import StunAddr NetAddr Turn IceCandidate IceChecklist SdpFields SdpDecoder IceGather TurnClient.
Open Scope Z_scope.

(** [fmt.Println] of a text. *)
Definition Println (b : bytes) : bytes := b ++ [newline].

(** * sdp-encode-low: a session line by line *)

Definition low_session : Session :=
  let s := AddVersion [] 0 in
  let s := AddMediaDescription s (mkMediaDescription (bs "video") 51372 0 (bs "RTP/AVP") (bs "99")) in
  let s := AddAttribute s (bs "rtpmap") [bs "99"; bs "h263-1998/90000"] in
  let s := AddLine s TypeEmail (bs "test@test.com") in
  AddRaw s 0x444 ([0x41e; 0x41f; 0x410; 0x421; 0x41d; 0x41e] ≫= EncodeRune).
Definition encode_low_main : bytes := Println (Session_AppendTo low_session []).

(** * sdp-encode: a message *)

Section Encode.
Context `{MapRange}.
Definition audio : Media :=
  set_Description (mkMediaDescription (bs "audio") 49170 0 (bs "RTP/AVP") (bs "0")) zeroMedia.
Definition video : Media :=
  Media_AddAttribute (bs "rtpmap") [bs "99"; bs "h263-1998/90000"]
    (set_mm_Encryption (mkEncryption (bs "prompt") [])
      (set_mm_Bandwidths {[BandwidthApplicationSpecific := 66781]}
        (set_Description (mkMediaDescription (bs "video") 51372 0 (bs "RTP/AVP") (bs "99")) zeroMedia))).
Definition seminar : SdpMessage :=
  Message_AddFlag (bs "recvonly")
    (mkMessage 0 (mkOrigin (bs "jdoe") 2890844526 2890842807 [] [] (bs "10.47.16.5"))
       (bs "SDP Seminar") (bs "A Seminar on the session description protocol")
       (bs "j.doe@example.com (Jane Doe)") (bs "12345") (bs "http://www.example.com/seminars/sdp.pdf")
       (mkConnection [] [] (ParseIP (bs "224.2.17.12")) (zb 127) (zb 0)) ∅ [audio; video]
       (mkEncryption (bs "clear") (bs "ab8c4df8b8f4as8v8iuy8re"))
       {[BandwidthConferenceTotal := 154798]} []
       [mkTiming (NTPToTime 2873397496) (NTPToTime 2873404696) (7 * Hour * 24) (3600 * Second) [0; 25 * Hour]]
       []).
Definition encode_main : bytes := Println (Session_AppendTo (Append seminar []) []).
End Encode.

(** * sdp-decode: a file, line by line and as a message

    The lines printed and, unless [log.Fatal] ends it, the message. *)

Definition Origin_text (o : Origin) : bytes :=
  bs "{" ++ join [sp] [o_Username o; itoa (SessionID o); itoa (SessionVersion o); o_NetworkType o;
                       o_AddressType o; o_Address o] ++ bs "}".
Fixpoint number_lines (k : nat) (s : Session) : list bytes :=
  match s with
  | [] => []
  | v :: s' => (itoa (Z.of_nat k) ++ [sp] ++ Line_String v) :: number_lines (S k) s'
  end.
Definition decode_main (args : list bytes) (read_file : bytes -> option bytes) : list bytes * option SdpMessage :=
  let name := default (bs "example.sdp") (head args) in
  let out := [bs "sdp file: " ++ name] in
  match read_file name with
  | None => (out, None)
  | Some b =>
      match DecodeSession b [] with
      | Ok (s, None) =>
          let out := out ++ number_lines 0 s in
          match decode_message s with
          | (m, Ok _) =>
              (out ++ [bs "Decoded session " ++ m_Name m; bs "Info: " ++ m_Info m;
                       bs "Origin: " ++ Origin_text (m_Origin m)], Some m)
          | _ => (out, None)
          end
      | _ => (out, None)
      end
  end.

(** * ice-gather: the addresses of the machine *)

Definition gather_main `{SortSort} (interfaces : option (list iface)) : option (list bytes) :=
  match Gather interfaces with
  | (_, false) => None
  | (addrs, true) => Some (map Addr_String addrs)
  end.

(** * stun-client: one binding request

    [dialed] tells whether there is a connection, [o] what becomes of its [Do],
    [closes] whether it can be closed.  The state is the log. *)

Section StunClient.
Context `{GoRuntime}.
Variable supportsUnaligned : bool.
Variable crit_exits : bool.
Abbreviation PR := (ST (list bytes) exited).
Definition say (msg : bytes) : PR unit := st_modify (fun l => l ++ [msg]).
Definition critical (msg : bytes) : PR unit :=
  say msg;;; (if crit_exits then st_err (Exited msg) else st_ret tt).
Definition blank : Address := mkAddress (Buffer [] 0) 0.

(** The callback; an event with an error has no message. *)
Definition binding_callback (ev : Message + error) : PR unit :=
  match ev with
  | inr _ => critical (bs "res ");;; st_panic NilDereference
  | inl m =>
      match XORMappedAddress_GetFrom supportsUnaligned m blank with
      | (a, Ok _) => say (bs "xoraddr=" ++ Address_String a)
      | (_, Panic p) => st_panic p
      | (_, Err _) =>
          match MappedAddress_GetFrom m blank with
          | (a, Ok _) => say (bs "addr=" ++ Address_String a)
          | (a, Err e) => critical [];;; say (bs "addr=" ++ Address_String a)
          | (_, Panic p) => st_panic p
          end
      end
  end.
Definition stun_client_main (rnd : bytes + error) (dialed : bool) (o : do_outcome) (closes : bool) : PR unit :=
  (if dialed then st_ret tt else critical (bs "dial: "));;;
  match MustBuild (fun _ => []) [TransactionIDSetter_AddTo rnd; MessageType_AddTo BindingRequest] with
  | Panic p => st_panic p
  | _ =>
      if negb dialed then st_panic NilDereference
      else
        (match do_event o with Some ev => binding_callback ev | None => st_ret tt end);;;
        (if do_error o then critical (bs "do: ") else st_ret tt);;;
        (if closes then st_ret tt else critical [])
  end.
End StunClient.

(** * What they print *)

Section Printed.
Context `{MapRange}.

Lemma range_empty {A} : map_range (∅ : gmap bytes A) = [].
Proof. apply Permutation_nil_r. etransitivity; [apply map_range_perm|]. by rewrite map_to_list_empty. Qed.
Lemma range_singleton {A} (k : bytes) (a : A) : map_range ({[k := a]} : gmap bytes A) = [(k, a)].
Proof.
  apply Permutation_singleton_r. etransitivity; [apply map_range_perm|]. by rewrite map_to_list_singleton.
Qed.

Definition text_of (l : list string) : bytes := join [newline] (map bs l) ++ [newline].
Definition seminar_text : bytes :=
  text_of ["v=0"; "o=jdoe 2890844526 2890842807 IN IP4 10.47.16.5"; "s=SDP Seminar";
    "i=A Seminar on the session description protocol"; "u=http://www.example.com/seminars/sdp.pdf";
    "e=j.doe@example.com (Jane Doe)"; "p=12345"; "c=IN IP4 224.2.17.12/127"; "b=CT:154798";
    "t=2873397496 2873404696"; "r=7d 1h 0 25h"; "k=clear:ab8c4df8b8f4as8v8iuy8re"; "a=recvonly";
    "m=audio 49170 RTP/AVP 0"; "m=video 51372 RTP/AVP 99"; "b=AS:66781"; "k=prompt";
    "a=rtpmap:99 h263-1998/90000"]%string.

Lemma bandwidths_empty s : append_bandwidths s (∅ : gmap bytes Z) = s.
Proof. unfold append_bandwidths. by rewrite (range_empty (A := Z)). Qed.
Lemma bandwidths_singleton s k v : append_bandwidths s ({[k := v]} : gmap bytes Z) = AddBandwidth s k v.
Proof. unfold append_bandwidths. by rewrite (range_singleton (A := Z)). Qed.
Lemma attributes_empty s : appendAttributes s (∅ : gmap bytes (list bytes)) = s.
Proof. unfold appendAttributes. by rewrite (range_empty (A := (list bytes))). Qed.
Lemma attributes_singleton s k v : appendAttributes s ({[k := [v]]} : gmap bytes (list bytes)) = append_value k s v.
Proof. unfold appendAttributes. by rewrite (range_singleton (A := (list bytes))). Qed.

(** The maps of the message. *)
Lemma seminar_maps :
  m_Attributes seminar = {[bs "recvonly" := [[]]]} /\
  mm_Attributes video = {[bs "rtpmap" := [bs "99 h263-1998/90000"]]} /\
  mm_Attributes audio = ∅ /\ mm_Bandwidths audio = ∅.
Proof. split_and!; reflexivity. Qed.

(** The encoder prints what the documentation of the package shows, whatever the
    order of its maps. *)
Lemma encode_main_text : encode_main = seminar_text.
Proof.
  destruct seminar_maps as (H1 & H2 & H3 & H4).
  unfold encode_main, Append. change (m_Medias seminar) with [audio; video]. cbn [foldl].
  unfold append_media. rewrite H1, H2, H3, H4.
  change (mm_Bandwidths video) with ({[BandwidthApplicationSpecific := 66781]} : Bandwidths).
  change (m_Bandwidths seminar) with ({[BandwidthConferenceTotal := 154798]} : Bandwidths).
  rewrite !bandwidths_empty, !bandwidths_singleton, !attributes_empty, !attributes_singleton.
  vm_compute. reflexivity.
Qed.
End Printed.

Lemma encode_low_main_text :
  encode_low_main =
  text_of ["v=0"; "m=video 51372 RTP/AVP 99"; "a=rtpmap:99 h263-1998/90000"; "e=test@test.com"; "ф=ОПАСНО"]%string.
Proof. vm_compute. reflexivity. Qed.

(** The description that lies next to the decoder. *)
Definition example_sdp : bytes :=
  text_of ["v=0"; "o=- 3414953978 3414953978 IN IP4 localhost"; "s=ice"; "t=0 0"; "a=ice-ufrag:7e87390c";
    "a=ice-pwd:0f3e0099"; "m=audio 53866 RTP/AVP 0"; "c=IN IP4 182.254.155.208";
    "a=candidate:Sc0a82b28 1 UDP 1694498815 14.108.27.205 55744 typ srflx";
    "a=candidate:Hc0a82b28 1 UDP 2130706431 192.168.43.40 64199 typ host";
    "a=candidate:Rb6fe9bd0 1 UDP 16777215 182.254.155.208 53866 typ relay"]%string.
Lemma decode_main_example :
  let r := decode_main [] (fun name => if bool_decide (name = bs "example.sdp") then Some example_sdp else None) in
  m_Name <$> r.2 = Some (bs "ice") /\ length r.1 = 15%nat /\
  drop 12 r.1 = [bs "Decoded session ice"; bs "Info: "; bs "Origin: {- 3414953978 3414953978 IN IP4 localhost}"].
Proof. split_and!; vm_compute; reflexivity. Qed.

(** What the encoder prints, the decoder shows. *)
Lemma decode_main_seminar `{MapRange} name :
  let r := decode_main [name] (fun _ => Some encode_main) in
  m_Name <$> r.2 = Some (bs "SDP Seminar") /\
  drop 19 r.1 = [bs "Decoded session SDP Seminar"; bs "Info: A Seminar on the session description protocol";
                 bs "Origin: {jdoe 2890844526 2890842807 IN IP4 10.47.16.5}"].
Proof. rewrite encode_main_text. split; vm_compute; reflexivity. Qed.

(** The client shows the address that a binding response carries. *)
Lemma stun_client_reports `{GoRuntime} supportsUnaligned crit_exits tid m (a : bytes * Z) :
  length tid = TransactionIDSize -> well_formed m -> ip_ok a.1 -> 0 <= a.2 < 2 ^ 16 ->
  lookup_attr AttrXORMappedAddress (p_attrs (abs m)) = Some (xor_address_value (TID m) a.1 a.2) ->
  stun_client_main supportsUnaligned crit_exits (inl tid) true (mkDo (Some (inl m)) false) true [] =
  ([bs "xoraddr=" ++ JoinHostPort (IP_String (normal_ip a.1)) (itoa a.2)], Ok tt).
Proof.
  intros Htid Hwf Hip Hport Hl.
  destruct (Build_message tid BindingRequest [] [] [] [] zeroMessage (Packet BindingRequest tid []))
    as (q & HB & _); [done|apply zeroMessage_reusable|constructor|..].
  { split; [done|]. split; [by constructor|]. cbn. lia. }
  { constructor. }
  { apply leads_nil. }
  destruct (codec_get_ok (Codec := xor_address_codec supportsUnaligned AttrXORMappedAddress) m a blank)
    as (y & Hy & Hv & Hp); [done|cbn; unfold buffer_ok; cbn; lia|apply Hwf|exact Hl|].
  unfold stun_client_main, MustBuild, Build_new. cbn [app] in HB. rewrite HB.
  unfold st_bind, st_ret. cbn [do_event do_error binding_callback negb].
  change (XORMappedAddress_GetFrom supportsUnaligned m blank)
    with (codec_get (Codec := xor_address_codec supportsUnaligned AttrXORMappedAddress) m blank).
  rewrite Hy. unfold say, st_modify. cbn [app]. do 3 f_equal. unfold Address_String.
  by rewrite Hv, Hp.
Qed.
