(* ===== verification/IceExample.v ===== *)
(** The example program, [src/ice/example/example.go]: it makes two transports
    negotiate with each other and exchange data.

    What the program waits for comes from the rest of the world, an interface:
    [World] has two transports that can be called, and things that happen.  The
    network of two host-only agents is such a world. *)
From stdpp Require Import base list gmap sets strings.
From Stdlib Require Import ZArith Lia.
From S2P Require Import Prelude GoFmt GoSlice StunMessage StunAddr Turn NetAddr IceCandidate IceChecklist.
From S2P Require Import IceGather IceSession IceSock IceTransport IceNetwork.
Open Scope Z_scope.

(** * The callback of the example *)

(** The channels hold one value each. *)
Record icecb := mkIcecb {
  c_data : option bytes;
  c_iceresult : option (option complete_error);
  c_name : bytes
}.
Definition newicecb (name : bytes) : icecb := mkIcecb None None name.
(** [OnReceiveData], [OnIceComplete]; a send blocks when the channel is full. *)
Definition cb_OnReceiveData (data : bytes) (c : icecb) : option icecb :=
  match c_data c with
  | None => Some (mkIcecb (Some data) (c_iceresult c) (c_name c))
  | Some _ => None
  end.
Definition cb_OnIceComplete (result : option complete_error) (c : icecb) : option icecb :=
  match c_iceresult c with
  | None => Some (mkIcecb (c_data c) (Some result) (c_name c))
  | Some _ => None
  end.
Definition cb_call (u : upcall) (c : icecb) : option icecb :=
  match u with
  | OnReceiveData data _ => cb_OnReceiveData data c
  | OnIceComplete result => cb_OnIceComplete result c
  end.
Fixpoint cb_calls (l : list upcall) (c : icecb) : option icecb :=
  match l with
  | [] => Some c
  | u :: l' => c' ← cb_call u c; cb_calls l' c'
  end.

(** * Transports *)

Inductive typ := typHost | typStun | typTurn.

(** What a machine gives a transport: the connection to the server, the candidates
    it gathers, the addresses it can bind, and its random numbers. *)
Record machine := mkMachine {
  m_dial : bytes -> option bytes;
  m_gather : transporter -> transporter * result gather_error (list Candidate);
  m_listen : bytes -> bool;
  m_frag : bytes;
  m_password : bytes;
  m_tie : Z;
  m_permission : option Message      (** the TURN server's answer about the peer *)
}.

(** [setupIcePair] *)
Definition server_address : bytes := bs "182.254.155.208:3478".
Definition config_of (t : typ) : TransportConfig :=
  match t with
  | typHost => NewTransportConfigHostonly
  | typStun => NewTransportConfigWithStun server_address
  | typTurn => NewTransportConfigWithTurn server_address (bs "bai") (bs "bai")
  end.
Definition setupIcePair (t : typ) (m1 m2 : machine) : result transport_error (StreamTransport * StreamTransport) :=
  s1 ← NewIceStreamTransport (config_of t) (m_dial m1) (m_gather m1);
  s2 ← NewIceStreamTransport (config_of t) (m_dial m2) (m_gather m2);
  Ok (s1, s2).

(** * The world *)

Class World (W E : Type) := {
  world_of : StreamTransport -> StreamTransport -> W;
  transport_at : side -> W -> StreamTransport;
  call {A} : side -> ST StreamTransport transport_error A -> W -> W * result transport_error A;
  happens : E -> W -> option (W * option panic)
}.

(** How the program ends unless it reports completion. *)
Inductive ending :=
| CritError (e : transport_error)
| NegotiationTimeout (x : side)
| NegotiationFailed (x : side) (e : complete_error)
| ReceiveTimeout (x : side)
| ReceivedError (x : side) (data : bytes)
| CallbackBlocks (x : side)
| NotEnabled.

Section Example.
Context {W E : Type} `{World W E}.
Variable channelBind_ok : bytes -> bool.

(** The program holds the callbacks of its transports; [heard1] and [heard2] are
    the calls of them so far. *)
Record program := mkProgram {
  world : W;
  cb1 : icecb;
  cb2 : icecb;
  heard1 : list upcall;
  heard2 : list upcall
}.
Abbreviation PM := (ST program ending).

Definition upcalls_at (x : side) (w : W) : list upcall := rev (upcalls (transport_at x w)).
Definition hear (w : W) : PM unit := fun p =>
  let new1 := drop (length (heard1 p)) (upcalls_at LeftSide w) in
  let new2 := drop (length (heard2 p)) (upcalls_at RightSide w) in
  match cb_calls new1 (cb1 p), cb_calls new2 (cb2 p) with
  | None, _ => (p, Err (CallbackBlocks LeftSide))
  | _, None => (p, Err (CallbackBlocks RightSide))
  | Some c1, Some c2 => (mkProgram w c1 c2 (heard1 p ++ new1) (heard2 p ++ new2), Ok tt)
  end.

(** [s1.X(...)] and [if err != nil { log.Crit(...); return }]. *)
Definition try {A} (x : side) (c : ST StreamTransport transport_error A) : PM A := fun p =>
  match call x c (world p) with
  | (w, Ok a) => (hear w;;; st_ret a) p
  | (_, Err e) => (p, Err (CritError e))
  | (_, Panic q) => (p, Panic q)
  end.

(** A wait: the events of the ten seconds, until the channel has a value. *)
Fixpoint wait {A} (ready : program -> option (A * program)) (timeout : ending) (l : list E) : PM A := fun p =>
  match ready p with
  | Some (a, p') => (p', Ok a)
  | None =>
      match l with
      | [] => (p, Err timeout)
      | e :: l' =>
          match happens e (world p) with
          | None => (p, Err NotEnabled)
          | Some (_, Some q) => (p, Panic q)
          | Some (w, None) => (hear w;;; wait ready timeout l') p
          end
      end
  end.
Definition callback_of (x : side) (p : program) : icecb :=
  match x with LeftSide => cb1 p | RightSide => cb2 p end.
Definition set_callback (x : side) (c : icecb) (p : program) : program :=
  match x with
  | LeftSide => mkProgram (world p) c (cb2 p) (heard1 p) (heard2 p)
  | RightSide => mkProgram (world p) (cb1 p) c (heard1 p) (heard2 p)
  end.
Definition take_iceresult (x : side) (p : program) : option (option complete_error * program) :=
  let c := callback_of x p in
  (fun r => (r, set_callback x (mkIcecb (c_data c) None (c_name c)) p)) <$> c_iceresult c.
Definition take_data (x : side) (p : program) : option (bytes * program) :=
  let c := callback_of x p in
  (fun d => (d, set_callback x (mkIcecb None (c_iceresult c) (c_name c)) p)) <$> c_data c.

(** The [select] statements. *)
Definition await_negotiation (x : side) (l : list E) : PM unit :=
  let! r := wait (take_iceresult x) (NegotiationTimeout x) l in
  match r with Some e => st_err (NegotiationFailed x e) | None => st_ret tt end.
Definition await_data (x : side) (expected : bytes) (l : list E) : PM unit :=
  let! data := wait (take_data x) (ReceiveTimeout x) l in
  if bool_decide (data = expected) then st_ret tt else st_err (ReceivedError x data).

Definition s1data : bytes := bs "hello,s2".
Definition s2data : bytes := bs "hello,s1".

(** [main] after [setupIcePair]; the four schedules are what happens in its waits. *)
Definition negotiate (m1 m2 : machine) (during : list E * list E * list E * list E) : PM unit :=
  let '(l1, l2, l3, l4) := during in
  try LeftSide SetCallBack;;;
  try RightSide SetCallBack;;;
  try LeftSide (InitIce SessionRoleControlling (m_frag m1) (m_password m1) (m_tie m1) (m_listen m1));;;
  try RightSide (InitIce SessionRoleControlled (m_frag m2) (m_password m2) (m_tie m2) (m_listen m2));;;
  let! rsdp := try RightSide EncodeSession in
  try LeftSide (StartNegotiation channelBind_ok rsdp (m_permission m1));;;
  let! lsdp := try LeftSide EncodeSession in
  try RightSide (StartNegotiation channelBind_ok lsdp (m_permission m2));;;
  await_negotiation LeftSide l1;;;
  await_negotiation RightSide l2;;;
  try LeftSide (Transport_SendData s1data);;;
  try RightSide (Transport_SendData s2data);;;
  await_data RightSide s1data l3;;;
  await_data LeftSide s2data l4.
Definition started (s1 s2 : StreamTransport) : program :=
  mkProgram (world_of s1 s2) (newicecb (bs "s1")) (newicecb (bs "s2")) [] [].
Definition run_pair (t : typ) (m1 m2 : machine) (during : list E * list E * list E * list E) : result ending unit :=
  match setupIcePair t m1 m2 with
  | Err e => Err (CritError e)
  | Panic q => Panic q
  | Ok (s1, s2) => (negotiate m1 m2 during (started s1 s2)).2
  end.
(** [main] *)
Definition main : machine -> machine -> list E * list E * list E * list E -> result ending unit := run_pair typTurn.
End Example.

(** * What the end of the example means *)

Section Meaning.
Context {W E : Type} `{World W E}.
Variable channelBind_ok : bytes -> bool.
Abbreviation PM := (ST (@program W) ending).

(** What a channel holds was a call. *)
Definition told (c : icecb) (l : list upcall) : Prop :=
  (forall d, c_data c = Some d -> exists from, OnReceiveData d from ∈ l) /\
  (forall r, c_iceresult c = Some r -> OnIceComplete r ∈ l).
Definition coherent (p : @program W) : Prop := told (cb1 p) (heard1 p) /\ told (cb2 p) (heard2 p).
Definition heard_at (x : side) (p : @program W) : list upcall :=
  match x with LeftSide => heard1 p | RightSide => heard2 p end.
Definition later (p p' : @program W) : Prop := forall x, heard_at x p ⊆ heard_at x p'.
#[local] Instance later_preorder : PreOrder later.
Proof. split; [by intros p x|intros p q r H1 H2 x u Hu; by apply H2, H1]. Qed.

(** A call that keeps the channels coherent and forgets nothing. *)
Definition honours {A} (m : PM A) (Q : A -> @program W -> Prop) : Prop :=
  forall p p' a, coherent p -> m p = (p', Ok a) -> coherent p' /\ later p p' /\ Q a p'.

Lemma honours_bind {A B} (m : PM A) (f : A -> PM B) Q Q' :
  honours m Q -> (forall a, honours (f a) Q') -> honours (st_bind m f) Q'.
Proof.
  intros Hm Hf p p' b Hc Hr. apply st_bind_ok in Hr as (a & p1 & Hma & Hfa).
  destruct (Hm _ _ _ Hc Hma) as (Hc1 & Hl1 & _). destruct (Hf a _ _ _ Hc1 Hfa) as (Hc2 & Hl2 & HQ).
  split; [done|]. split; [by transitivity p1|done].
Qed.

Lemma cb_calls_told l c c' heard : cb_calls l c = Some c' -> told c heard -> told c' (heard ++ l).
Proof.
  revert c heard. induction l as [|u l IH]; intros c heard; cbn [cb_calls]; [intros [= ->]; by rewrite app_nil_r|].
  destruct (cb_call u c) as [c1|] eqn:Eq; [|done]. cbn. intros Hl [Hd Hr].
  rewrite cons_middle, app_assoc. apply (IH c1); [done|].
  destruct u; cbn in Eq; unfold cb_OnReceiveData, cb_OnIceComplete in Eq; case_match; simplify_eq; split; cbn;
    intros x Hx; simplify_eq.
  - exists from. set_solver.
  - apply elem_of_app. left. auto.
  - destruct (Hd x Hx) as [from Hf]. exists from. set_solver.
  - set_solver.
Qed.

Lemma hear_honours w : honours (hear w) (fun _ _ => True).
Proof.
  intros p p' [] [H1 H2]. unfold hear. cbn zeta. destruct (cb_calls _ (cb1 p)) as [c1|] eqn:E1; [|done].
  destruct (cb_calls _ (cb2 p)) as [c2|] eqn:E2; [|done]. intros [= <-].
  split; [split; cbn; by eapply cb_calls_told|]. split; [|done]. intros []; cbn; set_solver.
Qed.

Lemma try_honours {A} x (c : ST StreamTransport transport_error A) : honours (try x c) (fun _ _ => True).
Proof.
  intros p p' a Hc. unfold try. destruct (call x c (world p)) as [w [b|e|q]]; [|done..]. intros Hr.
  apply st_bind_ok in Hr as ([] & p1 & Hh & [= <- <-]). exact (hear_honours w _ _ _ Hc Hh).
Qed.

Lemma wait_honours {A} (ready : @program W -> option (A * @program W)) timeout l Q :
  (forall p p' a, coherent p -> ready p = Some (a, p') -> coherent p' /\ later p p' /\ Q a p') ->
  honours (wait ready timeout l) Q.
Proof.
  intros Hready. induction l as [|e l IH]; intros p p' a Hc; cbn [wait];
    (destruct (ready p) as [[b p1]|] eqn:Hp; [intros [= <- <-]; eauto|]); [done|].
  destruct (happens e (world p)) as [[w [q|]]|]; [done| |done]. intros Hr.
  apply st_bind_ok in Hr as ([] & p1 & Hh & Hr).
  destruct (hear_honours w _ _ _ Hc Hh) as (Hc1 & Hl1 & _). destruct (IH _ _ _ Hc1 Hr) as (Hc2 & Hl2 & HQ).
  split; [done|]. split; [by transitivity p1|done].
Qed.

Lemma await_negotiation_honours x l :
  honours (await_negotiation x l) (fun _ p => OnIceComplete None ∈ heard_at x p).
Proof.
  intros p p' [] Hc Hr. apply st_bind_ok in Hr as (r & p1 & Hw & Hr). destruct r as [e|]; [done|].
  injection Hr as <-.
  refine (wait_honours (take_iceresult x) _ _ (fun r p => OnIceComplete r ∈ heard_at x p) _ _ _ _ Hc Hw).
  clear. intros p p' r [H1 H2] Hr. unfold take_iceresult in Hr.
  destruct x; cbn in Hr; destruct (c_iceresult _) eqn:Eq; simplify_eq/=;
    (split; [split; cbn; [..]|split; [by intros []|cbn]]);
    try done; try (split; cbn; [apply H1 || apply H2|done]); by (apply H1 || apply H2).
Qed.

Lemma await_data_honours x d l :
  honours (await_data x d l) (fun _ p => exists from, OnReceiveData d from ∈ heard_at x p).
Proof.
  intros p p' [] Hc Hr. apply st_bind_ok in Hr as (r & p1 & Hw & Hr).
  case_bool_decide as Hd; [|done]. subst r. injection Hr as <-.
  refine (wait_honours (take_data x) _ _ (fun d p => exists from, OnReceiveData d from ∈ heard_at x p) _ _ _ _ Hc Hw).
  clear. intros p p' r [H1 H2] Hr. unfold take_data in Hr.
  destruct x; cbn in Hr; destruct (c_data _) eqn:Eq; simplify_eq/=;
    (split; [split; cbn; [..]|split; [by intros []|cbn]]);
    try done; try (split; cbn; [done|apply H1 || apply H2]); by (apply H1 || apply H2).
Qed.

(** What one call establishes of the calls heard holds after the next. *)
Lemma honours_then {A B} (m : PM A) (f : A -> PM B) (P : @program W -> Prop) Q :
  (forall p p', later p p' -> P p -> P p') ->
  honours m (fun _ => P) -> (forall a, honours (f a) Q) -> honours (st_bind m f) (fun b p => P p /\ Q b p).
Proof.
  intros HP Hm Hf p p' b Hc Hr. apply st_bind_ok in Hr as (a & p1 & Hma & Hfa).
  destruct (Hm _ _ _ Hc Hma) as (Hc1 & Hl1 & H1). destruct (Hf a _ _ _ Hc1 Hfa) as (Hc2 & Hl2 & HQ).
  split; [done|]. split; [by transitivity p1|]. split; [by eapply HP|done].
Qed.

Definition completed (p : @program W) : Prop :=
  OnIceComplete None ∈ heard1 p /\ OnIceComplete None ∈ heard2 p /\
  (exists from, OnReceiveData s1data from ∈ heard2 p) /\ (exists from, OnReceiveData s2data from ∈ heard1 p).

Lemma negotiate_honours m1 m2 during : honours (negotiate channelBind_ok m1 m2 during) (fun _ => completed).
Proof.
  destruct during as [[[l1 l2] l3] l4]. unfold negotiate.
  repeat first [eapply honours_bind; [apply try_honours|intros ?]
               |eapply (honours_bind _ _ _ (fun _ => completed)); [apply try_honours|intros ?]].
  intros p p' [] Hc Hr.
  eapply (honours_then _ _ (fun p => OnIceComplete None ∈ heard_at LeftSide p)) in Hr as (Hc' & Hl & H1 & HQ);
    [..|done]; [|by intros q q' Hq; apply Hq|apply await_negotiation_honours|].
  2:{ intros []. apply (honours_then _ _ (fun p => OnIceComplete None ∈ heard_at RightSide p));
        [by intros q q' Hq; apply Hq|apply await_negotiation_honours|intros []].
      eapply honours_bind; [apply try_honours|intros []]. eapply honours_bind; [apply try_honours|intros []].
      apply (honours_then _ _ (fun p => exists from, OnReceiveData s1data from ∈ heard_at RightSide p));
        [|apply await_data_honours|intros []; apply await_data_honours].
      intros q q' Hq [from Hf]. exists from. by apply Hq. }
  destruct HQ as (H2 & H3 & H4). split; [done|]. split; [done|]. by split_and!.
Qed.

(** C8: The example reports completion only if both callbacks were told that the
    negotiation succeeded and each received exactly the other's data, in any world,
    with or without servers. *)
Theorem example_sound t m1 m2 during :
  run_pair channelBind_ok t m1 m2 during = Ok tt ->
  exists s1 s2 p, setupIcePair t m1 m2 = Ok (s1, s2) /\
    negotiate channelBind_ok m1 m2 during (started s1 s2) = (p, Ok tt) /\ completed p.
Proof.
  unfold run_pair. destruct (setupIcePair t m1 m2) as [[s1 s2]|e|q]; [|done..]. intros Hrun.
  destruct (negotiate channelBind_ok m1 m2 during (started s1 s2)) as [p r] eqn:Hn. cbn in Hrun. subst r.
  exists s1, s2, p. split; [done|]. split; [done|]. eapply negotiate_honours; [|exact Hn]. by split; split.
Qed.
End Meaning.

(** * Two agents on a network *)

Record timed := mkTimed { clock : Z; the_net : net }.
#[export] Instance network_world `{GoRuntime} `{SortSort} u channelBind_ok : World timed (Z * action) := {
  world_of s1 s2 := mkTimed 0 (mkNet (mkAgent s1 ∅ 0 0 []) (mkAgent s2 ∅ 0 0 []));
  transport_at x w := ag_transport (agent_of x (the_net w));
  call A x c w :=
    let '(g, r) := agent_call (clock w) c (agent_of x (the_net w)) in
    (mkTimed (clock w) (set_agent x g (the_net w)), r);
  happens e w :=
    if e.1 <? clock w then None
    else
      match act u channelBind_ok e.1 e.2 (the_net w) with
      | Some (n, p) => Some (mkTimed e.1 n, p)
      | None => None
      end
}.

(** A machine with one interface and a random port. *)
Definition gather_hosts `{SortSort} (address : bytes) (r : Z) (tr : transporter) :
    transporter * result gather_error (list Candidate) :=
  match tr with
  | HostTransporter h =>
      let '(h', res) := HostOnlySock_GetCandidates (Some [mkIface (bs "eth0") true (Some [address])]) r h in
      (HostTransporter h', res)
  | _ => (tr, Err EventError)
  end.
Definition host_machine `{SortSort} (address : bytes) (port : Z) (frag password : bytes) (tie : Z) : machine :=
  mkMachine (fun _ => None) (gather_hosts address port) (fun _ => true) frag password tie None.

Section Sample.
#[local] Existing Instance doubling_runtime.
#[local] Existing Instance stable_sort.
Definition machine1 := host_machine (bs "10.0.0.1/8") 4000 (bs "aaaaaaaa") (bs "bbbbbbbb") 42.
Definition machine2 := host_machine (bs "10.0.0.8/8") 5000 (bs "cccccccc") (bs "dddddddd") 7.
Definition socket1 := bs "10.0.0.1:4000".
Definition socket2 := bs "10.0.0.8:5000".
Definition tid_of (n : Z) : bytes := replicate 12 (zb n).
(** The first checks cross, are answered, and the data packets follow. *)
Definition sample_schedule : list (Z * action) * list (Z * action) * list (Z * action) * list (Z * action) :=
  (map (pair 1) [Begin LeftSide (tid_of 1); Begin RightSide (tid_of 2); Deliver LeftSide socket1 0; Deliver RightSide socket2 1],
   map (pair 1) [Deliver RightSide socket2 0; Deliver LeftSide socket1 1], [(2, Deliver LeftSide socket1 2)], [(3, Deliver RightSide socket2 2)]).

#[local] Instance sample_world : World timed (Z * action) := network_world false (fun _ => true).

(** With host candidates the example runs to its end on the network. *)
Lemma example_completes : run_pair (fun _ => true) typHost machine1 machine2 sample_schedule = Ok tt.
Proof. vm_compute. reflexivity. Qed.

Lemma example_sound_witness :
  exists s1 s2 p, setupIcePair typHost machine1 machine2 = Ok (s1, s2) /\
    negotiate (fun _ => true) machine1 machine2 sample_schedule (started s1 s2) = (p, Ok tt) /\ completed p.
Proof. apply (example_sound (fun _ => true) typHost machine1 machine2 sample_schedule). vm_compute. reflexivity. Defined.
End Sample.
